(** * az-hibernate-agent: swap-file provisioning and resume-parameter
      reconciliation

    A shallow embedding of [az-hibernate-agent.c].  Every C function that
    talks to the operating system becomes a program of the free monad
    [prog] over the system calls it issues; [run] executes such a program
    against an arbitrary environment (a handler with its own state) and
    returns the trace of calls with their answers, the outcome and the
    final environment state.  [log_fatal] is the leaf [Die] (the process
    exits with status 1).  Reads that leave the bytes a C string owns are
    the leaf [Undef]. *)

From Stdlib Require Import ZArith List String Ascii Bool Lia Arith.
From Stdlib Require Import DecimalString.
From Stdlib Require DecimalPos DecimalFacts.
Import ListNotations.

Local Open Scope string_scope.
Local Open Scope Z_scope.

(** ** Machine integers

    The program targets LP64 Linux: [size_t], [unsigned long] and [off_t]
    are 64 bits wide, [uint32_t] is 32 bits wide. *)

Definition wrap32 (z : Z) : Z := z mod 2 ^ 32.
Definition wrap64 (z : Z) : Z := z mod 2 ^ 64.

Definition MEGA_BYTES : Z := Z.shiftl 1 20.
Definition GIGA_BYTES : Z := Z.shiftl 1 30.

(** [~0] stored in a [uint32_t]. *)
Definition INVALID_OFFSET : Z := Z.ones 32.

(** ** Programs over system calls *)

Inductive file_kind := S_IFREG | S_IFBLK | S_IFOTHER.

Record stat_t := mk_stat {
  st_kind : file_kind;
  st_dev : Z;
  st_rdev : Z;
  st_size : Z
}.

Record mntent := mk_mntent {
  mnt_fsname : string;
  mnt_dir : string
}.

Record resume_swap_area := mk_area {
  area_offset : Z;
  area_dev : Z
}.

Inductive access_mode := F_OK | X_OK.

Inductive open_mode :=
| O_RDONLY_CLOEXEC
| O_WRONLY_CLOEXEC
| O_WRONLY_CREAT_CLOEXEC.

(** [errno] values the program tells apart. *)
Inductive errno_t := EINVAL | EBUSY | ENOSPC | EPERM | EOPNOTSUPP | EOTHER.

(** The result of a call whose [errno] the program inspects. *)
Inductive res (A : Type) : Type :=
| Ok (a : A)
| Err (e : errno_t).

Arguments Ok {A} a.
Arguments Err {A} e.

Inductive sys : Type -> Type :=
| LogInfo (fmt : string) : sys unit
| Getenv (name : string) : sys (option string)
| Access (path : string) (mode : access_mode) : sys bool
| Stat (path : string) : sys (option stat_t)
| Fstat (fd : Z) : sys (option stat_t)
| Fstatat (dir name : string) : sys (option stat_t)
| Statfs (path : string) : sys (option (Z * Z))
| ReadDir (path : string) : sys (option (list string))
| Mounts : sys (option (list mntent))
| ReadText (path : string) : sys (option string)
| WriteText (path content : string) : sys bool
| Open (path : string) (mode : open_mode) : sys (option Z)
| Close (fd : Z) : sys unit
| Sysconf_PAGE_SIZE : sys Z
| Ioctl_FIGETBSZ (fd : Z) : sys (option Z)
| Ioctl_FIBMAP (fd : Z) (blk : Z) : sys (option Z)
| Ioctl_BLKSSZGET (fd : Z) : sys (option Z)
| Ioctl_GETFLAGS (fd : Z) : sys (res Z)
| Ioctl_SETFLAGS (fd : Z) (flags : Z) : sys (res unit)
| Ioctl_SET_SWAP_AREA (fd : Z) (area : resume_swap_area) : sys bool
| Ftruncate (fd : Z) (size : Z) : sys (res unit)
| Fallocate (fd : Z) (off len : Z) : sys (res unit)
| Pwrite (fd : Z) (off : Z) : sys bool
| Fdatasync (fd : Z) : sys unit
| Ioprio_set : sys unit
| Uname : sys (option string)
| Chmod (path : string) : sys bool
| Swapon (path : string) : sys (res unit)
| Swapoff (path : string) : sys (res unit)
| Unlink (path : string) : sys bool
| Spawn (program : string) (args : list string) : sys bool.

Inductive prog (A : Type) : Type :=
| Ret (a : A)
| Die (msg : string)
| Undef (why : string)
| Call {R : Type} (c : sys R) (k : R -> prog A).

Arguments Ret {A} a.
Arguments Die {A} msg.
Arguments Undef {A} why.
Arguments Call {A R} c k.

Fixpoint bind {A B : Type} (p : prog A) (f : A -> prog B) : prog B :=
  match p with
  | Ret a => f a
  | Die m => Die m
  | Undef y => Undef y
  | Call c k => Call c (fun r => bind (k r) f)
  end.

Definition call {R : Type} (c : sys R) : prog R := Call c Ret.

Declare Scope prog_scope.
Delimit Scope prog_scope with prog.
Notation "x <- p ;; q" := (bind p (fun x => q))
  (at level 61, p at next level, right associativity) : prog_scope.
Notation "p ;; q" := (bind p (fun _ => q))
  (at level 61, right associativity) : prog_scope.
Notation "' pat <- p ;; q" := (bind p (fun x => let 'pat := x in q))
  (at level 61, pat pattern, p at next level, right associativity) : prog_scope.
Local Open Scope prog_scope.

Definition log_info (fmt : string) : prog unit := call (LogInfo fmt).
Definition log_fatal {A : Type} (fmt : string) : prog A := Die fmt.

Inductive event : Type :=
| Ev {R : Type} (c : sys R) (r : R).

Inductive outcome (A : Type) : Type :=
| Done (a : A)
| Fatal (msg : string)
| Undefined (why : string).

Arguments Done {A} a.
Arguments Fatal {A} msg.
Arguments Undefined {A} why.

Definition handler (W : Type) : Type := forall R : Type, sys R -> W -> R * W.

Fixpoint run {A W : Type} (h : handler W) (p : prog A) (w : W)
  : list event * outcome A * W :=
  match p with
  | Ret a => ([], Done a, w)
  | Die m => ([], Fatal m, w)
  | Undef y => ([], Undefined y, w)
  | Call c k =>
      let '(r, w1) := h _ c w in
      let '(t, o, w2) := run h (k r) w1 in
      (Ev c r :: t, o, w2)
  end.

Definition trace_of {A W : Type} (x : list event * outcome A * W) : list event :=
  fst (fst x).
Definition outcome_of {A W : Type} (x : list event * outcome A * W) : outcome A :=
  snd (fst x).

(** The exit status of the process: [exit(1)] in [log_fatal], the value
    returned from [main] otherwise. *)
Definition exit_status (o : outcome Z) : option Z :=
  match o with
  | Done v => Some v
  | Fatal _ => Some 1
  | Undefined _ => None
  end.

(** ** C strings

    A buffer is the string of the bytes it holds, terminators included;
    a pointer into it is the suffix it points at.  The C string at a
    pointer is [cstr] of the suffix. *)

Definition NUL : ascii := "000"%char.
Definition LF : ascii := "010"%char.
Definition TAB : ascii := "009"%char.
Definition DQUOTE : ascii := "034"%char.

Definition str1 (c : ascii) : string := String c EmptyString.

Definition isspace (c : ascii) : bool :=
  let n := nat_of_ascii c in
  ((n =? 32) || ((9 <=? n) && (n <=? 13)))%nat.

Fixpoint cstr (mem : string) : string :=
  match mem with
  | EmptyString => EmptyString
  | String c r => if Ascii.eqb c NUL then EmptyString else String c (cstr r)
  end.

Definition strlen (mem : string) : Z := Z.of_nat (String.length (cstr mem)).

Fixpoint occurs (needle hay : string) : bool :=
  if prefix needle hay then true
  else match hay with
       | EmptyString => false
       | String _ r => occurs needle r
       end.

(** [strstr(hay, needle) != NULL] *)
Definition strstr (hay needle : string) : bool := occurs (cstr needle) (cstr hay).

(** [strcmp(a, b) == 0] *)
Definition strcmp_eq (a b : string) : bool := String.eqb (cstr a) (cstr b).

(** [strncmp(a, lit, sizeof(lit) - 1) == 0] for a literal [lit]. *)
Definition has_prefix (lit a : string) : bool := prefix lit (cstr a).

Fixpoint string_drop (n : nat) (s : string) : string :=
  match n, s with
  | O, _ => s
  | S n', String _ r => string_drop n' r
  | S _, EmptyString => EmptyString
  end.

(** One call of [fgets] with room for [room] characters before the
    terminator: the characters stored and the rest of the stream. *)
Fixpoint fgets_one (room : nat) (s : string) : string * string :=
  match room, s with
  | O, _ => (EmptyString, s)
  | S _, EmptyString => (EmptyString, EmptyString)
  | S room', String c r =>
      if Ascii.eqb c LF then (str1 c, r)
      else let '(a, b) := fgets_one room' r in (String c a, b)
  end.

(** The buffers a [while (fgets(buffer, size, f))] loop sees, one per
    iteration; [room] is [size - 1]. *)
Fixpoint fgets_loop (fuel room : nat) (s : string) : list string :=
  match fuel with
  | O => []
  | S fuel' =>
      match s with
      | EmptyString => []
      | String _ _ =>
          let '(chunk, rest) := fgets_one room s in
          chunk :: fgets_loop fuel' room rest
      end
  end.

Definition fgets_all (room : nat) (s : string) : list string :=
  fgets_loop (String.length s) room s.

Definition in_buffer (chunk : string) : string := chunk ++ str1 NUL.

(** [next_field]: the pointer passed in is [None] for [NULL]. *)
Inductive field_ptr :=
| FNull
| FAt (mem : string)
| FOver.

Fixpoint skip_nonspace (mem : string) : option string :=
  match mem with
  | EmptyString => None
  | String c r => if isspace c then Some mem else skip_nonspace r
  end.

Fixpoint skip_space (mem : string) : option string :=
  match mem with
  | EmptyString => None
  | String c r => if isspace c then skip_space r else Some mem
  end.

Definition next_field (current : option string) : field_ptr :=
  match current with
  | None => FNull
  | Some EmptyString => FOver
  | Some (String c r as mem) =>
      if Ascii.eqb c NUL then FNull
      else match skip_nonspace mem with
           | None => FOver
           | Some EmptyString => FOver
           | Some (String _ after) =>
               match skip_space after with
               | None => FOver
               | Some nxt => FAt nxt
               end
           end
  end.

(** The C string at the start of a field once [next_field] has been
    called on it: the field ends at the first terminator or at the first
    white space, which [next_field] has overwritten with a terminator. *)
Fixpoint token (mem : string) : string :=
  match mem with
  | EmptyString => EmptyString
  | String c r =>
      if Ascii.eqb c NUL || isspace c then EmptyString else String c (token r)
  end.

(** [strtoull(ptr, &end, 10)]: the value ([None] when [errno] is set to
    [ERANGE]) and the end pointer. *)
Definition digit_of (c : ascii) : option Z :=
  let n := nat_of_ascii c in
  if ((48 <=? n) && (n <=? 57))%nat then Some (Z.of_nat n - 48) else None.

Fixpoint read_digits (mem : string) (acc : Z) : Z * string :=
  match mem with
  | EmptyString => (acc, mem)
  | String c r =>
      match digit_of c with
      | Some d => read_digits r (10 * acc + d)
      | None => (acc, mem)
      end
  end.

Fixpoint skip_space_total (mem : string) : string :=
  match mem with
  | EmptyString => mem
  | String c r => if isspace c then skip_space_total r else mem
  end.

Definition starts_with_digit (mem : string) : bool :=
  match mem with
  | String c _ => match digit_of c with Some _ => true | None => false end
  | EmptyString => false
  end.

Definition strtoull (ptr : string) : option Z * string :=
  let s1 := skip_space_total ptr in
  let '(neg, s2) :=
    match s1 with
    | String c r =>
        if Ascii.eqb c "-" then (true, r)
        else if Ascii.eqb c "+" then (false, r)
        else (false, s1)
    | EmptyString => (false, s1)
    end in
  if starts_with_digit s2 then
    let '(v, rest) := read_digits s2 0 in
    if v <? 2 ^ 64 then (Some (if neg then wrap64 (- v) else v), rest)
    else (None, rest)
  else (Some 0, ptr).

Definition first_char_is (c : ascii) (mem : string) : bool :=
  match mem with
  | String d _ => Ascii.eqb c d
  | EmptyString => false
  end.

(** [parse_size_or_die(ptr, expected_end, endptr)]; [want_end] tells
    whether [endptr] is non-null. *)
Definition parse_size_or_die (ptr : string) (expected_end : ascii) (want_end : bool)
  : prog (Z * string) :=
  let '(v, rest) := strtoull ptr in
  match v with
  | None => log_fatal "Could not parse size: %s"
  | Some parsed =>
      if want_end && negb (first_char_is expected_end rest)
      then log_fatal "Could not parse size: %s"
      else Ret (parsed, rest)
  end.

(** [%zd] and [%lld] of a signed 64-bit value. *)
Definition decimal (z : Z) : string := NilZero.string_of_int (Z.to_int z).

(** ** Looking programs up in [$PATH] *)

Definition PATH_MAX : Z := 4096.

(** [strchr(s, ':')]: the bytes before the colon and the pointer past it. *)
Fixpoint split_colon (s : string) : option (string * string) :=
  match s with
  | EmptyString => None
  | String c r =>
      if Ascii.eqb c ":" then Some (EmptyString, r)
      else match split_colon r with
           | Some (a, b) => Some (String c a, b)
           | None => None
           end
  end.

Fixpoint find_executable_loop (fuel : nat) (name path_env : string)
  : prog (option string) :=
  match fuel with
  | O => Ret None
  | S fuel' =>
      match path_env with
      | EmptyString => Ret None
      | String _ _ =>
          let try_segment (seg rest : string) : prog (option string) :=
            let path_buf := seg ++ "/" ++ name in
            if PATH_MAX <=? Z.of_nat (String.length path_buf) then
              log_fatal "Building path to determine if %s exists would overflow buffer"
            else if negb (first_char_is "/" path_buf) then
              find_executable_loop fuel' name rest
            else
              ok <- call (Access path_buf X_OK) ;;
              if ok then Ret (Some path_buf)
              else find_executable_loop fuel' name rest in
          match split_colon path_env with
          | None => try_segment path_env EmptyString
          | Some (EmptyString, rest) => find_executable_loop fuel' name rest
          | Some (seg, rest) => try_segment seg rest
          end
      end
  end.

Definition find_executable_in_path (name : string) (path_env : option string)
  : prog (option string) :=
  let env := match path_env with
             | Some e => e
             | None => "/bin:/sbin:/usr/bin:/usr/sbin"
             end in
  find_executable_loop (S (String.length env)) name env.

Definition is_exec_in_path (name : string) : prog bool :=
  env <- call (Getenv "PATH") ;;
  r <- find_executable_in_path name env ;;
  Ret (match r with Some _ => true | None => false end).

(** ** Swap file locator *)

Definition swap_file_name : string := "/hibfile.sys".

Record swap_file := mk_swap_file {
  capacity : Z;
  path : string
}.

Definition new_swap_file (p : string) (cap : Z) : swap_file :=
  mk_swap_file cap (cstr p).

(** The body of the loop over [/proc/swaps]: [Some] swap file when the
    line is taken ([break]), [None] on [continue].  The buffer holds
    the line just read and nothing else: what an earlier, longer line
    left in it past the terminator is not kept, so that a scan that
    goes past the terminator is the leaf [Undef] here also where the C
    code reads those bytes. *)
Definition swaps_line (needed_size : Z) (chunk : string) : prog (option swap_file) :=
  let buffer := in_buffer chunk in
  match next_field (Some buffer) with
  | FOver => Undef "next_field scans past the end of the line"
  | FNull => Undef "strcmp on a null pointer"
  | FAt type =>
      if strcmp_eq type "file" then
        match next_field (Some type) with
        | FOver => Undef "next_field scans past the end of the line"
        | FNull => log_fatal "Malformed line in /proc/swaps: can't find size column"
        | FAt size =>
            '(size_as_int, _) <- parse_size_or_die size " " false ;;
            if size_as_int <? needed_size then Ret None
            else Ret (Some (new_swap_file (token buffer) size_as_int))
        end
      else Ret None
  end.

Fixpoint swaps_scan (needed_size : Z) (lines : list string) : prog (option swap_file) :=
  match lines with
  | [] => Ret None
  | chunk :: rest =>
      r <- swaps_line needed_size chunk ;;
      match r with
      | Some out => Ret (Some out)
      | None => swaps_scan needed_size rest
      end
  end.

Definition find_swap_file (needed_size : Z) : prog (option swap_file) :=
  swaps <- call (ReadText "/proc/swaps") ;;
  match swaps with
  | None => log_fatal "Could not open /proc/swaps: is /proc mounted?"
  | Some content =>
      match fgets_all 1023 content with
      | [] => log_fatal "Could not skip first line from /proc/swaps"
      | _ :: lines =>
          out <- swaps_scan needed_size lines ;;
          match out with
          | Some f => Ret (Some f)
          | None =>
              st <- call (Stat swap_file_name) ;;
              match st with
              | None => Ret None
              | Some st =>
                  match st_kind st with
                  | S_IFREG => Ret (Some (new_swap_file swap_file_name (wrap64 (st_size st))))
                  | _ => Ret None
                  end
              end
          end
      end
  end.

(** ** Physical memory *)

Definition meminfo_line (chunk : string) : prog (option Z) :=
  let buffer := in_buffer chunk in
  if has_prefix "MemTotal: " buffer then
    '(total, endptr) <- parse_size_or_die (string_drop 10 buffer) " " true ;;
    if strcmp_eq endptr (" kB" ++ str1 LF) then Ret (Some (wrap64 (total * 1024)))
    else if strcmp_eq endptr (" MB" ++ str1 LF) then Ret (Some (wrap64 (total * MEGA_BYTES)))
    else if strcmp_eq endptr (" GB" ++ str1 LF) then
      Ret (Some (wrap64 (total * wrap64 (1024 * MEGA_BYTES))))
    else if strcmp_eq endptr (" TB" ++ str1 LF) then
      Ret (Some (wrap64 (total * wrap64 (MEGA_BYTES * MEGA_BYTES))))
    else log_fatal "Could not determine unit for physical memory information"
  else Ret None.

Fixpoint meminfo_scan (lines : list string) : prog Z :=
  match lines with
  | [] => Ret 0
  | chunk :: rest =>
      r <- meminfo_line chunk ;;
      match r with
      | Some total => Ret total
      | None => meminfo_scan rest
      end
  end.

Definition physical_memory : prog Z :=
  meminfo <- call (ReadText "/proc/meminfo") ;;
  match meminfo with
  | None => log_fatal "Could not determine physical memory size. Is /proc mounted?"
  | Some content => meminfo_scan (fgets_all 255 content)
  end.

(** ** Sizing policy *)

Definition swap_needed_size (phys_mem : Z) : prog Z :=
  if phys_mem <=? wrap64 (2 * GIGA_BYTES) then Ret (wrap64 (3 * phys_mem))
  else if phys_mem <=? wrap64 (8 * GIGA_BYTES) then Ret (wrap64 (2 * phys_mem))
  else if phys_mem <=? wrap64 (64 * GIGA_BYTES) then
    Ret (wrap64 (3 * phys_mem) / 2)
  else if phys_mem <=? wrap64 (256 * GIGA_BYTES) then
    Ret (wrap64 (5 * phys_mem) / 4)
  else log_fatal "Hibernation not recommended for a machine with more than 256GB of RAM".

(** ** Device identification *)

Definition kind_eqb (a b : file_kind) : bool :=
  match a, b with
  | S_IFREG, S_IFREG | S_IFBLK, S_IFBLK | S_IFOTHER, S_IFOTHER => true
  | _, _ => false
  end.

Fixpoint uuid_dir_scan (dir : string) (rdev : Z) (entries : list string)
  : prog (option string) :=
  match entries with
  | [] => Ret None
  | d_name :: rest =>
      ent_st <- call (Fstatat dir d_name) ;;
      match ent_st with
      | None => uuid_dir_scan dir rdev rest
      | Some ent_st =>
          if negb (kind_eqb (st_kind ent_st) S_IFBLK) then uuid_dir_scan dir rdev rest
          else if st_rdev ent_st =? rdev then Ret (Some (cstr d_name))
          else uuid_dir_scan dir rdev rest
      end
  end.

Definition get_uuid_for_dev_path (p : string) : prog (option string) :=
  dev_st <- call (Stat p) ;;
  match dev_st with
  | None => log_info "Could not stat(%s): %s" ;; Ret None
  | Some dev_st =>
      uuid_dir <- call (ReadDir "/dev/disk/by-uuid/") ;;
      match uuid_dir with
      | None => log_info "Could not open directory /dev/disk/by-uuid/: %s" ;; Ret None
      | Some entries =>
          uuid <- uuid_dir_scan "/dev/disk/by-uuid/" (st_rdev dev_st) entries ;;
          match uuid with
          | Some u => log_info "UUID for device %s is %s" ;; Ret (Some u)
          | None => Ret None
          end
      end
  end.

Fixpoint mount_scan (dev : Z) (ents : list mntent) : prog (option mntent) :=
  match ents with
  | [] => Ret None
  | ent :: rest =>
      ent_st <- call (Stat (mnt_dir ent)) ;;
      match ent_st with
      | None => mount_scan dev rest
      | Some ent_st =>
          if st_dev ent_st =? dev then Ret (Some ent) else mount_scan dev rest
      end
  end.

Definition get_disk_uuid_for_file_path (p : string) : prog (option string) :=
  mounts <- call Mounts ;;
  match mounts with
  | None => Ret None
  | Some ents =>
      st <- call (Stat p) ;;
      match st with
      | None => log_fatal "Could not stat(%s): %s"
      | Some st =>
          ent <- mount_scan (st_dev st) ents ;;
          match ent with
          | None =>
              log_info "Could not determine device for file in path %s" ;; Ret None
          | Some ent => get_uuid_for_dev_path (mnt_fsname ent)
          end
      end
  end.

Fixpoint root_sector_size (ents : list mntent) : prog Z :=
  match ents with
  | [] => Ret 0
  | ent :: rest =>
      if String.eqb (mnt_dir ent) "/" then
        fd <- call (Open (mnt_fsname ent) O_RDONLY_CLOEXEC) ;;
        match fd with
        | None => log_fatal "Could not open %s to determine block size: %s"
        | Some fd =>
            r <- call (Ioctl_BLKSSZGET fd) ;;
            call (Close fd) ;;
            Ret (match r with Some v => v | None => 0 end)
        end
      else root_sector_size rest
  end.

Definition determine_block_size_for_root_fs : prog Z :=
  mtab <- call Mounts ;;
  match mtab with
  | None => log_fatal "Could not determine mounted partitions. Is /proc mounted?"
  | Some ents =>
      sector_size <- root_sector_size ents ;;
      if negb (sector_size =? 0) then
        sfs <- call (Statfs "/") ;;
        match sfs with
        | None => log_fatal "Could not determine optimal block size for root filesystem: %s"
        | Some (_, f_bsize) =>
            Ret (if f_bsize >? sector_size then f_bsize else sector_size)
        end
      else log_fatal "Could not obtain sector size for root partition: %s"
  end.

(** ** Hibernation capability *)

(** [strchr(buffer, '\n')] followed by [*lf = '\0']. *)
Fixpoint strip_newline (mem : string) : string :=
  match mem with
  | EmptyString => EmptyString
  | String c r =>
      if Ascii.eqb c NUL then mem
      else if Ascii.eqb c LF then String NUL r
      else String c (strip_newline r)
  end.

(** The buffer on return, [None] for a null result. *)
Definition read_first_line_from_file (p : string) : prog (option string) :=
  f <- call (ReadText p) ;;
  match f with
  | None => Ret None
  | Some EmptyString => Ret None
  | Some content => Ret (Some (strip_newline (in_buffer (fst (fgets_one 1023 content)))))
  end.

Definition is_hyperv : prog bool := call (Access "/sys/bus/vmbus" F_OK).

Definition is_hibernation_enabled_for_vm : prog bool :=
  snap <- call (Access "/dev/snapshot" F_OK) ;;
  if negb snap then
    log_info "Kernel does not support hibernation or /dev/snapshot has not been found." ;;
    Ret false
  else
    entry <- read_first_line_from_file "/sys/power/disk" ;;
    match entry with
    | None =>
        log_info "Kernel does not support hibernation (/sys/power/disk does not exist or can't be read)." ;;
        Ret false
    | Some entry =>
        if strstr entry "platform" then
          log_info "VM supports hibernation with platform-supported events." ;;
          Ret true
        else
          (if strstr entry "shutdown" then
             log_info "VM supports hibernation only with the shutdown method. This is not ideal."
           else if strstr entry "suspend" then
             log_info "VM supports hibernation only with the suspend method. This is not ideal."
           else log_info "Unknown VM hibernation support mode found: %s") ;;
          hv <- is_hyperv ;;
          enabled <-
            (if hv then
               log_info "This is a Hyper-V VM, checking if hibernation is enabled through VMBus events." ;;
               entry <- read_first_line_from_file "/sys/bus/vmbus/hibernation" ;;
               match entry with
               | Some entry =>
                   if strcmp_eq entry "1" then
                     log_info "Hibernation is enabled according to VMBus. This is ideal." ;;
                     Ret true
                   else log_info "Hibernation is disabled according to VMBus." ;; Ret false
               | None => Ret false
               end
             else Ret false) ;;
          if enabled then Ret true
          else
            log_info "Even though VM is capable of hibernation, it seems to be disabled." ;;
            Ret false
    end.

(** ** Block-offset resolver *)

Record scan_state := mk_scan {
  sc_last : Z;
  sc_first : Z;
  sc_num_contiguous_blocks : Z;
  sc_first_blknum : Z
}.

(** The [for] loop of [get_swap_file_offset], [n] iterations left. *)
Fixpoint scan_blocks (n : nat) (fd i : Z) (st : scan_state) : prog scan_state :=
  match n with
  | O => Ret st
  | S n' =>
      r <- call (Ioctl_FIBMAP fd i) ;;
      match r with
      | None => log_fatal "Could not get filesystem block number for block #%d: %s"
      | Some b =>
          let blknum := wrap32 b in
          let first_blknum := if i =? 0 then blknum else sc_first_blknum st in
          if negb (sc_last st =? 0) && negb (wrap32 (blknum - sc_last st) =? 1) then
            Ret (mk_scan (sc_last st) (sc_first st) (sc_num_contiguous_blocks st) first_blknum)
          else
            let first := if sc_first st =? 0 then blknum else sc_first st in
            scan_blocks n' fd (i + 1)
              (mk_scan blknum first (wrap32 (sc_num_contiguous_blocks st + 1)) first_blknum)
      end
  end.

Definition get_swap_file_offset (fd : Z) : prog Z :=
  r <- call (Ioctl_FIGETBSZ fd) ;;
  match r with
  | None => log_fatal "Could not get file block size: %s"
  | Some b =>
      let blksize := wrap32 b in
      page <- call Sysconf_PAGE_SIZE ;;
      if blksize =? 0 then Undef "division by zero"
      else
        let blocks_per_page := wrap32 (Z.quot page blksize) in
        st <- scan_blocks (Z.to_nat blocks_per_page) fd 0 (mk_scan 0 0 0 INVALID_OFFSET) ;;
        log_info "First %d blocks of %d bytes are contiguous" ;;
        page' <- call Sysconf_PAGE_SIZE ;;
        if wrap32 (sc_num_contiguous_blocks st * blksize) >=? page'
        then Ret (sc_first_blknum st)
        else Ret INVALID_OFFSET
  end.

(** ** Swap file allocator *)

Definition XFS_SUPER_MAGIC : Z :=
  Z.lor (Z.lor (Z.lor (Z.shiftl 88 24) (Z.shiftl 70 16)) (Z.shiftl 83 8)) 66.
Definition EXT4_SUPER_MAGIC : Z := 61267.
Definition BTRFS_SUPER_MAGIC : Z := 2435016766.

Definition FS_COMPR_FL : Z := 4.
Definition FS_NOCOMP_FL : Z := 1024.
Definition FS_NOCOW_FL : Z := 8388608.

(** The [for] loop of [try_zero_out_with_write], [n] iterations left:
    [true] when every write succeeded. *)
Fixpoint pattern_loop (n : nat) (fd offset block_size : Z) : prog bool :=
  match n with
  | O => Ret true
  | S n' =>
      written <- call (Pwrite fd offset) ;;
      if written then pattern_loop n' fd (offset + block_size) block_size
      else log_info "Could not write pattern to %s: %s" ;; Ret false
  end.

(** Number of offsets [0, block_size, 2 * block_size, ...] below
    [needed_size]. *)
Definition pattern_count (needed_size block_size : Z) : nat :=
  if needed_size <=? 0 then O
  else Z.to_nat ((needed_size + block_size - 1) / block_size).

(** With a block size that is not positive the offsets of the loop never
    reach [needed_size]: the leaf [Undef]. *)
Definition try_zero_out_with_write (p : string) (needed_size : Z) : prog bool :=
  fd <- call (Open p O_WRONLY_CLOEXEC) ;;
  match fd with
  | None => log_info "Could not open %s: %s" ;; Ret false
  | Some fd =>
      block_size <- determine_block_size_for_root_fs ;;
      if (block_size <=? 0) && (0 <? needed_size) then
        Undef "the write loop does not advance"
      else
        ok <- pattern_loop (pattern_count needed_size block_size) fd 0 block_size ;;
        if ok then call (Fdatasync fd) ;; call (Close fd) ;; Ret true
        else call (Close fd) ;; Ret false
  end.

Definition fs_set_flags (fd flags_to_set flags_to_reset : Z) : prog (res unit) :=
  cur <- call (Ioctl_GETFLAGS fd) ;;
  match cur with
  | Err e => Ret (Err e)
  | Ok current_flags =>
      let current_flags := Z.lor current_flags flags_to_set in
      let current_flags := Z.land current_flags (Z.lnot flags_to_reset) in
      call (Ioctl_SETFLAGS fd current_flags)
  end.

Definition is_file_on_fs (p : string) (magic : Z) : prog bool :=
  stfs <- call (Statfs p) ;;
  match stfs with
  | Some (f_type, _) => Ret (f_type =? magic)
  | None => Ret false
  end.

Definition errno_eqb (a b : errno_t) : bool :=
  match a, b with
  | EINVAL, EINVAL | EBUSY, EBUSY | ENOSPC, ENOSPC | EPERM, EPERM
  | EOPNOTSUPP, EOPNOTSUPP | EOTHER, EOTHER => true
  | _, _ => false
  end.

Definition create_swap_file_with_size (p : string) (size : Z) : prog bool :=
  fd <- call (Open p O_WRONLY_CREAT_CLOEXEC) ;;
  match fd with
  | None => Ret false
  | Some fd =>
      nocow <- fs_set_flags fd FS_NOCOW_FL 0 ;;
      match nocow with
      | Err e =>
          if negb (errno_eqb e EOPNOTSUPP) then
            log_info "Could not disable CoW for %s: %s. Will try setting up swap anyway."
          else Ret tt
      | Ok _ => Ret tt
      end ;;
      nocomp <- fs_set_flags fd FS_NOCOMP_FL FS_COMPR_FL ;;
      match nocomp with
      | Err e =>
          if negb (errno_eqb e EOPNOTSUPP) then
            log_info "Could not disable compression for %s: %s. Will try setting up swap anyway."
          else Ret tt
      | Ok _ => Ret tt
      end ;;
      on_xfs <- is_file_on_fs p XFS_SUPER_MAGIC ;;
      rc_ok <-
        (if on_xfs then Ret true
         else
           rc <- call (Ftruncate fd size) ;;
           match rc with
           | Ok _ => Ret true
           | Err e =>
               (if errno_eqb e EPERM then
                  log_info "Not enough disk space to create %s with %zu MB."
                else log_info "Could not resize %s to %ld MB: %s") ;;
               Ret false
           end) ;;
      call (Close fd) ;;
      Ret rc_ok
  end.

Definition try_zeroing_out_with_fallocate (p : string) (size : Z) : prog bool :=
  fd <- call (Open p O_WRONLY_CLOEXEC) ;;
  match fd with
  | None => log_info "Could not open %s for writing: %s" ;; Ret false
  | Some fd =>
      r <- call (Fallocate fd 0 size) ;;
      match r with
      | Err e =>
          if errno_eqb e ENOSPC then
            log_fatal "System ran out of disk space while allocating hibernation file"
          else log_fatal "Could not allocate %s: %s"
      | Ok _ => call (Close fd) ;; Ret true
      end
  end.

(** [try_vspawn_and_wait] is the process execution service: one call
    that answers whether the program ran and exited with status 0. *)
Definition try_spawn_and_wait (program : string) (args : list string) : prog bool :=
  call (Spawn program args).

Definition spawn_and_wait (program : string) (args : list string) : prog unit :=
  spawned <- call (Spawn program args) ;;
  if spawned then Ret tt
  else log_fatal "Aborting program due to error condition when spawning %s".

Definition char_at (n : nat) (s : string) : ascii :=
  match String.get n s with
  | Some c => c
  | None => NUL
  end.

(** The value of a [char] on a target where [char] is signed. *)
Definition signed_char (c : ascii) : Z :=
  let n := Z.of_nat (nat_of_ascii c) in
  if 128 <=? n then n - 256 else n.

Definition perform_fs_specific_checks (p : string) : prog unit :=
  ext4 <- is_file_on_fs p EXT4_SUPER_MAGIC ;;
  e4defrag <- (if ext4 then is_exec_in_path "e4defrag" else Ret false) ;;
  if e4defrag then try_spawn_and_wait "e4defrag" [p] ;; Ret tt
  else
    btrfs <- is_file_on_fs p BTRFS_SUPER_MAGIC ;;
    if btrfs then
      uts <- call Uname ;;
      match uts with
      | None => log_fatal "Could not determine Linux kernel version: %s"
      | Some release =>
          if negb (Ascii.eqb (char_at 1 release) ".") then
            log_fatal "Could not parse Linux kernel version"
          else if signed_char (char_at 0 release) <? signed_char "5" then
            log_fatal "Swap files are not supported on Btrfs running on kernel %s"
          else
            has_btrfs <- is_exec_in_path "btrfs" ;;
            if has_btrfs then
              try_spawn_and_wait "btrfs" ["filesystem"; "defragment"; p] ;; Ret tt
            else Ret tt
      end
    else
      xfs <- is_file_on_fs p XFS_SUPER_MAGIC ;;
      xfs_fsr <- (if xfs then is_exec_in_path "xfs_fsr" else Ret false) ;;
      if xfs_fsr then try_spawn_and_wait "xfs_fsr" ["-v"; p] ;; Ret tt
      else Ret tt.

Definition create_swap_file (needed_size : Z) : prog swap_file :=
  log_info "Creating hibernation file at %s with %zu MB." ;;
  created <- create_swap_file_with_size swap_file_name needed_size ;;
  if negb created then log_fatal "Could not create swap file, aborting."
  else
    call Ioprio_set ;;
    log_info "Ensuring %s has no holes in it." ;;
    swap_on_xfs <- is_file_on_fs swap_file_name XFS_SUPER_MAGIC ;;
    slow <- (if swap_on_xfs then Ret true
             else
               fast <- try_zeroing_out_with_fallocate swap_file_name needed_size ;;
               Ret (negb fast)) ;;
    (if slow then
       (if swap_on_xfs then
          log_info "Root partition is in a XFS filesystem; need to use slower method to allocate swap file"
        else log_info "Fast method failed; trying a slower method.") ;;
       ok <- try_zero_out_with_write swap_file_name needed_size ;;
       if ok then Ret tt else log_fatal "Could not create swap file."
     else Ret tt) ;;
    perform_fs_specific_checks swap_file_name ;;
    spawn_and_wait "mkswap" [swap_file_name] ;;
    Ret (mk_swap_file needed_size swap_file_name).

(** ** Resume parameter reconciler *)

Record cmdline_fields := mk_fields {
  resume_field : option string;
  resume_offset_field : option string;
  no_console_suspend_field : option string
}.

Inductive scan_result :=
| ScanDone (f : cmdline_fields)
| ScanOver
| ScanFuel.

Definition note_field (field : string) (f : cmdline_fields) : cmdline_fields :=
  if has_prefix "resume=" field then
    mk_fields (Some (string_drop 7 field)) (resume_offset_field f) (no_console_suspend_field f)
  else if has_prefix "resume_offset=" field then
    mk_fields (resume_field f) (Some (string_drop 14 field)) (no_console_suspend_field f)
  else if has_prefix "no_console_suspend=" field then
    mk_fields (resume_field f) (resume_offset_field f) (Some (string_drop 19 field))
  else f.

(** [for (field = line; field; field = next_field(field))] *)
Fixpoint cmdline_scan (fuel : nat) (field : string) (f : cmdline_fields) : scan_result :=
  match fuel with
  | O => ScanFuel
  | S fuel' =>
      let f' := note_field field f in
      match next_field (Some field) with
      | FNull => ScanDone f'
      | FOver => ScanOver
      | FAt nxt => cmdline_scan fuel' nxt f'
      end
  end.

Definition resume_device (dev_uuid : string) : string :=
  "/dev/disk/by-uuid/" ++ cstr dev_uuid.

(** [snprintf] into a buffer of [size] bytes keeps [size - 1] characters. *)
Definition snprintf_keep (size : nat) (s : string) : string :=
  substring 0 (size - 1) s.

Definition cmdline_check (dev_uuid : string) (resume_offset : Z) (f : cmdline_fields)
  : bool :=
  match resume_field f, resume_offset_field f, no_console_suspend_field f with
  | Some resume, Some offset, Some no_console =>
      let full_dev_path := resume_device dev_uuid in
      if PATH_MAX <=? Z.of_nat (String.length full_dev_path) then false
      else if negb (String.eqb (token resume) full_dev_path) then false
      else if negb (String.eqb (snprintf_keep 24 (decimal resume_offset)) (token offset))
      then false
      else String.eqb (token no_console) "1"
  | _, _, _ => false
  end.

Definition is_kernel_cmdline_correct (dev_uuid : string) (resume_offset : Z) : prog bool :=
  line <- read_first_line_from_file "/proc/cmdline" ;;
  match line with
  | None =>
      log_info "Could not read /proc/cmdline; is /proc mounted? Assuming information is incorrect." ;;
      Ret false
  | Some line =>
      match cmdline_scan (S (String.length line)) line (mk_fields None None None) with
      | ScanDone f => Ret (cmdline_check dev_uuid resume_offset f)
      | ScanOver => Undef "next_field scans past the end of the command line"
      | ScanFuel => Undef "unreachable"
      end
  end.

(** [get_swap_area] once the file is open and [fstat] has answered.  The
    [dev] member of the kernel's [struct resume_swap_area] is 32 bits
    wide. *)
Definition area_of_open_file (swap : swap_file) (fd : Z) (st : stat_t)
  : prog resume_swap_area :=
  if negb (kind_eqb (st_kind st) S_IFREG) then
    log_fatal "Swap file %s is not a regular file"
  else
    offset <- get_swap_file_offset fd ;;
    if offset =? INVALID_OFFSET then
      log_fatal "Could not determine file system block number for %s, or file isn't contiguous"
    else
      call (Close fd) ;;
      log_info "Swap file %s is at device %ld, offset %d" ;;
      Ret (mk_area offset (wrap32 (st_dev st))).

Definition get_swap_area (swap : swap_file) : prog resume_swap_area :=
  fd <- call (Open (path swap) O_RDONLY_CLOEXEC) ;;
  match fd with
  | None => log_fatal "Could not open %s: %s"
  | Some fd =>
      st <- call (Fstat fd) ;;
      match st with
      | None => log_fatal "Could not stat %s: %s"
      | Some st => area_of_open_file swap fd st
      end
  end.

Definition find_grub_cfg_path : prog (option string) :=
  a <- call (Access "/boot/grub2/grub.cfg" F_OK) ;;
  if a then Ret (Some "/boot/grub2/grub.cfg")
  else
    b <- call (Access "/boot/grub/grub.cfg" F_OK) ;;
    if b then Ret (Some "/boot/grub/grub.cfg")
    else log_info "Could not find GRUB configuration file. Is /boot mounted?" ;; Ret None.

Definition is_dot_entry (d_name : string) : bool :=
  strcmp_eq d_name "." || strcmp_eq d_name "..".

Definition is_directory_empty (p : string) : prog bool :=
  dir <- call (ReadDir p) ;;
  match dir with
  | None => Ret true
  | Some entries => Ret (forallb is_dot_entry entries)
  end.

Definition start_marker : string := "# az-hibernate-agent:start".
Definition end_marker : string := "# az-hibernate-agent:end".

(** The loop over the lines of the GRUB settings file: what is kept in
    [old_contents]. *)
Fixpoint strip_managed (in_az_hibernate_agent_block : bool) (lines : list string)
  : string :=
  match lines with
  | [] => EmptyString
  | chunk :: rest =>
      let buffer := in_buffer chunk in
      if in_az_hibernate_agent_block then
        strip_managed (negb (strstr buffer end_marker)) rest
      else if strstr buffer start_marker then strip_managed true rest
      else cstr buffer ++ strip_managed false rest
  end.

Definition kernel_args (dev_uuid : string) (offset : Z) : string :=
  "resume=" ++ resume_device dev_uuid ++ " resume_offset=" ++ decimal offset
  ++ " no_console_suspend=1".

Definition managed_block (args : string) : string :=
  start_marker ++ str1 LF
  ++ "GRUB_CMDLINE_LINUX_DEFAULT=" ++ str1 DQUOTE ++ "$GRUB_CMDLINE_LINUX_DEFAULT "
  ++ args ++ str1 DQUOTE ++ str1 LF
  ++ end_marker ++ str1 LF.

(** The content written back to the GRUB settings file; [old] is what
    [fopen(grub_cfg_path, "re")] gave, [None] when it failed. *)
Definition grub_rewrite (old : option string) (args : string) : string :=
  match old with
  | Some content => strip_managed false (fgets_all 1023 content)
  | None => EmptyString
  end ++ managed_block args.

Definition update_kernel_cmdline_params_for_grub
    (dev_uuid : string) (swap_area : resume_swap_area)
    (has_grubby has_update_grub2 has_grub2_mkconfig : bool) : prog bool :=
  log_info "Kernel command line is missing parameters to resume from hibernation.  Trying to patch grub configuration file." ;;
  let args := kernel_args dev_uuid (area_offset swap_area) in
  initramfs <- is_exec_in_path "update-initramfs" ;;
  (if initramfs then
     log_info "Updating initramfs to include resume stuff" ;;
     conf <- call (WriteText "/etc/initramfs-tools/conf.d/resume"
                     ("# Updated automatically by az-hibernate-agent. Do not modify."
                      ++ str1 LF ++ "RESUME=UUID=" ++ cstr dev_uuid ++ str1 LF)) ;;
     if conf then spawn_and_wait "update-initramfs" ["-u"]
     else log_fatal "Could not open initramfs-tools configuration file: %s"
   else Ret tt) ;;
  if has_grubby then
    log_info "Using grubby to patch GRUB configuration" ;;
    spawn_and_wait "grubby" ["--update-kernel=ALL"; "--args"; args] ;;
    Ret true
  else if has_update_grub2 || has_grub2_mkconfig then
    empty <- is_directory_empty "/etc/default/grub.d" ;;
    grub_cfg_path <-
      (if negb empty then Ret "/etc/default/grub.d/99-hibernate-settings.cfg"
       else
         a <- call (Access "/etc/default/grub" F_OK) ;;
         if a then Ret "/etc/default/grub"
         else log_fatal "Could not determine where the Grub configuration file is") ;;
    old <- call (ReadText grub_cfg_path) ;;
    resume_cfg <- call (WriteText grub_cfg_path (grub_rewrite old args)) ;;
    if negb resume_cfg then log_fatal "Could not open %s for writing: %s"
    else if has_update_grub2 then
      log_info "Using update-grub2 to patch GRUB configuration in %s" ;;
      spawn_and_wait "update-grub2" [] ;;
      Ret true
    else if has_grub2_mkconfig then
      cfg <- find_grub_cfg_path ;;
      match cfg with
      | None => Ret false
      | Some cfg =>
          log_info "Using grub2-mkconfig to patch GRUB configuration in %s" ;;
          spawn_and_wait "grub2-mkconfig" ["-o"; cfg] ;;
          Ret true
      end
    else Ret true
  else Ret true.

(** [update_swap_offset], the branch taken when the kernel command line
    is not correct. *)
Definition patch_boot_configuration (dev_uuid : string) (swap_area : resume_swap_area)
  : prog bool :=
  log_info "Kernel command-line parameters need updating." ;;
  has_grubby <- is_exec_in_path "grubby" ;;
  has_update_grub2 <- is_exec_in_path "update-grub2" ;;
  has_grub2_mkconfig <- is_exec_in_path "grub2-mkconfig" ;;
  if has_grubby || has_update_grub2 || has_grub2_mkconfig then
    update_kernel_cmdline_params_for_grub dev_uuid swap_area
      has_grubby has_update_grub2 has_grub2_mkconfig
  else
    log_info "Could not determine how system was booted to update kernel parameters for next boot.  System won't be able to resume until you fix this." ;;
    Ret false.

(** [update_swap_offset], from the check of the kernel command line on. *)
Definition reconcile_cmdline (dev_uuid : string) (swap_area : resume_swap_area)
  : prog bool :=
  correct <- is_kernel_cmdline_correct dev_uuid (area_offset swap_area) ;;
  if negb correct then patch_boot_configuration dev_uuid swap_area
  else Ret true.

Definition update_swap_offset (swap : swap_file) : prog bool :=
  log_info "Updating swap offset" ;;
  fd <- call (Open "/dev/snapshot" O_RDONLY_CLOEXEC) ;;
  match fd with
  | None => log_info "Could not open /dev/snapshot: %s" ;; Ret false
  | Some fd =>
      swap_area <- get_swap_area swap ;;
      set <- call (Ioctl_SET_SWAP_AREA fd swap_area) ;;
      if negb set then
        log_info "Could not set resume_swap_area parameters in /dev/snapshot: %s" ;;
        call (Close fd) ;;
        Ret false
      else
        call (Close fd) ;;
        dev_uuid <- get_disk_uuid_for_file_path (path swap) ;;
        match dev_uuid with
        | None => log_fatal "Could not determine device UUID for swap file %s"
        | Some dev_uuid =>
            log_info "Swap file %s is in device UUID %s" ;;
            reconcile_cmdline dev_uuid swap_area
        end
  end.

(** ** Orchestrator *)

(** The loop over the lines of [/etc/fstab]: what is kept. *)
Fixpoint fstab_keep (swap_path : string) (lines : list string) : string :=
  match lines with
  | [] => EmptyString
  | chunk :: rest =>
      let buffer := in_buffer chunk in
      if strstr buffer swap_path then fstab_keep swap_path rest
      else cstr buffer ++ fstab_keep swap_path rest
  end.

Definition fstab_entry (swap_path : string) : string :=
  cstr swap_path ++ str1 TAB ++ "none" ++ str1 TAB ++ "swap" ++ str1 TAB ++ "swap"
  ++ str1 TAB ++ "0" ++ str1 TAB ++ "0" ++ str1 LF.

Definition ensure_swap_is_enabled (swap : swap_file) (created : bool) : prog unit :=
  log_info "Ensuring swap file %s is enabled" ;;
  mode <- call (Chmod (path swap)) ;;
  if negb mode then log_fatal "Couldn't set correct permissions on %s: %s"
  else
    on <- call (Swapon (path swap)) ;;
    match on with
    | Err e =>
        if errno_eqb e EINVAL && negb created then
          log_fatal "%s exists but kernel isn't accepting it as a swap file. Try removing it and re-running the agent."
        else if negb (errno_eqb e EBUSY) then log_fatal "Could not enable swap file: %s"
        else Ret tt
    | Ok _ => Ret tt
    end ;;
    log_info "Updating /etc/fstab" ;;
    fstab <- call (ReadText "/etc/fstab") ;;
    match fstab with
    | None => log_fatal "Could not open fstab: %s"
    | Some content =>
        written <- call (WriteText "/etc/fstab"
                           (fstab_keep (path swap) (fgets_all 1023 content)
                            ++ fstab_entry (path swap))) ;;
        if written then Ret tt else log_fatal "Could not open fstab for writing: %s"
    end.

Definition udev_rule (systemctl_path : string) : string :=
  "SUBSYSTEM==" ++ str1 DQUOTE ++ "vmbus" ++ str1 DQUOTE
  ++ ", ACTION==" ++ str1 DQUOTE ++ "change" ++ str1 DQUOTE
  ++ ", DRIVER==" ++ str1 DQUOTE ++ "hv_utils" ++ str1 DQUOTE
  ++ ", ENV{EVENT}==" ++ str1 DQUOTE ++ "hibernate" ++ str1 DQUOTE
  ++ ", RUN+=" ++ str1 DQUOTE ++ systemctl_path ++ " hibernate" ++ str1 DQUOTE
  ++ str1 LF.

Definition ensure_udev_rules_are_installed : prog unit :=
  systemctl_path <- find_executable_in_path "systemctl" None ;;
  match systemctl_path with
  | None => log_info "systemctl not found or not executable, udev rule won't work"
  | Some systemctl_path =>
      udevadm <- is_exec_in_path "udevadm" ;;
      if negb udevadm then
        log_info "udevadm has not been found in $PATH; maybe system doesn't use systemd?"
      else
        hv <- is_hyperv ;;
        if negb hv then
          log_info "VM isn't running on Hyper-V, so udev rule is not necessary."
        else
          a <- call (Access "/usr/lib/udev/rules.d" F_OK) ;;
          b <- (if a then Ret false else call (Access "/etc/udev/rules.d" F_OK)) ;;
          c <- (if a || b then Ret false else call (Access "/lib/udev/rules.d" F_OK)) ;;
          if negb (a || b || c) then
            log_info "Couldn't find where udev stores the rules.  VM may not hibernate."
          else
            let udev_rule_path :=
              if a then "/usr/lib/udev/rules.d/99-vm-hibernation.rules"
              else if b then "/etc/udev/rules.d/99-vm-hibernation.rules"
              else "/lib/udev/rules.d/99-vm-hibernation.rules" in
            rule_file <- call (WriteText udev_rule_path (udev_rule systemctl_path)) ;;
            if negb rule_file then log_fatal "Could not open '%s' for writing: %s"
            else
              log_info "udev rule to hibernate with systemd set up in %s.  Telling udev about it." ;;
              spawn_and_wait "udevadm" ["control"; "--reload-rules"] ;;
              spawn_and_wait "udevadm" ["trigger"]
  end.

(** [main], from the test of the file found to the creation of a new
    one: the swap file the run goes on with, and whether it was created. *)
Definition provision_swap (needed_swap : Z) (found : option swap_file)
  : prog (swap_file * bool) :=
  match found with
  | Some _ => log_info "Swap file found with size %zu MB at %s"
  | None => log_info "Swap file not found"
  end ;;
  swap <-
    match found with
    | Some swap =>
        if capacity swap <? needed_swap then
          log_info "Swap file %s has capacity of %zu MB but needs %zu MB. Recreating. System will run without a swap file while this is being set up." ;;
          off <- call (Swapoff (path swap)) ;;
          match off with
          | Err e =>
              if errno_eqb e EINVAL then
                log_info "%s is not currently being used as a swap partition. That's OK."
              else log_fatal "Could not disable swap file %s: %s"
          | Ok _ => Ret tt
          end ;;
          removed <- call (Unlink (path swap)) ;;
          (if negb removed then
             still <- call (Access (path swap) F_OK) ;;
             if still then log_fatal "Could not remove swap file %s: %s" else Ret tt
           else Ret tt) ;;
          Ret None
        else Ret (Some swap)
    | None => Ret None
    end ;;
  match swap with
  | None =>
      log_info "Creating swap file with %zu MB" ;;
      swap <- create_swap_file needed_swap ;;
      Ret (swap, true)
  | Some swap => Ret (swap, false)
  end.

(** [main], from the activation of the swap file to the end. *)
Definition finish_setup (swap : swap_file) (created : bool) : prog Z :=
  ensure_swap_is_enabled swap created ;;
  updated <- update_swap_offset swap ;;
  if negb updated then log_fatal "Could not update swap offset."
  else
    ensure_udev_rules_are_installed ;;
    log_info "Swap file for VM hibernation set up successfully" ;;
    Ret 0.

(** [main], from the test of the file found to the end. *)
Definition settle_and_finish (needed_swap : Z) (found : option swap_file) : prog Z :=
  '(swap, created) <- provision_swap needed_swap found ;;
  finish_setup swap created.

Definition main : prog Z :=
  enabled <- is_hibernation_enabled_for_vm ;;
  if negb enabled then log_info "Hibernation not enabled for this VM." ;; Ret 0
  else
    total_ram <- physical_memory ;;
    if total_ram =? 0 then log_fatal "Could not obtain memory total from this computer"
    else
      needed_swap <- swap_needed_size total_ram ;;
      log_info "System has %zu MB of RAM; needs a swap area of %zu MB" ;;
      found <- find_swap_file needed_swap ;;
      settle_and_finish needed_swap found.

(** ** Reasoning about every environment

    [wp p Q]: whatever the environment answers, the trace and the outcome
    of [p] satisfy [Q]. *)

Fixpoint wp {A : Type} (p : prog A) (Q : list event -> outcome A -> Prop) : Prop :=
  match p with
  | Ret a => Q [] (Done a)
  | Die m => Q [] (Fatal m)
  | Undef y => Q [] (Undefined y)
  | Call c k => forall r, wp (k r) (fun t o => Q (Ev c r :: t) o)
  end.

(** What [Q] has to say about the rest of the program once [p] has
    produced trace [t] and outcome [o]. *)
Definition after {A B : Type} (f : A -> prog B)
    (Q : list event -> outcome B -> Prop) (t : list event) (o : outcome A) : Prop :=
  match o with
  | Done a => wp (f a) (fun t' o' => Q (t ++ t')%list o')
  | Fatal m => Q t (Fatal m)
  | Undefined y => Q t (Undefined y)
  end.

(** Events by kind. *)
Definition fibmap_of (e : event) : option (Z * Z * option Z) :=
  match e with
  | @Ev R c r =>
      match c in sys R return R -> option (Z * Z * option Z) with
      | Ioctl_FIBMAP fd blk => fun r => Some (fd, blk, r)
      | _ => fun _ => None
      end r
  end.

Fixpoint first_fibmap (t : list event) : option (Z * Z * option Z) :=
  match t with
  | [] => None
  | e :: t' =>
      match fibmap_of e with
      | Some x => Some x
      | None => first_fibmap t'
      end
  end.

(** ** A simulated machine

    A handler with canned answers and a file store, to run the programs
    on concrete inputs. *)

Record machine := mk_machine {
  m_page_size : Z;
  m_blksize : option Z;
  m_fibmap : Z -> option Z;
  m_access : string -> bool;
  m_path_env : option string;
  m_stat : string -> option stat_t;
  m_fstat : option stat_t;
  m_statfs : option (Z * Z);
  m_readdir : string -> option (list string);
  m_mounts : option (list mntent);
  m_uname : option string;
  m_fallocate : res unit;
  m_pwrite : Z -> bool;
  m_swapon : res unit;
  m_swapoff : res unit;
  m_set_swap_area : bool;
  m_spawn : string -> bool;
  m_writable : string -> bool
}.

Definition files := list (string * string).

Fixpoint read_file (fs : files) (p : string) : option string :=
  match fs with
  | [] => None
  | (q, content) :: rest => if String.eqb p q then Some content else read_file rest p
  end.

Definition write_file (fs : files) (p content : string) : files :=
  (p, content) :: fs.

Definition simulate (m : machine) : handler files :=
  fun R c =>
    match c in sys R return files -> R * files with
    | LogInfo _ => fun fs => (tt, fs)
    | Getenv _ => fun fs => (m_path_env m, fs)
    | Access p _ => fun fs => (m_access m p, fs)
    | Stat p => fun fs => (m_stat m p, fs)
    | Fstat _ => fun fs => (m_fstat m, fs)
    | Fstatat d n => fun fs => (m_stat m (d ++ n), fs)
    | Statfs _ => fun fs => (m_statfs m, fs)
    | ReadDir p => fun fs => (m_readdir m p, fs)
    | Mounts => fun fs => (m_mounts m, fs)
    | ReadText p => fun fs => (read_file fs p, fs)
    | WriteText p content =>
        fun fs => if m_writable m p then (true, write_file fs p content) else (false, fs)
    | Open _ _ => fun fs => (Some 3, fs)
    | Close _ => fun fs => (tt, fs)
    | Sysconf_PAGE_SIZE => fun fs => (m_page_size m, fs)
    | Ioctl_FIGETBSZ _ => fun fs => (m_blksize m, fs)
    | Ioctl_FIBMAP _ blk => fun fs => (m_fibmap m blk, fs)
    | Ioctl_BLKSSZGET _ => fun fs => (Some 512, fs)
    | Ioctl_GETFLAGS _ => fun fs => (Err EOPNOTSUPP, fs)
    | Ioctl_SETFLAGS _ _ => fun fs => (Err EOPNOTSUPP, fs)
    | Ioctl_SET_SWAP_AREA _ _ => fun fs => (m_set_swap_area m, fs)
    | Ftruncate _ _ => fun fs => (Ok tt, fs)
    | Fallocate _ _ _ => fun fs => (m_fallocate m, fs)
    | Pwrite _ off => fun fs => (m_pwrite m off, fs)
    | Fdatasync _ => fun fs => (tt, fs)
    | Ioprio_set => fun fs => (tt, fs)
    | Uname => fun fs => (m_uname m, fs)
    | Chmod _ => fun fs => (true, fs)
    | Swapon _ => fun fs => (m_swapon m, fs)
    | Swapoff _ => fun fs => (m_swapoff m, fs)
    | Unlink _ => fun fs => (true, fs)
    | Spawn program _ => fun fs => (m_spawn m program, fs)
    end.

(** The block map of a file given by the list of its physical block
    numbers, logical block 0 first; blocks past the list are holes. *)
Definition block_map (blocks : list Z) (blk : Z) : option Z :=
  Some (nth (Z.to_nat blk) blocks 0).

Definition regular_file (size : Z) : stat_t := mk_stat S_IFREG 2049 0 size.

(** An ext4 machine with 4 KiB pages and 1 KiB blocks, a swap file at
    the well-known path whose block map is [blocks], no boot tool. *)
Definition bare_machine (blocks : list Z) : machine :=
  mk_machine 4096 (Some 1024) (block_map blocks)
    (fun _ => false) None
    (fun p => if String.eqb p swap_file_name then Some (regular_file 4096) else None)
    (Some (regular_file 4096)) (Some (EXT4_SUPER_MAGIC, 4096))
    (fun _ => None) None (Some "5.4.0") (Ok tt) (fun _ => true)
    (Ok tt) (Ok tt) true (fun _ => true) (fun _ => true).

(** ** Statements about the block-offset resolver *)

Definition first_block_post (n : nat) (fd i : Z) (st : scan_state)
    (t : list event) (o : outcome scan_state) : Prop :=
  forall st', o = Done st' ->
    if i =? 0 then
      match n with
      | O => st' = st
      | S _ => exists b, first_fibmap t = Some (fd, 0, Some b)
                         /\ sc_first_blknum st' = wrap32 b
      end
    else sc_first_blknum st' = sc_first_blknum st.

Definition reports_block_0 (fd : Z) (t : list event) (o : outcome Z) : Prop :=
  forall v, o = Done v -> v <> INVALID_OFFSET ->
    exists b, first_fibmap t = Some (fd, 0, Some b) /\ v = wrap32 b.

(** An environment in which the file behind every descriptor has block
    size [bs] and block map [f], on a machine with pages of [page] bytes. *)
Definition maps_blocks {W : Type} (h : handler W) (bs page : Z) (f : Z -> Z) : Prop :=
  forall (w : W) (fd : Z),
    fst (h _ (Ioctl_FIGETBSZ fd) w) = Some bs /\
    fst (h _ Sysconf_PAGE_SIZE w) = page /\
    forall i, fst (h _ (Ioctl_FIBMAP fd i) w) = Some (f i).

(** ** Statements about the swap file locator *)

Fixpoint nul_free (s : string) : bool :=
  match s with
  | EmptyString => true
  | String c r => negb (Ascii.eqb c NUL) && nul_free r
  end.

(** A [/proc/swaps] with one active swap file of 8388604 KiB. *)
Definition proc_swaps_one_file : string :=
  "Filename" ++ str1 TAB ++ str1 TAB ++ str1 TAB ++ str1 TAB ++ "Type"
  ++ str1 TAB ++ str1 TAB ++ "Size" ++ str1 TAB ++ str1 TAB ++ "Used"
  ++ str1 TAB ++ str1 TAB ++ "Priority" ++ str1 LF
  ++ "/swapfile                               file" ++ str1 TAB ++ str1 TAB
  ++ "8388604" ++ str1 TAB ++ str1 TAB ++ "0" ++ str1 TAB ++ str1 TAB ++ "-2" ++ str1 LF.

(** A machine on which nothing exists at the well-known path. *)
Definition no_hibfile_machine : machine :=
  mk_machine 4096 (Some 1024) (block_map [])
    (fun _ => false) None (fun _ => None)
    None (Some (EXT4_SUPER_MAGIC, 4096))
    (fun _ => None) None (Some "5.4.0") (Ok tt) (fun _ => true)
    (Ok tt) (Ok tt) true (fun _ => true) (fun _ => true).

(** Calls that create or change something outside the process. *)
Definition mutates {R : Type} (c : sys R) : bool :=
  match c with
  | WriteText _ _ | Open _ O_WRONLY_CLOEXEC | Open _ O_WRONLY_CREAT_CLOEXEC
  | Ioctl_SETFLAGS _ _ | Ioctl_SET_SWAP_AREA _ _ | Ftruncate _ _ | Fallocate _ _ _
  | Pwrite _ _ | Chmod _ | Swapon _ | Swapoff _ | Unlink _ | Spawn _ _ => true
  | _ => false
  end.

Definition event_mutates (e : event) : bool :=
  match e with
  | Ev c _ => mutates c
  end.

(** ** Statements about the GRUB settings rewrite *)

Definition world_of {A W : Type} (x : list event * outcome A * W) : W := snd x.

(** A machine with [update-grub2] in [/usr/bin] and a GRUB settings file
    at [/etc/default/grub], no drop-in directory. *)
Definition grub_machine : machine :=
  mk_machine 4096 (Some 1024) (block_map [34816; 34817; 34818; 34819])
    (fun p => String.eqb p "/usr/bin/update-grub2" || String.eqb p "/etc/default/grub")
    None
    (fun p => if String.eqb p swap_file_name then Some (regular_file 4096) else None)
    (Some (regular_file 4096)) (Some (EXT4_SUPER_MAGIC, 4096))
    (fun _ => None) None (Some "5.4.0") (Ok tt) (fun _ => true)
    (Ok tt) (Ok tt) true (fun _ => true) (fun _ => true).

(** One run of the GRUB patch on [grub_machine], from file store [fs]. *)
Definition patch_grub_once (fs : files) : files :=
  world_of (run (simulate grub_machine)
              (update_kernel_cmdline_params_for_grub "abcd" (mk_area 34816 2049)
                 false true false) fs).

(** ** Traces

    The kind of a call, and the kinds of calls a trace is made of. *)

Inductive tag :=
| TLogInfo | TGetenv | TAccess | TStat | TFstat | TFstatat | TStatfs | TReadDir
| TMounts | TReadText | TWriteText | TOpen | TClose | TSysconf | TFIGETBSZ
| TFIBMAP | TBLKSSZGET | TGETFLAGS | TSETFLAGS | TSET_SWAP_AREA | TFtruncate
| TFallocate | TPwrite | TFdatasync | TIoprio_set | TUname | TChmod | TSwapon
| TSwapoff | TUnlink | TSpawn.

Definition tag_of {R : Type} (c : sys R) : tag :=
  match c with
  | LogInfo _ => TLogInfo
  | Getenv _ => TGetenv
  | Access _ _ => TAccess
  | Stat _ => TStat
  | Fstat _ => TFstat
  | Fstatat _ _ => TFstatat
  | Statfs _ => TStatfs
  | ReadDir _ => TReadDir
  | Mounts => TMounts
  | ReadText _ => TReadText
  | WriteText _ _ => TWriteText
  | Open _ _ => TOpen
  | Close _ => TClose
  | Sysconf_PAGE_SIZE => TSysconf
  | Ioctl_FIGETBSZ _ => TFIGETBSZ
  | Ioctl_FIBMAP _ _ => TFIBMAP
  | Ioctl_BLKSSZGET _ => TBLKSSZGET
  | Ioctl_GETFLAGS _ => TGETFLAGS
  | Ioctl_SETFLAGS _ _ => TSETFLAGS
  | Ioctl_SET_SWAP_AREA _ _ => TSET_SWAP_AREA
  | Ftruncate _ _ => TFtruncate
  | Fallocate _ _ _ => TFallocate
  | Pwrite _ _ => TPwrite
  | Fdatasync _ => TFdatasync
  | Ioprio_set => TIoprio_set
  | Uname => TUname
  | Chmod _ => TChmod
  | Swapon _ => TSwapon
  | Swapoff _ => TSwapoff
  | Unlink _ => TUnlink
  | Spawn _ _ => TSpawn
  end.

Definition ev_tag (e : event) : tag :=
  match e with
  | Ev c _ => tag_of c
  end.

Definition tag_index (g : tag) : nat :=
  match g with
  | TLogInfo => 0 | TGetenv => 1 | TAccess => 2 | TStat => 3 | TFstat => 4
  | TFstatat => 5 | TStatfs => 6 | TReadDir => 7 | TMounts => 8 | TReadText => 9
  | TWriteText => 10 | TOpen => 11 | TClose => 12 | TSysconf => 13 | TFIGETBSZ => 14
  | TFIBMAP => 15 | TBLKSSZGET => 16 | TGETFLAGS => 17 | TSETFLAGS => 18
  | TSET_SWAP_AREA => 19 | TFtruncate => 20 | TFallocate => 21 | TPwrite => 22
  | TFdatasync => 23 | TIoprio_set => 24 | TUname => 25 | TChmod => 26
  | TSwapon => 27 | TSwapoff => 28 | TUnlink => 29 | TSpawn => 30
  end%nat.

Definition tag_eqb (a b : tag) : bool := Nat.eqb (tag_index a) (tag_index b).

Definition tag_mem (g : tag) (tags : list tag) : bool := existsb (tag_eqb g) tags.

(** A footprint: kinds of calls, and for log lines and spawned programs
    which ones. *)
Record footprint := mk_footprint {
  fp_tags : list tag;
  fp_logs : list string;
  fp_spawns : list string;
  fp_opens : list open_mode
}.

Definition mode_eqb (a b : open_mode) : bool :=
  match a, b with
  | O_RDONLY_CLOEXEC, O_RDONLY_CLOEXEC
  | O_WRONLY_CLOEXEC, O_WRONLY_CLOEXEC
  | O_WRONLY_CREAT_CLOEXEC, O_WRONLY_CREAT_CLOEXEC => true
  | _, _ => false
  end.

Definition mode_mem (a : open_mode) (l : list open_mode) : bool := existsb (mode_eqb a) l.

Definition str_mem (s : string) (l : list string) : bool := existsb (String.eqb s) l.

(** A tag in [fp_tags] allows every call of that kind; log lines,
    spawned programs and open modes can also be allowed one by one. *)
Definition allowed (F : footprint) {R : Type} (c : sys R) : bool :=
  tag_mem (tag_of c) (fp_tags F)
  || match c with
     | LogInfo fmt => str_mem fmt (fp_logs F)
     | Spawn program _ => str_mem program (fp_spawns F)
     | Open _ mode => mode_mem mode (fp_opens F)
     | _ => false
     end.

Definition allowed_event (F : footprint) (e : event) : bool :=
  match e with
  | Ev c _ => allowed F c
  end.

(** Every call of the trace is in the footprint. *)
Definition within (F : footprint) (t : list event) : Prop :=
  forallb (allowed_event F) t = true.

Definition fp_subset (a b : footprint) : bool :=
  forallb (fun g => tag_mem g (fp_tags b)) (fp_tags a)
  && (tag_mem TLogInfo (fp_tags b) || forallb (fun s => str_mem s (fp_logs b)) (fp_logs a))
  && (tag_mem TSpawn (fp_tags b) || forallb (fun s => str_mem s (fp_spawns b)) (fp_spawns a))
  && (tag_mem TOpen (fp_tags b) || forallb (fun s => mode_mem s (fp_opens b)) (fp_opens a)).

Definition only_tags (tags : list tag) : footprint := mk_footprint tags [] [] [].

(** Every event satisfying [Q] comes after an event satisfying [P]. *)
Fixpoint before (P Q : event -> bool) (t : list event) : bool :=
  match t with
  | [] => true
  | e :: t' => if P e then true else negb (Q e) && before P Q t'
  end.

Definition is_fatal {A : Type} (o : outcome A) : Prop :=
  match o with
  | Fatal _ => True
  | _ => False
  end.

Definition is_done {A : Type} (o : outcome A) : Prop :=
  match o with
  | Done _ => True
  | _ => False
  end.

(** No event follows an event satisfying [P]. *)
Fixpoint nothing_after (P : event -> bool) (t : list event) : bool :=
  match t with
  | [] => true
  | e :: t' =>
      (if P e then match t' with [] => true | _ :: _ => false end else true)
      && nothing_after P t'
  end.

Definition count (P : event -> bool) (t : list event) : nat :=
  List.length (filter P t).

(** ** Statements about the block-commitment cascade *)

Definition is_fallocate (e : event) : bool :=
  match e with
  | Ev (Fallocate _ _ _) _ => true
  | _ => false
  end.

Definition fallocate_failed (e : event) : bool :=
  match e with
  | @Ev R c r =>
      match c in sys R return R -> bool with
      | Fallocate _ _ _ => fun r => match r with Err _ => true | Ok _ => false end
      | _ => fun _ => false
      end r
  end.

Definition fallocate_out_of_space (e : event) : bool :=
  match e with
  | @Ev R c r =>
      match c in sys R return R -> bool with
      | Fallocate _ _ _ => fun r => match r with Err ENOSPC => true | _ => false end
      | _ => fun _ => false
      end r
  end.

Definition logs (msg : string) (e : event) : bool :=
  match e with
  | Ev (LogInfo fmt) _ => String.eqb fmt msg
  | _ => false
  end.

Definition is_pwrite (e : event) : bool :=
  match e with
  | Ev (Pwrite _ _) _ => true
  | _ => false
  end.

(** The slow path is under way: one of its two announcements, or a
    pattern write. *)
Definition slow_path (e : event) : bool :=
  is_pwrite e
  || logs "Root partition is in a XFS filesystem; need to use slower method to allocate swap file" e
  || logs "Fast method failed; trying a slower method." e.

(** The slow path has failed: a pattern write was refused, or the file
    could not be opened for it. *)
Definition slow_path_failed (e : event) : bool :=
  match e with
  | @Ev R c r =>
      match c in sys R return R -> bool with
      | Pwrite _ _ => fun r => negb r
      | LogInfo fmt => fun _ => String.eqb fmt "Could not open %s: %s"
      | _ => fun _ => false
      end r
  end.

(** The file system of the swap file is XFS. *)
Definition statfs_xfs (e : event) : bool :=
  match e with
  | @Ev R c r =>
      match c in sys R return R -> bool with
      | Statfs p =>
          fun r => String.eqb p swap_file_name
                   && match r with
                      | Some (f_type, _) => f_type =? XFS_SUPER_MAGIC
                      | None => false
                      end
      | _ => fun _ => false
      end r
  end.

(** The fast path could not be performed: the swap file could not be
    opened for [fallocate]. *)
Definition fast_open_failed (e : event) : bool :=
  match e with
  | @Ev R c r =>
      match c in sys R return R -> bool with
      | Open p O_WRONLY_CLOEXEC =>
          fun r => String.eqb p swap_file_name
                   && match r with None => true | Some _ => false end
      | _ => fun _ => false
      end r
  end.

Definition slow_path_entry (e : event) : bool := statfs_xfs e || fast_open_failed e.

(** What the cascade guarantees of a run of [create_swap_file] with
    trace [t] and outcome [o]. *)
Definition cascade_post (t : list event) (o : outcome swap_file) : Prop :=
  (existsb fallocate_failed t = true ->
     is_fatal o /\ nothing_after fallocate_failed t = true
     /\ existsb slow_path t = false) /\
  (count is_fallocate t <= 1)%nat /\
  before slow_path_entry slow_path t = true /\
  (existsb slow_path t = true -> existsb is_fallocate t = false) /\
  (existsb slow_path_failed t = true -> is_fatal o).

(** ** Statements about the resume offset *)

Definition area_resolved_msg : string := "Swap file %s is at device %ld, offset %d".

(** The offset leaves the process: it is registered with the kernel's
    hibernation interface, or a file is written or a program run (the
    only files written and programs run by [update_swap_offset] are boot
    configuration and the tools that patch it). *)
Definition uses_offset (e : event) : bool :=
  match e with
  | Ev (Ioctl_SET_SWAP_AREA _ _) _ => true
  | Ev (WriteText _ _) _ => true
  | Ev (Spawn _ _) _ => true
  | _ => false
  end.

Definition registers_invalid (e : event) : bool :=
  match e with
  | Ev (Ioctl_SET_SWAP_AREA _ area) _ => area_offset area =? INVALID_OFFSET
  | _ => false
  end.

Definition fstat_not_regular (e : event) : bool :=
  match e with
  | @Ev R c r =>
      match c in sys R return R -> bool with
      | Fstat _ =>
          fun r => match r with
                   | Some st => negb (kind_eqb (st_kind st) S_IFREG)
                   | None => false
                   end
      | _ => fun _ => false
      end r
  end.

Definition area_post (t : list event) (o : outcome resume_swap_area) : Prop :=
  existsb uses_offset t = false /\
  (existsb fstat_not_regular t = true -> is_fatal o) /\
  match o with
  | Done area =>
      area_offset area <> INVALID_OFFSET /\
      existsb (logs area_resolved_msg) t = true /\
      existsb fstat_not_regular t = false
  | _ => existsb (logs area_resolved_msg) t = false
  end.

Definition offset_post (t : list event) (o : outcome bool) : Prop :=
  before (logs area_resolved_msg) uses_offset t = true /\
  existsb registers_invalid t = false /\
  (existsb fstat_not_regular t = true ->
     is_fatal o /\ existsb uses_offset t = false).

(** ** Statements about the replacement of an undersized swap file *)

Definition is_swapon (e : event) : bool :=
  match e with
  | Ev (Swapon _) _ => true
  | _ => false
  end.

(** A swap file other than the one at the well-known path is activated. *)
Definition swapon_elsewhere (e : event) : bool :=
  match e with
  | Ev (Swapon p) _ => negb (String.eqb p swap_file_name)
  | _ => false
  end.

Definition swapoff_of (p : string) (e : event) : bool :=
  match e with
  | Ev (Swapoff q) _ => String.eqb q p
  | _ => false
  end.

Definition unlink_of (p : string) (e : event) : bool :=
  match e with
  | Ev (Unlink q) _ => String.eqb q p
  | _ => false
  end.

(** The file at the well-known path is opened for creation. *)
Definition creates_swap_file (e : event) : bool :=
  match e with
  | @Ev R c r =>
      match c in sys R return R -> bool with
      | Open p O_WRONLY_CREAT_CLOEXEC =>
          fun r => String.eqb p swap_file_name
                   && match r with Some _ => true | None => false end
      | _ => fun _ => false
      end r
  end.

(** [mkswap] has run on the file at the well-known path and succeeded. *)
Definition mkswap_ok (e : event) : bool :=
  match e with
  | @Ev R c r =>
      match c in sys R return R -> bool with
      | Spawn program [p] => fun r => String.eqb program "mkswap" && String.eqb p swap_file_name && r
      | _ => fun _ => false
      end r
  end.

Definition fresh_swap_file (needed_swap : Z) : swap_file :=
  mk_swap_file needed_swap swap_file_name.

Definition created_post (needed_size : Z) (t : list event) (o : outcome swap_file) : Prop :=
  before creates_swap_file mkswap_ok t = true /\
  match o with
  | Done s => s = fresh_swap_file needed_size /\ existsb mkswap_ok t = true
  | _ => True
  end.

Definition provision_post (needed_swap : Z) (found : option swap_file)
    (t : list event) (o : outcome (swap_file * bool)) : Prop :=
  existsb is_swapon t = false /\
  (forall swap created, o = Done (swap, created) ->
     needed_swap <= capacity swap /\
     (created = true -> swap = fresh_swap_file needed_swap /\ existsb mkswap_ok t = true)) /\
  (forall old, found = Some old -> capacity old < needed_swap ->
     before (swapoff_of (path old)) (unlink_of (path old)) t = true /\
     before (unlink_of (path old)) creates_swap_file t = true /\
     before creates_swap_file mkswap_ok t = true /\
     (forall swap created, o = Done (swap, created) -> created = true)).

(** ** Statements about the exit status *)

Definition not_enabled_msg : string := "Hibernation not enabled for this VM.".
Definition success_msg : string := "Swap file for VM hibernation set up successfully".
Definition no_boot_mechanism_msg : string :=
  "Could not determine how system was booted to update kernel parameters for next boot.  System won't be able to resume until you fix this.".
Definition no_grub_cfg_msg : string :=
  "Could not find GRUB configuration file. Is /boot mounted?".

Definition boot_patch_tools : list string :=
  ["update-initramfs"; "grubby"; "update-grub2"; "grub2-mkconfig"].

Definition boot_config_files : list string :=
  ["/etc/initramfs-tools/conf.d/resume";
   "/etc/default/grub.d/99-hibernate-settings.cfg";
   "/etc/default/grub"].

(** The boot configuration could not be patched: no mechanism was found,
    the GRUB configuration to regenerate was not found, a patch tool
    failed, or a boot configuration file could not be written. *)
Definition boot_patch_failed (e : event) : bool :=
  match e with
  | @Ev R c r =>
      match c in sys R return R -> bool with
      | LogInfo fmt =>
          fun _ => String.eqb fmt no_boot_mechanism_msg || String.eqb fmt no_grub_cfg_msg
      | Spawn program _ => fun r => str_mem program boot_patch_tools && negb r
      | WriteText p _ => fun r => str_mem p boot_config_files && negb r
      | _ => fun _ => false
      end r
  end.

(** The swap file has been activated: [swapon] succeeded, or the file
    was already active. *)
Definition swap_activated (e : event) : bool :=
  match e with
  | @Ev R c r =>
      match c in sys R return R -> bool with
      | Swapon _ =>
          fun r => match r with Ok _ => true | Err EBUSY => true | Err _ => false end
      | _ => fun _ => false
      end r
  end.

(** A function that reports failure by returning [false]. *)
Definition reports_failure (P : event -> bool) (t : list event) (o : outcome bool) : Prop :=
  existsb P t = true -> o = Done false \/ is_fatal o.

(** One of the two messages [main] logs before it returns. *)
Definition verdict (e : event) : bool :=
  logs not_enabled_msg e || logs success_msg e.

(** What [main] guarantees about the exit status. *)
Definition exit_post (t : list event) (o : outcome Z) : Prop :=
  (exit_status o = Some 0 <->
   existsb (logs not_enabled_msg) t = true \/ existsb (logs success_msg) t = true) /\
  (forall v, o = Done v -> v = 0) /\
  (is_fatal o -> exit_status o = Some 1) /\
  (existsb boot_patch_failed t = true -> exit_status o = Some 1).

(** The events the exit status is read from. *)
Definition decisive (e : event) : bool := verdict e || boot_patch_failed e.

(** ** Statements about the reconciliation of the kernel command line *)

(** A file is written or a program is run. *)
Definition patches (e : event) : bool :=
  match e with
  | Ev (WriteText _ _) _ => true
  | Ev (Spawn _ _) _ => true
  | _ => false
  end.

Definition grub_tools : list string := ["grubby"; "update-grub2"; "grub2-mkconfig"].

(** One of the GRUB tools has run and succeeded. *)
Definition grub_tool_done (e : event) : bool :=
  match e with
  | @Ev R c r =>
      match c in sys R return R -> bool with
      | Spawn program _ => fun r => str_mem program grub_tools && r
      | _ => fun _ => false
      end r
  end.

(** What a run of the GRUB patch tells by its result. *)
Definition patch_post (t : list event) (o : outcome bool) : Prop :=
  (o = Done true -> existsb grub_tool_done t = true) /\
  (o = Done false ->
     existsb (logs no_boot_mechanism_msg) t = true \/
     existsb (logs no_grub_cfg_msg) t = true).

(** A machine without any boot tool, as [bare_machine], and the file store
    of one whose kernel command line has none of the resume parameters. *)
Definition plain_cmdline : files :=
  [("/proc/cmdline", "root=/dev/sda1 ro " ++ str1 LF)].

(** The file store of a machine booted with the three resume parameters
    for the device [abcd] and the offset 34816. *)
Definition resume_cmdline : files :=
  [("/proc/cmdline",
    "root=/dev/sda1 resume=/dev/disk/by-uuid/abcd resume_offset=34816 no_console_suspend=1 "
    ++ str1 LF)].

(** ** A machine for a whole run

    A VM booted from [/dev/sda1] (UUID [abcd]) without the resume
    parameters, 4 GB of memory, a swap file of 16 GiB at the well-known
    path, hibernation supported, and none of the boot tools installed. *)
Definition toolless_vm : machine :=
  mk_machine 4096 (Some 1024) (block_map [34816; 34817; 34818; 34819])
    (fun p => String.eqb p "/dev/snapshot") None
    (fun p =>
       if String.eqb p swap_file_name then Some (mk_stat S_IFREG 2049 0 (16 * GIGA_BYTES))
       else if String.eqb p "/" then Some (mk_stat S_IFOTHER 2049 0 4096)
       else if String.eqb p "/dev/sda1" then Some (mk_stat S_IFBLK 5 2049 0)
       else if String.eqb p "/dev/disk/by-uuid/abcd" then Some (mk_stat S_IFBLK 5 2049 0)
       else None)
    (Some (mk_stat S_IFREG 2049 0 (16 * GIGA_BYTES))) (Some (EXT4_SUPER_MAGIC, 4096))
    (fun p => if String.eqb p "/dev/disk/by-uuid/" then Some ["abcd"] else None)
    (Some [mk_mntent "/dev/sda1" "/"]) (Some "5.4.0") (Ok tt) (fun _ => true)
    (Ok tt) (Ok tt) true (fun _ => true) (fun _ => true).

Definition toolless_vm_files : files :=
  [("/sys/power/disk", "[platform] shutdown" ++ str1 LF);
   ("/proc/meminfo", "MemTotal:        4030464 kB" ++ str1 LF);
   ("/proc/swaps", "Filename" ++ str1 TAB ++ "Type" ++ str1 LF);
   ("/proc/cmdline", "root=/dev/sda1 ro " ++ str1 LF);
   ("/etc/fstab", "/dev/sda1 / ext4 defaults 0 1" ++ str1 LF)].

(** [bare_machine] with a full disk: the reserve-space call fails with
    [ENOSPC]. *)
Definition full_disk_machine : machine :=
  mk_machine 4096 (Some 1024) (block_map [])
    (fun _ => false) None
    (fun p => if String.eqb p swap_file_name then Some (regular_file 4096) else None)
    (Some (regular_file 4096)) (Some (EXT4_SUPER_MAGIC, 4096))
    (fun _ => None) None (Some "5.4.0") (Err ENOSPC) (fun _ => true)
    (Ok tt) (Ok tt) true (fun _ => true) (fun _ => true).

(** [bare_machine] with a block device at the well-known path. *)
Definition device_node_machine : machine :=
  mk_machine 4096 (Some 1024) (block_map [34816; 34817; 34818; 34819])
    (fun _ => false) None
    (fun p => if String.eqb p swap_file_name then Some (mk_stat S_IFBLK 5 2049 0) else None)
    (Some (mk_stat S_IFBLK 5 2049 0)) (Some (EXT4_SUPER_MAGIC, 4096))
    (fun _ => None) None (Some "5.4.0") (Ok tt) (fun _ => true)
    (Ok tt) (Ok tt) true (fun _ => true) (fun _ => true).

(** ** Footprints

    The calls each function may make: the kinds of calls, the messages
    logged, the programs run and the modes files are opened in. *)

Definition F_lookup : footprint := only_tags [TAccess].

Definition F_find_swap_file : footprint := only_tags [TReadText; TStat].

Definition F_create_with_size : footprint :=
  mk_footprint [TOpen; TGETFLAGS; TSETFLAGS; TStatfs; TFtruncate; TClose]
    ["Could not disable CoW for %s: %s. Will try setting up swap anyway.";
     "Could not disable compression for %s: %s. Will try setting up swap anyway.";
     "Not enough disk space to create %s with %zu MB.";
     "Could not resize %s to %ld MB: %s"] [] [].

Definition F_block_size : footprint :=
  only_tags [TMounts; TOpen; TBLKSSZGET; TClose; TStatfs].

Definition F_fs_checks : footprint :=
  mk_footprint [TStatfs; TGetenv; TAccess; TUname] [] ["e4defrag"; "btrfs"; "xfs_fsr"] [].

Definition F_zero_out : footprint :=
  mk_footprint [TOpen; TMounts; TBLKSSZGET; TClose; TStatfs; TPwrite; TFdatasync]
    ["Could not open %s: %s"; "Could not write pattern to %s: %s"] [] [].

Definition F_resolver : footprint :=
  mk_footprint [TFIGETBSZ; TSysconf; TFIBMAP] ["First %d blocks of %d bytes are contiguous"] [] [].

Definition F_uuid : footprint :=
  mk_footprint [TMounts; TStat; TReadDir; TFstatat; TLogInfo] [] [] [].

Definition F_cmdline : footprint := mk_footprint [TReadText; TLogInfo] [] [] [].

Definition F_patch : footprint :=
  mk_footprint [TLogInfo; TGetenv; TAccess; TReadDir; TReadText; TWriteText] []
    ["update-initramfs"; "grubby"; "update-grub2"; "grub2-mkconfig"] [].

Definition F_update_swap_offset : footprint :=
  mk_footprint
    [TLogInfo; TFstat; TFIGETBSZ; TSysconf; TFIBMAP; TClose; TSET_SWAP_AREA; TMounts;
     TStat; TReadDir; TFstatat; TGetenv; TAccess; TReadText; TWriteText] []
    ["update-initramfs"; "grubby"; "update-grub2"; "grub2-mkconfig"]
    [O_RDONLY_CLOEXEC].

Definition F_udev : footprint :=
  mk_footprint [TLogInfo; TGetenv; TAccess; TWriteText] [] ["udevadm"] [].

Definition F_enable : footprint :=
  mk_footprint [TLogInfo; TChmod; TSwapon; TReadText; TWriteText] [] [] [].

Definition F_finish : footprint :=
  mk_footprint
    [TLogInfo; TChmod; TSwapon; TFstat; TFIGETBSZ; TSysconf; TFIBMAP; TClose;
     TSET_SWAP_AREA; TMounts; TStat; TReadDir; TFstatat; TGetenv; TAccess; TReadText;
     TWriteText] []
    ["update-initramfs"; "grubby"; "update-grub2"; "grub2-mkconfig"; "udevadm"]
    [O_RDONLY_CLOEXEC].

Definition F_create : footprint :=
  mk_footprint
    [TLogInfo; TGETFLAGS; TSETFLAGS; TStatfs; TFtruncate; TClose; TIoprio_set; TOpen;
     TFallocate; TMounts; TBLKSSZGET; TPwrite; TFdatasync; TGetenv; TAccess; TUname] []
    ["e4defrag"; "btrfs"; "xfs_fsr"; "mkswap"] [].

(** ** Further statements *)

Definition made_swap (needed_size : Z) (t : list event) (o : outcome swap_file) : Prop :=
  match o with
  | Done s => s = fresh_swap_file needed_size /\ existsb mkswap_ok t = true
  | _ => True
  end.

Fixpoint join (chunks : list string) : string :=
  match chunks with
  | [] => EmptyString
  | chunk :: rest => chunk ++ join rest
  end.

(** ** Statements about the rest of the program *)

(** An [access] call that succeeded. *)
Definition access_ok (e : event) : bool :=
  match e with
  | @Ev R c r =>
      match c in sys R return R -> bool with
      | Access _ _ => fun r => r
      | _ => fun _ => false
      end r
  end.

(** What a search of [$PATH] for [name] guarantees: a path found is a
    segment followed by [/name], absolute, shorter than [PATH_MAX], and
    the one [access] call that succeeded is the last call, on that path. *)
Definition lookup_post (name : string) (t : list event) (o : outcome (option string))
  : Prop :=
  match o with
  | Done (Some p) =>
      exists seg t',
        p = seg ++ "/" ++ name /\
        first_char_is "/" p = true /\
        Z.of_nat (String.length p) < PATH_MAX /\
        t = (t' ++ [Ev (Access p X_OK) true])%list /\
        existsb access_ok t' = false
  | Done None => existsb access_ok t = false
  | Fatal _ => existsb access_ok t = false
  | Undefined _ => False
  end.

(** White space only. *)
Fixpoint all_space (s : string) : bool :=
  match s with
  | EmptyString => true
  | String c r => isspace c && all_space r
  end.

(** The number a string of decimal digits denotes, the digits read so
    far being worth [acc]. *)
Fixpoint digits_value (d : Decimal.uint) (acc : Z) : Z :=
  match d with
  | Decimal.Nil => acc
  | Decimal.D0 l => digits_value l (10 * acc + 0)
  | Decimal.D1 l => digits_value l (10 * acc + 1)
  | Decimal.D2 l => digits_value l (10 * acc + 2)
  | Decimal.D3 l => digits_value l (10 * acc + 3)
  | Decimal.D4 l => digits_value l (10 * acc + 4)
  | Decimal.D5 l => digits_value l (10 * acc + 5)
  | Decimal.D6 l => digits_value l (10 * acc + 6)
  | Decimal.D7 l => digits_value l (10 * acc + 7)
  | Decimal.D8 l => digits_value l (10 * acc + 8)
  | Decimal.D9 l => digits_value l (10 * acc + 9)
  end.

(** No newline. *)
Fixpoint no_lf (s : string) : bool :=
  match s with
  | EmptyString => true
  | String c r => negb (Ascii.eqb c LF) && no_lf r
  end.

Fixpoint spaces (k : nat) : string :=
  match k with
  | O => EmptyString
  | S k' => String " " (spaces k')
  end.

(** The units [physical_memory] knows, with their factors. *)
Definition meminfo_units : list (string * Z) :=
  [(" kB", 1024); (" MB", MEGA_BYTES); (" GB", 1024 * MEGA_BYTES);
   (" TB", MEGA_BYTES * MEGA_BYTES)].

(** ** Text files

    A text file whose lines all end in a newline: the text of the lines
    [ls], given without their newlines. *)
Definition text_of (ls : list string) : string :=
  join (map (fun l => l ++ str1 LF) ls).

(** A line that one call of [fgets] with room for [room] characters reads
    whole: no newline or terminator inside, shorter than [room]. *)
Definition plain_line (room : nat) (l : string) : bool :=
  no_lf l && nul_free l && (String.length l <? room)%nat.

Fixpoint no_char (c : ascii) (s : string) : bool :=
  match s with
  | EmptyString => true
  | String d r => negb (Ascii.eqb d c) && no_char c r
  end.

(** What [ensure_swap_is_enabled] writes to [/etc/fstab] when it has
    read [content] from it. *)
Definition fstab_rewrite (swap_path content : string) : string :=
  fstab_keep swap_path (fgets_all 1023 content) ++ fstab_entry swap_path.

(** The lines of a GRUB settings file outside the managed blocks, as the
    loop of the rewrite walks them; [in_block] tells whether the walk is
    inside a block. *)
Fixpoint unmanaged (in_block : bool) (ls : list string) : list string :=
  match ls with
  | [] => []
  | l :: rest =>
      if in_block then unmanaged (negb (occurs end_marker (l ++ str1 LF))) rest
      else if occurs start_marker (l ++ str1 LF) then unmanaged true rest
      else l :: unmanaged false rest
  end.

(** The middle line of the managed block. *)
Definition managed_line (args : string) : string :=
  "GRUB_CMDLINE_LINUX_DEFAULT=" ++ str1 DQUOTE ++ "$GRUB_CMDLINE_LINUX_DEFAULT "
  ++ args ++ str1 DQUOTE.

(** ** The kernel command line as words *)

Fixpoint no_space (s : string) : bool :=
  match s with
  | EmptyString => true
  | String c r => negb (isspace c) && no_space r
  end.

(** A parameter of the command line: not empty, no white space, no
    terminator. *)
Definition word (t : string) : bool :=
  match t with
  | EmptyString => false
  | String _ _ => no_space t && nul_free t
  end.

(** The words [toks], each followed by a space. *)
Definition words (toks : list string) : string :=
  join (map (fun t => t ++ " ") toks).

(** One of the three parameters the check looks for. *)
Definition resume_param (t : string) : bool :=
  prefix "resume=" t || prefix "resume_offset=" t || prefix "no_console_suspend=" t.

(** The fields the scan has noted after the words [toks], the memory
    after them being [tail]. *)
Fixpoint scan_fields (toks : list string) (tail : string) (f : cmdline_fields)
  : cmdline_fields :=
  match toks with
  | [] => f
  | t :: rest => scan_fields rest tail (note_field (words (t :: rest) ++ tail) f)
  end.

(** The three parameters [update_kernel_cmdline_params_for_grub] writes,
    as words. *)
Definition resume_words (dev_uuid : string) (offset : Z) : list string :=
  ["resume=" ++ resume_device dev_uuid; "resume_offset=" ++ decimal offset;
   "no_console_suspend=1"].

(** ** Statements about the hibernation capability check *)

Definition platform_msg : string :=
  "VM supports hibernation with platform-supported events.".
Definition vmbus_enabled_msg : string :=
  "Hibernation is enabled according to VMBus. This is ideal.".

(** An [access] call on [p] that was answered [b]. *)
Definition access_answered (p : string) (b : bool) (e : event) : bool :=
  match e with
  | @Ev R c r =>
      match c in sys R return R -> bool with
      | Access q _ => fun r => String.eqb q p && Bool.eqb r b
      | _ => fun _ => false
      end r
  end.

Definition enabled_post (t : list event) (o : outcome bool) : Prop :=
  existsb event_mutates t = false /\
  (exists b, o = Done b) /\
  (o = Done true ->
     existsb (access_answered "/dev/snapshot" true) t = true /\
     (existsb (logs platform_msg) t = true \/
      (existsb (access_answered "/sys/bus/vmbus" true) t = true /\
       existsb (logs vmbus_enabled_msg) t = true))) /\
  (existsb (access_answered "/dev/snapshot" false) t = true ->
     o = Done false /\ List.length t = 2%nat).

(** ** Statements about the device identification *)

(** A [stat] call on [q] answered with a result that satisfies [P]. *)
Definition stat_says (q : string) (P : stat_t -> bool) (e : event) : bool :=
  match e with
  | @Ev R c r =>
      match c in sys R return R -> bool with
      | Stat q' =>
          fun r => match r with
                   | Some st => String.eqb q' q && P st
                   | None => false
                   end
      | _ => fun _ => false
      end r
  end.

(** An entry of [/dev/disk/by-uuid/] whose name satisfies [N], found to
    be a block device whose device number is [rdev]. *)
Definition node_says (N : string -> bool) (rdev : Z) (e : event) : bool :=
  match e with
  | @Ev R c r =>
      match c in sys R return R -> bool with
      | Fstatat d n =>
          fun r => match r with
                   | Some st =>
                       String.eqb d "/dev/disk/by-uuid/" && N n
                       && kind_eqb (st_kind st) S_IFBLK && (st_rdev st =? rdev)
                   | None => false
                   end
      | _ => fun _ => false
      end r
  end.

(** What the lookup of the UUID of the device [p] guarantees. *)
Definition uuid_post (p : string) (t : list event) (o : outcome (option string)) : Prop :=
  match o with
  | Done (Some u) =>
      exists rdev,
        existsb (stat_says p (fun st => st_rdev st =? rdev)) t = true /\
        existsb (node_says (fun n => String.eqb (cstr n) u) rdev) t = true
  | Done None => True
  | Fatal _ | Undefined _ => False
  end.

(** What the lookup of the UUID of the disk that holds the file [p]
    guarantees. *)
Definition disk_uuid_post (p : string) (t : list event) (o : outcome (option string))
  : Prop :=
  existsb event_mutates t = false /\
  match o with
  | Done (Some u) =>
      exists ent dev rdev,
        existsb (stat_says p (fun st => st_dev st =? dev)) t = true /\
        existsb (stat_says (mnt_dir ent) (fun st => st_dev st =? dev)) t = true /\
        existsb (stat_says (mnt_fsname ent) (fun st => st_rdev st =? rdev)) t = true /\
        existsb (node_says (fun n => String.eqb (cstr n) u) rdev) t = true
  | Done None => True
  | Fatal _ => existsb (stat_says p (fun _ => true)) t = false
  | Undefined _ => False
  end.

(** ** Statements about the creation of the swap file *)

Definition opened (e : event) : bool :=
  match e with
  | @Ev R c r =>
      match c in sys R return R -> bool with
      | Open _ _ => fun r => match r with Some _ => true | None => false end
      | _ => fun _ => false
      end r
  end.

Definition closes (e : event) : bool :=
  match e with
  | Ev (Close _) _ => true
  | _ => false
  end.

Definition truncates (e : event) : bool :=
  match e with
  | Ev (Ftruncate _ _) _ => true
  | _ => false
  end.

Definition truncate_ok (e : event) : bool :=
  match e with
  | @Ev R c r =>
      match c in sys R return R -> bool with
      | Ftruncate _ _ => fun r => match r with Ok _ => true | Err _ => false end
      | _ => fun _ => false
      end r
  end.

(** [statfs] reported an XFS file system. *)
Definition on_xfs (e : event) : bool :=
  match e with
  | @Ev R c r =>
      match c in sys R return R -> bool with
      | Statfs _ =>
          fun r => match r with
                   | Some (f_type, _) => f_type =? XFS_SUPER_MAGIC
                   | None => false
                   end
      | _ => fun _ => false
      end r
  end.

(** The inode flags the swap file is created with. *)
Definition swap_flags_mask : Z := Z.lor (Z.lor FS_NOCOW_FL FS_NOCOMP_FL) FS_COMPR_FL.

Definition getflags_of (e : event) : option Z :=
  match e with
  | @Ev R c r =>
      match c in sys R return R -> option Z with
      | Ioctl_GETFLAGS _ => fun r => match r with Ok cur => Some cur | Err _ => None end
      | _ => fun _ => None
      end r
  end.

Definition setflags_of (e : event) : option Z :=
  match e with
  | Ev (Ioctl_SETFLAGS _ flags) _ => Some flags
  | _ => None
  end.

(** The flags [v] differ from [cur] in the three swap flags at most. *)
Definition flag_update_ok (cur v : Z) : bool :=
  Z.land v (Z.lnot swap_flags_mask) =? Z.land cur (Z.lnot swap_flags_mask).

(** Every call that sets the inode flags follows a call that read them,
    and changes the three swap flags at most. *)
Fixpoint flags_kept (t : list event) : bool :=
  match t with
  | [] => true
  | e1 :: t' =>
      match t' with
      | e2 :: _ =>
          match setflags_of e2 with
          | Some v =>
              match getflags_of e1 with
              | Some cur => flag_update_ok cur v
              | None => false
              end
          | None => true
          end
      | [] => true
      end
      && flags_kept t'
  end.

Definition sized_post (t : list event) (o : outcome bool) : Prop :=
  (exists b, o = Done b) /\
  count opened t = count closes t /\
  (existsb on_xfs t = true -> existsb truncates t = false) /\
  (o = Done true <->
   existsb opened t = true /\
   (existsb on_xfs t = true \/ existsb truncate_ok t = true)) /\
  match t with
  | e :: _ => setflags_of e = None
  | [] => True
  end /\
  flags_kept t = true.

(** ** Statements about the slow allocation path *)

Definition pwrite_at (fd off : Z) (e : event) : bool :=
  match e with
  | @Ev R c r =>
      match c in sys R return R -> bool with
      | Pwrite fd' off' => fun r => (fd' =? fd) && (off' =? off) && r
      | _ => fun _ => false
      end r
  end.

Definition open_gave (p : string) (fd : Z) (e : event) : bool :=
  match e with
  | @Ev R c r =>
      match c in sys R return R -> bool with
      | Open q _ =>
          fun r => match r with
                   | Some fd' => String.eqb q p && (fd' =? fd)
                   | None => false
                   end
      | _ => fun _ => false
      end r
  end.

(** The sector size [BLKSSZGET] reported. *)
Definition sector_size_is (s : Z) (e : event) : bool :=
  match e with
  | @Ev R c r =>
      match c in sys R return R -> bool with
      | Ioctl_BLKSSZGET _ =>
          fun r => match r with Some v => v =? s | None => false end
      | _ => fun _ => false
      end r
  end.

(** The block size [statfs] reported for the root file system. *)
Definition fs_block_size_is (b : Z) (e : event) : bool :=
  match e with
  | @Ev R c r =>
      match c in sys R return R -> bool with
      | Statfs q =>
          fun r => match r with
                   | Some (_, f_bsize) => String.eqb q "/" && (f_bsize =? b)
                   | None => false
                   end
      | _ => fun _ => false
      end r
  end.

(** What [determine_block_size_for_root_fs] returns: the larger of the
    sector size of the root device, which is not 0, and the block size
    of the root file system. *)
Definition block_size_post (t : list event) (o : outcome Z) : Prop :=
  match o with
  | Done bs =>
      exists s b,
        existsb (sector_size_is s) t = true /\
        existsb (fs_block_size_is b) t = true /\
        s <> 0 /\ bs = Z.max s b
  | Fatal _ => True
  | Undefined _ => False
  end.

(** What a successful run of the slow path has done: with a block size
    [Z.max s b] that is positive, the pattern has been written at every
    multiple of it below [needed_size], and the run ends with
    [fdatasync] and [close] on the descriptor opened. *)
Definition zeroed_post (p : string) (needed_size : Z) (t : list event) (o : outcome bool)
  : Prop :=
  o = Done true ->
  exists fd s b t',
    existsb (open_gave p fd) t = true /\
    existsb (sector_size_is s) t = true /\
    existsb (fs_block_size_is b) t = true /\
    (needed_size <= 0 \/ 0 < Z.max s b) /\
    (0 < Z.max s b ->
     forall k, 0 <= k -> k * Z.max s b < needed_size ->
               existsb (pwrite_at fd (k * Z.max s b)) t = true) /\
    t = (t' ++ [Ev (Fdatasync fd) tt; Ev (Close fd) tt])%list.

(** ** Statements about the file-system checks *)

Definition is_spawn (e : event) : bool :=
  match e with
  | Ev (Spawn _ _) _ => true
  | _ => false
  end.

(** [statfs] on [p] reported a file system of type [magic]. *)
Definition fs_is (p : string) (magic : Z) (e : event) : bool :=
  match e with
  | @Ev R c r =>
      match c in sys R return R -> bool with
      | Statfs q =>
          fun r => match r with
                   | Some (f_type, _) => String.eqb q p && (f_type =? magic)
                   | None => false
                   end
      | _ => fun _ => false
      end r
  end.

(** [program] is run with exactly the arguments [args]. *)
Definition runs (program : string) (args : list string) (e : event) : bool :=
  match e with
  | Ev (Spawn pr a) _ =>
      String.eqb pr program && if list_eq_dec string_dec a args then true else false
  | _ => false
  end.

(** A defragmenter was run on [p], and it is the one of the file system
    that [statfs] reported for [p]. *)
Definition defragmented (p : string) (t : list event) : bool :=
  existsb (fs_is p EXT4_SUPER_MAGIC) t && existsb (runs "e4defrag" [p]) t
  || existsb (fs_is p BTRFS_SUPER_MAGIC) t
     && existsb (runs "btrfs" ["filesystem"; "defragment"; p]) t
  || existsb (fs_is p XFS_SUPER_MAGIC) t && existsb (runs "xfs_fsr" ["-v"; p]) t.

Definition checks_post (p : string) (t : list event) (o : outcome unit) : Prop :=
  (count is_spawn t <= 1)%nat /\
  nothing_after is_spawn t = true /\
  (existsb is_spawn t = true -> defragmented p t = true) /\
  match o with
  | Done _ => True
  | Fatal _ => existsb is_spawn t = false
  | Undefined _ => False
  end.

(** ** Statements about the swap entry of [/etc/fstab] and the udev rule *)

(** A file has been written. *)
Definition file_written (e : event) : bool :=
  match e with
  | @Ev R c r =>
      match c in sys R return R -> bool with
      | WriteText _ _ => fun r => r
      | _ => fun _ => false
      end r
  end.

Definition enabled_swap_post (swap : swap_file) (t : list event) (o : outcome unit)
  : Prop :=
  match o with
  | Done _ =>
      exists on content,
        (on = Ok tt \/ on = Err EBUSY) /\
        t = [Ev (LogInfo "Ensuring swap file %s is enabled") tt;
             Ev (Chmod (path swap)) true;
             Ev (Swapon (path swap)) on;
             Ev (LogInfo "Updating /etc/fstab") tt;
             Ev (ReadText "/etc/fstab") (Some content);
             Ev (WriteText "/etc/fstab" (fstab_rewrite (path swap) content)) true]
  | Fatal _ => existsb file_written t = false
  | Undefined _ => False
  end.

Definition rules_file (dir : string) : string := dir ++ "/99-vm-hibernation.rules".

(** [dir] is the first of the three rule directories that [access]
    found: the ones before it were probed and not found. *)
Definition rules_dir_chosen (dir : string) (t : list event) : bool :=
  let found d := existsb (access_answered d true) t in
  let missing d := existsb (access_answered d false) t in
  String.eqb dir "/usr/lib/udev/rules.d" && found "/usr/lib/udev/rules.d"
  || String.eqb dir "/etc/udev/rules.d"
     && missing "/usr/lib/udev/rules.d" && found "/etc/udev/rules.d"
  || String.eqb dir "/lib/udev/rules.d"
     && missing "/usr/lib/udev/rules.d" && missing "/etc/udev/rules.d"
     && found "/lib/udev/rules.d".

(** What follows the writing of the rule: udev is told, and a command
    that fails ends the run. *)
Definition udev_told (t : list event) (o : outcome unit) : Prop :=
  let told := Ev (LogInfo "udev rule to hibernate with systemd set up in %s.  Telling udev about it.") tt in
  let reload := Ev (Spawn "udevadm" ["control"; "--reload-rules"]) in
  let trigger := Ev (Spawn "udevadm" ["trigger"]) in
  match o with
  | Done _ => t = [told; reload true; trigger true]
  | Fatal _ => t = [told; reload false] \/ t = [told; reload true; trigger false]
  | Undefined _ => False
  end.

Definition udev_post (t : list event) (o : outcome unit) : Prop :=
  (existsb file_written t = false /\ existsb is_spawn t = false /\
   match o with Undefined _ => False | _ => True end)
  \/
  (exists seg seg' dir t1 t2,
     t = (t1 ++ Ev (WriteText (rules_file dir) (udev_rule (seg ++ "/systemctl"))) true :: t2)%list /\
     existsb (access_answered (seg ++ "/systemctl") true) t1 = true /\
     existsb (access_answered (seg' ++ "/udevadm") true) t1 = true /\
     existsb (access_answered "/sys/bus/vmbus" true) t1 = true /\
     rules_dir_chosen dir t1 = true /\
     existsb file_written t1 = false /\
     existsb is_spawn t1 = false /\
     udev_told t2 o).

(** ** Statements about the choice of the GRUB tool *)

(** [program] is run, with any arguments and any result. *)
Definition spawns (program : string) (e : event) : bool :=
  match e with
  | Ev (Spawn pr _) _ => String.eqb pr program
  | _ => false
  end.

(** One of the three GRUB tools is run. *)
Definition grub_tool_run (e : event) : bool :=
  match e with
  | Ev (Spawn pr _) _ => str_mem pr grub_tools
  | _ => false
  end.

Definition grub_settings_files : list string :=
  ["/etc/default/grub.d/99-hibernate-settings.cfg"; "/etc/default/grub"].

(** A GRUB settings file is opened for writing. *)
Definition writes_grub_settings (e : event) : bool :=
  match e with
  | Ev (WriteText p _) _ => str_mem p grub_settings_files
  | _ => false
  end.

Definition grub_choice_post (has_grubby has_update_grub2 has_grub2_mkconfig : bool)
    (args : string) (t : list event) (o : outcome bool) : Prop :=
  match o with Undefined _ => False | _ => True end /\
  (count grub_tool_run t <= 1)%nat /\
  (existsb (spawns "grubby") t = true ->
     has_grubby = true /\
     existsb (runs "grubby" ["--update-kernel=ALL"; "--args"; args]) t = true) /\
  (existsb (spawns "update-grub2") t = true ->
     has_grubby = false /\ has_update_grub2 = true) /\
  (existsb (spawns "grub2-mkconfig") t = true ->
     has_grubby = false /\ has_update_grub2 = false /\ has_grub2_mkconfig = true) /\
  (has_grubby = true -> existsb writes_grub_settings t = false) /\
  (existsb (spawns "update-grub2") t || existsb (spawns "grub2-mkconfig") t = true ->
     exists file old t1 t2,
       t = (t1 ++ Ev (ReadText file) old
               :: Ev (WriteText file (grub_rewrite old args)) true :: t2)%list /\
       str_mem file grub_settings_files = true /\
       existsb grub_tool_run t1 = false /\
       existsb writes_grub_settings t1 = false).

(** ** Statements about a swap file that is large enough *)

(** The swap file is disabled, removed, created, sized, filled or
    formatted. *)
Definition replaces_swap (e : event) : bool :=
  match e with
  | Ev (Swapoff _) _ => true
  | Ev (Unlink _) _ => true
  | Ev (Open _ O_WRONLY_CLOEXEC) _ => true
  | Ev (Open _ O_WRONLY_CREAT_CLOEXEC) _ => true
  | Ev (Ftruncate _ _) _ => true
  | Ev (Fallocate _ _ _) _ => true
  | Ev (Pwrite _ _) _ => true
  | Ev (Spawn program _) _ => String.eqb program "mkswap"
  | _ => false
  end.

(** A file other than [p] is activated as swap. *)
Definition swapon_other (p : string) (e : event) : bool :=
  match e with
  | Ev (Swapon q) _ => negb (String.eqb q p)
  | _ => false
  end.

(** [swapon] failed with [EINVAL]. *)
Definition swapon_rejected (e : event) : bool :=
  match e with
  | @Ev R c r =>
      match c in sys R return R -> bool with
      | Swapon _ => fun r => match r with Err EINVAL => true | _ => false end
      | _ => fun _ => false
      end r
  end.

(** ** Statements about the order of [main] *)

(** [main] has reported whether it found a swap file. *)
Definition reports_lookup (e : event) : bool :=
  logs "Swap file found with size %zu MB at %s" e || logs "Swap file not found" e.

(** ** Statements about the swap area *)

Definition swap_area_post (swap : swap_file) (t : list event)
    (o : outcome resume_swap_area) : Prop :=
  match o with
  | Done area =>
      exists fd st b t',
        t = (Ev (Open (path swap) O_RDONLY_CLOEXEC) (Some fd)
             :: Ev (Fstat fd) (Some st)
             :: t' ++ [Ev (Close fd) tt; Ev (LogInfo area_resolved_msg) tt])%list /\
        st_kind st = S_IFREG /\
        first_fibmap t' = Some (fd, 0, Some b) /\
        wrap32 b <> INVALID_OFFSET /\
        area = mk_area (wrap32 b) (wrap32 (st_dev st))
  | _ => True
  end.

(** ** Statements about the mount table *)

(** A [stat] call on [q] that failed or reported a device other than
    [dev]. *)
Definition stat_rejects (q : string) (dev : Z) (e : event) : bool :=
  match e with
  | @Ev R c r =>
      match c in sys R return R -> bool with
      | Stat q' =>
          fun r => String.eqb q' q
                   && match r with
                      | Some st => negb (st_dev st =? dev)
                      | None => true
                      end
      | _ => fun _ => false
      end r
  end.

(** What the scan of the mount table for the device [dev] guarantees:
    the entry returned is the first one, in the order of the table,
    whose mount point [stat] reported to be on [dev]. *)
Definition mount_scan_post (dev : Z) (ents : list mntent) (t : list event)
    (o : outcome (option mntent)) : Prop :=
  match o with
  | Done (Some ent) =>
      exists pre post ent_st t',
        ents = (pre ++ ent :: post)%list /\
        t = (t' ++ [Ev (Stat (mnt_dir ent)) (Some ent_st)])%list /\
        st_dev ent_st = dev /\
        forall e, In e pre -> existsb (stat_rejects (mnt_dir e) dev) t' = true
  | Done None =>
      forall e, In e ents -> existsb (stat_rejects (mnt_dir e) dev) t = true
  | Fatal _ | Undefined _ => False
  end.

(** ** Statements about the size of the swap file *)

(** [sizeof(pattern)]: the pattern of the slow path is a [uint32_t]. *)
Definition PATTERN_SIZE : Z := 4.

(** The size of the swap file after one call, [size] being its size
    before: [unlink] removes the file (the [open] with [O_CREAT] that
    follows creates it empty), [ftruncate] sets the size, [fallocate]
    and a pattern write extend the file to the end of their range.  In
    [main] every descriptor these calls are made on is open on the swap
    file. *)
Definition size_after (e : event) (size : Z) : Z :=
  match e with
  | @Ev R c r =>
      match c in sys R return R -> Z with
      | Unlink _ => fun r => if r then 0 else size
      | Ftruncate _ n => fun r => match r with Ok _ => n | Err _ => size end
      | Fallocate _ off len =>
          fun r => match r with Ok _ => Z.max size (off + len) | Err _ => size end
      | Pwrite _ off => fun r => if r then Z.max size (off + PATTERN_SIZE) else size
      | _ => fun _ => size
      end r
  end.

Fixpoint swap_file_size (t : list event) (size : Z) : Z :=
  match t with
  | [] => size
  | e :: t' => swap_file_size t' (size_after e size)
  end.

(** The size of the file is set ([ftruncate]) or blocks are reserved for
    a range ([fallocate]). *)
Definition sizes_file (e : event) : bool :=
  match e with
  | Ev (Ftruncate _ _) _ => true
  | Ev (Fallocate _ _ _) _ => true
  | _ => false
  end.

(** A VM as [toolless_vm] whose root file system is XFS with blocks of
    4096 bytes, with a swap file of 4096 bytes at the well-known path
    and 4 kB of memory, so that a swap file of 12288 bytes is needed. *)
Definition xfs_vm : machine :=
  mk_machine 4096 (Some 1024) (block_map [34816; 34817; 34818; 34819])
    (fun p => String.eqb p "/dev/snapshot") None
    (fun p =>
       if String.eqb p swap_file_name then Some (mk_stat S_IFREG 2049 0 4096)
       else if String.eqb p "/" then Some (mk_stat S_IFOTHER 2049 0 4096)
       else if String.eqb p "/dev/sda1" then Some (mk_stat S_IFBLK 5 2049 0)
       else if String.eqb p "/dev/disk/by-uuid/abcd" then Some (mk_stat S_IFBLK 5 2049 0)
       else None)
    (Some (mk_stat S_IFREG 2049 0 4096)) (Some (XFS_SUPER_MAGIC, 4096))
    (fun p => if String.eqb p "/dev/disk/by-uuid/" then Some ["abcd"] else None)
    (Some [mk_mntent "/dev/sda1" "/"]) (Some "5.4.0") (Ok tt) (fun _ => true)
    (Ok tt) (Ok tt) true (fun _ => true) (fun _ => true).

Definition xfs_vm_files : files :=
  [("/sys/power/disk", "[platform] shutdown" ++ str1 LF);
   ("/proc/meminfo", "MemTotal:              4 kB" ++ str1 LF);
   ("/proc/swaps", "Filename" ++ str1 TAB ++ "Type" ++ str1 LF);
   ("/proc/cmdline", "root=/dev/sda1 ro " ++ str1 LF);
   ("/etc/fstab", "/dev/sda1 / xfs defaults 0 1" ++ str1 LF)].

(** ** The three resume parameters, in the words of the specification

    The kernel command line is taken as the list of its parameters. *)

(** The value the command line gives to the parameter [key]: what
    follows [key] in the last word that starts with it. *)
Fixpoint param_value (key : string) (toks : list string) : option string :=
  match toks with
  | [] => None
  | t :: rest =>
      match param_value key rest with
      | Some v => Some v
      | None =>
          if prefix key t then Some (string_drop (String.length key) t) else None
      end
  end.

(** All three parameters are present and match exactly: the device
    path built as [/dev/disk/by-uuid/<uuid>], the offset as a decimal
    string, [no_console_suspend] as the literal [1]. *)
Definition params_match (dev_uuid : string) (offset : Z) (toks : list string) : bool :=
  match param_value "resume=" toks, param_value "resume_offset=" toks,
        param_value "no_console_suspend=" toks with
  | Some resume, Some resume_offset, Some no_console_suspend =>
      String.eqb resume ("/dev/disk/by-uuid/" ++ dev_uuid)
      && String.eqb resume_offset (decimal offset)
      && String.eqb no_console_suspend "1"
  | _, _, _ => false
  end.

(** ** Statements about the boot tools, by what the environment answered *)

Fixpoint has_slash (s : string) : bool :=
  match s with
  | EmptyString => false
  | String c r => Ascii.eqb c "/" || has_slash r
  end.

(** The last component of a path. *)
Fixpoint basename (s : string) : string :=
  match s with
  | EmptyString => EmptyString
  | String c r =>
      if has_slash r then basename r
      else if Ascii.eqb c "/" then r else s
  end.

(** [access] found one of the GRUB tools executable. *)
Definition grub_tool_found (e : event) : bool :=
  match e with
  | @Ev R c r =>
      match c in sys R return R -> bool with
      | Access p X_OK => fun r => r && str_mem (basename p) grub_tools
      | _ => fun _ => false
      end r
  end.

(** [access] found no GRUB configuration to regenerate: the second of
    the two places looked at is missing too. *)
Definition grub_cfg_missing (e : event) : bool :=
  match e with
  | @Ev R c r =>
      match c in sys R return R -> bool with
      | Access p F_OK => fun r => negb r && String.eqb p "/boot/grub/grub.cfg"
      | _ => fun _ => false
      end r
  end.

(** What a run of the patch of the boot configuration tells, by what
    the environment answered. *)
Definition patch_env_post (t : list event) (o : outcome bool) : Prop :=
  (o = Done true -> existsb grub_tool_done t = true) /\
  (existsb grub_tool_found t = false ->
     existsb patches t = false /\ (o = Done false \/ is_fatal o)) /\
  (existsb grub_tool_found t = true -> existsb patches t = true \/ is_fatal o) /\
  (o = Done false ->
     existsb grub_tool_found t = false \/ existsb grub_cfg_missing t = true) /\
  match o with Undefined _ => False | _ => True end.

(** ** Statements about the exit status, by what the environment answered *)

(** The kernel has taken the resume area: [SNAPSHOT_SET_SWAP_AREA]
    succeeded. *)
Definition area_registered (e : event) : bool :=
  match e with
  | @Ev R c r =>
      match c in sys R return R -> bool with
      | Ioctl_SET_SWAP_AREA _ _ => fun r => r
      | _ => fun _ => false
      end r
  end.

(** [/etc/fstab] has been written. *)
Definition fstab_updated (e : event) : bool :=
  match e with
  | @Ev R c r =>
      match c in sys R return R -> bool with
      | WriteText p _ => fun r => String.eqb p "/etc/fstab" && r
      | _ => fun _ => false
      end r
  end.

(** The environment refused a step of the set-up of the swap file:
    [chmod] failed, [swapon] failed with an error other than [EBUSY],
    [/etc/fstab] could not be written, or the kernel did not take the
    resume area. *)
Definition refused (e : event) : bool :=
  match e with
  | @Ev R c r =>
      match c in sys R return R -> bool with
      | Chmod _ => fun r => negb r
      | Swapon _ =>
          fun r => match r with Ok _ => false | Err e => negb (errno_eqb e EBUSY) end
      | WriteText p _ => fun r => String.eqb p "/etc/fstab" && negb r
      | Ioctl_SET_SWAP_AREA _ _ => fun r => negb r
      | _ => fun _ => false
      end r
  end.

(** The environment refused a step of the patch of the boot
    configuration: a patch tool failed or could not be run, or a boot
    configuration file could not be written. *)
Definition boot_refused (e : event) : bool :=
  match e with
  | @Ev R c r =>
      match c in sys R return R -> bool with
      | Spawn program _ => fun r => str_mem program boot_patch_tools && negb r
      | WriteText p _ => fun r => str_mem p boot_config_files && negb r
      | _ => fun _ => false
      end r
  end.

Definition unrecoverable (e : event) : bool := refused e || boot_refused e.

(** Every read of [/proc/cmdline] has given [content]. *)
Definition cmdline_is (content : string) (e : event) : bool :=
  match e with
  | @Ev R c r =>
      match c in sys R return R -> bool with
      | ReadText p =>
          fun r =>
            if String.eqb p "/proc/cmdline" then
              match r with
              | Some s => String.eqb s content
              | None => false
              end
            else true
      | _ => fun _ => true
      end r
  end.

(** One of the three resume parameters is not on the command line. *)
Definition param_absent (toks : list string) : bool :=
  match param_value "resume=" toks, param_value "resume_offset=" toks,
        param_value "no_console_suspend=" toks with
  | Some _, Some _, Some _ => false
  | _, _, _ => true
  end.

(** What the set-up has done when [main] returns after it. *)
Definition set_up (t : list event) : Prop :=
  existsb swap_activated t = true /\
  existsb fstab_updated t = true /\
  existsb area_registered t = true.

(** What enabling the swap file tells by its result. *)
Definition enable_post (t : list event) (o : outcome unit) : Prop :=
  (existsb refused t = true -> is_fatal o) /\
  (forall v, o = Done v ->
     existsb swap_activated t = true /\ existsb fstab_updated t = true) /\
  match o with Undefined _ => False | _ => True end.

(** What [update_swap_offset] tells by its result. *)
Definition swap_offset_post (t : list event) (o : outcome bool) : Prop :=
  (existsb refused t = true -> o = Done false \/ is_fatal o) /\
  (o = Done true ->
     existsb area_registered t = true /\
     (existsb grub_tool_done t = true \/ existsb grub_tool_found t = false)).

(** What [main] tells by its result. *)
Definition main_post (t : list event) (o : outcome Z) : Prop :=
  (existsb refused t = true -> is_fatal o) /\
  (forall v, o = Done v ->
     existsb (logs not_enabled_msg) t = true \/
     set_up t /\
     (existsb grub_tool_done t = true \/ existsb grub_tool_found t = false)).

(** With this content of [/proc/cmdline] and no GRUB tool found, the
    function does not end well. *)
Definition unpatchable {A : Type} (content : string) (ok : outcome A -> Prop)
    (t : list event) (o : outcome A) : Prop :=
  forallb (cmdline_is content) t = true -> existsb grub_tool_found t = false -> ~ ok o.

Definition returns_true (o : outcome bool) : Prop := o = Done true.

Definition returns {A : Type} (o : outcome A) : Prop := exists v, o = Done v.

(** * Proofs *)

Ltac zfacts :=
  vm_compute; repeat split; try reflexivity; try (intro; discriminate).

(** ** The program logic *)

Lemma wp_weaken {A : Type} (p : prog A) (Q Q' : list event -> outcome A -> Prop) :
  (forall t o, Q t o -> Q' t o) -> wp p Q -> wp p Q'.
Proof.
  revert Q Q'. induction p as [a | m | y | R c k IH]; simpl; intros Q Q' HQ Hp; auto.
  intros r. eapply IH; [| apply Hp]. intros t o. apply HQ.
Qed.

Lemma wp_bind {A B : Type} (p : prog A) (f : A -> prog B)
    (Q : list event -> outcome B -> Prop) :
  wp p (after f Q) -> wp (bind p f) Q.
Proof.
  revert Q. induction p as [a | m | y | R c k IH]; simpl; intros Q Hp;
    [exact Hp | exact Hp | exact Hp |].
  intros r. apply IH. exact (Hp r).
Qed.

Lemma wp_run {A W : Type} (h : handler W) (p : prog A)
    (Q : list event -> outcome A -> Prop) (w : W) :
  wp p Q -> Q (trace_of (run h p w)) (outcome_of (run h p w)).
Proof.
  revert Q w. induction p as [a | m | y | R c k IH]; simpl; intros Q w Hp; auto.
  destruct (h R c w) as [r w1] eqn:Hh.
  specialize (IH r _ w1 (Hp r)).
  destruct (run h (k r) w1) as [[t o] w2]. exact IH.
Qed.

Lemma wp_conj {A : Type} (p : prog A) (Q1 Q2 : list event -> outcome A -> Prop) :
  wp p Q1 -> wp p Q2 -> wp p (fun t o => Q1 t o /\ Q2 t o).
Proof.
  revert Q1 Q2. induction p as [a | m | y | R c k IH]; simpl; intros Q1 Q2 H1 H2;
    [split; assumption | split; assumption | split; assumption |].
  intros r. apply (IH r _ _ (H1 r) (H2 r)).
Qed.

Lemma wp_any {A : Type} (p : prog A) : wp p (fun _ _ => True).
Proof.
  induction p as [a | m | y | R c k IH]; simpl; auto.
Qed.

(** Running a sequence: the second part starts in the state the first
    part left. *)
Lemma run_bind {A B W : Type} (h : handler W) (p : prog A) (f : A -> prog B) (w : W) :
  run h (bind p f) w =
  match run h p w with
  | (t, Done a, w1) =>
      let '(t', o', w2) := run h (f a) w1 in ((t ++ t')%list, o', w2)
  | (t, Fatal m, w1) => (t, Fatal m, w1)
  | (t, Undefined y, w1) => (t, Undefined y, w1)
  end.
Proof.
  revert w. induction p as [a | m | y | R c k IH]; simpl; intros w.
  - destruct (run h (f a) w) as [[t o] w2]. reflexivity.
  - reflexivity.
  - reflexivity.
  - destruct (h R c w) as [r w1]. rewrite IH.
    destruct (run h (k r) w1) as [[t o] w2].
    destruct o as [a | m | y]; [| reflexivity | reflexivity].
    destruct (run h (f a) w2) as [[t' o'] w3]. reflexivity.
Qed.

(** ** Sizing policy *)

(** C2.  For every physical-memory size [r] a [size_t] can hold, the
    required swap capacity is [3r] up to 2 GiB, [2r] up to 8 GiB, [3r/2]
    up to 64 GiB, [5r/4] up to 256 GiB, and the computation is fatal above
    256 GiB; exactly 2 GiB yields 6 GiB and 2 GiB + 1 byte is doubled. *)
Theorem swap_needed_size_tiers (r : Z) :
  0 <= r < 2 ^ 64 ->
  (r <= 2 * GIGA_BYTES -> swap_needed_size r = Ret (3 * r)) /\
  (2 * GIGA_BYTES < r <= 8 * GIGA_BYTES -> swap_needed_size r = Ret (2 * r)) /\
  (8 * GIGA_BYTES < r <= 64 * GIGA_BYTES -> swap_needed_size r = Ret (3 * r / 2)) /\
  (64 * GIGA_BYTES < r <= 256 * GIGA_BYTES -> swap_needed_size r = Ret (5 * r / 4)) /\
  (256 * GIGA_BYTES < r -> exists msg, swap_needed_size r = Die msg) /\
  swap_needed_size (2 * GIGA_BYTES) = Ret (6 * GIGA_BYTES) /\
  swap_needed_size (2 * GIGA_BYTES + 1) = Ret (2 * (2 * GIGA_BYTES + 1)).
Proof.
  intros Hr.
  assert (HG : GIGA_BYTES = 1073741824) by reflexivity.
  assert (H64 : (2 ^ 64 = 18446744073709551616)) by reflexivity.
  unfold swap_needed_size, log_fatal, wrap64.
  rewrite HG, H64 in *.
  change (2 * 1073741824 mod 18446744073709551616) with 2147483648.
  change (8 * 1073741824 mod 18446744073709551616) with 8589934592.
  change (64 * 1073741824 mod 18446744073709551616) with 68719476736.
  change (256 * 1073741824 mod 18446744073709551616) with 274877906944.
  repeat split; intros;
    repeat match goal with
    | |- context [?a <=? ?b] => destruct (Z.leb_spec a b); try lia
    end;
    try (rewrite Z.mod_small by lia; reflexivity);
    try (eexists; reflexivity);
    try reflexivity.
Qed.

Lemma swap_needed_size_tiers_witness :
  0 <= 4 * GIGA_BYTES < 2 ^ 64 /\
  swap_needed_size (4 * GIGA_BYTES) = Ret (8 * GIGA_BYTES).
Proof.
  split.
  - zfacts.
  - apply (proj1 (proj2 (swap_needed_size_tiers (4 * GIGA_BYTES)
                           ltac:(zfacts)))).
    zfacts.
Defined.

(** ** Block-offset resolver *)

Lemma first_fibmap_app_some (t t' : list event) x :
  first_fibmap t = Some x -> first_fibmap (t ++ t') = Some x.
Proof.
  induction t as [| e t IH]; simpl; [discriminate |].
  destruct (fibmap_of e); auto.
Qed.

Lemma scan_blocks_first_block (n : nat) :
  forall fd i st, 0 <= i -> wp (scan_blocks n fd i st) (first_block_post n fd i st).
Proof.
  induction n as [| n IH]; intros fd i st Hi.
  - simpl. intros st' [= <-]. destruct (i =? 0); reflexivity.
  - simpl. intros [b |]; simpl; [| intros st'; discriminate].
    destruct (negb (sc_last st =? 0) && negb (wrap32 (wrap32 b - sc_last st) =? 1)).
    + simpl. intros st' [= <-]. simpl.
      destruct (Z.eqb_spec i 0) as [-> | Hne]; [| reflexivity].
      exists b. split; reflexivity.
    + eapply wp_weaken; [| apply (IH fd (i + 1)); lia].
      intros t o Hpost st' Ho. specialize (Hpost st' Ho).
      destruct (Z.eqb_spec (i + 1) 0) as [Hz | _]; [lia |].
      simpl in Hpost.
      destruct (Z.eqb_spec i 0) as [-> | Hne]; [| exact Hpost].
      exists b. split; [reflexivity | exact Hpost].
Qed.

Lemma get_swap_file_offset_wp (fd : Z) :
  wp (get_swap_file_offset fd) (reports_block_0 fd).
Proof.
  unfold get_swap_file_offset. simpl. intros [b |]; simpl.
  2:{ intros v; discriminate. }
  intros page. destruct (wrap32 b =? 0); simpl.
  { intros v; discriminate. }
  apply wp_bind.
  eapply wp_weaken; [| apply (scan_blocks_first_block _ fd 0); lia].
  intros t o Hpost. destruct o as [st | m | y]; simpl.
  - intros [] page'. specialize (Hpost st eq_refl). simpl in Hpost.
    destruct (wrap32 (sc_num_contiguous_blocks st * wrap32 b) >=? page'); simpl.
    + intros v [= <-] Hv.
      destruct (Z.to_nat (wrap32 (Z.quot page (wrap32 b)))).
      * subst st. simpl in Hv. congruence.
      * destruct Hpost as [b0 [Hf Hb]]. exists b0.
        split; [| exact Hb]. simpl.
        apply first_fibmap_app_some with (t' := [_; _]). exact Hf.
    + intros v [= <-] Hv. congruence.
  - intros v; discriminate.
  - intros v; discriminate.
Qed.

(** C10.  In every environment, a result of the block-offset resolver
    other than the all-bits-set sentinel is the physical block number the
    very first per-block query reported, the query for logical block 0
    (as the 32-bit quantity the resolver stores), whatever the later
    queries answered. *)
Theorem get_swap_file_offset_is_block_0
    {W : Type} (h : handler W) (w : W) (fd v : Z) :
  outcome_of (run h (get_swap_file_offset fd) w) = Done v ->
  v <> INVALID_OFFSET ->
  exists b,
    first_fibmap (trace_of (run h (get_swap_file_offset fd) w)) = Some (fd, 0, Some b)
    /\ v = wrap32 b.
Proof.
  intros Ho Hv.
  exact (wp_run h _ _ w (get_swap_file_offset_wp fd) v Ho Hv).
Qed.

Lemma get_swap_file_offset_is_block_0_witness :
  exists b,
    first_fibmap (trace_of (run (simulate (bare_machine [34816; 34817; 34818; 34819]))
                              (get_swap_file_offset 3) []))
    = Some (3, 0, Some b)
    /\ 34816 = wrap32 b.
Proof.
  apply (get_swap_file_offset_is_block_0
           (simulate (bare_machine [34816; 34817; 34818; 34819])) [] 3 34816).
  - vm_compute. reflexivity.
  - vm_compute. intro H. discriminate H.
Defined.

(** C1.  A swap file whose first block is a hole (physical block 0, as
    the block-map query reports holes) followed by blocks 7, 8, 9 has a
    contiguity break before one page is covered, yet the resolver answers
    0 and not the sentinel: the test [last && blknum - last != 1] takes a
    previous block number of 0 for no previous block. *)
Theorem get_swap_file_offset_misses_break_after_hole :
  let blocks := [0; 7; 8; 9] in
  nth 1 blocks 0 <> nth 0 blocks 0 + 1 /\
  outcome_of (run (simulate (bare_machine blocks)) (get_swap_file_offset 3) []) = Done 0 /\
  outcome_of (run (simulate (bare_machine [0; 0; 0; 0])) (get_swap_file_offset 3) [])
  = Done 0 /\
  0 <> INVALID_OFFSET.
Proof.
  repeat split; try (vm_compute; reflexivity); vm_compute; intro H; discriminate H.
Qed.

(** What does hold of the resolver: a run of blocks that is contiguous
    over the whole first page is accepted, and a break is detected when
    no block before it is numbered 0. *)

Lemma run_call {A R W : Type} (h : handler W) (c : sys R) (k : R -> prog A) (w : W) :
  run h (Call c k) w =
  let '(t, o, w2) := run h (k (fst (h _ c w))) (snd (h _ c w)) in (Ev c (fst (h _ c w)) :: t, o, w2).
Proof.
  simpl. destruct (h R c w) as [r w1]. reflexivity.
Qed.

Lemma wrap32_small (z : Z) : 0 <= z < 2 ^ 32 -> wrap32 z = z.
Proof. intros H. unfold wrap32. apply Z.mod_small. exact H. Qed.

Lemma scan_blocks_contiguous {W : Type} (h : handler W) (f : Z -> Z) (fd : Z) :
  (forall w i, fst (h _ (Ioctl_FIBMAP fd i) w) = Some (f i)) ->
  forall n i st w,
    0 <= i -> i + Z.of_nat n < 2 ^ 32 ->
    (forall j, i <= j < i + Z.of_nat n -> 0 <= f j < 2 ^ 32) ->
    (forall j, 0 <= j -> j + 1 < i + Z.of_nat n -> f (j + 1) = f j + 1) ->
    sc_num_contiguous_blocks st = i ->
    (0 < i -> sc_last st = f (i - 1)) ->
    (i = 0 -> sc_last st = 0) ->
    exists st',
      outcome_of (run h (scan_blocks n fd i st) w) = Done st' /\
      sc_num_contiguous_blocks st' = i + Z.of_nat n /\
      sc_first_blknum st' =
        (if (i =? 0) && negb (Nat.eqb n 0) then f 0 else sc_first_blknum st).
Proof.
  intros Hf n. induction n as [| n IH]; intros i st w Hi Hn Hr Hc Hnum Hlast Hlast0.
  - exists st. simpl. rewrite andb_false_r. repeat split; lia.
  - rewrite Nat2Z.inj_succ in Hn, Hr, Hc |- *.
    cbn [scan_blocks bind call]. rewrite run_call. rewrite Hf. cbn [bind].
    assert (Hfi : wrap32 (f i) = f i) by (apply wrap32_small, Hr; lia).
    rewrite Hfi.
    assert (Hgo : negb (sc_last st =? 0) && negb (wrap32 (f i - sc_last st) =? 1) = false).
    { destruct (Z.eq_dec i 0) as [-> | Hne].
      - rewrite Hlast0 by reflexivity. reflexivity.
      - rewrite Hlast by lia.
        replace (f i) with (f (i - 1 + 1)) by (f_equal; lia).
        rewrite Hc by lia.
        replace (f (i - 1) + 1 - f (i - 1)) with 1 by lia.
        rewrite wrap32_small by (split; [lia | reflexivity]).
        apply andb_false_r. }
    rewrite Hgo.
    match goal with
    | |- context [run h (scan_blocks n fd (i + 1) ?s) ?w'] =>
        destruct (IH (i + 1) s w') as [st' [Ho [Hn' Hb']]]
    end.
    + lia.
    + lia.
    + intros j Hj. apply Hr. lia.
    + intros j Hj1 Hj2. apply Hc; lia.
    + simpl. rewrite Hnum. apply wrap32_small. lia.
    + intros _. simpl. f_equal. lia.
    + lia.
    + exists st'. unfold outcome_of in *.
      destruct (run h (scan_blocks n fd (i + 1) _) _) as [[t o] w2].
      cbn [fst snd] in Ho |- *. split; [exact Ho |]. split; [lia |].
      rewrite Hb'. cbn [sc_first_blknum].
      destruct (Z.eqb_spec (i + 1) 0) as [Hz | _]; [lia |]. cbn [andb negb Nat.eqb].
      destruct (Z.eqb_spec i 0) as [-> | _]; reflexivity.
Qed.

Lemma get_swap_file_offset_contiguous
    {W : Type} (h : handler W) (bs page : Z) (f : Z -> Z) (w : W) (fd : Z) :
  maps_blocks h bs page f ->
  0 < bs <= page -> page < 2 ^ 32 -> page mod bs = 0 ->
  (forall j, 0 <= j < page / bs -> 0 <= f j < 2 ^ 32) ->
  (forall j, 0 <= j -> j + 1 < page / bs -> f (j + 1) = f j + 1) ->
  outcome_of (run h (get_swap_file_offset fd) w) = Done (f 0).
Proof.
  intros Hm Hbs Hpage Hdiv Hr Hc.
  assert (Hq : Z.quot page bs = page / bs) by (apply Z.quot_div_nonneg; lia).
  assert (Hbpp : 0 < page / bs) by (apply Z.div_str_pos; lia).
  assert (Hbpp' : page / bs <= page).
  { apply Z.div_le_upper_bound; nia. }
  unfold get_swap_file_offset. cbn [bind call].
  rewrite run_call. destruct (Hm w fd) as [Hb _]. rewrite Hb. cbn [bind].
  rewrite run_call.
  match goal with
  | |- context [fst (h _ Sysconf_PAGE_SIZE ?w')] =>
      destruct (Hm w' fd) as [_ [Hp _]]; rewrite Hp
  end.
  rewrite (wrap32_small bs) by lia.
  destruct (Z.eqb_spec bs 0) as [Hz | _]; [lia |].
  rewrite Hq, (wrap32_small (page / bs)) by lia.
  rewrite run_bind.
  match goal with
  | |- context [run h (scan_blocks ?n fd 0 ?s) ?w'] =>
      destruct (scan_blocks_contiguous h f fd (fun w i => proj2 (proj2 (Hm w fd)) i)
                  n 0 s w') as [st' [Ho [Hn' Hb']]]
  end; try rewrite Z2Nat.id by lia; try lia.
  - intros j Hj. apply Hr. lia.
  - intros j Hj1 Hj2. apply Hc; lia.
  - reflexivity.
  - intros _. reflexivity.
  - unfold outcome_of in *.
    destruct (run h (scan_blocks _ fd 0 _) _) as [[t o] w2]. simpl in Ho. subst o.
    cbn [bind log_info call]. rewrite !run_call.
    match goal with
    | |- context [fst (h _ Sysconf_PAGE_SIZE ?w')] =>
        destruct (Hm w' fd) as [_ [Hp' _]]; rewrite Hp'
    end.
    rewrite Hn', Hb'. rewrite Z.add_0_l, Z2Nat.id by lia.
    replace (page / bs * bs) with page.
    2:{ rewrite Z.mul_comm. rewrite <- Z_div_exact_full_2; [reflexivity | lia | exact Hdiv]. }
    rewrite (wrap32_small page) by lia.
    destruct (Z.geb_spec page page) as [_ | Hlt]; [| lia].
    destruct (Nat.eqb_spec (Z.to_nat (page / bs)) 0) as [Hz | _]; [lia | reflexivity].
Qed.

Lemma wrap32_sub (a b : Z) : wrap32 (wrap32 a - wrap32 b) = wrap32 (a - b).
Proof. unfold wrap32. symmetry. apply Zminus_mod. Qed.

Lemma scan_blocks_break {W : Type} (h : handler W) (f : Z -> Z) (fd k : Z) :
  (forall w i, fst (h _ (Ioctl_FIBMAP fd i) w) = Some (f i)) ->
  0 < k < 2 ^ 32 ->
  wrap32 (f k - f (k - 1)) <> 1 ->
  (forall j, 0 <= j < k -> wrap32 (f j) <> 0) ->
  forall n i st w,
    0 <= i <= k ->
    sc_num_contiguous_blocks st = i ->
    (0 < i -> sc_last st = wrap32 (f (i - 1))) ->
    exists st',
      outcome_of (run h (scan_blocks n fd i st) w) = Done st' /\
      0 <= sc_num_contiguous_blocks st' <= k.
Proof.
  intros Hf Hk Hbreak Hnz n.
  induction n as [| n IH]; intros i st w Hi Hnum Hlast.
  - exists st. split; [reflexivity | lia].
  - cbn [scan_blocks bind call]. rewrite run_call, Hf. cbn [bind].
    destruct (negb (sc_last st =? 0) && negb (wrap32 (wrap32 (f i) - sc_last st) =? 1))
      eqn:Hgo.
    + eexists. split; [reflexivity |]. simpl. lia.
    + assert (Hik : i < k).
      { destruct (Z.eq_dec i k) as [-> | Hne]; [| lia]. exfalso.
        rewrite Hlast in Hgo by lia. rewrite wrap32_sub in Hgo.
        destruct (Z.eqb_spec (wrap32 (f (k - 1))) 0) as [Hz | _].
        - apply (Hnz (k - 1)); [lia | exact Hz].
        - destruct (Z.eqb_spec (wrap32 (f k - f (k - 1))) 1) as [H1 | _];
            [apply Hbreak; exact H1 | discriminate Hgo]. }
      match goal with
      | |- context [run h (scan_blocks n fd (i + 1) ?s) ?w'] =>
          destruct (IH (i + 1) s w') as [st' [Ho Hn']]
      end.
      * lia.
      * simpl. rewrite Hnum. apply wrap32_small. lia.
      * intros _. simpl. do 2 f_equal. lia.
      * exists st'. unfold outcome_of in *.
        destruct (run h (scan_blocks n fd (i + 1) _) _) as [[t o] w2].
        cbn [fst snd] in Ho |- *. split; [exact Ho | exact Hn'].
Qed.

Lemma get_swap_file_offset_break
    {W : Type} (h : handler W) (bs page : Z) (f : Z -> Z) (w : W) (fd k : Z) :
  maps_blocks h bs page f ->
  0 < bs < 2 ^ 32 -> 0 < page -> page / bs < 2 ^ 32 ->
  0 < k < page / bs ->
  wrap32 (f k - f (k - 1)) <> 1 ->
  (forall j, 0 <= j < k -> wrap32 (f j) <> 0) ->
  outcome_of (run h (get_swap_file_offset fd) w) = Done INVALID_OFFSET.
Proof.
  intros Hm Hbs Hpage Hbpp Hk Hbreak Hnz.
  assert (Hq : Z.quot page bs = page / bs) by (apply Z.quot_div_nonneg; lia).
  unfold get_swap_file_offset. cbn [bind call].
  rewrite run_call. destruct (Hm w fd) as [Hb _]. rewrite Hb. cbn [bind].
  rewrite run_call.
  match goal with
  | |- context [fst (h _ Sysconf_PAGE_SIZE ?w')] =>
      destruct (Hm w' fd) as [_ [Hp _]]; rewrite Hp
  end.
  rewrite (wrap32_small bs) by lia.
  destruct (Z.eqb_spec bs 0) as [Hz | _]; [lia |].
  rewrite Hq, (wrap32_small (page / bs)) by lia.
  rewrite run_bind.
  match goal with
  | |- context [run h (scan_blocks ?n fd 0 ?s) ?w'] =>
      destruct (scan_blocks_break h f fd k (fun w i => proj2 (proj2 (Hm w fd)) i)
                  ltac:(lia) Hbreak Hnz n 0 s w') as [st' [Ho Hn']]
  end; try lia.
  - reflexivity.
  - unfold outcome_of in *.
    destruct (run h (scan_blocks _ fd 0 _) _) as [[t o] w2]. simpl in Ho. subst o.
    cbn [bind log_info call]. rewrite !run_call.
    match goal with
    | |- context [fst (h _ Sysconf_PAGE_SIZE ?w')] =>
        destruct (Hm w' fd) as [_ [Hp' _]]; rewrite Hp'
    end.
    assert (Hlt : wrap32 (sc_num_contiguous_blocks st' * bs) < page).
    { assert (sc_num_contiguous_blocks st' * bs <= k * bs) by nia.
      assert (k * bs < page).
      { assert (bs * (page / bs) <= page) by (apply Z.mul_div_le; lia). nia. }
      assert (wrap32 (sc_num_contiguous_blocks st' * bs)
              <= sc_num_contiguous_blocks st' * bs).
      { unfold wrap32. apply Z.mod_le; [nia | reflexivity]. }
      lia. }
    destruct (Z.geb_spec (wrap32 (sc_num_contiguous_blocks st' * bs)) page) as [Hge | _];
      [lia | reflexivity].
Qed.

(** ** Swap file locator *)

(** C6.  With one active swap file of 8388604 KiB in the swap table, a
    required capacity of 1024 and nothing at the well-known path, the
    locator answers "not found": [strcmp(type, "file")] is run before the
    type field is terminated, so it compares the rest of the line. *)
Theorem find_swap_file_skips_table_entry :
  fgets_all 1023 proc_swaps_one_file
  = [ "Filename" ++ str1 TAB ++ str1 TAB ++ str1 TAB ++ str1 TAB ++ "Type"
      ++ str1 TAB ++ str1 TAB ++ "Size" ++ str1 TAB ++ str1 TAB ++ "Used"
      ++ str1 TAB ++ str1 TAB ++ "Priority" ++ str1 LF;
      "/swapfile                               file" ++ str1 TAB ++ str1 TAB
      ++ "8388604" ++ str1 TAB ++ str1 TAB ++ "0" ++ str1 TAB ++ str1 TAB ++ "-2"
      ++ str1 LF ] /\
  outcome_of (run (simulate no_hibfile_machine) (find_swap_file 1024)
                [("/proc/swaps", proc_swaps_one_file)])
  = Done None /\
  outcome_of (run (simulate (bare_machine [])) (find_swap_file 1024)
                [("/proc/swaps", proc_swaps_one_file)])
  = Done (Some (mk_swap_file 4096 swap_file_name)).
Proof.
  repeat split; vm_compute; reflexivity.
Qed.

(** The same for every table: a line without a NUL byte is never taken. *)

Lemma nul_free_app (a b : string) :
  nul_free (a ++ b) = nul_free a && nul_free b.
Proof.
  induction a as [| c a IH]; simpl; [reflexivity |].
  rewrite IH. apply andb_assoc.
Qed.

Lemma skip_nonspace_suffix (mem nxt : string) :
  skip_nonspace mem = Some nxt -> exists pre, mem = pre ++ nxt.
Proof.
  induction mem as [| c r IH]; simpl; [discriminate |].
  destruct (isspace c).
  - intros [= <-]. exists EmptyString. reflexivity.
  - intros H. destruct (IH H) as [pre ->]. exists (String c pre). reflexivity.
Qed.

Lemma skip_space_suffix (mem nxt : string) :
  skip_space mem = Some nxt -> exists pre, mem = pre ++ nxt.
Proof.
  induction mem as [| c r IH]; simpl; [discriminate |].
  destruct (isspace c).
  - intros H. destruct (IH H) as [pre ->]. exists (String c pre). reflexivity.
  - intros [= <-]. exists EmptyString. reflexivity.
Qed.

Lemma string_app_assoc (a b c : string) : (a ++ b) ++ c = a ++ b ++ c.
Proof. induction a as [| x a IH]; simpl; [reflexivity | rewrite IH; reflexivity]. Qed.

Lemma next_field_suffix (mem nxt : string) :
  next_field (Some mem) = FAt nxt ->
  exists pre, mem = pre ++ nxt /\ pre <> EmptyString.
Proof.
  unfold next_field. destruct mem as [| c r]; [discriminate |].
  destruct (Ascii.eqb c NUL); [discriminate |].
  destruct (skip_nonspace (String c r)) as [[| d after] |] eqn:Hs; try discriminate.
  destruct (skip_space after) as [nxt' |] eqn:Ha; [| discriminate].
  intros [= <-].
  destruct (skip_nonspace_suffix _ _ Hs) as [p1 H1].
  destruct (skip_space_suffix _ _ Ha) as [p2 H2].
  exists (p1 ++ String d p2). split.
  - rewrite H1, H2. rewrite string_app_assoc. reflexivity.
  - destruct p1; discriminate.
Qed.

(** A suffix of a NUL-free line in its buffer whose C string is [lit]
    is [lit] followed by the terminator of the buffer. *)
Lemma cstr_at_end (chunk pre type lit : string) :
  nul_free chunk = true -> nul_free lit = true ->
  in_buffer chunk = pre ++ type ->
  cstr type = lit -> type <> EmptyString ->
  type = in_buffer lit.
Proof.
  intros Hc Hl Hb Hs Hne.
  assert (Hex : exists chunk', type = in_buffer chunk' /\ nul_free chunk' = true).
  { clear Hs Hl lit. revert chunk Hc Hb. induction pre as [| x pre IH]; intros chunk Hc Hb.
    - exists chunk. simpl in Hb. split; [symmetry; exact Hb | exact Hc].
    - destruct chunk as [| y chunk].
      + unfold in_buffer in Hb. simpl in Hb. injection Hb as _ Hb.
        destruct pre; [| discriminate Hb]. simpl in Hb. congruence.
      + unfold in_buffer in Hb. simpl in Hb. injection Hb as _ Hb.
        simpl in Hc. apply andb_true_iff in Hc. apply (IH chunk (proj2 Hc) Hb). }
  destruct Hex as [chunk' [-> Hc']]. f_equal.
  clear Hb Hne Hc. revert lit Hl Hs.
  induction chunk' as [| y chunk' IH]; intros lit Hl Hs.
  - simpl in Hs. subst lit. reflexivity.
  - simpl in Hc'. apply andb_true_iff in Hc'. destruct Hc' as [Hy Hc'].
    unfold in_buffer in Hs. simpl in Hs.
    destruct (Ascii.eqb y NUL); [discriminate Hy |].
    destruct lit as [| z lit]; [discriminate Hs |].
    injection Hs as -> Hs. f_equal. apply IH; [exact Hc' | | exact Hs].
    simpl in Hl. apply andb_true_iff in Hl. apply Hl.
Qed.

Lemma swaps_line_never_taken (needed_size : Z) (chunk : string) :
  nul_free chunk = true ->
  swaps_line needed_size chunk = Ret None \/
  exists why, swaps_line needed_size chunk = Undef why.
Proof.
  intros Hc. unfold swaps_line.
  destruct (next_field (Some (in_buffer chunk))) as [| type |] eqn:Hn;
    [right; eexists; reflexivity | | right; eexists; reflexivity].
  destruct (strcmp_eq type "file") eqn:Hcmp; [| left; reflexivity].
  destruct (next_field_suffix _ _ Hn) as [pre [Hb _]].
  assert (Hty : type = in_buffer "file").
  { unfold strcmp_eq in Hcmp. apply String.eqb_eq in Hcmp.
    apply (cstr_at_end chunk pre type "file" Hc eq_refl Hb Hcmp).
    intros ->. discriminate Hcmp. }
  rewrite Hty. right. eexists. reflexivity.
Qed.

Lemma swaps_scan_never_taken (needed_size : Z) (lines : list string) :
  Forall (fun chunk => nul_free chunk = true) lines ->
  swaps_scan needed_size lines = Ret None \/
  exists why, swaps_scan needed_size lines = Undef why.
Proof.
  induction 1 as [| chunk lines Hc _ IH]; simpl; [left; reflexivity |].
  destruct (swaps_line_never_taken needed_size chunk Hc) as [-> | [why ->]]; simpl.
  - exact IH.
  - right. eexists. reflexivity.
Qed.

Lemma fgets_one_app (room : nat) (s : string) :
  fst (fgets_one room s) ++ snd (fgets_one room s) = s.
Proof.
  revert s. induction room as [| room IH]; intros s; simpl; [reflexivity |].
  destruct s as [| c r]; [reflexivity |].
  destruct (Ascii.eqb c LF); [reflexivity |].
  specialize (IH r). destruct (fgets_one room r) as [a b]. simpl in *.
  rewrite IH. reflexivity.
Qed.

Lemma fgets_loop_nul_free (fuel room : nat) (s : string) :
  nul_free s = true ->
  Forall (fun chunk => nul_free chunk = true) (fgets_loop fuel room s).
Proof.
  revert s. induction fuel as [| fuel IH]; intros s Hs; simpl; [constructor |].
  destruct s as [| c r]; [constructor |].
  pose proof (fgets_one_app room (String c r)) as Happ.
  destruct (fgets_one room (String c r)) as [chunk rest]. simpl in Happ.
  rewrite <- Happ, nul_free_app in Hs. apply andb_true_iff in Hs.
  constructor; [apply Hs | apply IH, Hs].
Qed.

(** Whatever the swap table holds, the locator never answers with an
    entry of the table: its answer is the file at the well-known path
    or none. *)
Lemma find_swap_file_never_from_table
    {W : Type} (h : handler W) (w : W) (needed_size : Z) (content : string) (f : swap_file) :
  fst (h _ (ReadText "/proc/swaps") w) = Some content ->
  nul_free content = true ->
  outcome_of (run h (find_swap_file needed_size) w) = Done (Some f) ->
  path f = swap_file_name /\
  exists st, In (Ev (Stat swap_file_name) (Some st))
               (trace_of (run h (find_swap_file needed_size) w))
             /\ capacity f = wrap64 (st_size st).
Proof.
  intros Hread Hnul. unfold find_swap_file. cbn [bind call].
  rewrite run_call, Hread. cbn [bind].
  pose proof (fgets_loop_nul_free (String.length content) 1023 content Hnul) as Hall.
  fold (fgets_all 1023 content) in Hall.
  destruct (fgets_all 1023 content) as [| hdr lines]; [discriminate |].
  inversion Hall as [| ? ? _ Hlines]; subst.
  destruct (swaps_scan_never_taken needed_size lines Hlines) as [-> | [why ->]];
    [| discriminate].
  cbn [bind]. rewrite run_call.
  destruct (fst (h _ (Stat swap_file_name) _)) as [st |] eqn:Hst; [| discriminate].
  destruct (st_kind st) eqn:Hk; try discriminate.
  unfold outcome_of, trace_of. simpl. intros [= <-]. split; [reflexivity |].
  exists st. split; [right; left; reflexivity | reflexivity].
Qed.

(** ** GRUB settings rewrite *)

(** C5.  A settings file whose last line has no newline, [GRUB_TIMEOUT=5]:
    the first rewrite appends the managed block to that line, the second
    takes the joined line for the start of the block and drops it, so the
    two contents differ and the setting is gone. *)
Theorem grub_rewrite_twice_differs :
  let args := kernel_args "abcd" 34816 in
  let once := grub_rewrite (Some "GRUB_TIMEOUT=5") args in
  let twice := grub_rewrite (Some once) args in
  once = "GRUB_TIMEOUT=5" ++ managed_block args /\
  twice = managed_block args /\
  once <> twice /\
  let fs0 := [("/etc/default/grub", "GRUB_TIMEOUT=5")] in
  read_file (patch_grub_once fs0) "/etc/default/grub" = Some once /\
  read_file (patch_grub_once (patch_grub_once fs0)) "/etc/default/grub" = Some twice.
Proof.
  repeat split; try (vm_compute; reflexivity).
  vm_compute. intro H. discriminate H.
Qed.

(** ** Footprints: the kinds of calls a function makes *)

Lemma within_app (F : footprint) (a b : list event) :
  within F (a ++ b) <-> within F a /\ within F b.
Proof.
  unfold within. rewrite forallb_app. apply andb_true_iff.
Qed.

Lemma tag_mem_subset (g : tag) (a b : list tag) :
  forallb (fun g => tag_mem g b) a = true -> tag_mem g a = true -> tag_mem g b = true.
Proof.
  intros Hs Hg. rewrite forallb_forall in Hs.
  unfold tag_mem in Hg. rewrite existsb_exists in Hg. destruct Hg as [g' [Hin Heq]].
  specialize (Hs g' Hin). unfold tag_mem in *. rewrite existsb_exists in *.
  destruct Hs as [g'' [Hin' Heq']]. exists g''. split; [exact Hin' |].
  unfold tag_eqb in *. apply Nat.eqb_eq in Heq, Heq'. apply Nat.eqb_eq. congruence.
Qed.

Lemma str_mem_subset (s : string) (a b : list string) :
  forallb (fun s => str_mem s b) a = true -> str_mem s a = true -> str_mem s b = true.
Proof.
  intros Hs Hg. rewrite forallb_forall in Hs.
  unfold str_mem in Hg. rewrite existsb_exists in Hg. destruct Hg as [s' [Hin Heq]].
  apply String.eqb_eq in Heq. subst s'. apply Hs. exact Hin.
Qed.

Lemma mode_mem_subset (s : open_mode) (a b : list open_mode) :
  forallb (fun s => mode_mem s b) a = true -> mode_mem s a = true -> mode_mem s b = true.
Proof.
  intros Hs Hg. rewrite forallb_forall in Hs.
  unfold mode_mem in Hg. rewrite existsb_exists in Hg. destruct Hg as [s' [Hin Heq]].
  assert (s = s') by (destruct s, s'; try discriminate Heq; reflexivity).
  subst s'. apply Hs. exact Hin.
Qed.

Lemma allowed_subset (F F' : footprint) {R : Type} (c : sys R) :
  fp_subset F F' = true -> allowed F c = true -> allowed F' c = true.
Proof.
  unfold fp_subset, allowed. intros Hs. apply andb_true_iff in Hs. destruct Hs as [Hs Hop].
  apply andb_true_iff in Hs. destruct Hs as [Hs Hsp].
  apply andb_true_iff in Hs. destruct Hs as [Ht Hl].
  intros H. apply orb_true_iff in H. destruct H as [H | H].
  - rewrite (tag_mem_subset _ _ _ Ht H). reflexivity.
  - destruct c; try discriminate H; simpl in *.
    + apply orb_true_iff in Hl. destruct Hl as [Hl | Hl].
      * rewrite Hl. reflexivity.
      * rewrite (str_mem_subset _ _ _ Hl H). apply orb_true_r.
    + apply orb_true_iff in Hop. destruct Hop as [Hop | Hop].
      * rewrite Hop. reflexivity.
      * rewrite (mode_mem_subset _ _ _ Hop H). apply orb_true_r.
    + apply orb_true_iff in Hsp. destruct Hsp as [Hsp | Hsp].
      * rewrite Hsp. reflexivity.
      * rewrite (str_mem_subset _ _ _ Hsp H). apply orb_true_r.
Qed.

Lemma within_weaken (F F' : footprint) (t : list event) :
  fp_subset F F' = true -> within F t -> within F' t.
Proof.
  unfold within. intros Hs Ht.
  rewrite forallb_forall in *. intros e He. specialize (Ht e He).
  destruct e as [R c r]. simpl in *. apply (allowed_subset F F' c Hs Ht).
Qed.

Lemma within_excludes (F : footprint) (P : event -> bool) (t : list event) :
  (forall e, allowed_event F e = true -> P e = false) ->
  within F t -> existsb P t = false.
Proof.
  intros HP Ht. apply not_true_is_false. intros Hex.
  apply existsb_exists in Hex. destruct Hex as [e [He HPe]].
  unfold within in Ht. rewrite forallb_forall in Ht. specialize (Ht e He).
  rewrite (HP e Ht) in HPe. discriminate HPe.
Qed.

Lemma footprint_bind {A B : Type} (F : footprint) (p : prog A) (f : A -> prog B) :
  wp p (fun t _ => within F t) ->
  (forall a, wp (f a) (fun t _ => within F t)) ->
  wp (bind p f) (fun t _ => within F t).
Proof.
  intros Hp Hf. apply wp_bind. eapply wp_weaken; [| exact Hp].
  intros t o Ht. destruct o as [a | m | y]; simpl; try exact Ht.
  eapply wp_weaken; [| apply Hf]. intros t' o' Ht'. apply within_app. split; assumption.
Qed.

Lemma footprint_call {A R : Type} (F : footprint) (c : sys R) (k : R -> prog A) :
  allowed F c = true ->
  (forall r, wp (k r) (fun t _ => within F t)) ->
  wp (Call c k) (fun t _ => within F t).
Proof.
  intros Hc Hk. simpl. intros r. eapply wp_weaken; [| apply Hk].
  intros t o Ht. unfold within in *. simpl. rewrite Hc. exact Ht.
Qed.

Lemma footprint_weaken {A : Type} (F F' : footprint) (p : prog A) :
  wp p (fun t _ => within F t) ->
  fp_subset F F' = true ->
  wp p (fun t _ => within F' t).
Proof.
  intros Hp Hs. eapply wp_weaken; [| exact Hp].
  intros t o. apply within_weaken. exact Hs.
Qed.

Create HintDb footprint.

Ltac head_of t :=
  lazymatch t with
  | ?f _ => head_of f
  | _ => t
  end.

Ltac footprint :=
  lazymatch goal with
  | |- wp (Ret _) _ => reflexivity
  | |- wp (Die _) _ => reflexivity
  | |- wp (Undef _) _ => reflexivity
  | |- wp (log_fatal _) _ => reflexivity
  | |- wp (Call _ _) _ => apply footprint_call; [reflexivity | intros; footprint]
  | |- wp (call _) _ => unfold call; footprint
  | |- wp (log_info _) _ => unfold log_info, call; footprint
  | |- wp (bind _ _) _ => apply footprint_bind; [footprint | intros; footprint]
  | |- wp (if ?b then _ else _) _ => destruct b; footprint
  | |- wp (match ?x with _ => _ end) _ => destruct x; footprint
  | |- wp (let '(_, _) := ?x in _) _ => destruct x; footprint
  | |- wp ?p _ =>
      first
        [ eapply footprint_weaken; [solve [eauto with footprint] | reflexivity]
        | let h := head_of p in unfold h; footprint ]
  end.

Lemma find_executable_loop_footprint (fuel : nat) (name env : string) :
  wp (find_executable_loop fuel name env) (fun t _ => within F_lookup t).
Proof.
  revert env. induction fuel as [| fuel IH]; intros env; simpl; [reflexivity |].
  destruct env as [| c env]; [reflexivity |].
  destruct (split_colon (String c env)) as [[[| s seg] rest] |]; [apply IH | |];
    (destruct (PATH_MAX <=? _); [reflexivity |]);
    (destruct (negb _); [apply IH |]);
    (apply footprint_call; [reflexivity |]; intros [|]; [reflexivity | apply IH]).
Qed.
#[export] Hint Resolve find_executable_loop_footprint : footprint.

Lemma is_exec_in_path_footprint (name : string) :
  wp (is_exec_in_path name) (fun t _ => within (only_tags [TGetenv; TAccess]) t).
Proof. footprint. Qed.
#[export] Hint Resolve is_exec_in_path_footprint : footprint.

Lemma uuid_dir_scan_footprint (dir : string) (rdev : Z) (entries : list string) :
  wp (uuid_dir_scan dir rdev entries) (fun t _ => within (only_tags [TFstatat]) t).
Proof.
  induction entries as [| d rest IH]; simpl; [reflexivity |].
  intros [st |]; [| eapply wp_weaken; [| apply IH]; intros t o Ht; exact Ht].
  destruct (negb _); [eapply wp_weaken; [| apply IH]; intros t o Ht; exact Ht |].
  destruct (_ =? _); [reflexivity |].
  eapply wp_weaken; [| apply IH]. intros t o Ht. exact Ht.
Qed.
#[export] Hint Resolve uuid_dir_scan_footprint : footprint.

Lemma mount_scan_footprint (dev : Z) (ents : list mntent) :
  wp (mount_scan dev ents) (fun t _ => within (only_tags [TStat]) t).
Proof.
  induction ents as [| ent rest IH]; simpl; [reflexivity |].
  intros [st |]; [| eapply wp_weaken; [| apply IH]; intros t o Ht; exact Ht].
  destruct (_ =? _); [reflexivity |].
  eapply wp_weaken; [| apply IH]. intros t o Ht. exact Ht.
Qed.
#[export] Hint Resolve mount_scan_footprint : footprint.

Lemma root_sector_size_footprint (ents : list mntent) :
  wp (root_sector_size ents) (fun t _ => within (only_tags [TOpen; TBLKSSZGET; TClose]) t).
Proof.
  induction ents as [| ent rest IH]; simpl; [reflexivity |].
  destruct (String.eqb _ _); [| exact IH].
  footprint.
Qed.
#[export] Hint Resolve root_sector_size_footprint : footprint.

Lemma scan_blocks_footprint (n : nat) (fd i : Z) (st : scan_state) :
  wp (scan_blocks n fd i st) (fun t _ => within (only_tags [TFIBMAP]) t).
Proof.
  revert i st. induction n as [| n IH]; intros i st; simpl; [reflexivity |].
  intros [b |]; [| reflexivity].
  destruct (_ && _); [reflexivity |].
  eapply wp_weaken; [| apply IH]. intros t o Ht. exact Ht.
Qed.
#[export] Hint Resolve scan_blocks_footprint : footprint.

Lemma pattern_loop_footprint (n : nat) (fd offset block_size : Z) :
  wp (pattern_loop n fd offset block_size) (fun t _ => within (mk_footprint [TPwrite] ["Could not write pattern to %s: %s"] [] []) t).
Proof.
  revert offset. induction n as [| n IH]; intros offset; simpl; [reflexivity |].
  intros [|]; [| intros []; reflexivity].
  eapply wp_weaken; [| apply IH]. intros t o Ht. exact Ht.
Qed.
#[export] Hint Resolve pattern_loop_footprint : footprint.

Lemma swaps_line_footprint (needed_size : Z) (chunk : string) :
  wp (swaps_line needed_size chunk) (fun t _ => within (only_tags []) t).
Proof.
  unfold swaps_line, parse_size_or_die. footprint.
Qed.
#[export] Hint Resolve swaps_line_footprint : footprint.

Lemma swaps_scan_footprint (needed_size : Z) (lines : list string) :
  wp (swaps_scan needed_size lines) (fun t _ => within (only_tags []) t).
Proof.
  induction lines as [| chunk rest IH]; simpl; [reflexivity |].
  apply footprint_bind; [apply swaps_line_footprint |].
  intros [f |]; [reflexivity | exact IH].
Qed.
#[export] Hint Resolve swaps_scan_footprint : footprint.

Lemma meminfo_line_footprint (chunk : string) :
  wp (meminfo_line chunk) (fun t _ => within (only_tags []) t).
Proof.
  unfold meminfo_line, parse_size_or_die. footprint.
Qed.
#[export] Hint Resolve meminfo_line_footprint : footprint.

Lemma meminfo_scan_footprint (lines : list string) :
  wp (meminfo_scan lines) (fun t _ => within (only_tags []) t).
Proof.
  induction lines as [| chunk rest IH]; simpl; [reflexivity |].
  apply footprint_bind; [apply meminfo_line_footprint |].
  intros [f |]; [reflexivity | exact IH].
Qed.
#[export] Hint Resolve meminfo_scan_footprint : footprint.

Lemma find_swap_file_footprint (needed_size : Z) :
  wp (find_swap_file needed_size) (fun t _ => within F_find_swap_file t).
Proof. footprint. Qed.
#[export] Hint Resolve find_swap_file_footprint : footprint.

Lemma create_swap_file_with_size_footprint (p : string) (size : Z) :
  wp (create_swap_file_with_size p size) (fun t _ => within F_create_with_size t).
Proof. footprint. Qed.
#[export] Hint Resolve create_swap_file_with_size_footprint : footprint.

Lemma determine_block_size_footprint :
  wp determine_block_size_for_root_fs (fun t _ => within F_block_size t).
Proof. footprint. Qed.
#[export] Hint Resolve determine_block_size_footprint : footprint.

Lemma perform_fs_specific_checks_footprint (p : string) :
  wp (perform_fs_specific_checks p) (fun t _ => within F_fs_checks t).
Proof. footprint. Qed.
#[export] Hint Resolve perform_fs_specific_checks_footprint : footprint.

(** ** Traces *)

Lemma before_app (P Q : event -> bool) (s l : list event) :
  existsb Q s = false ->
  before P Q (s ++ l) = existsb P s || before P Q l.
Proof.
  induction s as [| e s IH]; simpl; [reflexivity |].
  intros H. apply orb_false_iff in H. destruct H as [HQ Hs].
  destruct (P e); [reflexivity |]. rewrite HQ. simpl. apply IH. exact Hs.
Qed.

Lemma nothing_after_app (P : event -> bool) (s l : list event) :
  existsb P s = false ->
  nothing_after P (s ++ l) = nothing_after P l.
Proof.
  induction s as [| e s IH]; simpl; [reflexivity |].
  intros H. apply orb_false_iff in H. destruct H as [HP Hs].
  rewrite HP. simpl. apply IH. exact Hs.
Qed.

Lemma before_absent (P Q : event -> bool) (s : list event) :
  existsb Q s = false -> before P Q s = true.
Proof.
  intros H. rewrite <- (app_nil_r s), before_app by exact H. apply orb_true_r.
Qed.

Lemma nothing_after_absent (P : event -> bool) (s : list event) :
  existsb P s = false -> nothing_after P s = true.
Proof.
  intros H. rewrite <- (app_nil_r s), nothing_after_app by exact H. reflexivity.
Qed.

Lemma count_app (P : event -> bool) (s l : list event) :
  count P (s ++ l) = (count P s + count P l)%nat.
Proof.
  unfold count. rewrite filter_app, length_app. reflexivity.
Qed.

Lemma count_none (P : event -> bool) (s : list event) :
  existsb P s = false -> count P s = 0%nat.
Proof.
  unfold count. induction s as [| e s IH]; simpl; [reflexivity |].
  intros H. apply orb_false_iff in H. destruct H as [HP Hs].
  rewrite HP. apply IH. exact Hs.
Qed.

(** Discharging [allowed_event F e = true -> P e = false]. *)
Ltac excl_finish :=
  try reflexivity;
  try (vm_compute; reflexivity);
  try solve [ repeat match goal with
                     | |- context [match ?l with [] => _ | _ :: _ => _ end] =>
                         is_var l; destruct l
                     end; reflexivity ].

Ltac str_cases H :=
  repeat match type of H with
         | context [String.eqb ?a ?b] =>
             destruct (String.eqb_spec a b); [subst; excl_finish |]
         end;
  try discriminate H.

Ltac excl :=
  let R := fresh "R" in
  let c := fresh "c" in
  let r := fresh "r" in
  let H := fresh "H" in
  intros [R c r] H; destruct c;
  try match goal with m : open_mode |- _ => destruct m end;
  cbn in H |- *;
  try reflexivity; try discriminate H; str_cases H.

Ltac absent P s :=
  cbv beta in *;
  match goal with
  | Hs : within ?F s |- _ =>
      let H := fresh "Habs" in
      assert (H : existsb P s = false)
        by (apply (within_excludes F P s); [excl | exact Hs])
  end.

Lemma pattern_loop_spec (n : nat) (fd offset block_size : Z) :
  wp (pattern_loop n fd offset block_size)
     (fun t o =>
        within (mk_footprint [TPwrite] ["Could not write pattern to %s: %s"] [] []) t
        /\ (existsb slow_path_failed t = true -> o = Done false)).
Proof.
  apply wp_conj; [apply pattern_loop_footprint |].
  revert offset. induction n as [| n IH]; intros offset; simpl; [discriminate |].
  intros [|]; simpl.
  - eapply wp_weaken; [| apply IH]. intros t o H. exact H.
  - intros []. reflexivity.
Qed.

Lemma try_zero_out_with_write_spec (p : string) (needed_size : Z) :
  wp (try_zero_out_with_write p needed_size)
     (fun t o =>
        within F_zero_out t
        /\ (existsb slow_path_failed t = true -> o = Done false)).
Proof.
  apply wp_conj; [footprint |].
  unfold try_zero_out_with_write. cbn [bind call wp log_info].
  intros [fd |]; cbn [bind wp log_info call].
  2:{ intros []. reflexivity. }
  apply wp_bind. eapply wp_weaken; [| apply determine_block_size_footprint].
  intros t o Ht. absent slow_path_failed t.
  destruct o as [bs | m | y]; cbn [after existsb slow_path_failed negb orb];
    try (rewrite Habs; discriminate).
  destruct (_ && _); cbn [wp existsb slow_path_failed negb orb];
    [rewrite existsb_app, Habs; discriminate |].
  apply wp_bind. eapply wp_weaken; [| apply pattern_loop_spec].
  cbv beta. intros t' o' [Ht' Hfail].
  destruct o' as [[|] | m | y]; cbn [after bind wp call].
  - intros [] []. cbn [existsb]. rewrite !existsb_app, Habs. cbn.
    rewrite !orb_false_r. intros H. specialize (Hfail H). discriminate Hfail.
  - intros []. reflexivity.
  - cbn [existsb slow_path_failed]. rewrite existsb_app, Habs. cbn. exact Hfail.
  - cbn [existsb slow_path_failed]. rewrite existsb_app, Habs. cbn. exact Hfail.
Qed.

Lemma existsb_weaken (P P' : event -> bool) (t : list event) :
  (forall e, P e = true -> P' e = true) ->
  existsb P t = true -> existsb P' t = true.
Proof.
  intros HP H. apply existsb_exists in H. destruct H as [e [He HPe]].
  apply existsb_exists. exists e. split; [exact He | apply HP, HPe].
Qed.

Lemma nothing_after_weaken (P P' : event -> bool) (t : list event) :
  (forall e, P e = true -> P' e = true) ->
  nothing_after P' t = true -> nothing_after P t = true.
Proof.
  intros HP. induction t as [| e t IH]; simpl; [reflexivity |].
  intros H. apply andb_true_iff in H. destruct H as [He Ht].
  rewrite (IH Ht), andb_true_r.
  destruct (P e) eqn:HPe; [| reflexivity].
  rewrite (HP e HPe) in He. exact He.
Qed.

Lemma count_positive (P : event -> bool) (t : list event) :
  existsb P t = true -> (1 <= count P t)%nat.
Proof.
  unfold count. induction t as [| e t IH]; simpl; [discriminate |].
  destruct (P e); simpl; [lia | exact IH].
Qed.

(** ** Block-commitment cascade *)

Lemma try_zeroing_out_with_fallocate_spec (p : string) (size : Z) :
  wp (try_zeroing_out_with_fallocate p size)
     (fun t o =>
        match o with
        | Done true => exists fd, t = [Ev (Open p O_WRONLY_CLOEXEC) (Some fd);
                                       Ev (Fallocate fd 0 size) (Ok tt);
                                       Ev (Close fd) tt]
        | Done false => t = [Ev (Open p O_WRONLY_CLOEXEC) None;
                             Ev (LogInfo "Could not open %s for writing: %s") tt]
        | Fatal _ => exists fd e, t = [Ev (Open p O_WRONLY_CLOEXEC) (Some fd);
                                       Ev (Fallocate fd 0 size) (Err e)]
        | Undefined _ => False
        end).
Proof.
  unfold try_zeroing_out_with_fallocate. cbn [bind call wp log_info].
  intros [fd |].
  - intros [[] | e]; cbn [wp].
    + intros []. exists fd. reflexivity.
    + destruct (errno_eqb e ENOSPC); cbn [wp log_fatal]; exists fd, e; reflexivity.
  - intros []. reflexivity.
Qed.

Lemma count_cons (P : event -> bool) (e : event) (l : list event) :
  count P (e :: l) = ((if P e then 1 else 0) + count P l)%nat.
Proof. unfold count. simpl. destruct (P e); reflexivity. Qed.

Lemma count_nil (P : event -> bool) : count P [] = 0%nat.
Proof. reflexivity. Qed.

#[local] Opaque XFS_SUPER_MAGIC.

Ltac use_absent :=
  repeat match goal with
         | H : existsb ?P ?s = false |- context [existsb ?P ?s] => rewrite H
         end.

Lemma slow_path_entry_open_failed :
  slow_path_entry (Ev (Open swap_file_name O_WRONLY_CLOEXEC) None) = true.
Proof. reflexivity. Qed.

Lemma slow_path_entry_statfs (f_type f_bsize : Z) :
  slow_path_entry (Ev (Statfs swap_file_name) (Some (f_type, f_bsize)))
  = (f_type =? XFS_SUPER_MAGIC).
Proof.
  unfold slow_path_entry, statfs_xfs, fast_open_failed.
  rewrite String.eqb_refl, orb_false_r. reflexivity.
Qed.

Ltac use_tests :=
  repeat match goal with
         | H : ?b = true |- context [?b] => rewrite H
         | H : ?b = false |- context [?b] => rewrite H
         end.

Ltac trace_norm :=
  rewrite <- ?app_assoc, ?app_nil_r;
  repeat (progress
    (cbn [app existsb before nothing_after orb andb negb Nat.add is_fatal is_done
          fallocate_failed fallocate_out_of_space is_fallocate is_pwrite logs slow_path
          slow_path_failed statfs_xfs fast_open_failed String.eqb Ascii.eqb Bool.eqb
          errno_eqb];
     rewrite ?slow_path_entry_statfs;
     rewrite ?count_cons, ?count_app, ?count_nil, ?existsb_app;
     rewrite ?count_none by assumption;
     rewrite ?before_app by assumption;
     rewrite ?nothing_after_app by assumption;
     rewrite ?before_absent by assumption;
     rewrite ?nothing_after_absent by assumption;
     use_absent; use_tests;
     rewrite ?orb_true_r, ?orb_false_r)).

Ltac wp_focus :=
  repeat lazymatch goal with
         | |- wp (bind (bind _ _) _) _ => apply wp_bind
         end.

Ltac wp_fn lem :=
  wp_focus; apply wp_bind; eapply wp_weaken; [| apply lem]; cbv beta.

Ltac wp_go :=
  cbn [after negb bind wp call log_info log_fatal].

Ltac leaf :=
  trace_norm;
  repeat match goal with
         | |- _ /\ _ => split
         | |- _ -> _ => intro
         end;
  trace_norm;
  try solve [ reflexivity | assumption | discriminate | lia | exact I
            | match goal with H : False |- _ => destruct H end
            | match goal with
              | H : context [_ || _] |- _ =>
                  repeat (apply orb_prop in H; destruct H as [H | H]);
                  first [discriminate H | congruence]
              end ].

Ltac no_failure H :=
  match type of H with
  | existsb ?P ?t = true -> _ =>
      let E := fresh "Hnone" in
      destruct (existsb P t) eqn:E; [specialize (H eq_refl); discriminate H | clear H]
  end.

Ltac cascade_leaf :=
  try lazymatch goal with
      | |- cascade_post _ _ => unfold cascade_post; solve [leaf]
      end.

Ltac cascade_tail :=
  wp_fn perform_fs_specific_checks_footprint;
  let t3 := fresh "t" in
  let o3 := fresh "o" in
  let H3 := fresh "H" in
  intros t3 o3 H3;
  absent fallocate_failed t3; absent is_fallocate t3; absent slow_path t3;
  absent slow_path_failed t3;
  destruct o3 as [[] | ? | ?]; wp_go; cascade_leaf;
  unfold spawn_and_wait; wp_go; intros [|]; wp_go; cascade_leaf.

Ltac cascade_slow :=
  wp_fn try_zero_out_with_write_spec;
  let t2 := fresh "t" in
  let o2 := fresh "o" in
  let H2 := fresh "H" in
  let Hfail2 := fresh "Hfail" in
  intros t2 o2 [H2 Hfail2];
  absent fallocate_failed t2; absent is_fallocate t2;
  destruct o2 as [[|] | ? | ?]; wp_go; try no_failure Hfail2; cascade_leaf;
  cascade_tail.

Lemma create_swap_file_cascade (needed_size : Z) :
  wp (create_swap_file needed_size) cascade_post.
Proof.
  unfold create_swap_file. wp_go.
  intros [].
  wp_fn create_swap_file_with_size_footprint.
  intros t1 o1 H1.
  absent fallocate_failed t1. absent is_fallocate t1. absent slow_path t1.
  absent slow_path_failed t1.
  destruct o1 as [[|] | m | y]; wp_go; cascade_leaf.
  intros [] []. unfold is_file_on_fs. wp_go.
  intros [[f_type f_bsize] |]; wp_go.
  - destruct (f_type =? XFS_SUPER_MAGIC) eqn:Hxfs; wp_go.
    + intros []. cascade_slow.
    + wp_fn try_zeroing_out_with_fallocate_spec.
      intros t2 o2 H2.
      destruct o2 as [[|] | m | y]; wp_go;
        [destruct H2 as [fd ->] | subst t2 | destruct H2 as [fd [e ->]] | destruct H2];
        cascade_leaf.
      * cascade_tail.
      * intros []. cascade_slow.
  - wp_fn try_zeroing_out_with_fallocate_spec.
    intros t2 o2 H2.
    destruct o2 as [[|] | m | y]; wp_go;
      [destruct H2 as [fd ->] | subst t2 | destruct H2 as [fd [e ->]] | destruct H2];
      cascade_leaf.
    + cascade_tail.
    + intros []. cascade_slow.
Qed.

Lemma out_of_space_is_failure (e : event) :
  fallocate_out_of_space e = true -> fallocate_failed e = true.
Proof.
  destruct e as [R c r]. destruct c; try discriminate.
  destruct r as [[] | []]; simpl; congruence.
Qed.

Lemma failure_is_fallocate (e : event) :
  fallocate_failed e = true -> is_fallocate e = true.
Proof.
  destruct e as [R c r]. destruct c; try discriminate. reflexivity.
Qed.

(** C8.  In every run of [create_swap_file]: when the reserve-space call
    reports that the disk is full, the run is fatal, that call is the
    last event and the only reserve-space call, and the slow path is
    never entered; the slow pattern-write path is entered only after the
    file system was found to be XFS or the file could not be opened for
    the fast path, and then no reserve-space call is made; and when the
    slow path fails, the run is fatal. *)
Theorem create_swap_file_commits_blocks
    {W : Type} (h : handler W) (w : W) (needed_size : Z) :
  let t := trace_of (run h (create_swap_file needed_size) w) in
  let o := outcome_of (run h (create_swap_file needed_size) w) in
  (existsb fallocate_out_of_space t = true ->
     is_fatal o /\ nothing_after fallocate_out_of_space t = true /\
     count is_fallocate t = 1%nat /\ existsb slow_path t = false) /\
  (existsb slow_path t = true ->
     before slow_path_entry slow_path t = true /\ existsb is_fallocate t = false) /\
  (existsb slow_path_failed t = true -> is_fatal o).
Proof.
  intros t o.
  destruct (wp_run h _ _ w (create_swap_file_cascade needed_size))
    as [Hfail [Hcount [Hbefore [Hslow Hspf]]]].
  fold t in Hfail, Hcount, Hbefore, Hslow, Hspf. fold o in Hfail, Hspf.
  split; [| split].
  - intros Hoos.
    assert (Hff : existsb fallocate_failed t = true)
      by (apply (existsb_weaken _ _ t out_of_space_is_failure Hoos)).
    destruct (Hfail Hff) as [Hfatal [Hlast Hnoslow]].
    split; [exact Hfatal |]. split; [| split; [| exact Hnoslow]].
    + apply (nothing_after_weaken _ _ t out_of_space_is_failure Hlast).
    + pose proof (count_positive is_fallocate t
                    (existsb_weaken _ _ t failure_is_fallocate Hff)). lia.
  - intros Hs. split; [exact Hbefore | exact (Hslow Hs)].
  - exact Hspf.
Qed.

Lemma create_swap_file_commits_blocks_witness :
  let t := trace_of (run (simulate full_disk_machine) (create_swap_file 8192) []) in
  let o := outcome_of (run (simulate full_disk_machine) (create_swap_file 8192) []) in
  is_fatal o /\ nothing_after fallocate_out_of_space t = true /\
  count is_fallocate t = 1%nat /\ existsb slow_path t = false.
Proof.
  exact (proj1 (create_swap_file_commits_blocks (simulate full_disk_machine) [] 8192)
           ltac:(vm_compute; reflexivity)).
Defined.

#[local] Transparent XFS_SUPER_MAGIC.

(** ** Resume offset *)

Lemma get_swap_file_offset_footprint (fd : Z) :
  wp (get_swap_file_offset fd) (fun t _ => within F_resolver t).
Proof. footprint. Qed.
#[export] Hint Resolve get_swap_file_offset_footprint : footprint.

Lemma get_disk_uuid_for_file_path_footprint (p : string) :
  wp (get_disk_uuid_for_file_path p) (fun t _ => within F_uuid t).
Proof. footprint. Qed.
#[export] Hint Resolve get_disk_uuid_for_file_path_footprint : footprint.

Lemma is_kernel_cmdline_correct_footprint (dev_uuid : string) (resume_offset : Z) :
  wp (is_kernel_cmdline_correct dev_uuid resume_offset) (fun t _ => within F_cmdline t).
Proof. footprint. Qed.
#[export] Hint Resolve is_kernel_cmdline_correct_footprint : footprint.

Lemma update_kernel_cmdline_params_for_grub_footprint
    (dev_uuid : string) (swap_area : resume_swap_area) (g u m : bool) :
  wp (update_kernel_cmdline_params_for_grub dev_uuid swap_area g u m)
     (fun t _ => within F_patch t).
Proof. footprint. Qed.
#[export] Hint Resolve update_kernel_cmdline_params_for_grub_footprint : footprint.

Lemma patch_boot_configuration_footprint (dev_uuid : string) (swap_area : resume_swap_area) :
  wp (patch_boot_configuration dev_uuid swap_area) (fun t _ => within F_patch t).
Proof. footprint. Qed.
#[export] Hint Resolve patch_boot_configuration_footprint : footprint.

Lemma reconcile_cmdline_footprint (dev_uuid : string) (swap_area : resume_swap_area) :
  wp (reconcile_cmdline dev_uuid swap_area) (fun t _ => within F_patch t).
Proof. footprint. Qed.
#[export] Hint Resolve reconcile_cmdline_footprint : footprint.

#[local] Opaque INVALID_OFFSET.

Ltac offset_norm :=
  rewrite <- ?app_assoc, ?app_nil_r;
  repeat (progress
    (cbn [app existsb before nothing_after orb andb negb is_fatal is_done
          uses_offset registers_invalid fstat_not_regular logs area_resolved_msg
          String.eqb Ascii.eqb Bool.eqb kind_eqb area_offset st_kind];
     rewrite ?existsb_app;
     rewrite ?before_app by assumption;
     rewrite ?before_absent by assumption;
     use_absent; use_tests;
     rewrite ?orb_true_r, ?orb_false_r)).

Ltac offset_leaf :=
  try lazymatch goal with
      | |- area_post _ _ => unfold area_post
      | |- offset_post _ _ => unfold offset_post
      end;
  offset_norm;
  repeat match goal with
         | |- _ /\ _ => split
         | |- _ -> _ => intro
         end;
  offset_norm;
  repeat match goal with
         | Hi : ?a = true -> _, Ha : ?a = true |- _ => specialize (Hi Ha)
         end;
  cbn [is_fatal is_done] in *;
  try solve [ reflexivity | assumption | discriminate | exact I | congruence
            | match goal with H : False |- _ => destruct H end
            | match goal with H : _ /\ _ |- _ => apply H end ].

Lemma area_of_open_file_spec (swap : swap_file) (fd : Z) (st : stat_t) :
  wp (area_of_open_file swap fd st)
     (fun t o =>
        existsb uses_offset t = false /\
        existsb fstat_not_regular t = false /\
        (kind_eqb (st_kind st) S_IFREG = false -> is_fatal o) /\
        match o with
        | Done area =>
            area_offset area <> INVALID_OFFSET /\
            existsb (logs area_resolved_msg) t = true
        | _ => existsb (logs area_resolved_msg) t = false
        end).
Proof.
  unfold area_of_open_file.
  destruct (kind_eqb (st_kind st) S_IFREG) eqn:Hreg; wp_go; [| offset_leaf].
  wp_fn get_swap_file_offset_footprint. intros t1 o1 H1.
  absent uses_offset t1. absent fstat_not_regular t1. absent (logs area_resolved_msg) t1.
  destruct o1 as [offset | m | y]; wp_go; try solve [offset_leaf].
  destruct (Z.eqb_spec offset INVALID_OFFSET) as [Heq | Hne]; wp_go; [offset_leaf |].
  intros [] []. offset_leaf.
Qed.

Lemma get_swap_area_spec (swap : swap_file) :
  wp (get_swap_area swap) area_post.
Proof.
  unfold get_swap_area. wp_go. intros [fd |]; wp_go; [| offset_leaf].
  intros [st |]; wp_go; [| offset_leaf].
  eapply wp_weaken; [| apply area_of_open_file_spec].
  intros t o [Huse [Hfs [Hreg Ho]]].
  destruct (kind_eqb (st_kind st) S_IFREG) eqn:Hk.
  - destruct o as [area | m | y]; [destruct Ho as [Hoff Hlog] | |]; offset_leaf.
  - specialize (Hreg eq_refl).
    destruct o as [area | m | y]; try destruct Hreg; offset_leaf.
Qed.

Ltac neq_test H :=
  match type of H with
  | ?a <> ?b =>
      let E := fresh "Htest" in
      assert (E : (a =? b) = false) by (apply Z.eqb_neq; exact H)
  end.

Lemma absent_weaken (P P' : event -> bool) (t : list event) :
  (forall e, P e = true -> P' e = true) ->
  existsb P' t = false -> existsb P t = false.
Proof.
  intros HP H. apply not_true_is_false. intros HPt.
  rewrite (existsb_weaken P P' t HP HPt) in H. discriminate H.
Qed.

Lemma registers_invalid_uses_offset (e : event) :
  registers_invalid e = true -> uses_offset e = true.
Proof.
  destruct e as [R c r]. destruct c; try discriminate. reflexivity.
Qed.

Lemma update_swap_offset_footprint (swap : swap_file) :
  wp (update_swap_offset swap) (fun t _ => within F_update_swap_offset t).
Proof. footprint. Qed.
#[export] Hint Resolve update_swap_offset_footprint : footprint.

Lemma ensure_udev_rules_are_installed_footprint :
  wp ensure_udev_rules_are_installed (fun t _ => within F_udev t).
Proof. footprint. Qed.
#[export] Hint Resolve ensure_udev_rules_are_installed_footprint : footprint.

Lemma ensure_swap_is_enabled_footprint (swap : swap_file) (created : bool) :
  wp (ensure_swap_is_enabled swap created) (fun t _ => within F_enable t).
Proof. footprint. Qed.
#[export] Hint Resolve ensure_swap_is_enabled_footprint : footprint.

Lemma finish_setup_footprint (swap : swap_file) (created : bool) :
  wp (finish_setup swap created) (fun t _ => within F_finish t).
Proof. footprint. Qed.
#[export] Hint Resolve finish_setup_footprint : footprint.

Lemma update_swap_offset_spec (swap : swap_file) :
  wp (update_swap_offset swap) offset_post.
Proof.
  unfold update_swap_offset. wp_go. intros [] [fd |]; wp_go; [| intros []; offset_leaf].
  wp_fn get_swap_area_spec. intros t1 o1 [Huse [Hfs Ho]].
  pose proof (absent_weaken _ _ t1 registers_invalid_uses_offset Huse) as Hinv.
  destruct o1 as [area | m | y]; wp_go.
  2,3: specialize (Hfs); offset_leaf.
  destruct Ho as [Hoff [Hlog Hreg]]. neq_test Hoff.
  intros [|]; wp_go.
  - intros []. wp_fn get_disk_uuid_for_file_path_footprint. intros t2 o2 H2.
    absent registers_invalid t2. absent fstat_not_regular t2.
    destruct o2 as [[uuid |] | m | y]; wp_go; try solve [offset_leaf].
    intros [].
    eapply wp_weaken; [| apply reconcile_cmdline_footprint]. cbv beta.
    intros t3 o3 H3.
    absent registers_invalid t3. absent fstat_not_regular t3.
    offset_leaf.
  - intros [] []. offset_leaf.
Qed.

(** C7.  The unresolvable offset never leaves the process.  [get_swap_area]
    registers and patches nothing, is fatal when [fstat] reports a file
    that is not regular, and returns only areas whose offset is not the
    sentinel; once the file is open, a resolver answer equal to the
    sentinel makes it fatal; and in every run of [update_swap_offset] the
    offset is registered with the kernel, or boot configuration written
    or a patch tool run, only after [get_swap_area] has logged the area it
    resolved, the registered offset is never the sentinel, and a file that
    is not regular makes the run fatal with nothing registered or
    patched. *)
Theorem unresolved_offset_is_never_used
    {W : Type} (h : handler W) (w : W) (swap : swap_file) :
  (let t := trace_of (run h (get_swap_area swap) w) in
   let o := outcome_of (run h (get_swap_area swap) w) in
   existsb uses_offset t = false /\
   (existsb fstat_not_regular t = true -> is_fatal o) /\
   (forall area, o = Done area -> area_offset area <> INVALID_OFFSET)) /\
  (forall fd st,
     outcome_of (run h (get_swap_file_offset fd) w) = Done INVALID_OFFSET ->
     is_fatal (outcome_of (run h (area_of_open_file swap fd st) w)) /\
     existsb uses_offset (trace_of (run h (area_of_open_file swap fd st) w)) = false) /\
  (let t := trace_of (run h (update_swap_offset swap) w) in
   let o := outcome_of (run h (update_swap_offset swap) w) in
   before (logs area_resolved_msg) uses_offset t = true /\
   existsb registers_invalid t = false /\
   (existsb fstat_not_regular t = true ->
      is_fatal o /\ existsb uses_offset t = false)).
Proof.
  split; [| split].
  - intros t o.
    destruct (wp_run h _ _ w (get_swap_area_spec swap)) as [Huse [Hfs Ho]].
    fold t in Huse, Hfs, Ho. fold o in Hfs, Ho.
    split; [exact Huse |]. split; [exact Hfs |].
    intros area Harea. rewrite Harea in Ho. apply Ho.
  - intros fd st Hres.
    destruct (wp_run h _ _ w (area_of_open_file_spec swap fd st)) as [Huse _].
    split; [| exact Huse].
    unfold area_of_open_file.
    destruct (negb (kind_eqb (st_kind st) S_IFREG)); [exact I |].
    rewrite run_bind. unfold outcome_of in Hres.
    destruct (run h (get_swap_file_offset fd) w) as [[t1 o1] w1].
    simpl in Hres. subst o1.
    rewrite Z.eqb_refl. exact I.
  - exact (wp_run h _ _ w (update_swap_offset_spec swap)).
Qed.

Lemma unresolved_offset_is_never_used_witness :
  let swap := mk_swap_file 4096 swap_file_name in
  let t := trace_of (run (simulate device_node_machine) (update_swap_offset swap) []) in
  let o := outcome_of (run (simulate device_node_machine) (update_swap_offset swap) []) in
  is_fatal o /\ existsb uses_offset t = false.
Proof.
  exact (proj2 (proj2 (proj2 (proj2
           (unresolved_offset_is_never_used (simulate device_node_machine) []
              (mk_swap_file 4096 swap_file_name)))))
           ltac:(vm_compute; reflexivity)).
Defined.

#[local] Transparent INVALID_OFFSET.

(** ** Replacement of an undersized swap file *)

Lemma before_app_done (P Q : event -> bool) (s l : list event) :
  before P Q s = true -> existsb Q l = false -> before P Q (s ++ l) = true.
Proof.
  induction s as [| e s IH]; simpl; intros Hs Hl.
  - apply before_absent. exact Hl.
  - destruct (P e); [reflexivity |].
    apply andb_true_iff in Hs. destruct Hs as [HQ Hs].
    rewrite HQ. simpl. apply IH; assumption.
Qed.

Lemma before_seen (P Q : event -> bool) (s l : list event) :
  before P Q s = true -> existsb P s = true -> before P Q (s ++ l) = true.
Proof.
  induction s as [| e s IH]; simpl; intros Hs HP; [discriminate |].
  destruct (P e); [reflexivity |].
  apply andb_true_iff in Hs. destruct Hs as [HQ Hs].
  rewrite HQ. simpl. apply IH; assumption.
Qed.

Ltac swap_norm :=
  rewrite <- ?app_assoc, ?app_nil_r;
  repeat (progress
    (cbn [app existsb before orb andb negb is_fatal is_done
          is_swapon swapon_elsewhere swapoff_of unlink_of creates_swap_file mkswap_ok
          String.eqb Ascii.eqb Bool.eqb capacity path fresh_swap_file];
     rewrite ?String.eqb_refl;
     rewrite ?existsb_app;
     rewrite ?before_app by assumption;
     rewrite ?before_absent by assumption;
     use_absent; use_tests;
     rewrite ?orb_true_r, ?orb_false_r)).

Ltac swap_leaf :=
  try lazymatch goal with
      | |- created_post _ _ _ => unfold created_post
      | |- provision_post _ _ _ _ => unfold provision_post
      end;
  swap_norm;
  repeat match goal with
         | |- _ /\ _ => split
         | |- _ -> _ => intro
         | |- forall _, _ => intro
         end;
  repeat match goal with
         | H : Some _ = Some _ |- _ => injection H as H; subst
         | H : Done _ = Done _ |- _ => injection H as H; subst
         | H : (_, _) = (_, _) |- _ => injection H as H; subst
         end;
  try discriminate;
  swap_norm;
  try solve [ reflexivity | assumption | discriminate | exact I | congruence
            | cbn [capacity fresh_swap_file] in *; lia
            | match goal with H : False |- _ => destruct H end ].

Lemma create_swap_file_with_size_creates (size : Z) :
  wp (create_swap_file_with_size swap_file_name size)
     (fun t o => o = Done true -> existsb creates_swap_file t = true).
Proof.
  unfold create_swap_file_with_size. wp_go. intros [fd |]; wp_go; [| discriminate].
  eapply wp_weaken; [| apply wp_any]. cbv beta. intros t o _ _. reflexivity.
Qed.

(** A postcondition that only looks for an event and constrains only
    results can skip the front of a sequence. *)
Lemma wp_tail {A B : Type} (p : prog A) (f : A -> prog B)
    (Q : list event -> outcome B -> Prop) :
  (forall t t' o, Q t' o -> Q (t ++ t')%list o) ->
  (forall t m, Q t (Fatal m)) ->
  (forall t y, Q t (Undefined y)) ->
  (forall a, wp (f a) Q) ->
  wp (bind p f) Q.
Proof.
  intros Hext Hfatal Hundef Hf. apply wp_bind.
  eapply wp_weaken; [| apply wp_any]. cbv beta. intros t o _.
  destruct o as [a | m | y]; simpl; [| apply Hfatal | apply Hundef].
  eapply wp_weaken; [| apply Hf]. intros t' o'. apply Hext.
Qed.

Lemma wp_always {A : Type} (p : prog A) (Q : list event -> outcome A -> Prop) :
  (forall t o, Q t o) -> wp p Q.
Proof.
  intros HQ. eapply wp_weaken; [| apply wp_any]. intros t o _. apply HQ.
Qed.

Lemma made_swap_ext (needed_size : Z) (t t' : list event) (o : outcome swap_file) :
  made_swap needed_size t' o -> made_swap needed_size (t ++ t') o.
Proof.
  destruct o as [s | m | y]; simpl; auto.
  intros [Hs Hm]. split; [exact Hs |]. rewrite existsb_app, Hm. apply orb_true_r.
Qed.

Lemma create_swap_file_made (needed_size : Z) :
  wp (create_swap_file needed_size) (made_swap needed_size).
Proof.
  unfold create_swap_file.
  do 2 (apply wp_tail;
        [apply made_swap_ext | intros; exact I | intros; exact I | intros]).
  match goal with |- context [negb ?b] => destruct b end; [| exact I].
  cbn [negb].
  do 6 (apply wp_tail;
        [apply made_swap_ext | intros; exact I | intros; exact I | intros]).
  unfold spawn_and_wait. wp_go. intros [|]; wp_go; [| exact I].
  split; reflexivity.
Qed.

Lemma create_swap_file_footprint (needed_size : Z) :
  wp (create_swap_file needed_size) (fun t _ => within F_create t).
Proof. footprint. Qed.
#[export] Hint Resolve create_swap_file_footprint : footprint.

Lemma create_swap_file_created (needed_size : Z) :
  wp (create_swap_file needed_size) (created_post needed_size).
Proof.
  assert (Hb : wp (create_swap_file needed_size)
                  (fun t _ => before creates_swap_file mkswap_ok t = true)).
  2:{ eapply wp_weaken;
        [| apply (wp_conj _ _ _ (create_swap_file_made needed_size) Hb)].
      cbv beta. intros t o [Hmade Hbefore]. split; [exact Hbefore |].
      destruct o; [exact Hmade | exact I | exact I]. }
  unfold create_swap_file. wp_go. intros [].
    wp_focus. apply wp_bind. eapply wp_weaken;
      [| apply (wp_conj _ _ _ (create_swap_file_with_size_footprint swap_file_name needed_size)
                  (create_swap_file_with_size_creates needed_size))].
    cbv beta. intros t1 o1 [H1 Hc]. absent mkswap_ok t1.
    destruct o1 as [[|] | m | y]; cbn [after negb]; try solve [wp_go; swap_leaf].
    specialize (Hc eq_refl).
    apply wp_always. intros t o. swap_leaf.
Qed.

Lemma provision_swap_spec (needed_swap : Z) (found : option swap_file) :
  wp (provision_swap needed_swap found) (provision_post needed_swap found).
Proof.
  pose proof (fun n => wp_conj _ _ _ (create_swap_file_created n)
                         (create_swap_file_footprint n)) as Hcreate.
  unfold provision_swap. destruct found as [old |]; wp_go.
  - intros []. destruct (Z.ltb_spec (capacity old) needed_swap) as [Hlt | Hge]; wp_go;
      [| swap_leaf].
    assert (Hfresh :
      wp (swap <- create_swap_file needed_swap ;; Ret (swap, true))
         (fun t o =>
            existsb is_swapon t = false /\
            existsb (unlink_of (path old)) t = false /\
            before creates_swap_file mkswap_ok t = true /\
            match o with
            | Done (swap, created) =>
                swap = fresh_swap_file needed_swap /\ created = true /\
                existsb mkswap_ok t = true
            | _ => True
            end)).
    { wp_fn Hcreate. intros t o [[Hbefore Hmade] Hf].
      absent is_swapon t. absent (unlink_of (path old)) t.
      destruct o as [s | m | y]; [destruct Hmade as [-> Hmk2] | |]; wp_go; swap_leaf. }
    intros [] off.
    destruct off as [[] | e]; [| destruct (errno_eqb e EINVAL)]; wp_go;
      try solve [swap_leaf].
    all: try lazymatch goal with |- forall _ : unit, _ => intros [] end;
      (intros [|]; wp_go;
       [| intros [|]; wp_go; [solve [swap_leaf] |]]);
      intros [];
      (eapply wp_weaken; [| apply Hfresh]; cbv beta;
       intros t o [Hon [Hun [Hb Ho]]];
       destruct o as [[swap created] | m | y];
       [destruct Ho as [-> [-> Hmk]] | |]; swap_leaf).
  - intros [] []. wp_fn Hcreate. intros t o [[Hbefore Hmade] Hf].
    absent is_swapon t.
    destruct o as [s | m | y]; [destruct Hmade as [-> Hmk2] | |]; wp_go; swap_leaf.
Qed.

Lemma ensure_swap_is_enabled_at_well_known_path (swap : swap_file) (created : bool) :
  path swap = swap_file_name ->
  wp (ensure_swap_is_enabled swap created)
     (fun t _ => existsb swapon_elsewhere t = false).
Proof.
  intros Hp. unfold ensure_swap_is_enabled. rewrite Hp. wp_go.
  intros [] [|]; wp_go; [| reflexivity].
  intros on.
  destruct on as [[] | e]; wp_go;
    [| destruct (errno_eqb e EINVAL && negb created); wp_go; [reflexivity |];
       destruct (negb (errno_eqb e EBUSY)); wp_go; [reflexivity |]];
    (intros [] [content |]; wp_go; [intros [|]; wp_go |]; reflexivity).
Qed.

Lemma swapon_elsewhere_is_swapon (e : event) :
  swapon_elsewhere e = true -> is_swapon e = true.
Proof.
  destruct e as [R c r]. destruct c; try discriminate. reflexivity.
Qed.

Lemma finish_setup_at_well_known_path (swap : swap_file) (created : bool) :
  path swap = swap_file_name ->
  wp (finish_setup swap created)
     (fun t _ => within F_finish t /\ existsb swapon_elsewhere t = false).
Proof.
  intros Hp. apply wp_conj; [apply finish_setup_footprint |].
  unfold finish_setup.
  wp_fn (wp_conj _ _ _ (ensure_swap_is_enabled_at_well_known_path swap created Hp)
           (ensure_swap_is_enabled_footprint swap created)).
  intros t1 o1 [He H1].
  destruct o1 as [[] | m | y]; wp_go; try exact He.
  wp_fn update_swap_offset_footprint. intros t2 o2 H2. absent swapon_elsewhere t2.
  destruct o2 as [[|] | m | y]; wp_go; rewrite ?existsb_app, ?He, ?Habs; try reflexivity.
  wp_fn ensure_udev_rules_are_installed_footprint. intros t3 o3 H3.
  absent swapon_elsewhere t3.
  destruct o3 as [[] | m | y]; wp_go; try intros [];
    rewrite ?existsb_app, ?He, ?Habs, ?Habs0; reflexivity.
Qed.

(** ** Events that never happen in a function *)

Lemma never_bind {A B : Type} (P : event -> bool) (p : prog A) (f : A -> prog B) :
  wp p (fun t _ => existsb P t = false) ->
  (forall a, wp (f a) (fun t _ => existsb P t = false)) ->
  wp (bind p f) (fun t _ => existsb P t = false).
Proof.
  intros Hp Hf. apply wp_bind. eapply wp_weaken; [| exact Hp].
  intros t o Ht. destruct o as [a | m | y]; simpl; try exact Ht.
  eapply wp_weaken; [| apply Hf]. intros t' o' Ht'.
  rewrite existsb_app, Ht, Ht'. reflexivity.
Qed.

Lemma never_call {A R : Type} (P : event -> bool) (c : sys R) (k : R -> prog A) :
  (forall r, P (Ev c r) = false) ->
  (forall r, wp (k r) (fun t _ => existsb P t = false)) ->
  wp (Call c k) (fun t _ => existsb P t = false).
Proof.
  intros Hc Hk. simpl. intros r. eapply wp_weaken; [| apply Hk].
  intros t o Ht. simpl. rewrite Hc, Ht. reflexivity.
Qed.

Lemma never_footprint {A : Type} (P : event -> bool) (F : footprint) (p : prog A) :
  wp p (fun t _ => within F t) ->
  (forall e, allowed_event F e = true -> P e = false) ->
  wp p (fun t _ => existsb P t = false).
Proof.
  intros Hp HP. eapply wp_weaken; [| exact Hp].
  intros t o Ht. apply (within_excludes F P t HP Ht).
Qed.

Ltac never_event :=
  first [ reflexivity
        | match goal with r : _ |- _ => destruct r; reflexivity end
        | vm_compute; reflexivity
        | repeat match goal with
                 | |- context [if ?b then _ else _] => is_var b; destruct b
                 end;
          first [ reflexivity
                | match goal with r : _ |- _ => destruct r; reflexivity end ] ].

Ltac never :=
  lazymatch goal with
  | |- wp (Ret _) _ => reflexivity
  | |- wp (Die _) _ => reflexivity
  | |- wp (Undef _) _ => reflexivity
  | |- wp (log_fatal _) _ => reflexivity
  | |- wp (Call _ _) _ => apply never_call; [intros; never_event | intros; never]
  | |- wp (call _) _ => unfold call; never
  | |- wp (log_info _) _ => unfold log_info, call; never
  | |- wp (bind _ _) _ => apply never_bind; [never | intros; never]
  | |- wp (if ?b then _ else _) _ => destruct b; never
  | |- wp (match ?x with _ => _ end) _ => destruct x; never
  | |- wp (let '(_, _) := ?x in _) _ => destruct x; never
  | |- wp ?p _ =>
      first
        [ solve [eapply never_footprint; [solve [eauto with footprint] | excl]]
        | let h := head_of p in unfold h; never ]
  end.

(** ** Exit status *)

#[local] Opaque no_boot_mechanism_msg no_grub_cfg_msg not_enabled_msg success_msg.

Lemma logs_self (msg : string) (r : unit) : logs msg (Ev (LogInfo msg) r) = true.
Proof. simpl. apply String.eqb_refl. Qed.

Ltac exit_norm :=
  rewrite <- ?app_assoc, ?app_nil_r;
  repeat (progress
    (cbn [app existsb orb andb negb is_fatal is_done reports_failure];
     rewrite ?existsb_app;
     use_absent; use_tests;
     rewrite ?orb_true_r, ?orb_false_r)).

Ltac eval_head P :=
  repeat match goal with
         | |- context [P (@Ev ?R ?c ?r)] =>
             let v := eval vm_compute in (P (@Ev R c r)) in
             lazymatch v with
             | true => change (P (@Ev R c r)) with true
             | false => change (P (@Ev R c r)) with false
             end
         end.

Ltac exit_leaf P :=
  unfold reports_failure;
  exit_norm; eval_head P; exit_norm;
  repeat match goal with
         | |- _ /\ _ => split
         | |- _ -> _ => intro
         end;
  repeat match goal with
         | Hi : ?a = true -> _, Ha : ?a = true |- _ => specialize (Hi Ha)
         end;
  cbn [is_fatal is_done] in *;
  try solve [ reflexivity | assumption | discriminate | exact I | congruence
            | left; reflexivity | right; exact I
            | match goal with H : False |- _ => destruct H end
            | match goal with H : _ \/ _ |- _ => destruct H; congruence end ].

Lemma is_exec_in_path_quiet (P : event -> bool) (name : string) :
  (forall e, allowed_event (only_tags [TGetenv; TAccess]) e = true -> P e = false) ->
  wp (is_exec_in_path name) (fun t _ => existsb P t = false).
Proof.
  intros HP. apply (never_footprint P _ _ (is_exec_in_path_footprint name) HP).
Qed.

Lemma reports_failure_frame (P : event -> bool) (pre t : list event) (o : outcome bool) :
  existsb P pre = false ->
  reports_failure P t o -> reports_failure P (pre ++ t) o.
Proof.
  unfold reports_failure. intros Hpre H. rewrite existsb_app, Hpre. exact H.
Qed.

Lemma find_grub_cfg_path_reports :
  wp find_grub_cfg_path
     (fun t o => existsb boot_patch_failed t = true -> o = Done None).
Proof.
  unfold find_grub_cfg_path. wp_go.
  intros [|]; wp_go; [discriminate |].
  intros [|]; wp_go; [discriminate |].
  intros []. reflexivity.
Qed.

Lemma reports_failure_cons (P : event -> bool) (e : event) (t : list event)
    (o : outcome bool) :
  P e = false -> reports_failure P t o -> reports_failure P (e :: t) o.
Proof. intros He. apply (reports_failure_frame P [e]). simpl. rewrite He. reflexivity. Qed.

Ltac frame_by H :=
  eapply wp_weaken; [| apply H]; cbv beta;
  let t := fresh "t" in let o := fresh "o" in let Hr := fresh "Hr" in
  intros t o Hr; repeat (apply reports_failure_cons; [reflexivity |]); exact Hr.

Ltac frame_in P H :=
  eapply wp_weaken; [| apply H]; cbv beta;
  let t := fresh "t" in let o := fresh "o" in let Hr := fresh "Hr" in
  intros t o Hr; unfold reports_failure in Hr |- *;
  exit_norm; eval_head P; exit_norm; exact Hr.

Lemma update_kernel_cmdline_params_for_grub_reports
    (dev_uuid : string) (swap_area : resume_swap_area) (g u m : bool) :
  wp (update_kernel_cmdline_params_for_grub dev_uuid swap_area g u m)
     (reports_failure boot_patch_failed).
Proof.
  unfold update_kernel_cmdline_params_for_grub. wp_go. intros [].
  wp_focus. wp_fn (is_exec_in_path_quiet boot_patch_failed "update-initramfs" ltac:(excl)).
  intros t1 o1 H1.
  destruct o1 as [initramfs | msg | y]; wp_go; try solve [exit_leaf boot_patch_failed].
  (* what follows the optional initramfs step *)
  lazymatch goal with
  | |- wp (bind _ ?k) _ => assert (Hgrub : wp (k tt) (reports_failure boot_patch_failed))
  end.
  { cbv beta. destruct g; wp_go.
    - unfold spawn_and_wait. wp_go. intros [] [|]; wp_go; exit_leaf boot_patch_failed.
    - destruct (u || m); wp_go; [| exit_leaf boot_patch_failed].
      (* what follows the choice of the settings file *)
      unfold is_directory_empty. wp_go. intros dir.
      lazymatch goal with
      | |- wp (bind _ (fun empty => bind _ ?k)) _ =>
          assert (Hwrite : forall p, wp (k p) (reports_failure boot_patch_failed))
      end.
      { intros p. cbv beta. unfold spawn_and_wait. wp_go. intros old [|]; wp_go.
        2:{ unfold reports_failure. intros _. right. exact I. }
        assert (Hw : boot_patch_failed
                       (Ev (WriteText p (grub_rewrite old
                              (kernel_args dev_uuid (area_offset swap_area)))) true) = false).
        { simpl. apply andb_false_r. }
        destruct u; wp_go.
        - intros [] [|]; wp_go; unfold reports_failure; cbn [existsb]; rewrite Hw;
            [discriminate | intros _; right; exact I].
        - destruct m; wp_go;
            [| unfold reports_failure; cbn [existsb]; rewrite Hw; discriminate].
          wp_fn find_grub_cfg_path_reports. intros t o Ho.
          destruct o as [[cfg |] | msg | y]; wp_go.
          + destruct (existsb boot_patch_failed t) eqn:Ht;
              [specialize (Ho eq_refl); discriminate Ho |].
            intros [] [|]; wp_go; unfold reports_failure; cbn [existsb];
              rewrite Hw, !existsb_app, Ht;
              [discriminate | intros _; right; exact I].
          + unfold reports_failure. intros _. left. reflexivity.
          + unfold reports_failure. intros _. right. exact I.
          + unfold reports_failure. cbn [existsb]. rewrite Hw. cbn [orb].
            intros H. specialize (Ho H). discriminate Ho. }
      cbv beta in Hwrite.
      destruct dir as [entries |]; cbn [bind].
      + destruct (forallb is_dot_entry entries); cbn [bind negb].
        * wp_go. intros [|]; cbn [bind]; [frame_by Hwrite | wp_go; exit_leaf boot_patch_failed].
        * frame_by Hwrite.
      + cbn [bind negb]. wp_go.
        intros [|]; cbn [bind]; [frame_by Hwrite | wp_go; exit_leaf boot_patch_failed]. }
  cbv beta in Hgrub.
  destruct initramfs; cbn [bind].
  - wp_go. intros [] [|]; cbn [bind]; [| wp_go; exit_leaf boot_patch_failed].
    unfold spawn_and_wait at 1. wp_go.
    intros [|]; cbn [bind]; [| wp_go; exit_leaf boot_patch_failed].
    frame_in boot_patch_failed Hgrub.
  - frame_in boot_patch_failed Hgrub.
Qed.

Lemma patch_boot_configuration_reports (dev_uuid : string) (swap_area : resume_swap_area) :
  wp (patch_boot_configuration dev_uuid swap_area) (reports_failure boot_patch_failed).
Proof.
  unfold patch_boot_configuration. wp_go. intros [].
  wp_fn (is_exec_in_path_quiet boot_patch_failed "grubby" ltac:(excl)).
  intros t1 o1 H1.
  destruct o1 as [g | msg | y]; wp_go; try solve [exit_leaf boot_patch_failed].
  wp_fn (is_exec_in_path_quiet boot_patch_failed "update-grub2" ltac:(excl)).
  intros t2 o2 H2.
  destruct o2 as [u | msg | y]; wp_go; try solve [exit_leaf boot_patch_failed].
  wp_fn (is_exec_in_path_quiet boot_patch_failed "grub2-mkconfig" ltac:(excl)).
  intros t3 o3 H3.
  destruct o3 as [m | msg | y]; wp_go; try solve [exit_leaf boot_patch_failed].
  destruct (g || u || m); wp_go.
  - frame_in boot_patch_failed (update_kernel_cmdline_params_for_grub_reports dev_uuid swap_area g u m).
  - intros []. exit_leaf boot_patch_failed.
Qed.

Lemma is_kernel_cmdline_correct_quiet (dev_uuid : string) (resume_offset : Z) :
  wp (is_kernel_cmdline_correct dev_uuid resume_offset)
     (fun t _ => existsb boot_patch_failed t = false).
Proof. never. Qed.

Lemma reconcile_cmdline_reports (dev_uuid : string) (swap_area : resume_swap_area) :
  wp (reconcile_cmdline dev_uuid swap_area) (reports_failure boot_patch_failed).
Proof.
  unfold reconcile_cmdline.
  wp_fn (is_kernel_cmdline_correct_quiet dev_uuid (area_offset swap_area)).
  intros t1 o1 H1.
  destruct o1 as [[|] | msg | y]; wp_go; try solve [exit_leaf boot_patch_failed].
  frame_in boot_patch_failed (patch_boot_configuration_reports dev_uuid swap_area).
Qed.

(** An event is one of those that decide the exit status. *)
Lemma existsb_orb_false (P Q : event -> bool) (t : list event) :
  existsb (fun e => P e || Q e) t = false ->
  existsb P t = false /\ existsb Q t = false.
Proof.
  induction t as [| e t IH]; simpl; [intros _; split; reflexivity |].
  intros H. apply orb_false_iff in H as [He Ht]. apply orb_false_iff in He as [HP HQ].
  destruct (IH Ht) as [H1 H2]. rewrite HP, HQ, H1, H2. split; reflexivity.
Qed.

Lemma ensure_swap_is_enabled_quiet (swap : swap_file) (created : bool) :
  wp (ensure_swap_is_enabled swap created) (fun t _ => existsb decisive t = false).
Proof. never. Qed.

Lemma ensure_udev_rules_are_installed_quiet :
  wp ensure_udev_rules_are_installed (fun t _ => existsb decisive t = false).
Proof. never. Qed.

Lemma get_swap_area_quiet (swap : swap_file) :
  wp (get_swap_area swap) (fun t _ => existsb decisive t = false).
Proof. never. Qed.

Lemma get_disk_uuid_for_file_path_quiet (p : string) :
  wp (get_disk_uuid_for_file_path p) (fun t _ => existsb decisive t = false).
Proof. never. Qed.

Lemma decisive_split (t : list event) :
  existsb decisive t = false ->
  existsb verdict t = false /\ existsb boot_patch_failed t = false.
Proof. apply existsb_orb_false. Qed.

Lemma verdict_split (t : list event) :
  existsb verdict t = false ->
  existsb (logs not_enabled_msg) t = false /\ existsb (logs success_msg) t = false.
Proof. apply existsb_orb_false. Qed.

Lemma quiet_bpf {A : Type} (p : prog A) :
  wp p (fun t _ => existsb decisive t = false) ->
  wp p (fun t _ => existsb boot_patch_failed t = false).
Proof.
  intros H. eapply wp_weaken; [| exact H]. intros t o Ht. apply (decisive_split t Ht).
Qed.

Lemma update_swap_offset_no_verdict (swap : swap_file) :
  wp (update_swap_offset swap) (fun t _ => existsb verdict t = false).
Proof. never. Qed.

Lemma update_swap_offset_reports (swap : swap_file) :
  wp (update_swap_offset swap) (reports_failure boot_patch_failed).
Proof.
  unfold update_swap_offset. wp_go. intros [] [fd |]; wp_go;
    [| intros []; exit_leaf boot_patch_failed].
  wp_fn (quiet_bpf _ (get_swap_area_quiet swap)). intros t1 o1 H1.
  destruct o1 as [swap_area | msg | y]; wp_go; try solve [exit_leaf boot_patch_failed].
  intros [|]; wp_go; [| intros [] []; exit_leaf boot_patch_failed].
  intros [].
  wp_fn (quiet_bpf _ (get_disk_uuid_for_file_path_quiet (path swap))). intros t2 o2 H2.
  destruct o2 as [[dev_uuid |] | msg | y]; wp_go; try solve [exit_leaf boot_patch_failed].
  intros [].
  frame_in boot_patch_failed (reconcile_cmdline_reports dev_uuid swap_area).
Qed.

Lemma is_hibernation_enabled_for_vm_quiet :
  wp is_hibernation_enabled_for_vm (fun t _ => existsb decisive t = false).
Proof. never. Qed.

Lemma physical_memory_quiet :
  wp physical_memory (fun t _ => existsb decisive t = false).
Proof. never. Qed.

Lemma swap_needed_size_quiet (total_ram : Z) :
  wp (swap_needed_size total_ram) (fun t _ => existsb decisive t = false).
Proof. never. Qed.

Lemma find_swap_file_quiet (needed_swap : Z) :
  wp (find_swap_file needed_swap) (fun t _ => existsb decisive t = false).
Proof. never. Qed.

Lemma create_swap_file_quiet (needed_swap : Z) :
  wp (create_swap_file needed_swap) (fun t _ => existsb decisive t = false).
Proof. never. Qed.

Lemma provision_swap_quiet (needed_swap : Z) (found : option swap_file) :
  wp (provision_swap needed_swap found) (fun t _ => existsb decisive t = false).
Proof.
  unfold provision_swap.
  apply never_bind; [never |]. intros _.
  apply never_bind; [never |]. intros [swap |]; [never |].
  apply never_bind; [never |]. intros _.
  apply never_bind; [apply create_swap_file_quiet | intros; never].
Qed.

Lemma exit_post_fatal (t : list event) (msg : string) :
  existsb verdict t = false -> exit_post t (Fatal msg).
Proof.
  intros Ht. destruct (verdict_split t Ht) as [Hn Hs].
  unfold exit_post. rewrite Hn, Hs. simpl. repeat split; try discriminate; try reflexivity.
  intros [H | H]; discriminate H.
Qed.

Lemma exit_post_undefined (t : list event) (y : string) :
  existsb decisive t = false -> exit_post t (Undefined y).
Proof.
  intros Ht. destruct (decisive_split t Ht) as [Hv Hb].
  destruct (verdict_split t Hv) as [Hn Hs].
  unfold exit_post. rewrite Hn, Hs, Hb. simpl. repeat split; try discriminate.
  - intros [H | H]; discriminate H.
  - intros [].
Qed.

Lemma exit_post_done (t : list event) :
  existsb boot_patch_failed t = false ->
  existsb verdict t = true ->
  exit_post t (Done 0).
Proof.
  intros Hb Hv. unfold exit_post. rewrite Hb. simpl. repeat split; try discriminate.
  - intros _. clear Hb. induction t as [| e t IH]; [discriminate Hv |].
    simpl in *. unfold verdict in Hv at 1.
    destruct (logs not_enabled_msg e); [left; reflexivity |].
    destruct (logs success_msg e); [right; reflexivity |].
    simpl in Hv. destruct (IH Hv) as [H | H]; [left | right]; rewrite H; apply orb_true_r.
  - intros v Hv'. injection Hv' as <-. reflexivity.
  - intros [].
Qed.

Lemma decisive_app (t t' : list event) :
  existsb decisive t = false -> existsb decisive t' = false ->
  existsb decisive (t ++ t') = false.
Proof. intros H H'. rewrite existsb_app, H, H'. reflexivity. Qed.

Lemma decisive_intro (t : list event) :
  existsb verdict t = false -> existsb boot_patch_failed t = false ->
  existsb decisive t = false.
Proof.
  induction t as [| e t IH]; simpl; [reflexivity |].
  intros Hv Hb. apply orb_false_iff in Hv as [Hv1 Hv2]. apply orb_false_iff in Hb as [Hb1 Hb2].
  unfold decisive at 1. rewrite Hv1, Hb1, (IH Hv2 Hb2). reflexivity.
Qed.

Lemma exit_post_frame (pre t : list event) (o : outcome Z) :
  existsb decisive pre = false -> exit_post t o -> exit_post (pre ++ t) o.
Proof.
  intros Hpre. destruct (decisive_split pre Hpre) as [Hv Hb].
  destruct (verdict_split pre Hv) as [Hn Hs].
  unfold exit_post. rewrite !existsb_app, Hn, Hs, Hb. simpl. exact (fun H => H).
Qed.

Lemma finish_setup_exit (swap : swap_file) (created : bool) :
  wp (finish_setup swap created) exit_post.
Proof.
  unfold finish_setup.
  wp_fn (ensure_swap_is_enabled_quiet swap created). intros t1 o1 H1.
  destruct o1 as [[] | msg | y]; wp_go;
    [| apply exit_post_fatal, (decisive_split t1 H1)
     | apply exit_post_undefined, H1].
  wp_fn (wp_conj _ _ _ (update_swap_offset_reports swap) (update_swap_offset_no_verdict swap)).
  intros t2 o2 [Hr Hv2].
  assert (Hv12 : existsb verdict (t1 ++ t2) = false).
  { rewrite existsb_app, Hv2, (proj1 (decisive_split t1 H1)). reflexivity. }
  destruct o2 as [[|] | msg | y]; wp_go;
    try solve [rewrite ?app_nil_r; apply exit_post_fatal, Hv12].
  - assert (H2 : existsb decisive t2 = false).
    { apply decisive_intro; [exact Hv2 |].
      destruct (existsb boot_patch_failed t2) eqn:Hb; [| reflexivity].
      destruct (Hr Hb) as [H | []]. discriminate H. }
    wp_fn ensure_udev_rules_are_installed_quiet. intros t3 o3 H3.
    assert (H123 : existsb decisive (t1 ++ t2 ++ t3) = false).
    { repeat apply decisive_app; assumption. }
    destruct o3 as [[] | msg | y]; wp_go;
      [| apply exit_post_fatal, (decisive_split _ H123)
       | apply exit_post_undefined, H123].
    intros [].
    replace (t1 ++ t2 ++ t3 ++ [Ev (LogInfo "Swap file for VM hibernation set up successfully") tt])%list
      with ((t1 ++ t2 ++ t3) ++ [Ev (LogInfo "Swap file for VM hibernation set up successfully") tt])%list
      by (rewrite <- !app_assoc; reflexivity).
    apply exit_post_done.
    + rewrite existsb_app, (proj2 (decisive_split _ H123)). reflexivity.
    + rewrite existsb_app. apply orb_true_iff. right. reflexivity.
  - apply exit_post_undefined, decisive_intro; [exact Hv12 |].
    rewrite existsb_app, (proj2 (decisive_split t1 H1)).
    destruct (existsb boot_patch_failed t2) eqn:Hb; [| reflexivity].
    destruct (Hr Hb) as [H | []]. discriminate H.
Qed.

Lemma exit_after_quiet {A : Type} (p : prog A) (f : A -> prog Z) :
  wp p (fun t _ => existsb decisive t = false) ->
  (forall a, wp (f a) exit_post) ->
  wp (bind p f) exit_post.
Proof.
  intros Hp Hf. apply wp_bind. eapply wp_weaken; [| exact Hp].
  intros t o Ht. destruct o as [a | msg | y]; simpl.
  - eapply wp_weaken; [| apply Hf]. intros t' o'. apply exit_post_frame, Ht.
  - apply exit_post_fatal, (decisive_split t Ht).
  - apply exit_post_undefined, Ht.
Qed.

Lemma settle_and_finish_exit (needed_swap : Z) (found : option swap_file) :
  wp (settle_and_finish needed_swap found) exit_post.
Proof.
  unfold settle_and_finish.
  apply exit_after_quiet; [apply provision_swap_quiet |].
  intros [swap created]. apply finish_setup_exit.
Qed.

Lemma main_exit : wp main exit_post.
Proof.
  unfold main.
  apply exit_after_quiet; [apply is_hibernation_enabled_for_vm_quiet |].
  intros [|]; cbn [negb].
  - apply exit_after_quiet; [apply physical_memory_quiet |]. intros total_ram.
    destruct (total_ram =? 0); [apply exit_post_fatal; reflexivity |].
    apply exit_after_quiet; [apply swap_needed_size_quiet |]. intros needed_swap.
    apply exit_after_quiet; [never |]. intros _.
    apply exit_after_quiet; [apply find_swap_file_quiet |]. intros found.
    apply settle_and_finish_exit.
  - wp_go. intros []. apply exit_post_done; reflexivity.
Qed.

(** Where hibernation does not apply, [main] returns 0 and has changed
    nothing. *)
Lemma main_not_applicable {W : Type} (h : handler W) (w : W) :
  outcome_of (run h is_hibernation_enabled_for_vm w) = Done false ->
  outcome_of (run h main w) = Done 0 /\
  existsb event_mutates (trace_of (run h main w)) = false.
Proof.
  intros Hen. unfold main. rewrite run_bind.
  assert (Hquiet : wp is_hibernation_enabled_for_vm
                      (fun t _ => existsb event_mutates t = false)) by never.
  pose proof (wp_run h _ _ w Hquiet) as Hq.
  revert Hen Hq. unfold outcome_of, trace_of.
  destruct (run h is_hibernation_enabled_for_vm w) as [[t1 o1] w1]. simpl.
  intros -> Hq. simpl. destruct (h unit _ w1) as [[] w2]. simpl.
  split; [reflexivity |]. rewrite existsb_app, Hq. reflexivity.
Qed.

#[local] Transparent no_boot_mechanism_msg no_grub_cfg_msg not_enabled_msg success_msg.

(** ** Reconciliation of the kernel command line *)

Lemma patch_post_frame (pre t : list event) (o : outcome bool) :
  patch_post t o -> patch_post (pre ++ t) o.
Proof.
  unfold patch_post. intros [Ht Hf]. split; intros Ho.
  - rewrite existsb_app, (Ht Ho). apply orb_true_r.
  - rewrite !existsb_app. destruct (Hf Ho) as [H | H]; rewrite H; [left | right];
      apply orb_true_r.
Qed.

Lemma patch_post_cons (e : event) (t : list event) (o : outcome bool) :
  patch_post t o -> patch_post (e :: t) o.
Proof. apply (patch_post_frame [e]). Qed.

Ltac patch_leaf :=
  unfold patch_post; split;
  (let Hd := fresh "Hd" in intros Hd; try discriminate Hd);
  repeat (progress (rewrite ?existsb_app; cbn [existsb orb];
                    try eval_head grub_tool_done; rewrite ?orb_true_r));
  try reflexivity;
  try (left; rewrite ?existsb_app; cbn [existsb]; rewrite ?logs_self, ?orb_true_r;
       reflexivity).

Ltac patch_frame H :=
  eapply wp_weaken; [| apply H]; cbv beta;
  let t := fresh "t" in let o := fresh "o" in let Hr := fresh "Hr" in
  intros t o Hr;
  repeat first [ apply patch_post_cons | apply patch_post_frame ]; exact Hr.

Lemma find_grub_cfg_path_patch :
  wp find_grub_cfg_path
     (fun t o => o = Done None -> existsb (logs no_grub_cfg_msg) t = true).
Proof.
  unfold find_grub_cfg_path. wp_go.
  intros [|]; wp_go; [discriminate |].
  intros [|]; wp_go; [discriminate |].
  intros [] _. reflexivity.
Qed.

Lemma update_kernel_cmdline_params_for_grub_patch
    (dev_uuid : string) (swap_area : resume_swap_area) (g u m : bool) :
  g || u || m = true ->
  wp (update_kernel_cmdline_params_for_grub dev_uuid swap_area g u m) patch_post.
Proof.
  intros Htool.
  unfold update_kernel_cmdline_params_for_grub. wp_go. intros [].
  wp_focus. apply wp_bind. apply wp_always. intros t1 o1.
  destruct o1 as [initramfs | msg | y]; wp_go; try solve [patch_leaf].
  lazymatch goal with
  | |- wp (bind _ ?k) _ => assert (Hgrub : wp (k tt) patch_post)
  end.
  { cbv beta. destruct g; wp_go.
    - unfold spawn_and_wait. wp_go. intros [] [|]; wp_go; patch_leaf.
    - cbn [orb] in Htool. rewrite Htool. wp_go.
      unfold is_directory_empty. wp_go. intros dir.
      lazymatch goal with
      | |- wp (bind _ (fun empty => bind _ ?k)) _ =>
          assert (Hwrite : forall p, wp (k p) patch_post)
      end.
      { intros p. cbv beta. unfold spawn_and_wait. wp_go. intros old [|]; wp_go;
          [| patch_leaf].
        destruct u; wp_go.
        - intros [] [|]; wp_go; patch_leaf.
        - cbn [orb] in Htool. subst m. wp_go.
          wp_fn find_grub_cfg_path_patch. intros t o Ho.
          destruct o as [[cfg |] | msg | y]; wp_go; try solve [patch_leaf].
          + intros [] [|]; wp_go; patch_leaf.
          + unfold patch_post. split; intros Hd; [discriminate Hd |].
            right. rewrite ?existsb_app. cbn [existsb]. rewrite ?existsb_app.
            rewrite (Ho eq_refl). rewrite ?orb_true_r. reflexivity. }
      cbv beta in Hwrite.
      destruct dir as [entries |]; cbn [bind].
      + destruct (forallb is_dot_entry entries); cbn [bind negb].
        * wp_go. intros [|]; cbn [bind]; [patch_frame Hwrite | wp_go; patch_leaf].
        * patch_frame Hwrite.
      + cbn [bind negb]. wp_go.
        intros [|]; cbn [bind]; [patch_frame Hwrite | wp_go; patch_leaf]. }
  cbv beta in Hgrub.
  destruct initramfs; cbn [bind].
  - wp_go. intros [] [|]; cbn [bind]; [| wp_go; patch_leaf].
    unfold spawn_and_wait at 1. wp_go.
    intros [|]; cbn [bind]; [| wp_go; patch_leaf].
    patch_frame Hgrub.
  - patch_frame Hgrub.
Qed.

Lemma patch_boot_configuration_patch (dev_uuid : string) (swap_area : resume_swap_area) :
  wp (patch_boot_configuration dev_uuid swap_area) patch_post.
Proof.
  unfold patch_boot_configuration. wp_go. intros [].
  apply wp_bind, wp_always. intros t1 [g | msg | y]; wp_go; try solve [patch_leaf].
  apply wp_bind, wp_always. intros t2 [u | msg | y]; wp_go; try solve [patch_leaf].
  apply wp_bind, wp_always. intros t3 [m | msg | y]; wp_go; try solve [patch_leaf].
  destruct (g || u || m) eqn:Htool; wp_go.
  - patch_frame (update_kernel_cmdline_params_for_grub_patch dev_uuid swap_area g u m Htool).
  - intros []. patch_leaf.
Qed.

Lemma patch_boot_configuration_without_tool
    (dev_uuid : string) (swap_area : resume_swap_area) :
  wp (patch_boot_configuration dev_uuid swap_area)
     (fun t o => existsb (logs no_boot_mechanism_msg) t = true ->
                 o = Done false /\ existsb patches t = false).
Proof.
  unfold patch_boot_configuration. wp_go. intros [].
  wp_fn (is_exec_in_path_quiet (fun e => patches e || logs no_boot_mechanism_msg e)
           "grubby" ltac:(excl)).
  intros t1 o1 H1. apply existsb_orb_false in H1 as [Hp1 Hl1].
  destruct o1 as [g | msg | y]; wp_go; try solve [exit_leaf patches].
  wp_fn (is_exec_in_path_quiet (fun e => patches e || logs no_boot_mechanism_msg e)
           "update-grub2" ltac:(excl)).
  intros t2 o2 H2. apply existsb_orb_false in H2 as [Hp2 Hl2].
  destruct o2 as [u | msg | y]; wp_go; try solve [exit_leaf patches].
  wp_fn (is_exec_in_path_quiet (fun e => patches e || logs no_boot_mechanism_msg e)
           "grub2-mkconfig" ltac:(excl)).
  intros t3 o3 H3. apply existsb_orb_false in H3 as [Hp3 Hl3].
  destruct o3 as [m | msg | y]; wp_go; try solve [exit_leaf patches].
  destruct (g || u || m); wp_go.
  - assert (Hq : wp (update_kernel_cmdline_params_for_grub dev_uuid swap_area g u m)
                   (fun t _ => existsb (logs no_boot_mechanism_msg) t = false)) by never.
    eapply wp_weaken; [| exact Hq]. cbv beta. intros t o Ht.
    exit_leaf patches.
  - intros []. exit_leaf patches.
Qed.

Lemma is_kernel_cmdline_correct_patches_nothing (dev_uuid : string) (resume_offset : Z) :
  wp (is_kernel_cmdline_correct dev_uuid resume_offset)
     (fun t _ => existsb (fun e => patches e || logs no_boot_mechanism_msg e) t = false).
Proof. never. Qed.

(** The check of the three parameters, spelled out. *)
Lemma cmdline_check_exact (dev_uuid : string) (resume_offset : Z) (f : cmdline_fields) :
  cmdline_check dev_uuid resume_offset f = true <->
  exists resume offset no_console,
    resume_field f = Some resume /\
    resume_offset_field f = Some offset /\
    no_console_suspend_field f = Some no_console /\
    Z.of_nat (String.length (resume_device dev_uuid)) < PATH_MAX /\
    token resume = resume_device dev_uuid /\
    token offset = snprintf_keep 24 (decimal resume_offset) /\
    token no_console = "1".
Proof.
  unfold cmdline_check.
  destruct (resume_field f) as [resume |], (resume_offset_field f) as [offset |],
    (no_console_suspend_field f) as [no_console |];
    try (split; [discriminate | intros (r & o & n & H1 & H2 & H3 & _); discriminate]).
  destruct (PATH_MAX <=? _) eqn:Hlen.
  { apply Z.leb_le in Hlen. split; [discriminate |].
    intros (r & o & n & _ & _ & _ & Hlt & _). lia. }
  apply Z.leb_gt in Hlen.
  destruct (String.eqb (token resume) _) eqn:Hres; cbn [negb].
  2:{ apply String.eqb_neq in Hres. split; [discriminate |].
      intros (r & o & n & Hr & _ & _ & _ & He & _). injection Hr as <-. contradiction. }
  apply String.eqb_eq in Hres.
  destruct (String.eqb (snprintf_keep 24 _) (token offset)) eqn:Hoff; cbn [negb].
  2:{ apply String.eqb_neq in Hoff. split; [discriminate |].
      intros (r & o & n & _ & Ho & _ & _ & _ & He & _). injection Ho as <-.
      symmetry in He. contradiction. }
  apply String.eqb_eq in Hoff. rewrite String.eqb_eq. split.
  - intros Hn. exists resume, offset, no_console. repeat split; auto.
  - intros (r & o & n & _ & _ & Hn & _ & _ & _ & He). injection Hn as <-. exact He.
Qed.

(** A command line whose last parameter is followed by the newline only:
    [next_field] does not stop at the terminator that replaced it. *)
Lemma is_kernel_cmdline_correct_reads_past_end :
  outcome_of (run (simulate (bare_machine []))
                (is_kernel_cmdline_correct "abcd" 34816)
                [("/proc/cmdline", "root=/dev/sda1 ro" ++ str1 LF)])
  = Undefined "next_field scans past the end of the command line".
Proof. vm_compute. reflexivity. Qed.

Lemma is_kernel_cmdline_correct_accepts :
  outcome_of (run (simulate (bare_machine []))
                (is_kernel_cmdline_correct "abcd" 34816) resume_cmdline) = Done true.
Proof. vm_compute. reflexivity. Qed.

(** ** Loop bounds

    The loops of the source that the model runs on a counter are given
    enough of it: no line is lost and no scan is cut short. *)

Lemma length_app (a b : string) :
  String.length (a ++ b) = (String.length a + String.length b)%nat.
Proof. induction a as [| c a IH]; simpl; [reflexivity | rewrite IH; reflexivity]. Qed.

Lemma fgets_one_rest (room : nat) (c : ascii) (r : string) :
  (String.length (snd (fgets_one (S room) (String c r))) <= String.length r)%nat.
Proof.
  revert c r. induction room as [| room IH]; intros c r; simpl.
  - destruct (Ascii.eqb c LF); simpl; lia.
  - destruct (Ascii.eqb c LF); [simpl; lia |].
    destruct r as [| d r']; [simpl; lia |].
    specialize (IH d r'). simpl in IH.
    destruct (Ascii.eqb d LF); simpl in *; [lia |].
    destruct (fgets_one room r') as [a b]. simpl in *. lia.
Qed.

Lemma fgets_loop_covers (fuel room : nat) (s : string) :
  (String.length s <= fuel)%nat ->
  join (fgets_loop fuel (S room) s) = s.
Proof.
  revert s. induction fuel as [| fuel IH]; intros s Hlen.
  - destruct s; [reflexivity | simpl in Hlen; lia].
  - destruct s as [| c r]; [reflexivity |].
    cbn [fgets_loop].
    pose proof (fgets_one_rest room c r) as Hrest.
    pose proof (fgets_one_app (S room) (String c r)) as Happ.
    destruct (fgets_one (S room) (String c r)) as [chunk rest].
    cbn [fst snd] in *. cbn [join]. rewrite IH by (simpl in Hlen; lia).
    exact Happ.
Qed.

Lemma fgets_all_covers (room : nat) (s : string) :
  join (fgets_all (S room) s) = s.
Proof. apply fgets_loop_covers. lia. Qed.

Lemma cmdline_scan_bounded (fuel : nat) (field : string) (f : cmdline_fields) :
  (String.length field < fuel)%nat ->
  cmdline_scan fuel field f <> ScanFuel.
Proof.
  revert field f. induction fuel as [| fuel IH]; intros field f Hlen; [lia |].
  cbn [cmdline_scan].
  destruct (next_field (Some field)) as [| nxt |] eqn:Hn; try discriminate.
  apply IH. destruct (next_field_suffix _ _ Hn) as [pre [-> Hpre]].
  rewrite length_app in Hlen. destruct pre; [contradiction | simpl in Hlen; lia].
Qed.

(** The check of the command line never stops for lack of a bound. *)
Lemma is_kernel_cmdline_correct_bounded (dev_uuid : string) (resume_offset : Z) :
  wp (is_kernel_cmdline_correct dev_uuid resume_offset)
     (fun _ o => o <> Undefined "unreachable").
Proof.
  unfold is_kernel_cmdline_correct, read_first_line_from_file. wp_go.
  intros [[| c content] |]; wp_go; try (intros []); try discriminate.
  pose proof (cmdline_scan_bounded
                (S (String.length (strip_newline (in_buffer (fst (fgets_one 1023 (String c content)))))))
                (strip_newline (in_buffer (fst (fgets_one 1023 (String c content)))))
                (mk_fields None None None) ltac:(lia)) as Hb.
  destruct (cmdline_scan _ _ _); try discriminate. contradiction.
Qed.

Lemma split_colon_rest (s seg rest : string) :
  split_colon s = Some (seg, rest) -> (String.length rest < String.length s)%nat.
Proof.
  revert seg rest. induction s as [| c r IH]; intros seg rest; simpl; [discriminate |].
  destruct (Ascii.eqb c ":").
  - intros [= _ <-]. lia.
  - destruct (split_colon r) as [[a b] |]; [| discriminate].
    intros [= _ <-]. specialize (IH a b eq_refl). lia.
Qed.

(** The search of [$PATH] does not depend on the bound once it exceeds
    the length of the variable. *)
Lemma find_executable_loop_bounded (fuel fuel' : nat) (name env : string) :
  (String.length env < fuel)%nat -> (String.length env < fuel')%nat ->
  find_executable_loop fuel name env = find_executable_loop fuel' name env.
Proof.
  revert fuel' env. induction fuel as [| fuel IH]; intros fuel' env Hlen Hlen'; [lia |].
  destruct fuel' as [| fuel']; [lia |].
  destruct env as [| c r]; [reflexivity |].
  cbn [find_executable_loop].
  destruct (split_colon (String c r)) as [[seg rest] |] eqn:Hsplit.
  - pose proof (split_colon_rest _ _ _ Hsplit) as Hrest.
    rewrite (IH fuel' rest) by lia.
    destruct seg; reflexivity.
  - rewrite (IH fuel' EmptyString) by (simpl in *; lia). reflexivity.
Qed.

(** * Further properties of the code *)

(** ** Looking programs up in [$PATH] *)

Lemma lookup_post_cons (name : string) (q : string) (t : list event)
    (o : outcome (option string)) :
  lookup_post name t o -> lookup_post name (Ev (Access q X_OK) false :: t) o.
Proof.
  destruct o as [[p |] | msg | y]; simpl; auto.
  intros (seg & t' & Hp & Habs & Hlen & Ht & Hno).
  exists seg, (Ev (Access q X_OK) false :: t'). subst t. repeat split; auto.
Qed.

Lemma find_executable_loop_sound (fuel : nat) (name env : string) :
  wp (find_executable_loop fuel name env) (lookup_post name).
Proof.
  revert env. induction fuel as [| fuel IH]; intros env; [reflexivity |].
  destruct env as [| c r]; [reflexivity |].
  cbn [find_executable_loop].
  assert (Htry : forall seg rest,
    wp (if PATH_MAX <=? Z.of_nat (String.length (seg ++ "/" ++ name)) then
          log_fatal "Building path to determine if %s exists would overflow buffer"
        else if negb (first_char_is "/" (seg ++ "/" ++ name)) then
          find_executable_loop fuel name rest
        else
          ok <- call (Access (seg ++ "/" ++ name) X_OK) ;;
          if ok then Ret (Some (seg ++ "/" ++ name))
          else find_executable_loop fuel name rest)
       (lookup_post name)).
  { intros seg rest.
    destruct (PATH_MAX <=? _) eqn:Hlen; [reflexivity |]. apply Z.leb_gt in Hlen.
    destruct (first_char_is "/" (seg ++ "/" ++ name)) eqn:Habs; cbn [negb]; [| apply IH].
    cbn [bind call wp]. intros [|]; cbn [bind].
    - simpl. exists seg, []. repeat split; auto.
    - eapply wp_weaken; [| apply IH]. intros t o. apply lookup_post_cons. }
  destruct (split_colon (String c r)) as [[seg rest] |].
  - destruct seg; [apply IH | apply Htry].
  - apply Htry.
Qed.

(** X1.  In every run of the search of [$PATH] for a program: a path
    returned is some directory prefix followed by [/] and the name, is
    absolute and fits the buffer, and the [access] call on it is the
    last call of the search and the only one that succeeded; when nothing
    is returned, or the path would not fit, no [access] call succeeded;
    and the search only makes [access] calls. *)
Theorem find_executable_in_path_sound
    {W : Type} (h : handler W) (w : W) (name : string) (path_env : option string) :
  let t := trace_of (run h (find_executable_in_path name path_env) w) in
  let o := outcome_of (run h (find_executable_in_path name path_env) w) in
  within F_lookup t /\
  match o with
  | Done (Some p) =>
      exists seg t',
        p = seg ++ "/" ++ name /\
        first_char_is "/" p = true /\
        Z.of_nat (String.length p) < PATH_MAX /\
        t = (t' ++ [Ev (Access p X_OK) true])%list /\
        existsb access_ok t' = false
  | Done None => existsb access_ok t = false
  | Fatal _ => existsb access_ok t = false
  | Undefined _ => False
  end.
Proof.
  intros t o. split.
  - apply (wp_run h _ (fun t _ => within F_lookup t) w).
    unfold find_executable_in_path. apply find_executable_loop_footprint.
  - apply (wp_run h _ (lookup_post name) w).
    unfold find_executable_in_path. apply find_executable_loop_sound.
Qed.

(** ** Parsing sizes *)

Lemma read_digits_string_of_uint (d : Decimal.uint) (rest : string) (acc : Z) :
  starts_with_digit rest = false ->
  read_digits (NilEmpty.string_of_uint d ++ rest) acc = (digits_value d acc, rest).
Proof.
  intros Hrest. revert acc.
  induction d as [| d IH | d IH | d IH | d IH | d IH | d IH | d IH | d IH | d IH | d IH];
    intros acc; cbn [NilEmpty.string_of_uint digits_value append];
    try (cbn [read_digits]; unfold digit_of; simpl; rewrite IH; reflexivity).
  destruct rest as [| c r]; [reflexivity |].
  cbn [read_digits]. unfold starts_with_digit in Hrest.
  destruct (digit_of c); [discriminate | reflexivity].
Qed.

Lemma digits_value_pos (d : Decimal.uint) (acc : positive) :
  digits_value d (Z.pos acc) = Z.pos (Pos.of_uint_acc d acc).
Proof.
  revert acc.
  induction d as [| d IH | d IH | d IH | d IH | d IH | d IH | d IH | d IH | d IH | d IH];
    intros acc; cbn [digits_value Pos.of_uint_acc]; [reflexivity | ..];
    rewrite <- IH; f_equal; lia.
Qed.

Lemma digits_value_0 (d : Decimal.uint) :
  digits_value d 0 = Z.of_N (Pos.of_uint d).
Proof.
  induction d as [| d IH | d IH | d IH | d IH | d IH | d IH | d IH | d IH | d IH | d IH];
    cbn [digits_value Pos.of_uint]; [reflexivity | exact IH | ..];
    cbn [Z.mul Z.add Z.of_N]; apply digits_value_pos.
Qed.

Lemma string_of_uint_head (d : Decimal.uint) :
  d <> Decimal.Nil ->
  exists c r, NilEmpty.string_of_uint d = String c r /\
              starts_with_digit (String c r) = true /\
              isspace c = false /\ Ascii.eqb c "-" = false /\ Ascii.eqb c "+" = false.
Proof.
  destruct d; [contradiction | ..]; intros _; cbn [NilEmpty.string_of_uint];
    eexists; eexists; (split; [reflexivity |]); repeat split; reflexivity.
Qed.

Lemma skip_space_total_pad (pad s : string) (c : ascii) (r : string) :
  all_space pad = true -> s = String c r -> isspace c = false ->
  skip_space_total (pad ++ s) = s.
Proof.
  intros Hpad -> Hc. induction pad as [| p pad IH]; simpl.
  - rewrite Hc. reflexivity.
  - simpl in Hpad. apply andb_true_iff in Hpad as [Hp Hpad]. rewrite Hp. apply IH, Hpad.
Qed.

Lemma decimal_nonneg (n : Z) :
  0 <= n ->
  exists d, d <> Decimal.Nil /\ decimal n = NilEmpty.string_of_uint d /\ digits_value d 0 = n.
Proof.
  intros Hn. unfold decimal. destruct n as [| p | p]; [| | lia].
  - exists (Decimal.D0 Decimal.Nil). repeat split; discriminate.
  - exists (Pos.to_uint p). split; [apply DecimalPos.Unsigned.to_uint_nonnil |].
    split.
    + cbn [Z.to_int NilZero.string_of_int]. unfold NilZero.string_of_uint.
      pose proof (DecimalPos.Unsigned.to_uint_nonnil p) as Hnn.
      destruct (Pos.to_uint p); [contradiction | ..]; reflexivity.
    + rewrite digits_value_0, DecimalPos.Unsigned.of_to. reflexivity.
Qed.

Lemma strtoull_decimal (pad rest : string) (n : Z) :
  all_space pad = true -> 0 <= n < 2 ^ 64 -> starts_with_digit rest = false ->
  strtoull (pad ++ decimal n ++ rest) = (Some n, rest).
Proof.
  intros Hpad Hn Hrest.
  destruct (decimal_nonneg n (proj1 Hn)) as (d & Hd & Hdec & Hval).
  destruct (string_of_uint_head d Hd) as (c & r & Hs & Hdig & Hsp & Hminus & Hplus).
  unfold strtoull.
  assert (Hskip : skip_space_total (pad ++ decimal n ++ rest) = decimal n ++ rest).
  { apply (skip_space_total_pad pad _ c (r ++ rest) Hpad); [| exact Hsp].
    rewrite Hdec, Hs. reflexivity. }
  rewrite Hskip. rewrite Hdec, Hs. cbn [append]. rewrite Hminus, Hplus.
  assert (Hdig' : starts_with_digit (String c (r ++ rest)) = true) by exact Hdig.
  rewrite Hdig'.
  change (String c (r ++ rest)) with (String c r ++ rest). rewrite <- Hs.
  rewrite read_digits_string_of_uint by exact Hrest. rewrite Hval.
  destruct (n <? 2 ^ 64) eqn:Hlt; [reflexivity |]. apply Z.ltb_ge in Hlt. lia.
Qed.

Lemma parse_size_or_die_digits
    (pad rest : string) (n : Z) (expected_end : ascii) (want_end : bool) :
  all_space pad = true ->
  0 <= n < 2 ^ 64 ->
  starts_with_digit rest = false ->
  (want_end = true -> first_char_is expected_end rest = true) ->
  parse_size_or_die (pad ++ decimal n ++ rest) expected_end want_end = Ret (n, rest).
Proof.
  intros Hpad Hn Hrest Hend. unfold parse_size_or_die.
  rewrite (strtoull_decimal pad rest n Hpad Hn Hrest).
  destruct want_end; [rewrite (Hend eq_refl) |]; reflexivity.
Qed.

(** X2.  A size printed in decimal is parsed back: for every size [n] a
    [size_t] holds, [parse_size_or_die] on white space, the decimal
    digits of [n] and a rest that starts with the expected end character
    (any rest that does not go on with a digit when no end pointer is
    asked for) returns [n] and the rest as the end pointer. *)
Theorem parse_size_or_die_decimal
    (pad rest : string) (n : Z) (expected_end : ascii) (want_end : bool) :
  all_space pad = true ->
  0 <= n < 2 ^ 64 ->
  starts_with_digit rest = false ->
  (want_end = true -> first_char_is expected_end rest = true) ->
  parse_size_or_die (pad ++ decimal n ++ rest) expected_end want_end = Ret (n, rest).
Proof.
  exact (parse_size_or_die_digits pad rest n expected_end want_end).
Qed.

Lemma parse_size_or_die_decimal_witness :
  parse_size_or_die ("   " ++ decimal 4030464 ++ " kB" ++ str1 LF) " " true
  = Ret (4030464, " kB" ++ str1 LF).
Proof.
  apply (parse_size_or_die_decimal "   " (" kB" ++ str1 LF) 4030464 " " true).
  - reflexivity.
  - lia.
  - reflexivity.
  - intros _. reflexivity.
Defined.

(** ** Physical memory *)

Lemma no_lf_app (a b : string) : no_lf (a ++ b) = no_lf a && no_lf b.
Proof.
  induction a as [| c a IH]; simpl; [reflexivity |]. rewrite IH. apply andb_assoc.
Qed.

Lemma fgets_one_line (room : nat) (l rest : string) :
  no_lf l = true -> (String.length l < room)%nat ->
  fgets_one room (l ++ String LF rest) = (l ++ str1 LF, rest).
Proof.
  revert room. induction l as [| c l IH]; intros room Hl Hlen.
  - destruct room; [simpl in Hlen; lia |]. reflexivity.
  - destruct room; [simpl in Hlen; lia |]. simpl in Hl, Hlen.
    apply andb_true_iff in Hl as [Hc Hl].
    cbn [append fgets_one]. apply negb_true_iff in Hc. rewrite Hc.
    rewrite IH by (auto; lia). reflexivity.
Qed.

Lemma no_lf_string_of_uint (d : Decimal.uint) : no_lf (NilEmpty.string_of_uint d) = true.
Proof. induction d; simpl; auto. Qed.

Lemma no_lf_decimal (n : Z) : 0 <= n -> no_lf (decimal n) = true.
Proof.
  intros Hn. destruct (decimal_nonneg n Hn) as (d & _ & -> & _).
  apply no_lf_string_of_uint.
Qed.

Lemma spaces_all_space (k : nat) : all_space (spaces k) = true.
Proof. induction k; simpl; auto. Qed.

Lemma no_lf_spaces (k : nat) : no_lf (spaces k) = true.
Proof. induction k; simpl; auto. Qed.

Lemma mem_total_prefix (x : string) : has_prefix "MemTotal: " ("MemTotal: " ++ x) = true.
Proof. unfold has_prefix. cbn. destruct (cstr x); reflexivity. Qed.

Lemma mem_total_drop (x : string) : string_drop 10 ("MemTotal: " ++ x) = x.
Proof. reflexivity. Qed.

Lemma meminfo_line_total (k : nat) (n : Z) (unit : string) (mult : Z) :
  0 <= n < 2 ^ 64 -> In (unit, mult) meminfo_units ->
  meminfo_line ("MemTotal: " ++ spaces k ++ decimal n ++ unit ++ str1 LF)
  = Ret (Some (wrap64 (n * mult))).
Proof.
  intros Hn Hunit. unfold meminfo_line, in_buffer.
  assert (Hbuf : (("MemTotal: " ++ spaces k ++ decimal n ++ unit ++ str1 LF) ++ str1 NUL)
                 = "MemTotal: " ++ (spaces k ++ decimal n ++ (unit ++ str1 LF ++ str1 NUL))).
  { rewrite <- !string_app_assoc. reflexivity. }
  rewrite Hbuf. clear Hbuf.
  rewrite mem_total_prefix, mem_total_drop.
  simpl in Hunit.
  destruct Hunit as [H | [H | [H | [H | []]]]]; injection H as <- <-;
    (rewrite parse_size_or_die_digits;
     [ | apply spaces_all_space | exact Hn | reflexivity | intros _; reflexivity ]);
    cbn [bind]; reflexivity.
Qed.

Lemma fgets_all_first_line (room : nat) (l rest : string) :
  no_lf l = true -> (String.length l < room)%nat ->
  exists more, fgets_all room (l ++ String LF rest) = (l ++ str1 LF) :: more.
Proof.
  intros Hl Hlen. unfold fgets_all.
  destruct (String.length (l ++ String LF rest)) as [| fuel] eqn:Hf.
  { rewrite length_app in Hf. simpl in Hf. lia. }
  cbn [fgets_loop].
  destruct (l ++ String LF rest) as [| c s] eqn:Hs.
  { destruct l; discriminate Hs. }
  rewrite <- Hs, (fgets_one_line room l rest Hl Hlen).
  eexists. reflexivity.
Qed.

(** X3.  When the first line of [/proc/meminfo] is [MemTotal:], spaces, a
    decimal size a [size_t] holds and one of the units kB, MB, GB, TB,
    [physical_memory] returns the size times 1024, 2^20, 2^30 or 2^40
    as a [size_t] (the product wraps), whatever follows that line. *)
Theorem physical_memory_reads_mem_total
    {W : Type} (h : handler W) (w : W) (k : nat) (n : Z) (unit : string) (mult : Z)
    (rest : string) :
  0 <= n < 2 ^ 64 ->
  In (unit, mult) meminfo_units ->
  (String.length ("MemTotal: " ++ spaces k ++ decimal n ++ unit) < 255)%nat ->
  fst (h _ (ReadText "/proc/meminfo") w)
  = Some ("MemTotal: " ++ spaces k ++ decimal n ++ unit ++ str1 LF ++ rest) ->
  outcome_of (run h physical_memory w) = Done (wrap64 (n * mult)).
Proof.
  intros Hn Hunit Hlen Hread.
  assert (Hnolf : no_lf ("MemTotal: " ++ spaces k ++ decimal n ++ unit) = true).
  { rewrite !no_lf_app, no_lf_spaces, (no_lf_decimal n (proj1 Hn)).
    simpl in Hunit. destruct Hunit as [H | [H | [H | [H | []]]]]; injection H as <- <-;
      reflexivity. }
  destruct (fgets_all_first_line 255 _ rest Hnolf Hlen) as [more Hchunks].
  assert (Hcontent : "MemTotal: " ++ spaces k ++ decimal n ++ unit ++ str1 LF ++ rest
                     = ("MemTotal: " ++ spaces k ++ decimal n ++ unit) ++ String LF rest).
  { rewrite !string_app_assoc. reflexivity. }
  assert (Hline : ("MemTotal: " ++ spaces k ++ decimal n ++ unit) ++ str1 LF
                  = "MemTotal: " ++ spaces k ++ decimal n ++ unit ++ str1 LF).
  { rewrite !string_app_assoc. reflexivity. }
  unfold physical_memory. rewrite run_bind. cbn [call run].
  destruct (h (option string) (ReadText "/proc/meminfo") w) as [r w1].
  cbn [fst] in Hread. subst r.
  rewrite Hcontent, Hchunks, Hline. cbn [meminfo_scan].
  rewrite (meminfo_line_total k n unit mult Hn Hunit). reflexivity.
Qed.

Lemma physical_memory_reads_mem_total_witness :
  outcome_of (run (simulate toolless_vm) physical_memory toolless_vm_files)
  = Done (wrap64 (4030464 * 1024)).
Proof.
  apply (physical_memory_reads_mem_total (simulate toolless_vm) toolless_vm_files
           7 4030464 " kB" 1024 EmptyString).
  - lia.
  - left. reflexivity.
  - vm_compute. lia.
  - reflexivity.
Defined.

(** ** Rewriting text files line by line *)

Lemma fgets_loop_bounded (fuel fuel' room : nat) (s : string) :
  (String.length s <= fuel)%nat -> (String.length s <= fuel')%nat ->
  fgets_loop fuel (S room) s = fgets_loop fuel' (S room) s.
Proof.
  revert fuel' s. induction fuel as [| fuel IH]; intros fuel' s Hf Hf'.
  - destruct s; [| simpl in Hf; lia]. destruct fuel'; reflexivity.
  - destruct s as [| c r]; [destruct fuel'; reflexivity |].
    destruct fuel' as [| fuel']; [simpl in Hf'; lia |].
    cbn [fgets_loop].
    pose proof (fgets_one_rest room c r) as Hrest.
    destruct (fgets_one (S room) (String c r)) as [chunk rest]. cbn [snd] in Hrest.
    simpl in Hf, Hf'. rewrite (IH fuel' rest) by lia. reflexivity.
Qed.

Lemma fgets_all_cons_line (room : nat) (l rest : string) :
  no_lf l = true -> (String.length l < S room)%nat ->
  fgets_all (S room) (l ++ String LF rest) = (l ++ str1 LF) :: fgets_all (S room) rest.
Proof.
  intros Hl Hlen. unfold fgets_all.
  destruct (String.length (l ++ String LF rest)) as [| fuel] eqn:Hf.
  { rewrite length_app in Hf. simpl in Hf. lia. }
  cbn [fgets_loop].
  destruct (l ++ String LF rest) as [| c s] eqn:Hs.
  { destruct l; discriminate Hs. }
  rewrite <- Hs, (fgets_one_line (S room) l rest Hl Hlen).
  f_equal. apply fgets_loop_bounded; [| lia].
  assert (Hlen' : String.length (String c s) = S fuel) by exact Hf.
  rewrite <- Hs, length_app in Hlen'. simpl in Hlen'. lia.
Qed.

Lemma text_of_cons (l : string) (ls : list string) :
  text_of (l :: ls) = l ++ String LF (text_of ls).
Proof. unfold text_of. cbn [map join]. rewrite string_app_assoc. reflexivity. Qed.

Lemma plain_line_facts (room : nat) (l : string) :
  plain_line room l = true ->
  no_lf l = true /\ nul_free l = true /\ (String.length l < room)%nat.
Proof.
  unfold plain_line. intros H.
  apply andb_true_iff in H as [H Hlen]. apply andb_true_iff in H as [Hlf Hnul].
  apply Nat.ltb_lt in Hlen. auto.
Qed.

(** A [while (fgets(...))] loop over a text of plain lines sees the
    lines one by one. *)
Lemma fgets_all_text (room : nat) (ls : list string) :
  forallb (plain_line (S room)) ls = true ->
  fgets_all (S room) (text_of ls) = map (fun l => l ++ str1 LF) ls.
Proof.
  induction ls as [| l ls IH]; intros H; [reflexivity |].
  simpl in H. apply andb_true_iff in H as [Hl Hls].
  destruct (plain_line_facts _ _ Hl) as (Hlf & _ & Hlen).
  rewrite text_of_cons, (fgets_all_cons_line room l _ Hlf Hlen), (IH Hls). reflexivity.
Qed.

Lemma text_of_app (a b : list string) : text_of (a ++ b) = text_of a ++ text_of b.
Proof.
  induction a as [| l a IH]; [reflexivity |].
  cbn [app]. rewrite !text_of_cons, IH.
  change (String LF (text_of a ++ text_of b)) with (String LF (text_of a) ++ text_of b).
  rewrite string_app_assoc. reflexivity.
Qed.

Lemma cstr_in_buffer (chunk : string) :
  nul_free chunk = true -> cstr (in_buffer chunk) = chunk.
Proof.
  induction chunk as [| c chunk IH]; intros H; [reflexivity |].
  simpl in H. apply andb_true_iff in H as [Hc H].
  unfold in_buffer in *. cbn [append cstr]. apply negb_true_iff in Hc. rewrite Hc.
  rewrite (IH H). reflexivity.
Qed.

Lemma cstr_nul_free (s : string) : nul_free (cstr s) = true.
Proof.
  induction s as [| c s IH]; [reflexivity |]. simpl.
  destruct (Ascii.eqb c NUL) eqn:Hc; [reflexivity |]. simpl. rewrite Hc, IH. reflexivity.
Qed.

Lemma cstr_idem (s : string) : nul_free s = true -> cstr s = s.
Proof.
  induction s as [| c s IH]; intros H; [reflexivity |].
  simpl in H. apply andb_true_iff in H as [Hc H]. apply negb_true_iff in Hc.
  simpl. rewrite Hc, (IH H). reflexivity.
Qed.

Lemma line_nul_free (l : string) : nul_free l = true -> nul_free (l ++ str1 LF) = true.
Proof. intros H. rewrite nul_free_app, H. reflexivity. Qed.

Lemma prefix_nil (s : string) : prefix EmptyString s = true.
Proof. destruct s; reflexivity. Qed.

Lemma prefix_app (a b : string) : prefix a (a ++ b) = true.
Proof.
  induction a as [| c a IH]; [apply prefix_nil |].
  cbn [append prefix]. destruct (ascii_dec c c) as [_ | Hne]; [exact IH | contradiction].
Qed.

Lemma occurs_prefix (a b : string) : occurs a (a ++ b) = true.
Proof.
  destruct (a ++ b) as [| c s] eqn:Hs; cbn [occurs]; rewrite <- Hs, prefix_app; reflexivity.
Qed.

(** ** The swap entry of [/etc/fstab] *)

Lemma fstab_keep_text (p : string) (ls : list string) :
  forallb nul_free ls = true ->
  fstab_keep p (map (fun l => l ++ str1 LF) ls)
  = text_of (filter (fun l => negb (occurs (cstr p) (l ++ str1 LF))) ls).
Proof.
  induction ls as [| l ls IH]; intros H; [reflexivity |].
  simpl in H. apply andb_true_iff in H as [Hl Hls].
  cbn [map fstab_keep filter]. unfold strstr.
  rewrite (cstr_in_buffer _ (line_nul_free l Hl)).
  destruct (occurs (cstr p) (l ++ str1 LF)); cbn [negb].
  - apply IH, Hls.
  - rewrite text_of_cons, (IH Hls). rewrite string_app_assoc. reflexivity.
Qed.

Lemma plain_lines_nul_free (room : nat) (ls : list string) :
  forallb (plain_line room) ls = true -> forallb nul_free ls = true.
Proof.
  induction ls as [| l ls IH]; [reflexivity |]. simpl. intros H.
  apply andb_true_iff in H as [Hl Hls].
  destruct (plain_line_facts _ _ Hl) as (_ & Hn & _). rewrite Hn, (IH Hls). reflexivity.
Qed.

Lemma forallb_filter {A : Type} (f g : A -> bool) (l : list A) :
  forallb f l = true -> forallb f (filter g l) = true.
Proof.
  induction l as [| x l IH]; [reflexivity |]. simpl. intros H.
  apply andb_true_iff in H as [Hx Hl].
  destruct (g x); simpl; [rewrite Hx |]; auto.
Qed.

Lemma filter_filter {A : Type} (g : A -> bool) (l : list A) :
  filter g (filter g l) = filter g l.
Proof.
  induction l as [| x l IH]; [reflexivity |]. simpl.
  destruct (g x) eqn:Hx; simpl; [rewrite Hx, IH |]; auto.
Qed.

Lemma fstab_rewrite_text (p : string) (ls : list string) :
  forallb (plain_line 1023) ls = true ->
  fstab_rewrite p (text_of ls)
  = text_of (filter (fun l => negb (occurs (cstr p) (l ++ str1 LF))) ls) ++ fstab_entry p.
Proof.
  intros H. unfold fstab_rewrite.
  rewrite (fgets_all_text 1022 ls H), (fstab_keep_text p ls (plain_lines_nul_free _ _ H)).
  reflexivity.
Qed.

(** X4.  The rewrite of [/etc/fstab], for a file of newline-terminated
    lines shorter than the line buffer and a swap path that fits in one:
    every line that does not mention the swap path is kept, in order,
    the lines that mention it are dropped, and one entry for the swap
    file is appended; rewriting the result again leaves it as it is. *)
Theorem fstab_rewrite_idempotent (p : string) (ls : list string) :
  forallb (plain_line 1023) ls = true ->
  no_lf (cstr p) = true ->
  (String.length (cstr p) + 22 < 1023)%nat ->
  fstab_rewrite p (text_of ls)
  = text_of (filter (fun l => negb (occurs (cstr p) (l ++ str1 LF))) ls) ++ fstab_entry p
  /\ fstab_rewrite p (fstab_rewrite p (text_of ls)) = fstab_rewrite p (text_of ls).
Proof.
  intros Hls Hp Hlen. split; [apply fstab_rewrite_text, Hls |].
  rewrite (fstab_rewrite_text p ls Hls).
  remember (fun l => negb (occurs (cstr p) (l ++ str1 LF))) as keep eqn:Hkeep.
  set (entry := cstr p ++ str1 TAB ++ "none" ++ str1 TAB ++ "swap" ++ str1 TAB ++ "swap"
                ++ str1 TAB ++ "0" ++ str1 TAB ++ "0").
  assert (Hentry : fstab_entry p = text_of [entry]).
  { unfold fstab_entry, entry, text_of. cbn [map join].
    rewrite !string_app_assoc. reflexivity. }
  rewrite Hentry, <- text_of_app.
  assert (Hplain : forallb (plain_line 1023) (filter keep ls ++ [entry]) = true).
  { rewrite forallb_app, (forallb_filter _ keep ls Hls). cbn [forallb andb].
    rewrite andb_true_r. unfold plain_line, entry.
    rewrite no_lf_app, Hp, nul_free_app, cstr_nul_free. cbn [andb].
    apply andb_true_iff. split; [reflexivity |].
    apply Nat.ltb_lt. rewrite length_app. simpl. lia. }
  rewrite (fstab_rewrite_text p _ Hplain), <- Hkeep.
  assert (Hdrop : keep entry = false).
  { rewrite Hkeep. unfold entry. rewrite !string_app_assoc, occurs_prefix. reflexivity. }
  rewrite filter_app, filter_filter. cbn [filter]. rewrite Hdrop, app_nil_r.
  rewrite text_of_app, <- Hentry. reflexivity.
Qed.

Lemma fstab_rewrite_idempotent_witness :
  let ls := ["/dev/sda1 / ext4 defaults 0 1"; "/hibfile.sys none swap sw 0 0"] in
  fstab_rewrite swap_file_name (fstab_rewrite swap_file_name (text_of ls))
  = fstab_rewrite swap_file_name (text_of ls).
Proof.
  exact (proj2 (fstab_rewrite_idempotent swap_file_name
                  ["/dev/sda1 / ext4 defaults 0 1"; "/hibfile.sys none swap sw 0 0"]
                  ltac:(vm_compute; reflexivity) ltac:(vm_compute; reflexivity)
                  ltac:(vm_compute; lia))).
Defined.

(** ** The managed block of the GRUB settings *)

Lemma strip_managed_text (b : bool) (ls : list string) :
  forallb nul_free ls = true ->
  strip_managed b (map (fun l => l ++ str1 LF) ls) = text_of (unmanaged b ls).
Proof.
  revert b. induction ls as [| l ls IH]; intros b H; [reflexivity |].
  simpl in H. apply andb_true_iff in H as [Hl Hls].
  cbn [map strip_managed unmanaged]. unfold strstr.
  rewrite (cstr_in_buffer _ (line_nul_free l Hl)).
  change (cstr end_marker) with end_marker. change (cstr start_marker) with start_marker.
  destruct b.
  - apply IH, Hls.
  - destruct (occurs start_marker (l ++ str1 LF)); [apply IH, Hls |].
    rewrite text_of_cons, (IH false Hls), string_app_assoc. reflexivity.
Qed.

Lemma unmanaged_kept (b : bool) (ls : list string) :
  forallb (fun l => negb (occurs start_marker (l ++ str1 LF))) (unmanaged b ls) = true.
Proof.
  revert b. induction ls as [| l ls IH]; intros b; [reflexivity |].
  cbn [unmanaged]. destruct b; [apply IH |].
  destruct (occurs start_marker (l ++ str1 LF)) eqn:Hs; [apply IH |].
  cbn [forallb]. rewrite Hs, IH. reflexivity.
Qed.

Lemma unmanaged_plain (room : nat) (b : bool) (ls : list string) :
  forallb (plain_line room) ls = true ->
  forallb (plain_line room) (unmanaged b ls) = true.
Proof.
  revert b. induction ls as [| l ls IH]; intros b H; [reflexivity |].
  simpl in H. apply andb_true_iff in H as [Hl Hls].
  cbn [unmanaged]. destruct b; [apply IH, Hls |].
  destruct (occurs start_marker (l ++ str1 LF)); [apply IH, Hls |].
  cbn [forallb]. rewrite Hl, (IH false Hls). reflexivity.
Qed.

Lemma unmanaged_outside (ls more : list string) :
  forallb (fun l => negb (occurs start_marker (l ++ str1 LF))) ls = true ->
  unmanaged false (ls ++ more)%list = (ls ++ unmanaged false more)%list.
Proof.
  induction ls as [| l ls IH]; intros H; [reflexivity |].
  simpl in H. apply andb_true_iff in H as [Hl Hls]. apply negb_true_iff in Hl.
  cbn [app unmanaged]. rewrite Hl, (IH Hls). reflexivity.
Qed.

Lemma no_char_app (c : ascii) (a b : string) :
  no_char c (a ++ b) = no_char c a && no_char c b.
Proof.
  induction a as [| d a IH]; simpl; [reflexivity |]. rewrite IH. apply andb_assoc.
Qed.

Lemma no_char_occurs (c : ascii) (needle s : string) :
  no_char c s = true -> occurs (String c needle) s = false.
Proof.
  induction s as [| d s IH]; intros H; [reflexivity |].
  simpl in H. apply andb_true_iff in H as [Hd Hs]. apply negb_true_iff in Hd.
  cbn [occurs prefix]. destruct (ascii_dec c d) as [-> | _].
  - rewrite Ascii.eqb_refl in Hd. discriminate Hd.
  - apply IH, Hs.
Qed.

Lemma managed_block_text (args : string) :
  managed_block args = text_of [start_marker; managed_line args; end_marker].
Proof.
  unfold managed_block, managed_line, text_of. cbn [map join].
  rewrite !string_app_assoc. reflexivity.
Qed.

Lemma unmanaged_block (args : string) :
  no_char "#" args = true ->
  unmanaged false [start_marker; managed_line args; end_marker] = [].
Proof.
  intros Hargs. cbn [unmanaged].
  rewrite (occurs_prefix start_marker (str1 LF)).
  assert (Hmid : occurs end_marker (managed_line args ++ str1 LF) = false).
  { apply (no_char_occurs "#"). unfold managed_line.
    rewrite !no_char_app, Hargs. reflexivity. }
  rewrite Hmid. reflexivity.
Qed.

Lemma grub_rewrite_text (ls : list string) (args : string) :
  forallb (plain_line 1023) ls = true ->
  grub_rewrite (Some (text_of ls)) args = text_of (unmanaged false ls) ++ managed_block args.
Proof.
  intros H. unfold grub_rewrite.
  rewrite (fgets_all_text 1022 ls H), (strip_managed_text false ls (plain_lines_nul_free _ _ H)).
  reflexivity.
Qed.

(** X5.  The rewrite of the GRUB settings, for a file of
    newline-terminated lines shorter than the line buffer and arguments
    without newline, terminator or [#] that fit in a line: a file
    without the start sentinel is kept whole and the managed block is
    appended to it; and rewriting the result of a rewrite again, with the
    same arguments, leaves it as it is. *)
Theorem grub_rewrite_idempotent (ls : list string) (args : string) :
  forallb (plain_line 1023) ls = true ->
  no_lf args = true -> nul_free args = true -> no_char "#" args = true ->
  (String.length args + 59 < 1023)%nat ->
  (forallb (fun l => negb (occurs start_marker (l ++ str1 LF))) ls = true ->
   grub_rewrite (Some (text_of ls)) args = text_of ls ++ managed_block args) /\
  grub_rewrite (Some (grub_rewrite (Some (text_of ls)) args)) args
  = grub_rewrite (Some (text_of ls)) args.
Proof.
  intros Hls Hlf Hnul Hhash Hlen. split.
  - intros Hout. rewrite (grub_rewrite_text ls args Hls).
    pose proof (unmanaged_outside ls [] Hout) as H.
    cbn [unmanaged] in H. rewrite !app_nil_r in H. rewrite H. reflexivity.
  - rewrite (grub_rewrite_text ls args Hls), managed_block_text, <- text_of_app.
    assert (Hplain : forallb (plain_line 1023)
                       (unmanaged false ls ++ [start_marker; managed_line args; end_marker])%list
                     = true).
    { rewrite forallb_app, (unmanaged_plain 1023 false ls Hls). cbn [forallb andb].
      rewrite andb_true_r.
      assert (Hmid : plain_line 1023 (managed_line args) = true).
      { unfold plain_line, managed_line.
        rewrite !no_lf_app, !nul_free_app, Hlf, Hnul. cbn [andb].
        apply Nat.ltb_lt. rewrite !length_app. simpl. lia. }
      rewrite Hmid. reflexivity. }
    rewrite (grub_rewrite_text _ args Hplain).
    rewrite (unmanaged_outside _ _ (unmanaged_kept false ls)), (unmanaged_block args Hhash).
    rewrite app_nil_r, managed_block_text, <- text_of_app. reflexivity.
Qed.

Lemma grub_rewrite_idempotent_witness :
  let args := kernel_args "abcd" 34816 in
  let ls := ["GRUB_TIMEOUT=5"; "# az-hibernate-agent:start"; "stale";
             "# az-hibernate-agent:end"; "GRUB_DISTRIBUTOR=x"] in
  grub_rewrite (Some (grub_rewrite (Some (text_of ls)) args)) args
  = grub_rewrite (Some (text_of ls)) args.
Proof.
  exact (proj2 (grub_rewrite_idempotent
                  ["GRUB_TIMEOUT=5"; "# az-hibernate-agent:start"; "stale";
                   "# az-hibernate-agent:end"; "GRUB_DISTRIBUTOR=x"]
                  (kernel_args "abcd" 34816)
                  ltac:(vm_compute; reflexivity) ltac:(vm_compute; reflexivity)
                  ltac:(vm_compute; reflexivity) ltac:(vm_compute; reflexivity)
                  ltac:(vm_compute; lia))).
Defined.

(** ** The check of the kernel command line *)

Lemma words_cons (t : string) (rest : list string) :
  words (t :: rest) = t ++ String " " (words rest).
Proof. unfold words. cbn [map join]. rewrite string_app_assoc. reflexivity. Qed.

Lemma words_app (a b : list string) : words (a ++ b) = words a ++ words b.
Proof.
  induction a as [| t a IH]; [reflexivity |].
  cbn [app]. rewrite !words_cons, IH.
  change (String " " (words a ++ words b)) with (String " " (words a) ++ words b).
  rewrite string_app_assoc. reflexivity.
Qed.

Lemma skip_nonspace_word (t rest : string) :
  no_space t = true ->
  skip_nonspace (t ++ String " " rest) = Some (String " " rest).
Proof.
  induction t as [| c t IH]; intros H; [reflexivity |].
  simpl in H. apply andb_true_iff in H as [Hc Ht]. apply negb_true_iff in Hc.
  cbn [append skip_nonspace]. rewrite Hc. apply IH, Ht.
Qed.

Lemma word_head (t : string) :
  word t = true ->
  exists c r, t = String c r /\ isspace c = false /\ Ascii.eqb c NUL = false /\
              no_space t = true /\ nul_free t = true.
Proof.
  destruct t as [| c r]; [discriminate |]. unfold word. intros H.
  apply andb_true_iff in H as [Hs Hn]. exists c, r.
  simpl in Hs, Hn. apply andb_true_iff in Hs as [Hc Hs]. apply andb_true_iff in Hn as [Hz Hn].
  apply negb_true_iff in Hc. apply negb_true_iff in Hz.
  repeat split; auto; simpl; rewrite ?Hc, ?Hz; auto.
Qed.

Lemma next_field_word (t : string) (c : ascii) (r : string) :
  word t = true -> isspace c = false ->
  next_field (Some (t ++ String " " (String c r))) = FAt (String c r).
Proof.
  intros Ht Hc. destruct (word_head t Ht) as (a & t' & -> & Ha & Hz & Hs & _).
  unfold next_field. cbn [append]. rewrite Hz.
  change (String a (t' ++ String " " (String c r))) with (String a t' ++ String " " (String c r)).
  rewrite (skip_nonspace_word _ _ Hs). cbn [skip_space]. rewrite Hc. reflexivity.
Qed.

(** The memory after the words starts with a character that is not
    white space: the first character of a word, or the terminator. *)
Lemma words_head (toks : list string) (tail : string) :
  forallb word toks = true ->
  exists c r, words toks ++ String NUL tail = String c r /\ isspace c = false.
Proof.
  destruct toks as [| t toks]; intros H.
  - exists NUL, tail. split; reflexivity.
  - simpl in H. apply andb_true_iff in H as [Ht _].
    destruct (word_head t Ht) as (a & t' & -> & Ha & _).
    rewrite words_cons. eexists. eexists. split; [reflexivity | exact Ha].
Qed.

Lemma note_field_nul (tail : string) (f : cmdline_fields) :
  note_field (String NUL tail) f = f.
Proof. reflexivity. Qed.

Lemma words_length (t : string) (rest : list string) :
  (String.length (words rest) < String.length (words (t :: rest)))%nat.
Proof. rewrite words_cons, length_app. simpl. lia. Qed.

Lemma cmdline_scan_words (toks : list string) (tail : string) :
  forallb word toks = true ->
  forall (fuel : nat) (f : cmdline_fields),
    (String.length (words toks) < fuel)%nat ->
    cmdline_scan fuel (words toks ++ String NUL tail) f
    = ScanDone (scan_fields toks (String NUL tail) f).
Proof.
  induction toks as [| t toks IH]; intros Hw fuel f Hfuel.
  - destruct fuel; [lia |]. reflexivity.
  - destruct fuel; [lia |].
    simpl in Hw. apply andb_true_iff in Hw as [Ht Hw].
    destruct (words_head toks tail Hw) as (c & r & Hmem & Hc).
    cbn [cmdline_scan scan_fields].
    assert (Hfield : words (t :: toks) ++ String NUL tail = t ++ String " " (String c r)).
    { rewrite words_cons, string_app_assoc. cbn [append]. rewrite Hmem. reflexivity. }
    replace (next_field (Some (words (t :: toks) ++ String NUL tail)))
      with (FAt (String c r))
      by (rewrite Hfield; symmetry; apply (next_field_word t c r Ht Hc)).
    rewrite <- Hmem.
    apply IH; [exact Hw |]. pose proof (words_length t toks). lia.
Qed.

Lemma cstr_word (t x : string) :
  nul_free t = true -> cstr (t ++ String " " x) = t ++ String " " (cstr x).
Proof.
  induction t as [| c t IH]; intros H; [reflexivity |].
  simpl in H. apply andb_true_iff in H as [Hc Ht]. apply negb_true_iff in Hc.
  cbn [append cstr]. rewrite Hc, (IH Ht). reflexivity.
Qed.

(** Whether a word starts with a literal without white space does not
    depend on what follows the word. *)
Lemma prefix_word (lit t x : string) :
  no_space lit = true ->
  prefix lit (t ++ String " " x) = prefix lit t.
Proof.
  revert t. induction lit as [| a lit IH]; intros t Hlit.
  - rewrite !prefix_nil. reflexivity.
  - simpl in Hlit. apply andb_true_iff in Hlit as [Ha Hlit]. apply negb_true_iff in Ha.
    destruct t as [| b t]; cbn [append prefix].
    + destruct (ascii_dec a " ") as [-> | _]; [discriminate Ha | reflexivity].
    + destruct (ascii_dec a b); [apply IH, Hlit | reflexivity].
Qed.

Lemma has_prefix_word (lit t x : string) :
  no_space lit = true -> nul_free t = true ->
  has_prefix lit (t ++ String " " x) = prefix lit t.
Proof.
  intros Hlit Ht. unfold has_prefix. rewrite (cstr_word t x Ht). apply prefix_word, Hlit.
Qed.

Lemma note_field_other (t x : string) (f : cmdline_fields) :
  nul_free t = true -> resume_param t = false ->
  note_field (t ++ String " " x) f = f.
Proof.
  intros Ht Hp. unfold resume_param in Hp.
  apply orb_false_iff in Hp as [Hp H3]. apply orb_false_iff in Hp as [H1 H2].
  unfold note_field.
  rewrite !has_prefix_word by (auto; reflexivity). rewrite H1, H2, H3. reflexivity.
Qed.

Lemma scan_fields_other (toks : list string) (tail : string) (f : cmdline_fields) :
  forallb word toks = true ->
  forallb (fun t => negb (resume_param t)) toks = true ->
  scan_fields toks tail f = f.
Proof.
  induction toks as [| t toks IH]; intros Hw Hp; [reflexivity |].
  simpl in Hw, Hp. apply andb_true_iff in Hw as [Ht Hw]. apply andb_true_iff in Hp as [Hpt Hp].
  apply negb_true_iff in Hpt.
  destruct (word_head t Ht) as (_ & _ & _ & _ & _ & _ & Hn).
  cbn [scan_fields]. rewrite words_cons, string_app_assoc. cbn [append].
  rewrite (note_field_other t _ f Hn Hpt). apply IH; assumption.
Qed.

Lemma scan_fields_app (a b : list string) (tail : string) (f : cmdline_fields) :
  scan_fields (a ++ b) tail f = scan_fields b tail (scan_fields a (words b ++ tail) f).
Proof.
  revert f. induction a as [| t a IH]; intros f; [reflexivity |].
  cbn [app scan_fields]. rewrite IH. do 2 f_equal.
  change (t :: (a ++ b)%list) with ((t :: a) ++ b)%list.
  rewrite words_app, string_app_assoc. reflexivity.
Qed.

Lemma token_word (t x : string) :
  no_space t = true -> nul_free t = true -> token (t ++ String " " x) = t.
Proof.
  induction t as [| c t IH]; intros Hs Hn; [reflexivity |].
  simpl in Hs, Hn. apply andb_true_iff in Hs as [Hc Hs]. apply andb_true_iff in Hn as [Hz Hn].
  apply negb_true_iff in Hc. apply negb_true_iff in Hz.
  cbn [append token]. rewrite Hc, Hz. cbn [orb]. rewrite (IH Hs Hn). reflexivity.
Qed.

(** The fields noted after the three parameters, whatever was noted
    before them. *)
Lemma scan_fields_resume_words (dev dec tail : string)
    (f : cmdline_fields) :
  no_space dev = true -> nul_free dev = true ->
  no_space dec = true -> nul_free dec = true ->
  let g := scan_fields ["resume=" ++ dev; "resume_offset=" ++ dec; "no_console_suspend=1"]
             tail f in
  (exists r, resume_field g = Some r /\ token r = dev) /\
  (exists o, resume_offset_field g = Some o /\ token o = dec) /\
  (exists n, no_console_suspend_field g = Some n /\ token n = "1").
Proof.
  intros Hds Hdn Hcs Hcn. cbn zeta. cbn [scan_fields].
  assert (H1 : forall y g, note_field ("resume=" ++ dev ++ String " " y) g
                 = mk_fields (Some (dev ++ String " " y)) (resume_offset_field g)
                     (no_console_suspend_field g)).
  { intros y g. unfold note_field.
    replace (has_prefix "resume=" ("resume=" ++ dev ++ String " " y)) with true; [reflexivity |].
    symmetry. rewrite <- string_app_assoc.
    rewrite has_prefix_word; [apply prefix_app | reflexivity |].
    rewrite nul_free_app, Hdn. reflexivity. }
  assert (H2 : forall y g, note_field ("resume_offset=" ++ dec ++ String " " y) g
                 = mk_fields (resume_field g) (Some (dec ++ String " " y))
                     (no_console_suspend_field g)).
  { intros y g. unfold note_field.
    assert (Hn : nul_free ("resume_offset=" ++ dec) = true)
      by (rewrite nul_free_app, Hcn; reflexivity).
    rewrite <- string_app_assoc.
    rewrite !has_prefix_word by (auto; reflexivity).
    rewrite prefix_app.
    replace (prefix "resume=" ("resume_offset=" ++ dec)) with false by reflexivity.
    rewrite string_app_assoc. reflexivity. }
  rewrite !words_cons. unfold words. cbn [map join].
  rewrite !string_app_assoc. cbn [append] in H1, H2 |- *.
  rewrite H1, H2. cbn.
  repeat split; eexists; (split; [reflexivity |]).
  - apply token_word; assumption.
  - apply token_word; assumption.
  - reflexivity.
Qed.

Lemma string_of_uint_plain (d : Decimal.uint) :
  no_space (NilEmpty.string_of_uint d) = true /\ nul_free (NilEmpty.string_of_uint d) = true.
Proof. induction d; simpl; auto. Qed.

Lemma decimal_plain (n : Z) :
  0 <= n -> no_space (decimal n) = true /\ nul_free (decimal n) = true.
Proof.
  intros Hn. destruct (decimal_nonneg n Hn) as (d & _ & -> & _).
  apply string_of_uint_plain.
Qed.

Lemma digits_value_lower (d : Decimal.uint) (acc : Z) :
  0 <= acc ->
  acc * 10 ^ Z.of_nat (String.length (NilEmpty.string_of_uint d)) <= digits_value d acc.
Proof.
  revert acc.
  induction d as [| d IH | d IH | d IH | d IH | d IH | d IH | d IH | d IH | d IH | d IH];
    intros acc Hacc; cbn [NilEmpty.string_of_uint String.length digits_value];
    [simpl; lia | ..];
    (rewrite Nat2Z.inj_succ, Z.pow_succ_r by lia;
     match goal with
     | |- _ <= digits_value _ ?a =>
         specialize (IH a ltac:(lia));
         assert (0 <= 10 ^ Z.of_nat (String.length (NilEmpty.string_of_uint d)))
           by (apply Z.pow_nonneg; lia);
         nia
     end).
Qed.

Lemma nzhead_head (d : Decimal.uint) :
  match Decimal.nzhead d with
  | Decimal.D0 _ => False
  | _ => True
  end.
Proof. induction d; simpl; auto. Qed.

Lemma to_uint_head (p : positive) :
  match Pos.to_uint p with
  | Decimal.Nil | Decimal.D0 _ => False
  | _ => True
  end.
Proof.
  pose proof (DecimalPos.Unsigned.to_of (Pos.to_uint p)) as H.
  rewrite DecimalPos.Unsigned.of_to in H. cbn [N.to_uint] in H.
  pose proof (DecimalPos.Unsigned.to_uint_nonzero p) as Hnz.
  pose proof (nzhead_head (Pos.to_uint p)) as Hh.
  unfold Decimal.unorm in H. rewrite H in Hnz |- *.
  destruct (Decimal.nzhead (Pos.to_uint p)); try exact I; try contradiction.
Qed.

(** The decimal digits of a number below [10 ^ k] are at most [k]. *)
Lemma decimal_length (n : Z) (k : nat) :
  0 <= n < 10 ^ Z.of_nat k -> (0 < k)%nat ->
  (String.length (decimal n) <= k)%nat.
Proof.
  intros [Hn Hlt] Hk. unfold decimal. destruct n as [| p | p]; [simpl; lia | | lia].
  cbn [Z.to_int NilZero.string_of_int].
  pose proof (to_uint_head p) as Hh.
  assert (Hval : digits_value (Pos.to_uint p) 0 = Z.pos p)
    by (rewrite digits_value_0, DecimalPos.Unsigned.of_to; reflexivity).
  unfold NilZero.string_of_uint.
  destruct (Pos.to_uint p) as [| d | d | d | d | d | d | d | d | d | d];
    try contradiction;
    cbn [digits_value NilEmpty.string_of_uint String.length] in Hval |- *;
    (match type of Hval with
     | digits_value _ ?a = _ => pose proof (digits_value_lower d a ltac:(lia)) as Hlow
     end;
     rewrite Hval in Hlow;
     destruct (Nat.le_gt_cases (S (String.length (NilEmpty.string_of_uint d))) k) as [Hle | Hgt];
     [exact Hle |];
     assert (Hpow : 10 ^ Z.of_nat k <= 10 ^ Z.of_nat (String.length (NilEmpty.string_of_uint d)))
       by (apply Z.pow_le_mono_r; lia);
     nia).
Qed.

Lemma substring_all (s : string) (n : nat) :
  (String.length s <= n)%nat -> substring 0 n s = s.
Proof.
  revert n. induction s as [| c s IH]; intros n H.
  - destruct n; reflexivity.
  - destruct n; [simpl in H; lia |]. simpl. rewrite IH by (simpl in H; lia). reflexivity.
Qed.

(** The buffer of [3 * sizeof(size_t)] bytes holds every offset. *)
Lemma snprintf_keep_offset (offset : Z) :
  0 <= offset < 2 ^ 63 -> snprintf_keep 24 (decimal offset) = decimal offset.
Proof.
  intros H. unfold snprintf_keep. apply substring_all.
  pose proof (decimal_length offset 19 ltac:(simpl; lia) ltac:(lia)). simpl. lia.
Qed.

Lemma strip_newline_line (l : string) :
  nul_free l = true -> no_lf l = true ->
  strip_newline (in_buffer (l ++ str1 LF)) = l ++ String NUL (str1 NUL).
Proof.
  induction l as [| c l IH]; intros Hn Hl; [reflexivity |].
  simpl in Hn, Hl. apply andb_true_iff in Hn as [Hz Hn]. apply andb_true_iff in Hl as [Hc Hl].
  apply negb_true_iff in Hz. apply negb_true_iff in Hc.
  unfold in_buffer in *. cbn [append strip_newline]. rewrite Hz, Hc, (IH Hn Hl). reflexivity.
Qed.

Lemma read_first_line_run {W : Type} (h : handler W) (w : W) (p line rest : string) :
  plain_line 1023 line = true ->
  fst (h _ (ReadText p) w) = Some (line ++ String LF rest) ->
  run h (read_first_line_from_file p) w
  = ([Ev (ReadText p) (Some (line ++ String LF rest))],
     Done (Some (line ++ String NUL (str1 NUL))),
     snd (h _ (ReadText p) w)).
Proof.
  intros Hline Hread. destruct (plain_line_facts _ _ Hline) as (Hlf & Hnul & Hlen).
  unfold read_first_line_from_file. rewrite run_bind. cbn [call run].
  destruct (h (option string) (ReadText p) w) as [r w1]. cbn [fst snd] in *. subst r.
  destruct (line ++ String LF rest) as [| c s] eqn:Hs.
  { destruct line; discriminate Hs. }
  rewrite <- Hs, (fgets_one_line 1023 line rest Hlf Hlen). cbn [fst].
  rewrite (strip_newline_line line Hnul Hlf). reflexivity.
Qed.

Lemma no_space_no_lf (t : string) : no_space t = true -> no_lf t = true.
Proof.
  induction t as [| c t IH]; intros H; [reflexivity |].
  simpl in H. apply andb_true_iff in H as [Hc Ht]. simpl. rewrite (IH Ht), andb_true_r.
  destruct (Ascii.eqb c LF) eqn:Heq; [| reflexivity].
  apply Ascii.eqb_eq in Heq. subst c. discriminate Hc.
Qed.

Lemma words_plain (toks : list string) :
  forallb word toks = true -> no_lf (words toks) = true /\ nul_free (words toks) = true.
Proof.
  induction toks as [| t toks IH]; intros H; [split; reflexivity |].
  simpl in H. apply andb_true_iff in H as [Ht Hw].
  destruct (word_head t Ht) as (_ & _ & _ & _ & _ & Hs & Hn).
  destruct (IH Hw) as [Hl Hz].
  rewrite words_cons.
  change (t ++ String " " (words toks)) with (t ++ (str1 " " ++ words toks)).
  rewrite !no_lf_app, !nul_free_app, (no_space_no_lf t Hs), Hn, Hl, Hz. split; reflexivity.
Qed.

Lemma resume_words_text (dev_uuid : string) (offset : Z) :
  words (resume_words dev_uuid offset) = kernel_args dev_uuid offset ++ " ".
Proof.
  unfold resume_words, kernel_args, words. cbn [map join].
  rewrite !string_app_assoc. reflexivity.
Qed.

Lemma resume_words_are_words (dev_uuid : string) (offset : Z) :
  no_space (cstr dev_uuid) = true -> 0 <= offset ->
  forallb word (resume_words dev_uuid offset) = true.
Proof.
  intros Hu Ho. destruct (decimal_plain offset Ho) as [Hds Hdn].
  unfold resume_words, resume_device. cbn [forallb].
  assert (H1 : word ("resume=" ++ "/dev/disk/by-uuid/" ++ cstr dev_uuid) = true).
  { cbn [append]. unfold word. simpl. rewrite Hu, cstr_nul_free. reflexivity. }
  assert (H2 : word ("resume_offset=" ++ decimal offset) = true).
  { cbn [append]. unfold word. simpl. rewrite Hds, Hdn. reflexivity. }
  rewrite H1, H2. reflexivity.
Qed.

Lemma cmdline_check_resume_words (dev_uuid : string) (offset : Z) (f : cmdline_fields) :
  (exists r, resume_field f = Some r /\ token r = resume_device dev_uuid) ->
  (exists o, resume_offset_field f = Some o /\ token o = decimal offset) ->
  (exists n, no_console_suspend_field f = Some n /\ token n = "1") ->
  Z.of_nat (String.length (resume_device dev_uuid)) < PATH_MAX ->
  0 <= offset < 2 ^ 63 ->
  cmdline_check dev_uuid offset f = true.
Proof.
  intros (r & Hr & Htr) (o & Ho & Hto) (n & Hn & Htn) Hlen Hoff.
  apply cmdline_check_exact. exists r, o, n.
  rewrite (snprintf_keep_offset offset Hoff). repeat split; assumption.
Qed.

(** X6.  The check of the kernel command line accepts what the patch
    writes.  When the first line of [/proc/cmdline] is a sequence of
    parameters, each followed by one space, in which the three
    parameters of [kernel_args] for this UUID and offset come after any
    other occurrence of [resume=], [resume_offset=] or
    [no_console_suspend=], [is_kernel_cmdline_correct] returns true:
    for a UUID without white space whose device path fits [PATH_MAX], an
    offset an [off_t] holds, and a line that fits the buffer. *)
Theorem is_kernel_cmdline_correct_accepts_kernel_args
    {W : Type} (h : handler W) (w : W) (dev_uuid : string) (offset : Z)
    (before after : list string) (rest : string) :
  forallb word before = true ->
  forallb word after = true ->
  forallb (fun t => negb (resume_param t)) after = true ->
  no_space (cstr dev_uuid) = true ->
  Z.of_nat (String.length (resume_device dev_uuid)) < PATH_MAX ->
  0 <= offset < 2 ^ 63 ->
  (String.length (words before ++ kernel_args dev_uuid offset ++ " " ++ words after) < 1023)%nat ->
  fst (h _ (ReadText "/proc/cmdline") w)
  = Some ((words before ++ kernel_args dev_uuid offset ++ " " ++ words after)
          ++ String LF rest) ->
  outcome_of (run h (is_kernel_cmdline_correct dev_uuid offset) w) = Done true.
Proof.
  intros Hb Ha Hother Hu Hpath Hoff Hlen Hread.
  set (toks := (before ++ resume_words dev_uuid offset ++ after)%list).
  assert (Hline : words before ++ kernel_args dev_uuid offset ++ " " ++ words after
                  = words toks).
  { unfold toks. rewrite !words_app, resume_words_text, !string_app_assoc. reflexivity. }
  rewrite Hline in Hlen, Hread.
  assert (Hw : forallb word toks = true).
  { unfold toks. rewrite !forallb_app, Hb, Ha,
      (resume_words_are_words dev_uuid offset Hu (proj1 Hoff)). reflexivity. }
  destruct (words_plain toks Hw) as [Hlf Hnul].
  assert (Hplain : plain_line 1023 (words toks) = true).
  { unfold plain_line. rewrite Hlf, Hnul. apply Nat.ltb_lt. exact Hlen. }
  unfold is_kernel_cmdline_correct. rewrite run_bind.
  rewrite (read_first_line_run h w _ _ rest Hplain Hread).
  rewrite (cmdline_scan_words toks (str1 NUL) Hw) by (rewrite length_app; simpl; lia).
  cbn [run outcome_of fst snd]. f_equal.
  unfold toks. rewrite scan_fields_app, scan_fields_app.
  rewrite (scan_fields_other after _ _ Ha Hother).
  destruct (decimal_plain offset (proj1 Hoff)) as [Hds Hdn].
  assert (Hdev_s : no_space (resume_device dev_uuid) = true)
    by (unfold resume_device; simpl; exact Hu).
  assert (Hdev_n : nul_free (resume_device dev_uuid) = true)
    by (unfold resume_device; simpl; apply cstr_nul_free).
  destruct (scan_fields_resume_words (resume_device dev_uuid) (decimal offset)
              (words after ++ String NUL (str1 NUL))
              (scan_fields before
                 (words (resume_words dev_uuid offset ++ after) ++ String NUL (str1 NUL))
                 (mk_fields None None None))
              Hdev_s Hdev_n Hds Hdn)
    as (H1 & H2 & H3).
  apply cmdline_check_resume_words; assumption.
Qed.

Lemma is_kernel_cmdline_correct_accepts_kernel_args_witness :
  outcome_of (run (simulate (bare_machine [])) (is_kernel_cmdline_correct "abcd" 34816)
                [("/proc/cmdline",
                  (words ["BOOT_IMAGE=/vmlinuz"; "root=/dev/sda1"; "resume_offset=7"]
                   ++ kernel_args "abcd" 34816 ++ " " ++ words ["quiet"])
                  ++ String LF EmptyString)])
  = Done true.
Proof.
  apply (is_kernel_cmdline_correct_accepts_kernel_args (simulate (bare_machine []))
           _ "abcd" 34816 ["BOOT_IMAGE=/vmlinuz"; "root=/dev/sda1"; "resume_offset=7"]
           ["quiet"] EmptyString).
  - reflexivity.
  - reflexivity.
  - reflexivity.
  - reflexivity.
  - vm_compute. reflexivity.
  - lia.
  - vm_compute. lia.
  - reflexivity.
Defined.

(** ** The first line of a file *)

Lemma first_line_of_chunk (room : nat) (s : string) :
  let line := cstr (strip_newline (in_buffer (fst (fgets_one room s)))) in
  exists x,
    s = line ++ x /\
    no_lf line = true /\
    (String.length line <= room)%nat /\
    (x = EmptyString \/ first_char_is LF x = true \/ first_char_is NUL x = true \/
     String.length line = room).
Proof.
  cbn zeta. revert s. induction room as [| room IH]; intros s.
  - exists s. cbn. repeat split; auto.
  - destruct s as [| c r].
    + exists EmptyString. cbn. repeat split; auto. lia.
    + cbn [fgets_one]. destruct (Ascii.eqb c LF) eqn:Hlf.
      * apply Ascii.eqb_eq in Hlf. subst c. exists (String LF r). cbn.
        repeat split; auto; lia.
      * destruct (IH r) as (x & Hr & Hno & Hlen & Hend).
        destruct (fgets_one room r) as [a b]. cbn [fst] in *.
        unfold in_buffer in *. cbn [append strip_newline].
        destruct (Ascii.eqb c NUL) eqn:Hz.
        -- apply Ascii.eqb_eq in Hz. subst c. exists (String NUL r). cbn.
           repeat split; auto; try lia.
        -- rewrite Hlf. cbn [cstr]. rewrite Hz.
           exists x. cbn [append no_lf String.length]. rewrite Hlf, Hno.
           repeat split; auto; try lia.
           ++ rewrite Hr at 1. reflexivity.
           ++ destruct Hend as [H | [H | [H | H]]]; auto.
Qed.

(** X7.  [read_first_line_from_file] returns a null pointer when the file
    cannot be opened or is empty.  Otherwise the string it returns is
    the start of the file up to, and without, the first newline; it is
    cut short only by a NUL byte in the file or by the 1023 characters
    the buffer has room for. *)
Theorem read_first_line_from_file_first_line
    {W : Type} (h : handler W) (w : W) (p : string) :
  match fst (h _ (ReadText p) w) with
  | None | Some EmptyString =>
      outcome_of (run h (read_first_line_from_file p) w) = Done None
  | Some content =>
      exists mem x,
        outcome_of (run h (read_first_line_from_file p) w) = Done (Some mem) /\
        content = cstr mem ++ x /\
        no_lf (cstr mem) = true /\
        (String.length (cstr mem) <= 1023)%nat /\
        (x = EmptyString \/ first_char_is LF x = true \/ first_char_is NUL x = true \/
         String.length (cstr mem) = 1023%nat)
  end.
Proof.
  unfold read_first_line_from_file. rewrite run_bind. cbn [call run].
  destruct (h (option string) (ReadText p) w) as [r w1]. cbn [fst].
  destruct r as [[| c content] |]; try reflexivity.
  destruct (first_line_of_chunk 1023 (String c content)) as (x & Hx).
  eexists. exists x. split; [reflexivity | exact Hx].
Qed.

(** ** Hibernation capability *)

(** Running a program whose calls are all in sight: every answer is
    taken apart. *)
Ltac run_step :=
  cbn [after negb bind wp call log_info log_fatal];
  lazymatch goal with
  | |- forall _ : bool, _ => intros [|]
  | |- forall _ : unit, _ => intros []
  | |- forall _ : option _, _ => let x := fresh "x" in intros [x |]
  | |- forall _ : res _, _ => let x := fresh "x" in let e := fresh "e" in intros [x | e]
  | |- forall _ : Z, _ => let z := fresh "z" in intros z
  | |- wp ?p _ =>
      match p with
      | context [if ?b then _ else _] =>
          lazymatch b with
          | context [if _ then _ else _] => fail
          | context [match _ with _ => _ end] => fail
          | _ => let H := fresh "Hif" in destruct b eqn:H
          end
      | context [match ?x with _ => _ end] =>
          is_var x; destruct x
      end
  end.

Ltac run_all := repeat run_step.

Lemma is_hibernation_enabled_for_vm_enabled :
  wp is_hibernation_enabled_for_vm enabled_post.
Proof.
  unfold is_hibernation_enabled_for_vm, read_first_line_from_file, is_hyperv.
  run_all.
  all: unfold enabled_post; split; [vm_compute; reflexivity |];
    split; [eexists; reflexivity |]; split.
  all: let H := fresh "H" in intros H;
    first [ discriminate H
          | vm_compute in H; discriminate H
          | split; reflexivity
          | split; [vm_compute; reflexivity |];
            first [ left; vm_compute; reflexivity
                  | right; split; vm_compute; reflexivity ] ].
Qed.

(** X8.  [is_hibernation_enabled_for_vm] always returns and changes
    nothing.  It returns true only when [/dev/snapshot] is there and
    either the line read from [/sys/power/disk] offers the platform
    method, or the VM is on Hyper-V and VMBus says hibernation is
    enabled; when [/dev/snapshot] is missing it returns false after that
    one call and a log line. *)
Theorem is_hibernation_enabled_for_vm_checks
    {W : Type} (h : handler W) (w : W) :
  let t := trace_of (run h is_hibernation_enabled_for_vm w) in
  let o := outcome_of (run h is_hibernation_enabled_for_vm w) in
  existsb event_mutates t = false /\
  (exists b, o = Done b) /\
  (o = Done true ->
     existsb (access_answered "/dev/snapshot" true) t = true /\
     (existsb (logs platform_msg) t = true \/
      (existsb (access_answered "/sys/bus/vmbus" true) t = true /\
       existsb (logs vmbus_enabled_msg) t = true))) /\
  (existsb (access_answered "/dev/snapshot" false) t = true ->
     o = Done false /\ List.length t = 2%nat).
Proof.
  exact (wp_run h _ _ w is_hibernation_enabled_for_vm_enabled).
Qed.

Lemma is_hibernation_enabled_for_vm_checks_witness :
  let t := trace_of (run (simulate toolless_vm) is_hibernation_enabled_for_vm
                       toolless_vm_files) in
  existsb (access_answered "/dev/snapshot" true) t = true /\
  (existsb (logs platform_msg) t = true \/
   (existsb (access_answered "/sys/bus/vmbus" true) t = true /\
    existsb (logs vmbus_enabled_msg) t = true)).
Proof.
  exact (proj1 (proj2 (proj2 (is_hibernation_enabled_for_vm_checks
                                (simulate toolless_vm) toolless_vm_files)))
           ltac:(vm_compute; reflexivity)).
Defined.

(** ** Device identification *)

Lemma uuid_dir_scan_sound (rdev : Z) (entries : list string) :
  wp (uuid_dir_scan "/dev/disk/by-uuid/" rdev entries)
     (fun t o =>
        match o with
        | Done (Some u) =>
            existsb (node_says (fun n => String.eqb (cstr n) u) rdev) t = true
        | Done None => existsb (node_says (fun _ => true) rdev) t = false
        | Fatal _ | Undefined _ => False
        end).
Proof.
  induction entries as [| d_name entries IH]; [reflexivity |].
  cbn [uuid_dir_scan bind call wp]. intros [ent_st |]; cbn [bind].
  - destruct (kind_eqb (st_kind ent_st) S_IFBLK) eqn:Hk; cbn [negb].
    + destruct (st_rdev ent_st =? rdev) eqn:Hr.
      * simpl. rewrite String.eqb_refl, Hk, Hr. reflexivity.
      * eapply wp_weaken; [| exact IH]. intros t [[u |] | |]; simpl; try tauto.
        -- intros ->. apply orb_true_r.
        -- rewrite Hk, Hr. simpl. tauto.
    + eapply wp_weaken; [| exact IH]. intros t [[u |] | |]; simpl; try tauto.
      * intros ->. apply orb_true_r.
      * rewrite Hk. simpl. tauto.
  - eapply wp_weaken; [| exact IH]. intros t [[u |] | |]; simpl; tauto.
Qed.

Lemma get_uuid_for_dev_path_sound (p : string) :
  wp (get_uuid_for_dev_path p) (uuid_post p).
Proof.
  unfold get_uuid_for_dev_path. cbn [bind call wp]. intros [dev_st |]; cbn [bind].
  2:{ cbn [log_info call bind wp]. intros []. exact I. }
  cbn [wp]. intros [entries |]; cbn [bind].
  2:{ cbn [log_info call bind wp]. intros []. exact I. }
  apply wp_bind. eapply wp_weaken; [| apply uuid_dir_scan_sound].
  intros t [[u |] | |] Ht; simpl; try tauto.
  intros []. exists (st_rdev dev_st). simpl.
  rewrite String.eqb_refl, Z.eqb_refl. split; [reflexivity |].
  rewrite existsb_app, Ht. reflexivity.
Qed.

Lemma mount_scan_sound (dev : Z) (ents : list mntent) :
  wp (mount_scan dev ents)
     (fun t o =>
        match o with
        | Done (Some ent) =>
            existsb (stat_says (mnt_dir ent) (fun st => st_dev st =? dev)) t = true
        | Done None => True
        | Fatal _ | Undefined _ => False
        end).
Proof.
  induction ents as [| ent ents IH]; [exact I |].
  cbn [mount_scan bind call wp]. intros [ent_st |]; cbn [bind].
  - destruct (st_dev ent_st =? dev) eqn:Hd.
    + simpl. rewrite String.eqb_refl, Hd. reflexivity.
    + eapply wp_weaken; [| exact IH]. intros t [[e |] | |]; simpl; try tauto.
      intros ->. apply orb_true_r.
  - eapply wp_weaken; [| exact IH]. intros t [[e |] | |]; simpl; tauto.
Qed.

Lemma get_disk_uuid_for_file_path_sound (p : string) :
  wp (get_disk_uuid_for_file_path p) (disk_uuid_post p).
Proof.
  apply wp_conj.
  { apply (never_footprint event_mutates F_uuid);
      [apply get_disk_uuid_for_file_path_footprint | excl]. }
  unfold get_disk_uuid_for_file_path. cbn [bind call wp]. intros [ents |]; cbn [bind];
    [| exact I].
  cbn [wp]. intros [st |]; cbn [bind]; [| reflexivity].
  apply wp_bind. eapply wp_weaken; [| apply mount_scan_sound].
  intros t1 [[ent |] | |] H1; cbn [after]; try contradiction.
  2:{ cbn [log_info call bind wp]. intros []. exact I. }
  eapply wp_weaken; [| apply get_uuid_for_dev_path_sound].
  intros t2 [[u |] | |]; simpl; try tauto.
  intros (rdev & Hs & Hn). exists ent, (st_dev st), rdev.
  rewrite String.eqb_refl, Z.eqb_refl, !existsb_app, H1, Hs, Hn.
  cbn [andb orb]. rewrite !orb_true_r. repeat split; reflexivity.
Qed.

(** ** Creating the swap file *)

Lemma flag_update (cur s r : Z) :
  Z.land s (Z.lnot swap_flags_mask) = 0 ->
  Z.land r (Z.lnot swap_flags_mask) = 0 ->
  flag_update_ok cur (Z.land (Z.lor cur s) (Z.lnot r)) = true.
Proof.
  intros Hs Hr. unfold flag_update_ok. apply Z.eqb_eq. apply Z.bits_inj'. intros n Hn.
  pose proof (f_equal (fun z => Z.testbit z n) Hs) as Hsn.
  pose proof (f_equal (fun z => Z.testbit z n) Hr) as Hrn.
  cbv beta in Hsn, Hrn.
  rewrite Z.land_spec, Z.lnot_spec, Z.bits_0 in Hsn, Hrn by exact Hn.
  rewrite !Z.land_spec, Z.lor_spec, !Z.lnot_spec by exact Hn.
  destruct (Z.testbit cur n), (Z.testbit s n), (Z.testbit r n),
    (Z.testbit swap_flags_mask n); simpl in *; congruence.
Qed.

Lemma flag_update_nocow (cur : Z) :
  flag_update_ok cur (Z.land (Z.lor cur FS_NOCOW_FL) (Z.lnot 0)) = true.
Proof. apply flag_update; reflexivity. Qed.

Lemma flag_update_nocomp (cur : Z) :
  flag_update_ok cur (Z.land (Z.lor cur FS_NOCOMP_FL) (Z.lnot FS_COMPR_FL)) = true.
Proof. apply flag_update; reflexivity. Qed.

#[local] Opaque XFS_SUPER_MAGIC flag_update_ok.

Lemma create_swap_file_with_size_sized (p : string) (size : Z) :
  wp (create_swap_file_with_size p size) sized_post.
Proof.
  unfold create_swap_file_with_size, fs_set_flags, is_file_on_fs.
  run_all.
  all: unfold sized_post, count;
    cbn [existsb filter List.length opened closes truncates truncate_ok on_xfs
         flags_kept setflags_of getflags_of orb andb];
    rewrite ?flag_update_nocow, ?flag_update_nocomp;
    repeat match goal with H : (_ =? XFS_SUPER_MAGIC) = _ |- _ => rewrite H end;
    cbn [orb andb].
  all: split; [eexists; reflexivity |]; split; [reflexivity |]; split;
    [intros H; first [reflexivity | discriminate H] |]; split; [| split; reflexivity].
  all: split;
    [ intros H; first [discriminate H | split; [reflexivity |]; first [left; reflexivity | right; reflexivity]]
    | intros [H1 H2]; first [reflexivity | discriminate H1 | destruct H2 as [H2 | H2]; discriminate H2] ].
Qed.

(** X10.  In every run of [create_swap_file_with_size]: it returns; the
    descriptor it opened is closed again; on XFS the file is not
    resized; the result is true exactly when the file could be opened
    and either the file system is XFS or the resize succeeded, so a
    failure to set the inode flags never makes it fail; and the inode
    flags are only written after they have been read, with no flag
    changed besides no-copy-on-write, no-compression and compression. *)
Theorem create_swap_file_with_size_result
    {W : Type} (h : handler W) (w : W) (p : string) (size : Z) :
  let t := trace_of (run h (create_swap_file_with_size p size) w) in
  let o := outcome_of (run h (create_swap_file_with_size p size) w) in
  (exists b, o = Done b) /\
  count opened t = count closes t /\
  (existsb on_xfs t = true -> existsb truncates t = false) /\
  (o = Done true <->
   existsb opened t = true /\
   (existsb on_xfs t = true \/ existsb truncate_ok t = true)) /\
  match t with
  | e :: _ => setflags_of e = None
  | [] => True
  end /\
  flags_kept t = true.
Proof.
  exact (wp_run h _ _ w (create_swap_file_with_size_sized p size)).
Qed.

Lemma create_swap_file_with_size_result_witness :
  let t := trace_of (run (simulate (bare_machine [])) (create_swap_file_with_size "/f" 8192) [])
  in
  existsb opened t = true /\ (existsb on_xfs t = true \/ existsb truncate_ok t = true).
Proof.
  exact (proj1 (proj1 (proj2 (proj2 (proj2
           (create_swap_file_with_size_result (simulate (bare_machine [])) [] "/f" 8192)))))
           ltac:(vm_compute; reflexivity)).
Defined.

#[local] Transparent XFS_SUPER_MAGIC flag_update_ok.

(** ** The slow allocation path *)

Lemma root_sector_size_sound (ents : list mntent) :
  wp (root_sector_size ents)
     (fun t o =>
        match o with
        | Done s => s = 0 \/ existsb (sector_size_is s) t = true
        | Fatal _ => True
        | Undefined _ => False
        end).
Proof.
  induction ents as [| ent ents IH]; [left; reflexivity |].
  cbn [root_sector_size]. destruct (String.eqb (mnt_dir ent) "/"); [| exact IH].
  cbn [bind call wp]. intros [fd |]; cbn [bind]; [| exact I].
  cbn [wp]. intros [v |] []; cbn; [| left; reflexivity].
  right. rewrite Z.eqb_refl. reflexivity.
Qed.

Lemma determine_block_size_for_root_fs_sound :
  wp determine_block_size_for_root_fs block_size_post.
Proof.
  unfold determine_block_size_for_root_fs. cbn [bind call wp]. intros [ents |]; cbn [bind];
    [| exact I].
  apply wp_bind. eapply wp_weaken; [| apply root_sector_size_sound].
  intros t [s | |] Hs; cbn [after]; try exact Hs.
  destruct (s =? 0) eqn:Hz; cbn [negb]; [exact I |]. apply Z.eqb_neq in Hz.
  destruct Hs as [-> | Hs]; [contradiction |].
  cbn [bind call wp]. intros [[f_type f_bsize] |]; cbn [bind wp]; [| exact I].
  exists s, f_bsize. cbn [existsb].
  rewrite !existsb_app, Hs. cbn [existsb fs_block_size_is].
  rewrite String.eqb_refl, Z.eqb_refl. cbn [andb orb]. rewrite !orb_true_r.
  repeat split; auto.
  rewrite Z.gtb_ltb. destruct (s <? f_bsize) eqn:Hgt;
    [apply Z.ltb_lt in Hgt | apply Z.ltb_ge in Hgt]; lia.
Qed.

Lemma pattern_loop_writes (n : nat) (fd off bs : Z) :
  wp (pattern_loop n fd off bs)
     (fun t o =>
        match o with
        | Done true =>
            forall k, (k < n)%nat ->
                      existsb (pwrite_at fd (off + Z.of_nat k * bs)) t = true
        | Done false => existsb slow_path_failed t = true
        | Fatal _ | Undefined _ => False
        end).
Proof.
  revert off. induction n as [| n IH]; intros off.
  - cbn. intros k Hk. lia.
  - cbn [pattern_loop bind call wp]. intros [|]; cbn [bind].
    + eapply wp_weaken; [| apply (IH (off + bs))].
      intros t [[|] | |] Hw; auto.
      intros [| k] Hk; cbn [existsb pwrite_at].
      * replace (off + Z.of_nat 0 * bs) with off by lia.
        rewrite !Z.eqb_refl. reflexivity.
      * specialize (Hw k ltac:(lia)).
        replace (off + Z.of_nat (S k) * bs) with (off + bs + Z.of_nat k * bs) by lia.
        rewrite Hw. apply orb_true_r.
    + cbn. intros []. reflexivity.
Qed.

Lemma pattern_count_covers (needed bs k : Z) :
  0 < bs -> 0 <= k -> k * bs < needed ->
  (Z.to_nat k < pattern_count needed bs)%nat.
Proof.
  intros Hbs Hk Hlt. unfold pattern_count.
  destruct (needed <=? 0) eqn:Hn; [apply Z.leb_le in Hn; nia |].
  apply Z.leb_gt in Hn.
  apply Z2Nat.inj_lt; [lia | apply Z.div_pos; lia |].
  assert (H : needed <= bs * ((needed + bs - 1) / bs)).
  { pose proof (Z.mod_pos_bound (needed + bs - 1) bs Hbs).
    pose proof (Z.div_mod (needed + bs - 1) bs ltac:(lia)). lia. }
  nia.
Qed.

Lemma try_zero_out_with_write_zeroed (p : string) (needed_size : Z) :
  wp (try_zero_out_with_write p needed_size)
     (fun t o => zeroed_post p needed_size t o /\
                 (o = Done false -> existsb slow_path_failed t = true)).
Proof.
  unfold try_zero_out_with_write. cbn [bind call wp]. intros [fd |]; cbn [bind].
  2:{ cbn [log_info call bind wp]. intros []. split; [intros H; discriminate H |].
      intros _. reflexivity. }
  apply wp_bind. eapply wp_weaken; [| apply determine_block_size_for_root_fs_sound].
  intros t1 [bs | |] H1; cbn [after];
    try (split; intros H; discriminate H).
  destruct H1 as (s & b & Hs & Hb & Hnz & ->).
  destruct ((Z.max s b <=? 0) && (0 <? needed_size)) eqn:Hstuck;
    [split; intros H; discriminate H |].
  apply wp_bind. eapply wp_weaken; [| apply pattern_loop_writes].
  intros t2 [[|] | |] Hw; cbn [after]; try contradiction.
  2:{ cbn [bind call wp]. intros []. split; [intros H; discriminate H |]. intros _.
      cbn [existsb]. rewrite !existsb_app, Hw. rewrite ?orb_true_r. reflexivity. }
  cbn [bind call wp]. intros [] []. split; [| intros H; discriminate H]. intros _.
  exists fd, s, b, (Ev (Open p O_WRONLY_CLOEXEC) (Some fd) :: t1 ++ t2)%list.
  cbn [existsb open_gave].
  rewrite String.eqb_refl, Z.eqb_refl. cbn [andb orb].
  rewrite !existsb_app, Hs, Hb. cbn [orb]. rewrite !orb_true_r.
  assert (Hpos : needed_size <= 0 \/ 0 < Z.max s b).
  { apply andb_false_iff in Hstuck as [H | H];
      [right; apply Z.leb_gt in H; exact H | left; apply Z.ltb_ge in H; exact H]. }
  repeat split; auto.
  - intros Hbs k Hk Hlt.
    pose proof (pattern_count_covers needed_size (Z.max s b) k Hbs Hk Hlt) as Hcount.
    specialize (Hw (Z.to_nat k) Hcount). rewrite Z2Nat.id in Hw by exact Hk.
    cbn [Z.add] in Hw. cbn [existsb]. rewrite !existsb_app, Hw.
    rewrite ?orb_true_r. reflexivity.
  - cbn [app]. rewrite <- !app_assoc. reflexivity.
Qed.

(** X11.  When the slow allocation path succeeds, the pattern has been
    written at every offset below the needed size that is a multiple of
    the block size, the larger of the sector size of the root device and
    the block size of the root file system; the writes are followed by
    [fdatasync] and [close] on the file; and the path never fails
    without a pattern write refused or the file not opened. *)
Theorem try_zero_out_with_write_covers
    {W : Type} (h : handler W) (w : W) (p : string) (needed_size : Z) :
  let t := trace_of (run h (try_zero_out_with_write p needed_size) w) in
  let o := outcome_of (run h (try_zero_out_with_write p needed_size) w) in
  (o = Done true ->
   exists fd s b t',
     existsb (open_gave p fd) t = true /\
     existsb (sector_size_is s) t = true /\
     existsb (fs_block_size_is b) t = true /\
     (needed_size <= 0 \/ 0 < Z.max s b) /\
     (0 < Z.max s b ->
      forall k, 0 <= k -> k * Z.max s b < needed_size ->
                existsb (pwrite_at fd (k * Z.max s b)) t = true) /\
     t = (t' ++ [Ev (Fdatasync fd) tt; Ev (Close fd) tt])%list) /\
  (o = Done false -> existsb slow_path_failed t = true).
Proof.
  intros t o. split.
  - exact (proj1 (wp_run h _ _ w (try_zero_out_with_write_zeroed p needed_size))).
  - exact (proj2 (wp_run h _ _ w (try_zero_out_with_write_zeroed p needed_size))).
Qed.

Lemma try_zero_out_with_write_covers_witness :
  let t := trace_of (run (simulate toolless_vm) (try_zero_out_with_write "/f" 8192) []) in
  exists fd s b t',
    existsb (open_gave "/f" fd) t = true /\
    existsb (sector_size_is s) t = true /\
    existsb (fs_block_size_is b) t = true /\
    (8192 <= 0 \/ 0 < Z.max s b) /\
    (0 < Z.max s b ->
     forall k, 0 <= k -> k * Z.max s b < 8192 ->
               existsb (pwrite_at fd (k * Z.max s b)) t = true) /\
    t = (t' ++ [Ev (Fdatasync fd) tt; Ev (Close fd) tt])%list.
Proof.
  exact (proj1 (try_zero_out_with_write_covers (simulate toolless_vm) [] "/f" 8192)
           ltac:(vm_compute; reflexivity)).
Defined.

(** X12.  [determine_block_size_for_root_fs] never returns a block size
    without a sector size: a value it returns is the larger of the
    sector size [BLKSSZGET] reported for the root device, which is not
    0, and the block size [statfs] reported for [/]; in every other case
    the run is fatal. *)
Theorem determine_block_size_for_root_fs_is_max
    {W : Type} (h : handler W) (w : W) :
  let t := trace_of (run h determine_block_size_for_root_fs w) in
  match outcome_of (run h determine_block_size_for_root_fs w) with
  | Done bs =>
      exists s b,
        existsb (sector_size_is s) t = true /\
        existsb (fs_block_size_is b) t = true /\
        s <> 0 /\ bs = Z.max s b
  | Fatal _ => True
  | Undefined _ => False
  end.
Proof.
  exact (wp_run h _ _ w determine_block_size_for_root_fs_sound).
Qed.

(** ** File-system specific checks *)

Lemma is_exec_in_path_no_spawn (name : string) :
  wp (is_exec_in_path name)
     (fun t o => existsb is_spawn t = false /\
                 match o with Done _ | Fatal _ => True | Undefined _ => False end).
Proof.
  apply wp_conj.
  - apply (never_footprint is_spawn _ _ (is_exec_in_path_footprint name)). excl.
  - unfold is_exec_in_path. cbn [bind call wp]. intros env.
    apply wp_bind. eapply wp_weaken; [| apply find_executable_loop_sound].
    intros t [[q |] | |] H; cbn [after wp]; auto.
Qed.

(** A part of the program that runs nothing can be skipped when looking
    for what was run. *)
Lemma wp_no_spawn {A B : Type} (p : prog A) (f : A -> prog B)
    (Q : list event -> outcome B -> Prop) :
  wp p (fun t o => existsb is_spawn t = false /\
                   match o with Done _ | Fatal _ => True | Undefined _ => False end) ->
  (forall t m, existsb is_spawn t = false -> Q t (Fatal m)) ->
  (forall t a, existsb is_spawn t = false -> wp (f a) (fun t' o => Q (t ++ t')%list o)) ->
  wp (bind p f) Q.
Proof.
  intros Hp Hfatal Hf. apply wp_bind. eapply wp_weaken; [| apply Hp].
  intros t [a | m | y] [Hq Ho]; cbn [after];
    [apply Hf; exact Hq | apply Hfatal; exact Hq | destruct Ho].
Qed.

Lemma filter_none {A : Type} (P : A -> bool) (l : list A) :
  existsb P l = false -> filter P l = [].
Proof.
  induction l as [| a l IH]; cbn; [reflexivity |].
  destruct (P a); cbn; [discriminate | exact IH].
Qed.

Lemma runs_spawn (program : string) (args : list string) (r : bool) :
  runs program args (Ev (Spawn program args) r) = true.
Proof.
  unfold runs. rewrite String.eqb_refl.
  destruct (list_eq_dec string_dec args args) as [_ | Hne]; [reflexivity | congruence].
Qed.

Lemma fs_is_statfs (p : string) (magic f_type f_bsize : Z) :
  (f_type =? magic) = true ->
  fs_is p magic (Ev (Statfs p) (Some (f_type, f_bsize))) = true.
Proof.
  intros H. unfold fs_is. rewrite String.eqb_refl, H. reflexivity.
Qed.

Ltac fs_step :=
  first [progress (cbn [bind call wp log_fatal after]; cbv beta) | idtac];
  lazymatch goal with
  | |- forall _ : option (Z * Z), _ => intros [[? ?] |]
  | |- forall _ : option string, _ => intros [? |]
  | |- forall _ : bool, _ => intros ?
  | |- forall _ : unit, _ => intros []
  | |- wp (bind (is_exec_in_path _) _) _ =>
      apply wp_no_spawn;
      [apply is_exec_in_path_no_spawn | intros ? ? ? | intros ? [|] ?]
  | |- wp (bind (if ?b then _ else _) _) _ => destruct b eqn:?
  | |- wp (if ?b then _ else _) _ => destruct b eqn:?
  | |- _ => idtac
  end.

Lemma perform_fs_specific_checks_checked (p : string) :
  wp (perform_fs_specific_checks p) (checks_post p).
Proof.
  unfold perform_fs_specific_checks, is_file_on_fs, try_spawn_and_wait.
  repeat (progress fs_step).
  all: unfold checks_post, count.
  all: rewrite ?app_nil_r.
  all: split;
    [repeat (rewrite ?filter_app; cbn [filter is_spawn app]);
     rewrite ?filter_none by assumption; cbn; lia |].
  all: split;
    [repeat (cbn [nothing_after is_spawn andb app]; rewrite ?nothing_after_app by assumption;
             rewrite ?nothing_after_absent by assumption);
     reflexivity |].
  all: split;
    [| repeat (cbn [existsb is_spawn orb app]; rewrite ?existsb_app);
       repeat match goal with H : existsb is_spawn _ = false |- _ => rewrite H end;
       try exact I; try reflexivity].
  all: intros He.
  all: first
    [ exfalso; revert He;
      repeat (cbn [existsb is_spawn orb app]; rewrite ?existsb_app);
      repeat match goal with H : existsb is_spawn _ = false |- _ => rewrite H end;
      cbn [orb]; discriminate
    | clear He; unfold defragmented;
      repeat (cbn [existsb app]; rewrite ?existsb_app);
      rewrite ?runs_spawn;
      repeat match goal with
             | H : (?z =? ?m) = true
               |- context [fs_is ?p ?m (Ev (Statfs ?p) (Some (?z, ?b)))] =>
                 rewrite (fs_is_statfs p m z b H)
             end;
      repeat (rewrite ?orb_true_r; cbn [orb andb]); reflexivity ].
Qed.

(** X13.  [perform_fs_specific_checks] runs at most one program, as the last
    thing it does, and never stops the run because of it: when a program
    is run, it is the defragmenter of the file system [statfs] reported
    for the file ([e4defrag] on the file for ext4, [btrfs filesystem
    defragment] for Btrfs, [xfs_fsr -v] for XFS), and a fatal run has
    run no program.  Whether the defragmenter succeeded is not looked
    at. *)
Theorem perform_fs_specific_checks_runs_one_defragmenter
    {W : Type} (h : handler W) (w : W) (p : string) :
  let t := trace_of (run h (perform_fs_specific_checks p) w) in
  (count is_spawn t <= 1)%nat /\
  nothing_after is_spawn t = true /\
  (existsb is_spawn t = true -> defragmented p t = true) /\
  match outcome_of (run h (perform_fs_specific_checks p) w) with
  | Done _ => True
  | Fatal _ => existsb is_spawn t = false
  | Undefined _ => False
  end.
Proof.
  exact (wp_run h _ _ w (perform_fs_specific_checks_checked p)).
Qed.

(** ** The swap entry of [/etc/fstab] *)

Lemma ensure_swap_is_enabled_enabled (swap : swap_file) (created : bool) :
  wp (ensure_swap_is_enabled swap created) (enabled_swap_post swap).
Proof.
  unfold ensure_swap_is_enabled. run_all.
  all: unfold enabled_swap_post; try reflexivity.
  - do 2 eexists. split; [| reflexivity].
    destruct x. left; reflexivity.
  - do 2 eexists. split; [| reflexivity].
    right. destruct e; cbn in *; try discriminate; reflexivity.
Qed.

(** X14.  [ensure_swap_is_enabled] writes [/etc/fstab] only once the swap
    file has mode 0600 and is an active swap area ([swapon] succeeded, or
    failed with [EBUSY]); what it writes is the rewrite [fstab_rewrite]
    of what it read from [/etc/fstab] (the buffers read that do not
    contain the swap path, followed by one entry for the file), and
    nothing follows the write.  A run that stops before has written no
    file. *)
Theorem ensure_swap_is_enabled_writes_fstab_last
    {W : Type} (h : handler W) (w : W) (swap : swap_file) (created : bool) :
  let t := trace_of (run h (ensure_swap_is_enabled swap created) w) in
  match outcome_of (run h (ensure_swap_is_enabled swap created) w) with
  | Done _ =>
      exists on content,
        (on = Ok tt \/ on = Err EBUSY) /\
        t = [Ev (LogInfo "Ensuring swap file %s is enabled") tt;
             Ev (Chmod (path swap)) true;
             Ev (Swapon (path swap)) on;
             Ev (LogInfo "Updating /etc/fstab") tt;
             Ev (ReadText "/etc/fstab") (Some content);
             Ev (WriteText "/etc/fstab" (fstab_rewrite (path swap) content)) true]
  | Fatal _ => existsb file_written t = false
  | Undefined _ => False
  end.
Proof.
  exact (wp_run h _ _ w (ensure_swap_is_enabled_enabled swap created)).
Qed.

(** ** The udev rule *)

Lemma access_answered_hit (p : string) (m : access_mode) (b : bool) :
  access_answered p b (Ev (Access p m) b) = true.
Proof.
  unfold access_answered. rewrite String.eqb_refl. destruct b; reflexivity.
Qed.

Lemma find_executable_in_path_finds (name : string) (env : option string) :
  wp (find_executable_in_path name env)
     (fun t o => lookup_post name t o /\
                 existsb is_spawn t = false /\ existsb file_written t = false).
Proof.
  unfold find_executable_in_path.
  apply wp_conj; [apply find_executable_loop_sound |].
  apply wp_conj.
  - apply (never_footprint is_spawn _ _ (find_executable_loop_footprint _ name _)). excl.
  - apply (never_footprint file_written _ _ (find_executable_loop_footprint _ name _)). excl.
Qed.

Lemma is_exec_in_path_finds (name : string) :
  wp (is_exec_in_path name)
     (fun t o => existsb is_spawn t = false /\ existsb file_written t = false /\
                 match o with
                 | Done true =>
                     exists seg, existsb (access_answered (seg ++ "/" ++ name) true) t = true
                 | Done false | Fatal _ => True
                 | Undefined _ => False
                 end).
Proof.
  unfold is_exec_in_path. cbn [bind call wp]. intros env.
  apply wp_bind. eapply wp_weaken; [| apply find_executable_in_path_finds].
  intros t [[q |] | |] [H [Hs Hw]]; cbn [after wp lookup_post] in *; rewrite ?app_nil_r.
  - destruct H as [seg [t' [Hq [_ [_ [Ht _]]]]]].
    cbn [existsb orb is_spawn file_written]. rewrite Hs, Hw.
    repeat split; auto. exists seg. subst q t.
    rewrite existsb_app. cbn [existsb]. rewrite access_answered_hit, orb_true_r. reflexivity.
  - cbn [existsb orb is_spawn file_written]. rewrite Hs, Hw. auto.
  - cbn [existsb orb is_spawn file_written]. rewrite Hs, Hw. auto.
  - destruct H.
Qed.

Ltac quiet_events :=
  repeat (rewrite ?existsb_app; cbn [existsb is_spawn file_written orb app]);
  repeat match goal with
         | H : existsb is_spawn _ = false |- _ => rewrite H
         | H : existsb file_written _ = false |- _ => rewrite H
         end;
  cbn [orb].

Lemma ensure_udev_rules_are_installed_installed :
  wp ensure_udev_rules_are_installed udev_post.
Proof.
  unfold ensure_udev_rules_are_installed.
  apply wp_bind. eapply wp_weaken; [| apply find_executable_in_path_finds].
  intros ta [[sp |] | m | y] [Hl [Hsa Hwa]]; cbn [after lookup_post] in *.
  - destruct Hl as [seg [ta' [Hsp [_ [_ [Hta _]]]]]].
    assert (Hfound : existsb (access_answered (seg ++ "/systemctl") true) ta = true).
    { rewrite Hta, Hsp, existsb_app. cbn [existsb].
      rewrite access_answered_hit, orb_true_r. reflexivity. }
    rewrite Hsp. clear Hsp Hta ta'.
    apply wp_bind. eapply wp_weaken; [| apply is_exec_in_path_finds].
    intros tb [[|] | m | y] [Hsb [Hwb Hb]]; cbn [after negb].
    + destruct Hb as [seg' Hb]. unfold is_hyperv, spawn_and_wait. run_all.
      all: wp_go; cbv beta; rewrite ?app_nil_r.
      all: try (left; quiet_events; repeat split; auto; fail).
      all: right; exists seg, seg'.
      all: lazymatch goal with
           | |- exists dir t1 t2, (?a ++ ?b ++ ?l)%list = _ /\ _ =>
               let rec go l k :=
                 lazymatch l with
                 | Ev (WriteText _ _) true :: ?rest => k (@nil event) rest
                 | ?e :: ?l' => go l' ltac:(fun pre rest => k (e :: pre) rest)
                 end in
               go l ltac:(fun pre rest =>
                 first [ exists "/usr/lib/udev/rules.d", (a ++ b ++ pre)%list, rest;
                         split; [rewrite <- !app_assoc; reflexivity |]
                       | exists "/etc/udev/rules.d", (a ++ b ++ pre)%list, rest;
                         split; [rewrite <- !app_assoc; reflexivity |]
                       | exists "/lib/udev/rules.d", (a ++ b ++ pre)%list, rest;
                         split; [rewrite <- !app_assoc; reflexivity |] ])
           end.
      all: change (seg' ++ "/" ++ "udevadm") with (seg' ++ "/udevadm") in Hb.
      all: split; [rewrite existsb_app, Hfound; reflexivity |].
      all: split; [rewrite !existsb_app, Hb, orb_true_r; reflexivity |].
      all: split;
        [rewrite !existsb_app; cbn [existsb]; rewrite access_answered_hit;
         rewrite ?orb_true_r; reflexivity |].
      all: split;
        [unfold rules_dir_chosen; rewrite !existsb_app; cbn [existsb];
         rewrite !access_answered_hit; cbn [String.eqb Ascii.eqb Bool.eqb andb orb];
         repeat (rewrite ?orb_true_r, ?andb_true_r; cbn [orb andb]); reflexivity |].
      all: split; [quiet_events; reflexivity |].
      all: split; [quiet_events; reflexivity |].
      all: cbn [udev_told]; first [reflexivity | left; reflexivity | right; reflexivity].
    + wp_go. left. quiet_events. auto.
    + left. quiet_events. auto.
    + destruct Hb.
  - wp_go. left. quiet_events. auto.
  - left. quiet_events. auto.
  - destruct Hl.
Qed.

(** X15.  [ensure_udev_rules_are_installed] either writes no file and runs
    no program, or writes exactly the hibernation rule: then [systemctl]
    and [udevadm] were found executable, [/sys/bus/vmbus] exists, the
    rule goes to the first of the three rule directories that exists
    and names the [systemctl] that was found, nothing was written or
    run before it, and after it [udevadm control --reload-rules] and
    [udevadm trigger] are run, the first one that fails ending the
    run. *)
Theorem ensure_udev_rules_are_installed_writes_one_rule
    {W : Type} (h : handler W) (w : W) :
  let t := trace_of (run h ensure_udev_rules_are_installed w) in
  let o := outcome_of (run h ensure_udev_rules_are_installed w) in
  (existsb file_written t = false /\ existsb is_spawn t = false /\
   match o with Undefined _ => False | _ => True end)
  \/
  (exists seg seg' dir t1 t2,
     t = (t1 ++ Ev (WriteText (rules_file dir) (udev_rule (seg ++ "/systemctl"))) true :: t2)%list /\
     existsb (access_answered (seg ++ "/systemctl") true) t1 = true /\
     existsb (access_answered (seg' ++ "/udevadm") true) t1 = true /\
     existsb (access_answered "/sys/bus/vmbus" true) t1 = true /\
     rules_dir_chosen dir t1 = true /\
     existsb file_written t1 = false /\
     existsb is_spawn t1 = false /\
     udev_told t2 o).
Proof.
  exact (wp_run h _ _ w ensure_udev_rules_are_installed_installed).
Qed.

(** ** The choice of the GRUB tool *)

Lemma spawns_patches (program : string) (e : event) :
  spawns program e = true -> patches e = true.
Proof. destruct e as [R c r]; destruct c; cbn; auto. Qed.

Lemma grub_tool_run_patches (e : event) : grub_tool_run e = true -> patches e = true.
Proof. destruct e as [R c r]; destruct c; cbn; auto. Qed.

Lemma writes_grub_settings_patches (e : event) :
  writes_grub_settings e = true -> patches e = true.
Proof. destruct e as [R c r]; destruct c; cbn; auto. Qed.

Lemma is_exec_in_path_patches_nothing (name : string) :
  wp (is_exec_in_path name)
     (fun t o => existsb patches t = false /\
                 match o with Undefined _ => False | _ => True end).
Proof.
  apply wp_conj.
  - apply (never_footprint patches _ _ (is_exec_in_path_footprint name)). excl.
  - eapply wp_weaken; [| apply is_exec_in_path_finds].
    intros t [[|] | |] [_ [_ H]]; auto.
Qed.

Ltac norm_events :=
  repeat (cbn [existsb app]; rewrite ?existsb_app);
  repeat match goal with
         | H : existsb _ _ = false |- _ => rewrite H
         end;
  cbn [existsb spawns writes_grub_settings grub_tool_run str_mem grub_tools
       grub_settings_files String.eqb Ascii.eqb Bool.eqb orb andb].

Ltac split_at_rewrite :=
  lazymatch goal with
  | |- exists file old t1 t2, (?e0 :: ?ti ++ ?l)%list = _ /\ _ =>
      let rec go l k :=
        lazymatch l with
        | Ev (ReadText ?f) ?old :: Ev (WriteText ?f _) true :: ?rest =>
            k (@nil event) f old rest
        | ?e :: ?l' => go l' ltac:(fun pre f old rest => k (e :: pre) f old rest)
        end in
      go l ltac:(fun pre f old rest =>
        exists f, old, (e0 :: ti ++ pre)%list, rest;
        split; [cbn [app]; rewrite <- app_assoc; reflexivity |])
  end.

Lemma update_kernel_cmdline_params_for_grub_choice
    (dev_uuid : string) (swap_area : resume_swap_area) (gr ug mk : bool) :
  wp (update_kernel_cmdline_params_for_grub dev_uuid swap_area gr ug mk)
     (grub_choice_post gr ug mk (kernel_args dev_uuid (area_offset swap_area))).
Proof.
  unfold update_kernel_cmdline_params_for_grub.
  set (args := kernel_args dev_uuid (area_offset swap_area)).
  cbn [bind log_info call wp]. intros [].
  apply wp_bind. eapply wp_weaken; [| apply is_exec_in_path_patches_nothing].
  intros ti o [Hq Ho].
  pose proof (absent_weaken _ _ ti (spawns_patches "grubby") Hq) as H1.
  pose proof (absent_weaken _ _ ti (spawns_patches "update-grub2") Hq) as H2.
  pose proof (absent_weaken _ _ ti (spawns_patches "grub2-mkconfig") Hq) as H3.
  pose proof (absent_weaken _ _ ti grub_tool_run_patches Hq) as H4.
  pose proof (absent_weaken _ _ ti writes_grub_settings_patches Hq) as H5.
  destruct o as [initramfs | m | y]; cbn [after]; [| | destruct Ho].
  - unfold spawn_and_wait, is_directory_empty, find_grub_cfg_path. run_all.
    all: wp_go; cbv beta; rewrite ?app_nil_r.
    all: unfold grub_choice_post, count.
    all: split; [exact I |].
    all: split;
      [cbn [filter app]; rewrite ?filter_app, (filter_none _ _ H4);
       cbn [filter app grub_tool_run str_mem grub_tools existsb String.eqb Ascii.eqb
            Bool.eqb orb andb Datatypes.length]; lia |].
    all: split;
      [norm_events; intros Hp;
       first [discriminate Hp
             | split; [reflexivity |];
               rewrite runs_spawn; repeat (rewrite ?orb_true_r; cbn [orb]); reflexivity] |].
    all: split;
      [norm_events; intros Hp; first [discriminate Hp | split; reflexivity] |].
    all: split;
      [norm_events; intros Hp; first [discriminate Hp | repeat split; reflexivity] |].
    all: split;
      [intros Hp; first [discriminate Hp | norm_events; reflexivity] |].
    all: intros Hp;
      first [ exfalso; revert Hp; norm_events; discriminate
            | clear Hp; split_at_rewrite;
              split; [reflexivity |]; split; norm_events; reflexivity ].
  - unfold grub_choice_post, count.
    cbn [filter existsb grub_tool_run spawns writes_grub_settings orb].
    rewrite (filter_none _ _ H4), H1, H2, H3, H5.
    repeat split; try discriminate; cbn; lia.
Qed.

(** X16.  [update_kernel_cmdline_params_for_grub] runs at most one of the
    GRUB tools, by preference: [grubby] when it was found, with the
    kernel arguments as its [--args] and without opening a GRUB settings
    file; otherwise [update-grub2] when it was found; [grub2-mkconfig]
    only when neither of the two was.  [update-grub2] and
    [grub2-mkconfig] are only run once the settings file has been
    rewritten from what was read from it. *)
Theorem update_kernel_cmdline_params_for_grub_prefers_grubby
    {W : Type} (h : handler W) (w : W)
    (dev_uuid : string) (swap_area : resume_swap_area)
    (has_grubby has_update_grub2 has_grub2_mkconfig : bool) :
  let p := update_kernel_cmdline_params_for_grub dev_uuid swap_area
             has_grubby has_update_grub2 has_grub2_mkconfig in
  let args := kernel_args dev_uuid (area_offset swap_area) in
  let t := trace_of (run h p w) in
  match outcome_of (run h p w) with Undefined _ => False | _ => True end /\
  (count grub_tool_run t <= 1)%nat /\
  (existsb (spawns "grubby") t = true ->
     has_grubby = true /\
     existsb (runs "grubby" ["--update-kernel=ALL"; "--args"; args]) t = true) /\
  (existsb (spawns "update-grub2") t = true ->
     has_grubby = false /\ has_update_grub2 = true) /\
  (existsb (spawns "grub2-mkconfig") t = true ->
     has_grubby = false /\ has_update_grub2 = false /\ has_grub2_mkconfig = true) /\
  (has_grubby = true -> existsb writes_grub_settings t = false) /\
  (existsb (spawns "update-grub2") t || existsb (spawns "grub2-mkconfig") t = true ->
     exists file old t1 t2,
       t = (t1 ++ Ev (ReadText file) old
               :: Ev (WriteText file (grub_rewrite old args)) true :: t2)%list /\
       str_mem file grub_settings_files = true /\
       existsb grub_tool_run t1 = false /\
       existsb writes_grub_settings t1 = false).
Proof.
  exact (wp_run h _ _ w
           (update_kernel_cmdline_params_for_grub_choice dev_uuid swap_area
              has_grubby has_update_grub2 has_grub2_mkconfig)).
Qed.

(** ** A swap file that is large enough *)

Lemma ensure_swap_is_enabled_own_file (swap : swap_file) (created : bool) :
  wp (ensure_swap_is_enabled swap created)
     (fun t o =>
        existsb (swapon_other (path swap)) t = false /\
        (created = false -> existsb swapon_rejected t = true -> is_fatal o)).
Proof.
  unfold ensure_swap_is_enabled. run_all.
  all: wp_go; cbn [existsb swapon_other swapon_rejected orb is_fatal];
    rewrite ?String.eqb_refl; cbn [negb orb].
  all: split; [reflexivity |]; intros Hc Hr; subst;
    try exact I; try discriminate Hr.
  all: destruct e; cbn in *; discriminate.
Qed.

Lemma finish_setup_keeps (swap : swap_file) :
  wp (finish_setup swap false)
     (fun t o =>
        existsb replaces_swap t = false /\
        existsb (swapon_other (path swap)) t = false /\
        (existsb swapon_rejected t = true -> is_fatal o)).
Proof.
  apply wp_conj.
  - apply (never_footprint replaces_swap _ _ (finish_setup_footprint swap false)). excl.
  - unfold finish_setup.
    wp_fn (ensure_swap_is_enabled_own_file swap false). intros t1 o1 [Hown Hrej].
    specialize (Hrej eq_refl).
    destruct o1 as [[] | m | y]; wp_go; [| split; [exact Hown | intros _; exact I] |
      split; [exact Hown | exact Hrej]].
    assert (Hno : existsb swapon_rejected t1 = false).
    { destruct (existsb swapon_rejected t1); [destruct (Hrej eq_refl) | reflexivity]. }
    wp_fn update_swap_offset_footprint. intros t2 o2 H2.
    absent (swapon_other (path swap)) t2. absent swapon_rejected t2.
    destruct o2 as [[|] | m | y]; wp_go;
      rewrite ?existsb_app, ?Hown, ?Hno, ?Habs, ?Habs0;
      try (split; [reflexivity | discriminate]).
    wp_fn ensure_udev_rules_are_installed_footprint. intros t3 o3 H3.
    absent (swapon_other (path swap)) t3. absent swapon_rejected t3.
    destruct o3 as [[] | m | y]; wp_go; try intros [];
      cbn [existsb app swapon_other swapon_rejected orb];
      rewrite ?existsb_app, ?Hown, ?Hno, ?Habs, ?Habs0, ?Habs1, ?Habs2;
      cbn [existsb app swapon_other swapon_rejected orb];
      (split; [reflexivity | discriminate]).
Qed.

(** X17.  When the swap file found has at least the needed capacity, the
    rest of [main] keeps it: the file is not disabled as swap, not
    removed, not opened for writing, sized, filled or formatted; no
    other file is activated as swap; and, the file not being new, a
    [swapon] that fails with [EINVAL] ends the run. *)
Theorem adequate_swap_file_is_kept
    {W : Type} (h : handler W) (w : W) (needed_swap : Z) (swap : swap_file) :
  needed_swap <= capacity swap ->
  let r := run h (settle_and_finish needed_swap (Some swap)) w in
  existsb replaces_swap (trace_of r) = false /\
  existsb (swapon_other (path swap)) (trace_of r) = false /\
  (existsb swapon_rejected (trace_of r) = true -> is_fatal (outcome_of r)).
Proof.
  intros Hcap.
  apply (wp_run h (settle_and_finish needed_swap (Some swap))
           (fun t o =>
              existsb replaces_swap t = false /\
              existsb (swapon_other (path swap)) t = false /\
              (existsb swapon_rejected t = true -> is_fatal o)) w).
  unfold settle_and_finish, provision_swap.
  apply Z.ltb_ge in Hcap. rewrite Hcap.
  wp_go. intros []. eapply wp_weaken; [| apply finish_setup_keeps].
  cbv beta. intros t o H. cbn [existsb replaces_swap swapon_other swapon_rejected orb].
  exact H.
Qed.

Lemma adequate_swap_file_is_kept_witness :
  let r := run (simulate (bare_machine [34816; 34817; 34818; 34819]))
             (settle_and_finish 4096 (Some (mk_swap_file 8192 swap_file_name))) [] in
  existsb replaces_swap (trace_of r) = false /\
  existsb (swapon_other swap_file_name) (trace_of r) = false /\
  (existsb swapon_rejected (trace_of r) = true -> is_fatal (outcome_of r)).
Proof.
  exact (adequate_swap_file_is_kept
           (simulate (bare_machine [34816; 34817; 34818; 34819])) [] 4096
           (mk_swap_file 8192 swap_file_name) ltac:(vm_compute; discriminate)).
Defined.

(** ** The order of [main] *)

Lemma main_looks_before_it_changes :
  wp main (fun t _ => before reports_lookup event_mutates t = true).
Proof.
  assert (Hen : wp is_hibernation_enabled_for_vm
                  (fun t _ => existsb event_mutates t = false)) by never.
  assert (Hmem : wp physical_memory
                   (fun t _ => existsb event_mutates t = false)) by never.
  assert (Hfind : forall n, wp (find_swap_file n)
                    (fun t _ => existsb event_mutates t = false)).
  { intros n. apply (never_footprint event_mutates _ _ (find_swap_file_footprint n)). excl. }
  unfold main.
  wp_fn Hen. intros t1 o1 H1.
  destruct o1 as [[|] | m | y]; wp_go;
    [| intros []; rewrite before_app by exact H1; cbn; apply orb_true_r
     | apply before_absent; exact H1 | apply before_absent; exact H1].
  wp_fn Hmem. intros t2 o2 H2.
  destruct o2 as [total_ram | m | y]; wp_go;
    try (rewrite before_app by exact H1; rewrite (before_absent _ _ _ H2); apply orb_true_r).
  destruct (total_ram =? 0); wp_go;
    [rewrite app_nil_r, before_app by exact H1;
     rewrite (before_absent _ _ _ H2); apply orb_true_r |].
  assert (Hrest : forall needed_swap,
    wp (log_info "System has %zu MB of RAM; needs a swap area of %zu MB" ;;
        found <- find_swap_file needed_swap ;;
        settle_and_finish needed_swap found)
       (fun t' _ => before reports_lookup event_mutates (t1 ++ t2 ++ t') = true)).
  { intros needed_swap. wp_go. intros [].
    wp_fn (Hfind needed_swap). intros t3 o3 H3.
    destruct o3 as [found | m | y]; wp_go.
    - unfold settle_and_finish, provision_swap.
      destruct found as [swap |]; wp_go; intros []; [| intros []];
        apply wp_always; intros t' o';
        rewrite before_app by exact H1; rewrite before_app by exact H2;
        cbn [before]; eval_head reports_lookup; cbn iota;
        rewrite before_app by exact H3; cbn [before];
        eval_head reports_lookup; cbn iota; rewrite !orb_true_r; reflexivity.
    - rewrite before_app by exact H1. rewrite before_app by exact H2.
      cbn. rewrite (before_absent _ _ _ H3), !orb_true_r. reflexivity.
    - rewrite before_app by exact H1. rewrite before_app by exact H2.
      cbn. rewrite (before_absent _ _ _ H3), !orb_true_r. reflexivity. }
  unfold swap_needed_size.
  repeat match goal with
         | |- wp (bind (if ?b then _ else _) _) _ => destruct b
         end; wp_go; try apply Hrest.
  rewrite app_nil_r, before_app by exact H1.
  rewrite (before_absent _ _ _ H2). apply orb_true_r.
Qed.

(** X18.  [main] changes nothing before it has looked for the swap file:
    every call that creates or changes something outside the process
    comes after the log line that reports whether a swap file was
    found, so a run that ends before that line (hibernation not enabled,
    memory size not read, too much memory) has changed nothing. *)
Theorem main_changes_nothing_before_lookup {W : Type} (h : handler W) (w : W) :
  let t := trace_of (run h main w) in
  before reports_lookup event_mutates t = true /\
  (existsb reports_lookup t = false -> existsb event_mutates t = false).
Proof.
  intros t. pose proof (wp_run h _ _ w main_looks_before_it_changes) as Hb.
  cbv beta in Hb. fold t in Hb. split; [exact Hb |].
  intros Hno. clear -Hb Hno. induction t as [| e t IH]; [reflexivity |].
  cbn [existsb before] in *. apply orb_false_iff in Hno. destruct Hno as [He Ht].
  rewrite He in Hb. apply andb_true_iff in Hb. destruct Hb as [Hq Hb].
  apply negb_true_iff in Hq. rewrite Hq. cbn [orb]. apply IH; assumption.
Qed.

(** ** The swap area *)

Lemma get_swap_area_area (swap : swap_file) :
  wp (get_swap_area swap) (swap_area_post swap).
Proof.
  unfold get_swap_area, area_of_open_file. wp_go.
  intros [fd |]; wp_go; [| exact I].
  intros [st |]; wp_go; [| exact I].
  destruct (kind_eqb (st_kind st) S_IFREG) eqn:Hkind; wp_go; [| exact I].
  wp_fn (get_swap_file_offset_wp fd). intros t' o' Hblock.
  destruct o' as [offset | m | y]; wp_go; try exact I.
  destruct (offset =? INVALID_OFFSET) eqn:Hinv; wp_go; [exact I |].
  intros [] []. apply Z.eqb_neq in Hinv.
  destruct (Hblock offset eq_refl Hinv) as [b [Hfirst Hb]].
  exists fd, st, b, t'. subst offset.
  split; [reflexivity |]. split; [destruct (st_kind st); try discriminate; reflexivity |].
  split; [exact Hfirst |]. split; [exact Hinv | reflexivity].
Qed.

(** X19.  The swap area [get_swap_area] returns describes the swap file
    itself: the file was opened read-only and is a regular file, the
    device is the one [fstat] reported for it (as the 32 bits of the
    kernel structure), the offset is the block number the first
    [FIBMAP] query reported for block 0 of that descriptor and is not
    the all-bits-set sentinel, and the descriptor is closed before the
    area is logged. *)
Theorem get_swap_area_describes_the_file
    {W : Type} (h : handler W) (w : W) (swap : swap_file) :
  let t := trace_of (run h (get_swap_area swap) w) in
  match outcome_of (run h (get_swap_area swap) w) with
  | Done area =>
      exists fd st b t',
        t = (Ev (Open (path swap) O_RDONLY_CLOEXEC) (Some fd)
             :: Ev (Fstat fd) (Some st)
             :: t' ++ [Ev (Close fd) tt; Ev (LogInfo area_resolved_msg) tt])%list /\
        st_kind st = S_IFREG /\
        first_fibmap t' = Some (fd, 0, Some b) /\
        wrap32 b <> INVALID_OFFSET /\
        area = mk_area (wrap32 b) (wrap32 (st_dev st))
  | _ => True
  end.
Proof.
  exact (wp_run h _ _ w (get_swap_area_area swap)).
Qed.

(** ** The field scanner *)

Lemma skip_nonspace_some (mem m' : string) :
  skip_nonspace mem = Some m' <->
  exists tok s r,
    mem = tok ++ String s r /\ m' = String s r /\
    no_space tok = true /\ isspace s = true.
Proof.
  split.
  - revert m'. induction mem as [| c mem IH]; intros m' H; [discriminate |].
    cbn [skip_nonspace] in H. destruct (isspace c) eqn:Hc.
    + injection H as <-. exists EmptyString, c, mem. repeat split; auto.
    + destruct (IH m' H) as (tok & s & r & -> & -> & Htok & Hs).
      exists (String c tok), s, r. repeat split; auto.
      cbn [no_space]. rewrite Hc, Htok. reflexivity.
  - intros (tok & s & r & -> & -> & Htok & Hs).
    induction tok as [| c tok IH]; cbn [append skip_nonspace].
    + rewrite Hs. reflexivity.
    + cbn [no_space] in Htok. apply andb_true_iff in Htok as [Hc Htok].
      apply negb_true_iff in Hc. rewrite Hc. apply IH, Htok.
Qed.

Lemma skip_space_some (after nxt : string) :
  skip_space after = Some nxt <->
  exists blanks c r,
    after = blanks ++ nxt /\ all_space blanks = true /\
    nxt = String c r /\ isspace c = false.
Proof.
  split.
  - revert nxt. induction after as [| c after IH]; intros nxt H; [discriminate |].
    cbn [skip_space] in H. destruct (isspace c) eqn:Hc.
    + destruct (IH nxt H) as (blanks & c' & r & -> & Hb & -> & Hc').
      exists (String c blanks), c', r. repeat split; auto.
      cbn [all_space]. rewrite Hc, Hb. reflexivity.
    + injection H as <-. exists EmptyString, c, after. repeat split; auto.
  - intros (blanks & c & r & -> & Hb & -> & Hc).
    induction blanks as [| b blanks IH]; cbn [append skip_space].
    + rewrite Hc. reflexivity.
    + cbn [all_space] in Hb. apply andb_true_iff in Hb as [Hb1 Hb].
      rewrite Hb1. apply IH, Hb.
Qed.

(** X20.  [next_field] returns a pointer into the memory exactly when the
    memory consists of a run, possibly empty, of characters that are not
    white space and that does not start with the terminator (a
    terminator further inside the run does not stop the scan), one
    white-space character, any number of further white-space
    characters, and then a character that is not white space: the
    pointer returned is at that character. *)
Theorem next_field_lands_on_next_word (mem nxt : string) :
  next_field (Some mem) = FAt nxt <->
  exists tok s blanks c r,
    mem = tok ++ String s (blanks ++ nxt) /\
    first_char_is NUL tok = false /\
    no_space tok = true /\
    isspace s = true /\
    all_space blanks = true /\
    nxt = String c r /\ isspace c = false.
Proof.
  split.
  - destruct mem as [| a mem]; [discriminate |].
    cbn [next_field]. destruct (Ascii.eqb a NUL) eqn:Ha; [discriminate |].
    destruct (skip_nonspace (String a mem)) as [[| s after] |] eqn:Hskip; try discriminate.
    destruct (skip_space after) as [nxt' |] eqn:Hsp; [| discriminate].
    intros [= <-].
    apply skip_nonspace_some in Hskip.
    destruct Hskip as (tok & s' & r' & Hmem & Hm' & Htok & Hs).
    injection Hm' as <- <-.
    apply skip_space_some in Hsp.
    destruct Hsp as (blanks & c & r & -> & Hb & -> & Hc).
    exists tok, s, blanks, c, r. repeat split; auto.
    destruct tok as [| a' tok]; [reflexivity |].
    cbn [append] in Hmem. injection Hmem as <- _. exact Ha.
  - intros (tok & s & blanks & c & r & -> & Ha & Htok & Hs & Hb & -> & Hc).
    assert (Hskip : skip_nonspace (tok ++ String s (blanks ++ String c r))
                    = Some (String s (blanks ++ String c r))).
    { apply skip_nonspace_some. exists tok, s, (blanks ++ String c r). repeat split; auto. }
    assert (Hsp : skip_space (blanks ++ String c r) = Some (String c r)).
    { apply skip_space_some. exists blanks, c, r. repeat split; auto. }
    unfold next_field.
    destruct (tok ++ String s (blanks ++ String c r)) as [| a m] eqn:Hm.
    + destruct tok; discriminate.
    + assert (Hz : Ascii.eqb a NUL = false).
      { destruct tok as [| a' tok]; cbn [append] in Hm; injection Hm as <- _.
        - destruct (Ascii.eqb_spec s NUL) as [-> |]; [discriminate Hs | reflexivity].
        - exact Ha. }
      rewrite Hz, Hskip, Hsp. reflexivity.
Qed.

(** ** The mount entry behind the UUID *)

Lemma mount_scan_first (dev : Z) (ents : list mntent) :
  wp (mount_scan dev ents) (mount_scan_post dev ents).
Proof.
  induction ents as [| ent ents IH]; [intros e [] |].
  cbn [mount_scan bind call wp]. intros [ent_st |]; cbn [bind].
  - destruct (st_dev ent_st =? dev) eqn:Hd.
    + cbn [wp mount_scan_post]. exists [], ents, ent_st, [].
      apply Z.eqb_eq in Hd. repeat split; auto.
    + eapply wp_weaken; [| exact IH]. intros t [[e |] | |]; cbn [mount_scan_post]; try tauto.
      * intros (pre & post & est & t' & -> & -> & Hdev & Hpre).
        exists (ent :: pre), post, est, (Ev (Stat (mnt_dir ent)) (Some ent_st) :: t').
        repeat split; auto.
        intros e' [<- | Hin]; cbn [existsb stat_rejects].
        -- rewrite String.eqb_refl, Hd. reflexivity.
        -- rewrite (Hpre e' Hin). apply orb_true_r.
      * intros Hall e' [<- | Hin]; cbn [existsb stat_rejects].
        -- rewrite String.eqb_refl, Hd. reflexivity.
        -- rewrite (Hall e' Hin). apply orb_true_r.
  - eapply wp_weaken; [| exact IH]. intros t [[e |] | |]; cbn [mount_scan_post]; try tauto.
    + intros (pre & post & est & t' & -> & -> & Hdev & Hpre).
      exists (ent :: pre), post, est, (Ev (Stat (mnt_dir ent)) None :: t').
      repeat split; auto.
      intros e' [<- | Hin]; cbn [existsb stat_rejects].
      * rewrite String.eqb_refl. reflexivity.
      * rewrite (Hpre e' Hin). apply orb_true_r.
    + intros Hall e' [<- | Hin]; cbn [existsb stat_rejects].
      * rewrite String.eqb_refl. reflexivity.
      * rewrite (Hall e' Hin). apply orb_true_r.
Qed.

Lemma get_disk_uuid_for_file_path_first_mount (p : string) :
  wp (get_disk_uuid_for_file_path p)
     (fun t o =>
        match o with
        | Done (Some u) =>
            exists ents st pre ent post ent_st rdev t1 t2,
              t = (Ev Mounts (Some ents) :: Ev (Stat p) (Some st)
                   :: t1 ++ Ev (Stat (mnt_dir ent)) (Some ent_st) :: t2)%list /\
              ents = (pre ++ ent :: post)%list /\
              st_dev ent_st = st_dev st /\
              (forall e, In e pre ->
                         existsb (stat_rejects (mnt_dir e) (st_dev st)) t1 = true) /\
              existsb (stat_says (mnt_fsname ent) (fun s => st_rdev s =? rdev)) t2 = true /\
              existsb (node_says (fun n => String.eqb (cstr n) u) rdev) t2 = true
        | _ => True
        end).
Proof.
  unfold get_disk_uuid_for_file_path. cbn [bind call wp]. intros [ents |]; cbn [bind];
    [| exact I].
  cbn [wp]. intros [st |]; cbn [bind]; [| exact I].
  apply wp_bind. eapply wp_weaken; [| apply mount_scan_first].
  intros t1 [[ent |] | |] H1; cbn [after mount_scan_post] in *; try contradiction.
  2:{ cbn [log_info call bind wp]. intros []. exact I. }
  destruct H1 as (pre & post & ent_st & t' & Hents & Ht1 & Hdev & Hpre).
  eapply wp_weaken; [| apply get_uuid_for_dev_path_sound].
  intros t2 [[u |] | |]; cbn [uuid_post]; try tauto.
  intros (rdev & Hs & Hn).
  exists ents, st, pre, ent, post, ent_st, rdev, t', t2.
  repeat split; auto. rewrite Ht1, <- app_assoc. reflexivity.
Qed.

(** X9.  The UUID found for the disk that holds a file: in every run,
    [get_disk_uuid_for_file_path] changes nothing and is fatal only when
    [stat] on the file itself fails.  When it returns a UUID, the run
    read the mount table, took the first entry of the table whose mount
    point [stat] reported to be on the device of the file (for every
    entry before it, [stat] on the mount point failed or reported
    another device), and the UUID is the name of an entry of
    [/dev/disk/by-uuid/] that [fstatat] reported as a block device with
    the device number [stat] reported for the device that entry
    mounts. *)
Theorem get_disk_uuid_for_file_path_names_device
    {W : Type} (h : handler W) (w : W) (p : string) :
  let t := trace_of (run h (get_disk_uuid_for_file_path p) w) in
  let o := outcome_of (run h (get_disk_uuid_for_file_path p) w) in
  existsb event_mutates t = false /\
  match o with
  | Done (Some u) =>
      exists ents st pre ent post ent_st rdev t1 t2,
        t = (Ev Mounts (Some ents) :: Ev (Stat p) (Some st)
             :: t1 ++ Ev (Stat (mnt_dir ent)) (Some ent_st) :: t2)%list /\
        ents = (pre ++ ent :: post)%list /\
        st_dev ent_st = st_dev st /\
        (forall e, In e pre ->
                   existsb (stat_rejects (mnt_dir e) (st_dev st)) t1 = true) /\
        existsb (stat_says (mnt_fsname ent) (fun s => st_rdev s =? rdev)) t2 = true /\
        existsb (node_says (fun n => String.eqb (cstr n) u) rdev) t2 = true
  | Done None => True
  | Fatal _ => existsb (stat_says p (fun _ => true)) t = false
  | Undefined _ => False
  end.
Proof.
  intros t o.
  pose proof (wp_run h _ _ w
                (wp_conj _ _ _ (get_disk_uuid_for_file_path_sound p)
                   (get_disk_uuid_for_file_path_first_mount p))) as [[Hm Ho] Hf].
  fold t in Hm, Ho, Hf. fold o in Ho, Hf.
  split; [exact Hm |].
  destruct o as [[u |] | m | y]; auto.
Qed.

(** ** The size of a swap file created on XFS *)

(** C3, at an input where the code falls short of it: a root file
    system on XFS.  On [xfs_vm] (4 kB of memory, so 12288 bytes of swap
    are needed; a swap file of 4096 bytes at the well-known path; blocks
    of 4096 bytes) [main] finds the
    file too small and replaces it: the old file is disabled as swap,
    then unlinked, then a file is created at the well-known path, then
    [mkswap] succeeds on it, then it is activated, and the record the
    run goes on with has capacity 12288.  But the file is never sized:
    neither [ftruncate] nor [fallocate] is called, and the three pattern
    writes, 4 bytes each at the offsets 0, 4096 and 8192, leave a file
    of 8196 bytes, which is less than the 12288 bytes needed. *)
Theorem xfs_swap_file_is_created_short :
  let t := trace_of (run (simulate xfs_vm) main xfs_vm_files) in
  let old := mk_swap_file 4096 swap_file_name in
  outcome_of (run (simulate xfs_vm)
                (total_ram <- physical_memory ;; swap_needed_size total_ram)
                xfs_vm_files) = Done 12288 /\
  outcome_of (run (simulate xfs_vm) (find_swap_file 12288) xfs_vm_files)
  = Done (Some old) /\
  outcome_of (run (simulate xfs_vm) (provision_swap 12288 (Some old)) xfs_vm_files)
  = Done (mk_swap_file 12288 swap_file_name, true) /\
  existsb (swapoff_of swap_file_name) t = true /\
  existsb (unlink_of swap_file_name) t = true /\
  existsb creates_swap_file t = true /\
  existsb mkswap_ok t = true /\
  existsb swap_activated t = true /\
  before (swapoff_of swap_file_name) (unlink_of swap_file_name) t = true /\
  before (unlink_of swap_file_name) creates_swap_file t = true /\
  before creates_swap_file mkswap_ok t = true /\
  before mkswap_ok is_swapon t = true /\
  existsb sizes_file t = false /\
  filter is_pwrite t
  = [Ev (Pwrite 3 0) true; Ev (Pwrite 3 4096) true; Ev (Pwrite 3 8192) true] /\
  swap_file_size t 4096 = 8196 /\
  swap_file_size t 4096 < 12288.
Proof.
  cbv zeta. repeat split; vm_compute; reflexivity.
Qed.

(** ** The check of the command line decides the three parameters *)

Lemma cstr_of_nul_free (s : string) : nul_free s = true -> cstr s = s.
Proof.
  induction s as [| c s IH]; intros H; [reflexivity |].
  simpl in H. apply andb_true_iff in H as [Hc Hs]. apply negb_true_iff in Hc.
  cbn [cstr]. rewrite Hc, (IH Hs). reflexivity.
Qed.

Lemma string_drop_app (n : nat) (t x : string) :
  (n <= String.length t)%nat -> string_drop n (t ++ x) = string_drop n t ++ x.
Proof.
  revert t. induction n as [| n IH]; intros t Hn; [reflexivity |].
  destruct t as [| c t]; [simpl in Hn; lia |].
  cbn [append string_drop]. apply IH. simpl in Hn. lia.
Qed.

Lemma prefix_length (lit t : string) :
  prefix lit t = true -> (String.length lit <= String.length t)%nat.
Proof.
  revert t. induction lit as [| a lit IH]; intros t H; [simpl; lia |].
  destruct t as [| b t]; [discriminate H |].
  cbn [prefix] in H. destruct (ascii_dec a b); [| discriminate H].
  simpl. apply IH in H. lia.
Qed.

Lemma no_space_drop (n : nat) (t : string) :
  no_space t = true -> no_space (string_drop n t) = true.
Proof.
  revert t. induction n as [| n IH]; intros t H; [exact H |].
  destruct t as [| c t]; [reflexivity |].
  simpl in H. apply andb_true_iff in H as [_ H]. cbn [string_drop]. apply IH, H.
Qed.

Lemma nul_free_drop (n : nat) (t : string) :
  nul_free t = true -> nul_free (string_drop n t) = true.
Proof.
  revert t. induction n as [| n IH]; intros t H; [exact H |].
  destruct t as [| c t]; [reflexivity |].
  simpl in H. apply andb_true_iff in H as [_ H]. cbn [string_drop]. apply IH, H.
Qed.

(** The value of a parameter, as the check reads it from the memory at
    the parameter. *)
Lemma token_drop_word (lit t x : string) :
  word t = true -> prefix lit t = true ->
  token (string_drop (String.length lit) (t ++ String " " x))
  = string_drop (String.length lit) t.
Proof.
  intros Ht Hp. destruct (word_head t Ht) as (_ & _ & _ & _ & _ & Hs & Hn).
  rewrite string_drop_app by (apply prefix_length, Hp).
  apply token_word; [apply no_space_drop, Hs | apply nul_free_drop, Hn].
Qed.

Lemma prefix_comparable (a b t : string) :
  prefix a t = true -> prefix b t = true ->
  prefix a b = true \/ prefix b a = true.
Proof.
  revert b t. induction a as [| x a IH]; intros b t Ha Hb.
  - left. apply prefix_nil.
  - destruct b as [| y b]; [right; apply prefix_nil |].
    destruct t as [| z t]; [discriminate Ha |].
    cbn [prefix] in *.
    destruct (ascii_dec x z) as [-> |]; [| discriminate Ha].
    destruct (ascii_dec y z) as [-> |]; [| discriminate Hb].
    destruct (ascii_dec z z) as [_ | Hne]; [| contradiction].
    exact (IH b t Ha Hb).
Qed.

Lemma prefix_exclusive (a b t : string) :
  prefix a b = false -> prefix b a = false ->
  prefix a t = true -> prefix b t = false.
Proof.
  intros Hab Hba Ha. destruct (prefix b t) eqn:Hb; [| reflexivity].
  destruct (prefix_comparable a b t Ha Hb) as [H | H]; congruence.
Qed.

Lemma note_field_word (t x : string) (f : cmdline_fields) :
  word t = true ->
  note_field (t ++ String " " x) f
  = if prefix "resume=" t then
      mk_fields (Some (string_drop 7 (t ++ String " " x))) (resume_offset_field f)
        (no_console_suspend_field f)
    else if prefix "resume_offset=" t then
      mk_fields (resume_field f) (Some (string_drop 14 (t ++ String " " x)))
        (no_console_suspend_field f)
    else if prefix "no_console_suspend=" t then
      mk_fields (resume_field f) (resume_offset_field f)
        (Some (string_drop 19 (t ++ String " " x)))
    else f.
Proof.
  intros Ht. destruct (word_head t Ht) as (_ & _ & _ & _ & _ & _ & Hn).
  unfold note_field. rewrite !has_prefix_word by (auto; reflexivity). reflexivity.
Qed.

Lemma scan_fields_step (t : string) (rest : list string) (tail : string)
    (f : cmdline_fields) :
  scan_fields (t :: rest) tail f
  = scan_fields rest tail (note_field (t ++ String " " (words rest ++ tail)) f).
Proof.
  cbn [scan_fields]. rewrite words_cons, string_app_assoc. reflexivity.
Qed.

Lemma scan_fields_resume (toks : list string) (tail : string) (f : cmdline_fields) :
  forallb word toks = true ->
  option_map token (resume_field (scan_fields toks tail f))
  = match param_value "resume=" toks with
    | Some v => Some v
    | None => option_map token (resume_field f)
    end.
Proof.
  revert f. induction toks as [| t toks IH]; intros f Hw; [reflexivity |].
  simpl in Hw. apply andb_true_iff in Hw as [Ht Hw].
  rewrite scan_fields_step, (IH _ Hw). cbn [param_value].
  destruct (param_value "resume=" toks); [reflexivity |].
  rewrite (note_field_word t _ f Ht).
  destruct (prefix "resume=" t) eqn:H1.
  - cbn [resume_field option_map]. f_equal. apply (token_drop_word "resume=" t _ Ht H1).
  - destruct (prefix "resume_offset=" t); [reflexivity |].
    destruct (prefix "no_console_suspend=" t); reflexivity.
Qed.

Lemma scan_fields_resume_offset (toks : list string) (tail : string) (f : cmdline_fields) :
  forallb word toks = true ->
  option_map token (resume_offset_field (scan_fields toks tail f))
  = match param_value "resume_offset=" toks with
    | Some v => Some v
    | None => option_map token (resume_offset_field f)
    end.
Proof.
  revert f. induction toks as [| t toks IH]; intros f Hw; [reflexivity |].
  simpl in Hw. apply andb_true_iff in Hw as [Ht Hw].
  rewrite scan_fields_step, (IH _ Hw). cbn [param_value].
  destruct (param_value "resume_offset=" toks); [reflexivity |].
  rewrite (note_field_word t _ f Ht).
  destruct (prefix "resume=" t) eqn:H1.
  - rewrite (prefix_exclusive "resume=" "resume_offset=" t eq_refl eq_refl H1). reflexivity.
  - destruct (prefix "resume_offset=" t) eqn:H2.
    + cbn [resume_offset_field option_map]. f_equal.
      apply (token_drop_word "resume_offset=" t _ Ht H2).
    + destruct (prefix "no_console_suspend=" t); reflexivity.
Qed.

Lemma scan_fields_no_console_suspend (toks : list string) (tail : string)
    (f : cmdline_fields) :
  forallb word toks = true ->
  option_map token (no_console_suspend_field (scan_fields toks tail f))
  = match param_value "no_console_suspend=" toks with
    | Some v => Some v
    | None => option_map token (no_console_suspend_field f)
    end.
Proof.
  revert f. induction toks as [| t toks IH]; intros f Hw; [reflexivity |].
  simpl in Hw. apply andb_true_iff in Hw as [Ht Hw].
  rewrite scan_fields_step, (IH _ Hw). cbn [param_value].
  destruct (param_value "no_console_suspend=" toks); [reflexivity |].
  rewrite (note_field_word t _ f Ht).
  destruct (prefix "resume=" t) eqn:H1.
  - rewrite (prefix_exclusive "resume=" "no_console_suspend=" t eq_refl eq_refl H1).
    reflexivity.
  - destruct (prefix "resume_offset=" t) eqn:H2.
    + rewrite (prefix_exclusive "resume_offset=" "no_console_suspend=" t
                 eq_refl eq_refl H2). reflexivity.
    + destruct (prefix "no_console_suspend=" t) eqn:H3; [| reflexivity].
      cbn [no_console_suspend_field option_map]. f_equal.
      apply (token_drop_word "no_console_suspend=" t _ Ht H3).
Qed.

(** The check of the fields noted over a line of words is the match of
    the three parameters. *)
Lemma cmdline_check_params (dev_uuid : string) (offset : Z) (toks : list string)
    (tail : string) :
  forallb word toks = true ->
  nul_free dev_uuid = true ->
  Z.of_nat (String.length ("/dev/disk/by-uuid/" ++ dev_uuid)) < PATH_MAX ->
  0 <= offset < 2 ^ 63 ->
  cmdline_check dev_uuid offset (scan_fields toks tail (mk_fields None None None))
  = params_match dev_uuid offset toks.
Proof.
  intros Hw Hn Hlen Hoff.
  pose proof (scan_fields_resume toks tail (mk_fields None None None) Hw) as E1.
  pose proof (scan_fields_resume_offset toks tail (mk_fields None None None) Hw) as E2.
  pose proof (scan_fields_no_console_suspend toks tail (mk_fields None None None) Hw) as E3.
  cbn [resume_field resume_offset_field no_console_suspend_field option_map] in E1, E2, E3.
  unfold cmdline_check, params_match, resume_device.
  rewrite (cstr_of_nul_free dev_uuid Hn), (snprintf_keep_offset offset Hoff).
  destruct (resume_field _) as [r |], (param_value "resume=" toks) as [vr |];
    try discriminate E1; cbn [option_map] in E1.
  2:{ destruct (resume_offset_field _), (no_console_suspend_field _); reflexivity. }
  destruct (resume_offset_field _) as [o |], (param_value "resume_offset=" toks) as [vo |];
    try discriminate E2; cbn [option_map] in E2.
  2:{ destruct (no_console_suspend_field _); reflexivity. }
  destruct (no_console_suspend_field _) as [n |],
    (param_value "no_console_suspend=" toks) as [vn |];
    try discriminate E3; cbn [option_map] in E3; [| reflexivity].
  injection E1 as ->. injection E2 as ->. injection E3 as ->.
  destruct (PATH_MAX <=? _) eqn:Hp; [apply Z.leb_le in Hp; lia |].
  rewrite (String.eqb_sym (decimal offset) vo).
  destruct (String.eqb vr _); cbn [negb andb]; [| reflexivity].
  destruct (String.eqb vo _); cbn [negb andb]; reflexivity.
Qed.

(** The run of the check over a line of words. *)
Lemma is_kernel_cmdline_correct_run {W : Type} (h : handler W) (w : W)
    (dev_uuid : string) (offset : Z) (toks : list string) (rest : string) :
  forallb word toks = true ->
  (String.length (words toks) < 1023)%nat ->
  nul_free dev_uuid = true ->
  Z.of_nat (String.length ("/dev/disk/by-uuid/" ++ dev_uuid)) < PATH_MAX ->
  0 <= offset < 2 ^ 63 ->
  fst (h _ (ReadText "/proc/cmdline") w) = Some (words toks ++ String LF rest) ->
  run h (is_kernel_cmdline_correct dev_uuid offset) w
  = ([Ev (ReadText "/proc/cmdline") (Some (words toks ++ String LF rest))],
     Done (params_match dev_uuid offset toks),
     snd (h _ (ReadText "/proc/cmdline") w)).
Proof.
  intros Hw Hlen Hn Hpath Hoff Hread.
  destruct (words_plain toks Hw) as [Hlf Hnul].
  assert (Hplain : plain_line 1023 (words toks) = true).
  { unfold plain_line. rewrite Hlf, Hnul. apply Nat.ltb_lt. exact Hlen. }
  unfold is_kernel_cmdline_correct. rewrite run_bind.
  rewrite (read_first_line_run h w _ _ rest Hplain Hread).
  rewrite (cmdline_scan_words toks (str1 NUL) Hw) by (rewrite length_app; simpl; lia).
  cbn [run]. rewrite (cmdline_check_params dev_uuid offset toks _ Hw Hn Hpath Hoff).
  reflexivity.
Qed.

(** ** The patch of the boot configuration, by what the environment answered *)

Lemma has_slash_app (a b : string) : has_slash (a ++ b) = has_slash a || has_slash b.
Proof.
  induction a as [| c a IH]; [reflexivity |].
  cbn [append has_slash]. rewrite IH. apply orb_assoc.
Qed.

Lemma basename_of_path (seg name : string) :
  has_slash name = false -> basename (seg ++ "/" ++ name) = name.
Proof.
  intros Hn. induction seg as [| c seg IH].
  - cbn [append basename]. rewrite Hn. reflexivity.
  - cbn [append basename]. rewrite has_slash_app. cbn [append has_slash Ascii.eqb].
    replace (Ascii.eqb "/" "/") with true by reflexivity.
    cbn [orb]. rewrite orb_true_r. exact IH.
Qed.

(** The search of [$PATH] only asks whether a path is executable. *)
Lemma find_executable_loop_only_x_ok (P : event -> bool) (fuel : nat) (name env : string) :
  (forall p r, P (Ev (Access p X_OK) r) = false) ->
  wp (find_executable_loop fuel name env) (fun t _ => existsb P t = false).
Proof.
  intros HP. revert env. induction fuel as [| fuel IH]; intros env; [reflexivity |].
  destruct env as [| c env]; [reflexivity |].
  cbn [find_executable_loop].
  destruct (split_colon (String c env)) as [[[| s seg] rest] |]; [apply IH | |];
    (destruct (PATH_MAX <=? _); [reflexivity |]);
    (destruct (negb _); [apply IH |]);
    (cbn [bind call wp]; intros [|]; cbn [bind wp existsb]; rewrite HP;
     [reflexivity | eapply wp_weaken; [| apply IH]; intros t o Ht; exact Ht]).
Qed.

Lemma grub_tool_found_access_ok (e : event) : grub_tool_found e = true -> access_ok e = true.
Proof.
  destruct e as [R c r]. destruct c; try discriminate.
  destruct mode; [discriminate |]. cbn. intros H. apply andb_true_iff in H. tauto.
Qed.

Lemma is_exec_in_path_tool (name : string) :
  has_slash name = false ->
  wp (is_exec_in_path name)
     (fun t o =>
        existsb patches t = false /\
        existsb grub_cfg_missing t = false /\
        match o with
        | Done b => existsb grub_tool_found t = b && str_mem name grub_tools
        | Fatal _ => existsb grub_tool_found t = false
        | Undefined _ => False
        end).
Proof.
  intros Hname. apply wp_conj; [| apply wp_conj].
  - apply (never_footprint patches _ _ (is_exec_in_path_footprint name)). excl.
  - unfold is_exec_in_path, find_executable_in_path. cbn [bind call wp]. intros env.
    apply wp_bind. eapply wp_weaken;
      [| apply (find_executable_loop_only_x_ok grub_cfg_missing); reflexivity].
    intros t [[q |] | |] H; cbn [after wp existsb grub_cfg_missing];
      rewrite ?app_nil_r; exact H.
  - unfold is_exec_in_path, find_executable_in_path. cbn [bind call wp]. intros env.
    apply wp_bind. eapply wp_weaken; [| apply find_executable_loop_sound].
    intros t [[q |] | |] H; cbn [after wp lookup_post existsb grub_tool_found] in *;
      rewrite ?app_nil_r; cbn [orb].
    + destruct H as (seg & t' & -> & _ & _ & -> & Hno).
      rewrite existsb_app, (absent_weaken _ _ t' grub_tool_found_access_ok Hno).
      cbn [existsb grub_tool_found orb].
      rewrite (basename_of_path seg name Hname), orb_false_r. reflexivity.
    + apply (absent_weaken _ _ t grub_tool_found_access_ok H).
    + apply (absent_weaken _ _ t grub_tool_found_access_ok H).
    + exact H.
Qed.

Lemma patches_of_grub_tool_done (e : event) : grub_tool_done e = true -> patches e = true.
Proof. destruct e as [R c r]. destruct c; try discriminate. reflexivity. Qed.

Ltac env_norm :=
  repeat (cbn [existsb app]; rewrite ?existsb_app);
  repeat match goal with
         | H : existsb _ _ = false |- _ => rewrite H
         end;
  eval_head patches; eval_head grub_tool_done; eval_head grub_cfg_missing;
  eval_head grub_tool_found;
  cbn [orb andb]; rewrite ?orb_true_r.

Lemma update_kernel_cmdline_params_for_grub_env
    (dev_uuid : string) (swap_area : resume_swap_area) (g u m : bool) :
  g || u || m = true ->
  wp (update_kernel_cmdline_params_for_grub dev_uuid swap_area g u m)
     (fun t o =>
        (o = Done true -> existsb grub_tool_done t = true) /\
        (existsb patches t = true \/ is_fatal o) /\
        (o = Done false -> existsb grub_cfg_missing t = true) /\
        existsb grub_tool_found t = false /\
        match o with Undefined _ => False | _ => True end).
Proof.
  intros Htool.
  unfold update_kernel_cmdline_params_for_grub.
  cbn [bind log_info call wp]. intros [].
  apply wp_bind. eapply wp_weaken; [| apply (is_exec_in_path_tool "update-initramfs" eq_refl)].
  intros ti o (Hp & Hc & Ho).
  pose proof (absent_weaken _ _ ti patches_of_grub_tool_done Hp) as Hd.
  assert (Hf : existsb grub_tool_found ti = false).
  { destruct o as [b | |]; [| exact Ho | destruct Ho].
    rewrite Ho. apply andb_false_r. }
  destruct o as [initramfs | msg | y]; cbn [after]; [| | destruct Ho]; clear Ho.
  - destruct g, u, m; try discriminate Htool;
      unfold spawn_and_wait, is_directory_empty, find_grub_cfg_path;
      cbn [orb]; run_all.
    all: wp_go; cbv beta; rewrite ?app_nil_r.
    all: repeat split;
      try (let H := fresh in intros H; try discriminate H);
      try exact I.
    all: try (env_norm; reflexivity).
    all: try (left; env_norm; reflexivity).
    all: try (right; exact I).
  - repeat split; try discriminate; try (right; exact I).
    env_norm. reflexivity.
Qed.

Ltac env_done :=
  repeat match goal with
         | |- _ /\ _ => split
         | |- _ -> _ => intro
         end;
  try solve [ discriminate | assumption | exact I | reflexivity | auto
            | right; exact I | right; auto | left; reflexivity | left; auto
            | match goal with H : False |- _ => destruct H end
            | match goal with
              | H : ?a = Done _ -> _ |- _ => apply H; reflexivity
              end ].

Lemma patch_boot_configuration_env (dev_uuid : string) (swap_area : resume_swap_area) :
  wp (patch_boot_configuration dev_uuid swap_area) patch_env_post.
Proof.
  unfold patch_boot_configuration. wp_go. intros [].
  wp_fn (is_exec_in_path_tool "grubby" eq_refl). intros t1 o1 (Hp1 & Hc1 & Hf1).
  pose proof (absent_weaken _ _ t1 patches_of_grub_tool_done Hp1) as Hd1.
  destruct o1 as [g | msg | y]; wp_go; [| | destruct Hf1].
  2:{ unfold patch_env_post. env_norm. env_done. }
  wp_fn (is_exec_in_path_tool "update-grub2" eq_refl). intros t2 o2 (Hp2 & Hc2 & Hf2).
  pose proof (absent_weaken _ _ t2 patches_of_grub_tool_done Hp2) as Hd2.
  cbn [str_mem grub_tools existsb String.eqb Ascii.eqb Bool.eqb orb andb] in Hf1, Hf2.
  rewrite ?andb_true_r in Hf1, Hf2.
  destruct o2 as [u | msg | y]; wp_go; [| | destruct Hf2].
  2:{ unfold patch_env_post. cbn [existsb app]. rewrite !existsb_app, Hf1, Hf2, Hp1, Hp2.
      eval_head patches; eval_head grub_tool_found. cbn [orb].
      rewrite ?orb_false_r, ?andb_true_r.
      destruct g; try destruct u; cbn [orb]; env_done. }
  wp_fn (is_exec_in_path_tool "grub2-mkconfig" eq_refl). intros t3 o3 (Hp3 & Hc3 & Hf3).
  pose proof (absent_weaken _ _ t3 patches_of_grub_tool_done Hp3) as Hd3.
  cbn [str_mem grub_tools existsb String.eqb Ascii.eqb Bool.eqb orb andb] in Hf3.
  rewrite ?andb_true_r in Hf3.
  destruct o3 as [m | msg | y]; wp_go; [| | destruct Hf3].
  2:{ unfold patch_env_post. cbn [existsb app].
      rewrite !existsb_app, Hf1, Hf2, Hf3, Hp1, Hp2, Hp3.
      eval_head patches; eval_head grub_tool_found. cbn [orb].
      rewrite ?orb_false_r, ?andb_true_r.
      destruct g; try destruct u; cbn [orb]; env_done. }
  destruct (g || u || m) eqn:Htool; wp_go.
  - eapply wp_weaken;
      [| apply (update_kernel_cmdline_params_for_grub_env dev_uuid swap_area g u m Htool)].
    cbv beta. intros tu o (Ht & Hpa & Hcf & Hff & Hu).
    unfold patch_env_post. cbn [existsb app].
    rewrite !existsb_app, Hf1, Hf2, Hf3, Hff, Hp1, Hp2, Hp3, Hd1, Hd2, Hd3, Hc1, Hc2, Hc3.
    eval_head patches; eval_head grub_tool_found; eval_head grub_tool_done;
      eval_head grub_cfg_missing.
    cbn [orb]. rewrite ?orb_false_r, ?andb_true_r.
    replace (g || (u || m)) with true by (rewrite orb_assoc; symmetry; exact Htool).
    rewrite ?orb_true_r. env_done.
  - intros []. unfold patch_env_post. cbn [existsb app].
    rewrite !existsb_app, Hf1, Hf2, Hf3, Hp1, Hp2, Hp3.
    apply orb_false_iff in Htool as [Hgu ->]. apply orb_false_iff in Hgu as [-> ->].
    cbn [andb].
    eval_head patches; eval_head grub_tool_found; eval_head grub_tool_done;
      eval_head grub_cfg_missing.
    cbn [existsb orb]. env_done.
Qed.

(** C4, as stated, fails.  On a machine without [grubby], [update-grub2]
    and [grub2-mkconfig], booted with the command line
    [root=/dev/sda1 ro], none of the three parameters is there, the
    check of the command line fails and yet no file is written and no
    program is run: the file store is left as it was and the failure is
    returned. *)
Lemma mismatch_without_tool_is_not_patched :
  let check := outcome_of (run (simulate (bare_machine []))
                             (is_kernel_cmdline_correct "abcd" 34816) plain_cmdline) in
  let r := run (simulate (bare_machine []))
             (reconcile_cmdline "abcd" (mk_area 34816 2049)) plain_cmdline in
  ~ (existsb patches (trace_of r) = true <-> check = Done false) /\
  check = Done false /\
  existsb patches (trace_of r) = false /\
  world_of r = plain_cmdline /\
  outcome_of r = Done false /\
  read_file plain_cmdline "/proc/cmdline"
  = Some (words ["root=/dev/sda1"; "ro"] ++ str1 LF) /\
  params_match "abcd" 34816 ["root=/dev/sda1"; "ro"] = false /\
  ~ (existsb patches (trace_of r) = true <->
     params_match "abcd" 34816 ["root=/dev/sda1"; "ro"] = false) /\
  existsb grub_tool_found (trace_of r) = false.
Proof.
  assert (Hcheck : outcome_of (run (simulate (bare_machine []))
                                 (is_kernel_cmdline_correct "abcd" 34816) plain_cmdline)
                   = Done false) by (vm_compute; reflexivity).
  assert (Hquiet : existsb patches
                     (trace_of (run (simulate (bare_machine []))
                                  (reconcile_cmdline "abcd" (mk_area 34816 2049))
                                  plain_cmdline)) = false) by (vm_compute; reflexivity).
  assert (Hparams : params_match "abcd" 34816 ["root=/dev/sda1"; "ro"] = false)
    by (vm_compute; reflexivity).
  cbv zeta. split; [| split; [exact Hcheck | split; [exact Hquiet |]]].
  - intros [_ H]. rewrite Hquiet in H. specialize (H Hcheck). discriminate H.
  - split; [vm_compute; reflexivity |]. split; [vm_compute; reflexivity |].
    split; [vm_compute; reflexivity |]. split; [exact Hparams |].
    split; [| vm_compute; reflexivity].
    intros [_ H]. rewrite Hquiet in H. specialize (H Hparams). discriminate H.
Qed.

(** C4, amended.  For a kernel command line that is a sequence of
    parameters, each of them, the last one included, followed by one
    space, on a line that fits the buffer (and a UUID and an offset whose
    texts fit theirs): the reconciliation is never undefined; when all
    three parameters are present and match exactly, the result is
    success and no file is written and no program run; a file is
    written or a program run only when one of them is absent or differs
    and [access] found one of [grubby], [update-grub2],
    [grub2-mkconfig] executable.  When one is absent or differs:
    success is returned only after one of these tools has run
    successfully; when [access] found none of them, no file is written,
    no program is run and the result is failure (or the run is fatal);
    when it found one, a file is written or a program run unless the
    run is fatal; and failure is returned only when no tool was found or
    [access] found no GRUB configuration to regenerate. *)
Theorem boot_configuration_patched_on_mismatch
    {W : Type} (h : handler W) (w : W) (dev_uuid : string) (swap_area : resume_swap_area)
    (toks : list string) (rest : string) :
  forallb word toks = true ->
  (String.length (words toks) < 1023)%nat ->
  nul_free dev_uuid = true ->
  Z.of_nat (String.length ("/dev/disk/by-uuid/" ++ dev_uuid)) < PATH_MAX ->
  0 <= area_offset swap_area < 2 ^ 63 ->
  fst (h _ (ReadText "/proc/cmdline") w) = Some (words toks ++ String LF rest) ->
  let t := trace_of (run h (reconcile_cmdline dev_uuid swap_area) w) in
  let o := outcome_of (run h (reconcile_cmdline dev_uuid swap_area) w) in
  let matches := params_match dev_uuid (area_offset swap_area) toks in
  match o with Undefined _ => False | _ => True end /\
  (matches = true -> o = Done true /\ existsb patches t = false) /\
  (existsb patches t = true -> matches = false /\ existsb grub_tool_found t = true) /\
  (matches = false ->
     (o = Done true -> existsb grub_tool_done t = true) /\
     (existsb grub_tool_found t = false ->
        existsb patches t = false /\ (o = Done false \/ is_fatal o)) /\
     (existsb grub_tool_found t = true -> existsb patches t = true \/ is_fatal o) /\
     (o = Done false ->
        existsb grub_tool_found t = false \/ existsb grub_cfg_missing t = true)).
Proof.
  intros Hw Hlen Hn Hpath Hoff Hread. cbv zeta.
  unfold reconcile_cmdline. rewrite run_bind.
  rewrite (is_kernel_cmdline_correct_run h w dev_uuid (area_offset swap_area) toks rest
             Hw Hlen Hn Hpath Hoff Hread).
  destruct (params_match dev_uuid (area_offset swap_area) toks) eqn:Hm; cbn [negb].
  - cbn [run trace_of outcome_of fst snd app existsb patches grub_tool_found orb].
    repeat split; try discriminate; auto.
  - pose proof (wp_run h _ _ (snd (h _ (ReadText "/proc/cmdline") w))
                  (patch_boot_configuration_env dev_uuid swap_area))
      as (Htrue & Hnone & Hfound & Hfalse & Hdef).
    revert Htrue Hnone Hfound Hfalse Hdef.
    destruct (run h (patch_boot_configuration dev_uuid swap_area)
                (snd (h _ (ReadText "/proc/cmdline") w))) as [[t2 o2] w2].
    unfold trace_of, outcome_of. cbn [fst snd app existsb patches grub_tool_found
                                       grub_tool_done grub_cfg_missing orb].
    intros Htrue Hnone Hfound Hfalse Hdef.
    split; [exact Hdef |]. split; [discriminate |].
    split.
    + intros Hp. split; [reflexivity |].
      destruct (existsb grub_tool_found t2) eqn:Hf; [reflexivity |].
      destruct (Hnone eq_refl) as [Hq _]. rewrite Hq in Hp. discriminate Hp.
    + intros _. repeat split; auto; apply Hnone; assumption.
Qed.

Lemma boot_configuration_patched_on_mismatch_witness :
  let t := trace_of (run (simulate grub_machine)
                       (reconcile_cmdline "abcd" (mk_area 34816 2049)) plain_cmdline) in
  let o := outcome_of (run (simulate grub_machine)
                         (reconcile_cmdline "abcd" (mk_area 34816 2049)) plain_cmdline) in
  let matches := params_match "abcd" 34816 ["root=/dev/sda1"; "ro"] in
  match o with Undefined _ => False | _ => True end /\
  (matches = true -> o = Done true /\ existsb patches t = false) /\
  (existsb patches t = true -> matches = false /\ existsb grub_tool_found t = true) /\
  (matches = false ->
     (o = Done true -> existsb grub_tool_done t = true) /\
     (existsb grub_tool_found t = false ->
        existsb patches t = false /\ (o = Done false \/ is_fatal o)) /\
     (existsb grub_tool_found t = true -> existsb patches t = true \/ is_fatal o) /\
     (o = Done false ->
        existsb grub_tool_found t = false \/ existsb grub_cfg_missing t = true)).
Proof.
  apply (boot_configuration_patched_on_mismatch (simulate grub_machine) plain_cmdline
           "abcd" (mk_area 34816 2049) ["root=/dev/sda1"; "ro"] EmptyString).
  - reflexivity.
  - apply Nat.ltb_lt. reflexivity.
  - reflexivity.
  - reflexivity.
  - split; [discriminate | reflexivity].
  - reflexivity.
Defined.

(** ** Exit status, by what the environment answered *)

Lemma existsb_orb_true (P Q : event -> bool) (t : list event) :
  existsb (fun e => P e || Q e) t = true ->
  existsb P t = true \/ existsb Q t = true.
Proof.
  intros H. destruct (existsb P t) eqn:HP; [left; reflexivity |].
  destruct (existsb Q t) eqn:HQ; [right; reflexivity |].
  exfalso. induction t as [| e t IH]; simpl in *; [discriminate H |].
  apply orb_false_iff in HP as [HP1 HP2]. apply orb_false_iff in HQ as [HQ1 HQ2].
  rewrite HP1, HQ1 in H. simpl in H. exact (IH H HP2 HQ2).
Qed.

Lemma boot_refused_failed (e : event) : boot_refused e = true -> boot_patch_failed e = true.
Proof.
  destruct e as [R c r]. destruct c; simpl; try discriminate; intros H; exact H.
Qed.

Lemma find_executable_in_path_no_grub_tool (name : string) (path_env : option string) :
  has_slash name = false -> str_mem name grub_tools = false ->
  wp (find_executable_in_path name path_env)
     (fun t _ => existsb grub_tool_found t = false).
Proof.
  intros Hname Hmem. unfold find_executable_in_path.
  eapply wp_weaken; [| apply find_executable_loop_sound].
  intros t [[q |] | |] H; cbn [lookup_post] in H.
  - destruct H as (seg & t' & -> & _ & _ & -> & Hno).
    rewrite existsb_app, (absent_weaken _ _ t' grub_tool_found_access_ok Hno).
    cbn [existsb grub_tool_found orb].
    rewrite (basename_of_path seg name Hname), Hmem. reflexivity.
  - apply (absent_weaken _ _ t grub_tool_found_access_ok H).
  - apply (absent_weaken _ _ t grub_tool_found_access_ok H).
  - destruct H.
Qed.

Lemma is_exec_in_path_no_grub_tool (name : string) :
  has_slash name = false -> str_mem name grub_tools = false ->
  wp (is_exec_in_path name) (fun t _ => existsb grub_tool_found t = false).
Proof.
  intros Hname Hmem. unfold is_exec_in_path. cbn [bind call wp]. intros env.
  apply wp_bind. eapply wp_weaken;
    [| apply (find_executable_in_path_no_grub_tool name env Hname Hmem)].
  intros t [[q |] | |] H; cbn [after wp existsb grub_tool_found];
    rewrite ?app_nil_r; exact H.
Qed.

Lemma wp_assoc {A B C : Type} (p : prog A) (g : A -> prog B) (f : B -> prog C)
    (Q : list event -> outcome C -> Prop) :
  wp (bind p (fun a => bind (g a) f)) Q -> wp (bind (bind p g) f) Q.
Proof.
  revert Q. induction p as [a | m | y | R c k IH]; simpl; intros Q H;
    [exact H | exact H | exact H |].
  intros r. apply IH, H.
Qed.

(** [never], with the searches of [$PATH] for a program that is not a
    GRUB tool, and with the paths that a branch chooses. *)
Ltac quiet :=
  lazymatch goal with
  | |- wp (Ret _) _ => reflexivity
  | |- wp (Die _) _ => reflexivity
  | |- wp (Undef _) _ => reflexivity
  | |- wp (log_fatal _) _ => reflexivity
  | |- wp (Call _ _) _ => apply never_call; [intros; never_event | intros; quiet]
  | |- wp (call _) _ => unfold call; quiet
  | |- wp (log_info _) _ => unfold log_info, call; quiet
  | |- wp (bind (if ?b then _ else _) _) _ => destruct b; cbn [bind log_fatal]; quiet
  | |- wp (bind (bind _ _) _) _ => apply wp_assoc; quiet
  | |- wp (bind _ _) _ => apply never_bind; [quiet | intros; cbv beta; quiet]
  | |- wp (if ?b then _ else _) _ => destruct b; quiet
  | |- wp (match ?x with _ => _ end) _ => destruct x; quiet
  | |- wp (let '(_, _) := ?x in _) _ => destruct x; quiet
  | |- wp ?p _ =>
      first
        [ solve [eapply never_footprint; [solve [eauto with footprint] | excl]]
        | solve [apply is_exec_in_path_no_grub_tool; reflexivity]
        | solve [apply find_executable_in_path_no_grub_tool; reflexivity]
        | let h := head_of p in unfold h; quiet ]
  end.

Lemma ensure_swap_is_enabled_no_grub_tool (swap : swap_file) (created : bool) :
  wp (ensure_swap_is_enabled swap created) (fun t _ => existsb grub_tool_found t = false).
Proof. quiet. Qed.

Lemma ensure_udev_rules_are_installed_no_grub_tool :
  wp ensure_udev_rules_are_installed (fun t _ => existsb grub_tool_found t = false).
Proof. quiet. Qed.

Lemma get_swap_area_no_grub_tool (swap : swap_file) :
  wp (get_swap_area swap) (fun t _ => existsb grub_tool_found t = false).
Proof. quiet. Qed.

Lemma get_disk_uuid_for_file_path_no_grub_tool (p : string) :
  wp (get_disk_uuid_for_file_path p) (fun t _ => existsb grub_tool_found t = false).
Proof. quiet. Qed.

Lemma is_kernel_cmdline_correct_no_grub_tool (dev_uuid : string) (resume_offset : Z) :
  wp (is_kernel_cmdline_correct dev_uuid resume_offset)
     (fun t _ => existsb grub_tool_found t = false).
Proof. quiet. Qed.

Lemma provision_swap_no_grub_tool (needed_swap : Z) (found : option swap_file) :
  wp (provision_swap needed_swap found) (fun t _ => existsb grub_tool_found t = false).
Proof. quiet. Qed.

Lemma find_swap_file_no_grub_tool (needed_swap : Z) :
  wp (find_swap_file needed_swap) (fun t _ => existsb grub_tool_found t = false).
Proof. quiet. Qed.

Lemma swap_needed_size_no_grub_tool (total_ram : Z) :
  wp (swap_needed_size total_ram) (fun t _ => existsb grub_tool_found t = false).
Proof. quiet. Qed.

Lemma physical_memory_no_grub_tool :
  wp physical_memory (fun t _ => existsb grub_tool_found t = false).
Proof. quiet. Qed.

Lemma is_hibernation_enabled_for_vm_no_grub_tool :
  wp is_hibernation_enabled_for_vm (fun t _ => existsb grub_tool_found t = false).
Proof. quiet. Qed.

Lemma existsb_app_false {A : Type} (P : A -> bool) (t t' : list A) :
  existsb P t = false -> existsb P t' = false -> existsb P (t ++ t') = false.
Proof. intros H H'. rewrite existsb_app, H, H'. reflexivity. Qed.

Lemma existsb_app_l {A : Type} (P : A -> bool) (t t' : list A) :
  existsb P t = true -> existsb P (t ++ t') = true.
Proof. intros H. rewrite existsb_app, H. reflexivity. Qed.

Lemma existsb_app_r {A : Type} (P : A -> bool) (t t' : list A) :
  existsb P t' = true -> existsb P (t ++ t') = true.
Proof. intros H. rewrite existsb_app, H. apply orb_true_r. Qed.

(** ** The swap file is enabled *)

Lemma ensure_swap_is_enabled_refused (swap : swap_file) (created : bool) :
  wp (ensure_swap_is_enabled swap created) enable_post.
Proof.
  unfold ensure_swap_is_enabled. run_all.
  all: unfold enable_post; cbn; repeat split; intros; try discriminate; try exact I;
    try reflexivity.
  - rewrite Hif0 in H. discriminate H.
  - destruct e; try discriminate Hif0; reflexivity.
Qed.

(** ** The resume area and the boot configuration *)

Lemma cmdline_check_absent (dev_uuid : string) (offset : Z) (toks : list string)
    (tail : string) :
  forallb word toks = true ->
  param_absent toks = true ->
  cmdline_check dev_uuid offset (scan_fields toks tail (mk_fields None None None)) = false.
Proof.
  intros Hw Habs.
  pose proof (scan_fields_resume toks tail (mk_fields None None None) Hw) as E1.
  pose proof (scan_fields_resume_offset toks tail (mk_fields None None None) Hw) as E2.
  pose proof (scan_fields_no_console_suspend toks tail (mk_fields None None None) Hw) as E3.
  cbn [resume_field resume_offset_field no_console_suspend_field option_map] in E1, E2, E3.
  unfold cmdline_check. unfold param_absent in Habs.
  destruct (resume_field _) as [r |]; [| reflexivity].
  destruct (resume_offset_field _) as [o |]; [| reflexivity].
  destruct (no_console_suspend_field _) as [n |]; [| reflexivity].
  cbn [option_map] in E1, E2, E3.
  destruct (param_value "resume=" toks); [| discriminate E1].
  destruct (param_value "resume_offset=" toks); [| discriminate E2].
  destruct (param_value "no_console_suspend=" toks); [| discriminate E3].
  discriminate Habs.
Qed.

(** With one of the parameters not on the command line read, the check
    answers that the command line is not correct. *)
Lemma is_kernel_cmdline_correct_absent (dev_uuid : string) (offset : Z)
    (toks : list string) (rest : string) :
  forallb word toks = true ->
  (String.length (words toks) < 1023)%nat ->
  param_absent toks = true ->
  wp (is_kernel_cmdline_correct dev_uuid offset)
     (fun t o =>
        forallb (cmdline_is (words toks ++ String LF rest)) t = true -> o = Done false).
Proof.
  intros Hw Hlen Habs. destruct (words_plain toks Hw) as [Hlf Hnul].
  unfold is_kernel_cmdline_correct, read_first_line_from_file.
  cbn [bind call wp]. intros [content |].
  2:{ cbn [bind call wp log_info]. intros [] H. discriminate H. }
  destruct (String.eqb content (words toks ++ String LF rest)) eqn:Heq.
  2:{ apply wp_always. intros t o H. cbn in H. rewrite Heq in H. discriminate H. }
  apply String.eqb_eq in Heq. subst content.
  destruct (words toks ++ String LF rest) as [| c s] eqn:Hs.
  { destruct (words toks); discriminate Hs. }
  rewrite <- Hs, (fgets_one_line 1023 (words toks) rest Hlf Hlen). cbn [fst].
  rewrite (strip_newline_line (words toks) Hnul Hlf). cbn [bind].
  rewrite (cmdline_scan_words toks (str1 NUL) Hw) by (rewrite length_app; simpl; lia).
  cbn [wp]. intros _. rewrite (cmdline_check_absent dev_uuid offset toks _ Hw Habs).
  reflexivity.
Qed.

Lemma reconcile_cmdline_evidence (dev_uuid : string) (swap_area : resume_swap_area) :
  wp (reconcile_cmdline dev_uuid swap_area)
     (fun t o =>
        existsb refused t = false /\
        (o = Done true ->
         existsb grub_tool_done t = true \/ existsb grub_tool_found t = false)).
Proof.
  apply wp_conj; [quiet |].
  unfold reconcile_cmdline.
  wp_fn (is_kernel_cmdline_correct_no_grub_tool dev_uuid (area_offset swap_area)).
  intros t1 [[|] | msg | y] H1; wp_go; try discriminate.
  - intros _. right. rewrite app_nil_r. exact H1.
  - eapply wp_weaken; [| apply patch_boot_configuration_env].
    intros t2 o2 [Hdone _] Ho. left. apply existsb_app_r, Hdone, Ho.
Qed.

Lemma get_swap_area_calm (swap : swap_file) :
  wp (get_swap_area swap)
     (fun t _ => existsb grub_tool_found t = false /\ existsb refused t = false).
Proof. apply wp_conj; quiet. Qed.

Lemma get_disk_uuid_for_file_path_calm (p : string) :
  wp (get_disk_uuid_for_file_path p)
     (fun t _ => existsb grub_tool_found t = false /\ existsb refused t = false).
Proof. apply wp_conj; quiet. Qed.

Ltac calm_norm :=
  unfold swap_offset_post, enable_post, main_post, set_up;
  repeat (progress
            (cbn [existsb refused area_registered grub_tool_done grub_tool_found
                  swap_activated fstab_updated orb negb andb app];
             rewrite ?existsb_app, ?app_nil_r, ?orb_true_r, ?orb_false_r;
             repeat match goal with
                    | H : existsb _ ?t = _ |- _ => is_var t; rewrite H
                    end)).

Ltac calm_leaf :=
  calm_norm; repeat split; intros;
  first [ discriminate | reflexivity | exact I | assumption
        | left; reflexivity | right; reflexivity | right; exact I ].

Lemma update_swap_offset_evidence (swap : swap_file) :
  wp (update_swap_offset swap) swap_offset_post.
Proof.
  unfold update_swap_offset. wp_go. intros [] [fd |]; wp_go.
  2:{ intros []. calm_leaf. }
  wp_fn (get_swap_area_calm swap). intros t1 o1 [Hg1 Hr1].
  destruct o1 as [swap_area | msg | y]; wp_go; [| calm_leaf | calm_leaf].
  intros [|]; wp_go.
  2:{ intros [] []. calm_leaf. }
  intros [].
  wp_fn (get_disk_uuid_for_file_path_calm (path swap)). intros t2 o2 [Hg2 Hr2].
  destruct o2 as [[dev_uuid |] | msg | y]; wp_go; try solve [calm_leaf].
  intros [].
  eapply wp_weaken; [| apply (reconcile_cmdline_evidence dev_uuid swap_area)].
  intros t3 o3 [Hr3 Hd3]. calm_norm. split; [intros H; discriminate H |].
  intros H. split; [reflexivity |].
  destruct (Hd3 H) as [Hd | Hg]; [left | right]; calm_norm; reflexivity.
Qed.

(** ** The set-up, from the swap file enabled to the end *)

Lemma ensure_udev_rules_are_installed_calm :
  wp ensure_udev_rules_are_installed
     (fun t _ => existsb grub_tool_found t = false /\ existsb refused t = false).
Proof. apply wp_conj; quiet. Qed.

Lemma provision_swap_calm (needed_swap : Z) (found : option swap_file) :
  wp (provision_swap needed_swap found)
     (fun t _ => existsb grub_tool_found t = false /\ existsb refused t = false).
Proof. apply wp_conj; quiet. Qed.

Lemma find_swap_file_calm (needed_swap : Z) :
  wp (find_swap_file needed_swap)
     (fun t _ => existsb grub_tool_found t = false /\ existsb refused t = false).
Proof. apply wp_conj; quiet. Qed.

Lemma swap_needed_size_calm (total_ram : Z) :
  wp (swap_needed_size total_ram)
     (fun t _ => existsb grub_tool_found t = false /\ existsb refused t = false).
Proof. apply wp_conj; quiet. Qed.

Lemma physical_memory_calm :
  wp physical_memory
     (fun t _ => existsb grub_tool_found t = false /\ existsb refused t = false).
Proof. apply wp_conj; quiet. Qed.

Lemma is_hibernation_enabled_for_vm_calm :
  wp is_hibernation_enabled_for_vm
     (fun t _ => existsb grub_tool_found t = false /\ existsb refused t = false).
Proof. apply wp_conj; quiet. Qed.

Lemma main_post_frame (pre t : list event) (o : outcome Z) :
  existsb grub_tool_found pre = false -> existsb refused pre = false ->
  main_post t o -> main_post (pre ++ t) o.
Proof.
  intros Hg Hr [Hfatal Hdone]. split.
  - rewrite existsb_app, Hr. exact Hfatal.
  - intros v Hv. destruct (Hdone v Hv) as [Hl | [(Hs & Hf & Ha) Hgg]].
    + left. apply existsb_app_r, Hl.
    + right. split.
      * repeat split; apply existsb_app_r; assumption.
      * destruct Hgg as [Hd | Hn]; [left; apply existsb_app_r, Hd |].
        right. apply existsb_app_false; assumption.
Qed.

Lemma main_post_stop (t : list event) (o : outcome Z) :
  existsb refused t = false -> (forall v, o <> Done v) -> main_post t o.
Proof.
  intros Hr Ho. split.
  - intros H. rewrite Hr in H. discriminate H.
  - intros v Hv. destruct (Ho v Hv).
Qed.

Lemma main_after_calm {A : Type} (p : prog A) (f : A -> prog Z) :
  wp p (fun t _ => existsb grub_tool_found t = false /\ existsb refused t = false) ->
  (forall a, wp (f a) main_post) ->
  wp (bind p f) main_post.
Proof.
  intros Hp Hf. apply wp_bind. eapply wp_weaken; [| exact Hp].
  intros t o [Hg Hr]. destruct o as [a | msg | y]; simpl.
  - eapply wp_weaken; [| apply Hf]. intros t' o'. apply main_post_frame; assumption.
  - apply main_post_stop; [exact Hr | discriminate].
  - apply main_post_stop; [exact Hr | discriminate].
Qed.

Lemma finish_setup_post (swap : swap_file) (created : bool) :
  wp (finish_setup swap created) main_post.
Proof.
  unfold finish_setup.
  wp_fn (wp_conj _ _ _ (ensure_swap_is_enabled_refused swap created)
           (ensure_swap_is_enabled_no_grub_tool swap created)).
  intros t1 o1 [(Hf1 & Hd1 & Hu1) Hg1].
  destruct (existsb refused t1) eqn:Hr1.
  { specialize (Hf1 eq_refl). destruct o1 as [[] | msg | y]; try destruct Hf1; try destruct Hu1.
    simpl. split; [intros _; exact I | discriminate]. }
  destruct o1 as [[] | msg | y]; wp_go;
    [| apply main_post_stop; [exact Hr1 | discriminate] | destruct Hu1].
  destruct (Hd1 tt eq_refl) as [Hs1 Hw1].
  wp_fn (update_swap_offset_evidence swap). intros t2 o2 [Hf2 Hd2].
  destruct o2 as [[|] | msg | y]; wp_go.
  - destruct (existsb refused t2) eqn:Hr2.
    { destruct (Hf2 eq_refl) as [H | []]. discriminate H. }
    destruct (Hd2 eq_refl) as [Ha2 Hgg].
    wp_fn ensure_udev_rules_are_installed_calm. intros t3 o3 [Hg3 Hr3].
    destruct o3 as [[] | msg | y]; wp_go;
      [| apply main_post_stop; [calm_norm; reflexivity | discriminate]
       | apply main_post_stop; [calm_norm; reflexivity | discriminate]].
    intros []. split; [calm_norm; intros H; discriminate H |].
    intros v _. right. split; [calm_norm; repeat split; reflexivity |].
    destruct Hgg as [Hd | Hn]; [left | right]; calm_norm; reflexivity.
  - split; [intros _; exact I | discriminate].
  - split; [intros _; exact I | discriminate].
  - split; [| discriminate]. intros H. rewrite ?app_nil_r, existsb_app, Hr1 in H.
    destruct (Hf2 H) as [H' | []]. discriminate H'.
Qed.

Lemma main_run_post : wp main main_post.
Proof.
  unfold main.
  apply main_after_calm; [apply is_hibernation_enabled_for_vm_calm |].
  intros [|]; cbn [negb].
  - apply main_after_calm; [apply physical_memory_calm |]. intros total_ram.
    destruct (total_ram =? 0);
      [apply main_post_stop; [reflexivity | discriminate] |].
    apply main_after_calm; [apply swap_needed_size_calm |]. intros needed_swap.
    apply main_after_calm; [apply wp_conj; quiet |]. intros _.
    apply main_after_calm; [apply find_swap_file_calm |]. intros found.
    unfold settle_and_finish.
    apply main_after_calm; [apply provision_swap_calm |].
    intros [swap created]. apply finish_setup_post.
  - wp_go. intros []. split; [intros H; discriminate H |].
    intros v _. left. reflexivity.
Qed.

(** ** A boot configuration that cannot be patched *)

Lemma unpatchable_tail {A B : Type} (content : string) (ok : outcome B -> Prop)
    (p : prog A) (f : A -> prog B) :
  (forall m, ~ ok (Fatal m)) -> (forall y, ~ ok (Undefined y)) ->
  (forall a, wp (f a) (unpatchable content ok)) ->
  wp (bind p f) (unpatchable content ok).
Proof.
  intros Hfatal Hundef Hf. apply wp_tail; [| | | exact Hf].
  - intros t t' o H Hc Hg. rewrite forallb_app in Hc. apply andb_true_iff in Hc as [_ Hc].
    rewrite existsb_app in Hg. apply orb_false_iff in Hg as [_ Hg]. exact (H Hc Hg).
  - intros t m _ _. apply Hfatal.
  - intros t y _ _. apply Hundef.
Qed.

Lemma returns_true_fatal (m : string) : ~ returns_true (Fatal m).
Proof. intros H. discriminate H. Qed.

Lemma returns_true_undefined (y : string) : ~ returns_true (Undefined y).
Proof. intros H. discriminate H. Qed.

Lemma returns_fatal {A : Type} (m : string) : ~ @returns A (Fatal m).
Proof. intros [v H]. discriminate H. Qed.

Lemma returns_undefined {A : Type} (y : string) : ~ @returns A (Undefined y).
Proof. intros [v H]. discriminate H. Qed.

Section Unpatchable.

Variables (toks : list string) (rest : string).
Hypothesis Hwords : forallb word toks = true.
Hypothesis Hfits : (String.length (words toks) < 1023)%nat.
Hypothesis Habsent : param_absent toks = true.

Let content : string := words toks ++ String LF rest.

Lemma reconcile_cmdline_unpatchable (dev_uuid : string) (swap_area : resume_swap_area) :
  wp (reconcile_cmdline dev_uuid swap_area) (unpatchable content returns_true).
Proof.
  unfold reconcile_cmdline.
  wp_fn (is_kernel_cmdline_correct_absent dev_uuid (area_offset swap_area) toks rest
           Hwords Hfits Habsent).
  intros t1 o1 H1. destruct o1 as [[|] | msg | y]; wp_go.
  - intros Hc _ _. rewrite app_nil_r in Hc. specialize (H1 Hc). discriminate H1.
  - eapply wp_weaken; [| apply patch_boot_configuration_env].
    intros t2 o2 (_ & Hnone & _) Hc Hg Hok.
    rewrite existsb_app in Hg. apply orb_false_iff in Hg as [_ Hg].
    destruct (Hnone Hg) as [_ [H | H]]; unfold returns_true in Hok; subst o2;
      [discriminate H | destruct H].
  - intros _ _. apply returns_true_fatal.
  - intros _ _. apply returns_true_undefined.
Qed.

Lemma update_swap_offset_unpatchable (swap : swap_file) :
  wp (update_swap_offset swap) (unpatchable content returns_true).
Proof.
  unfold update_swap_offset.
  apply unpatchable_tail;
    [apply returns_true_fatal | apply returns_true_undefined | intros []].
  apply unpatchable_tail;
    [apply returns_true_fatal | apply returns_true_undefined | intros [fd |]].
  2:{ wp_go. intros [] _ _ H. discriminate H. }
  apply unpatchable_tail;
    [apply returns_true_fatal | apply returns_true_undefined | intros swap_area].
  apply unpatchable_tail;
    [apply returns_true_fatal | apply returns_true_undefined | intros [|]]; cbn [negb].
  2:{ wp_go. intros [] [] _ _ H. discriminate H. }
  apply unpatchable_tail;
    [apply returns_true_fatal | apply returns_true_undefined | intros []].
  apply unpatchable_tail;
    [apply returns_true_fatal | apply returns_true_undefined | intros [dev_uuid |]].
  2:{ intros _ _. apply returns_true_fatal. }
  apply unpatchable_tail;
    [apply returns_true_fatal | apply returns_true_undefined | intros []].
  apply reconcile_cmdline_unpatchable.
Qed.

Lemma finish_setup_unpatchable (swap : swap_file) (created : bool) :
  wp (finish_setup swap created) (unpatchable content returns).
Proof.
  unfold finish_setup.
  apply unpatchable_tail; [apply returns_fatal | apply returns_undefined | intros []].
  wp_fn (update_swap_offset_unpatchable swap). intros t2 o2 H2.
  destruct o2 as [[|] | msg | y]; wp_go.
  - apply wp_always. intros t o Hc Hg _.
    rewrite forallb_app in Hc. apply andb_true_iff in Hc as [Hc _].
    rewrite existsb_app in Hg. apply orb_false_iff in Hg as [Hg _].
    exact (H2 Hc Hg eq_refl).
  - intros _ _. apply returns_fatal.
  - intros _ _. apply returns_fatal.
  - intros _ _. apply returns_undefined.
Qed.

Lemma main_unpatchable :
  wp main
     (fun t o =>
        forallb (cmdline_is content) t = true -> existsb grub_tool_found t = false ->
        forall v, o = Done v -> existsb (logs not_enabled_msg) t = true).
Proof.
  unfold main. apply wp_tail.
  - intros t t' o H Hc Hg v Hv. rewrite forallb_app in Hc.
    apply andb_true_iff in Hc as [_ Hc].
    rewrite existsb_app in Hg. apply orb_false_iff in Hg as [_ Hg].
    apply existsb_app_r, (H Hc Hg v Hv).
  - intros t m _ _ v Hv. discriminate Hv.
  - intros t y _ _ v Hv. discriminate Hv.
  - intros [|]; cbn [negb].
    + eapply wp_weaken with (Q := unpatchable content returns).
      { intros t o H Hc Hg v Hv. destruct (H Hc Hg). exists v. exact Hv. }
      apply unpatchable_tail;
        [apply returns_fatal | apply returns_undefined | intros total_ram].
      destruct (total_ram =? 0); [intros _ _; apply returns_fatal |].
      apply unpatchable_tail;
        [apply returns_fatal | apply returns_undefined | intros needed_swap].
      apply unpatchable_tail; [apply returns_fatal | apply returns_undefined | intros _].
      apply unpatchable_tail; [apply returns_fatal | apply returns_undefined | intros found].
      unfold settle_and_finish.
      apply unpatchable_tail;
        [apply returns_fatal | apply returns_undefined | intros [swap created]].
      apply finish_setup_unpatchable.
    + wp_go. intros [] _ _ v _. reflexivity.
Qed.

End Unpatchable.

(** [main] says that hibernation is not enabled only when the check of
    the VM has answered so. *)
Lemma main_not_enabled_log {W : Type} (h : handler W) (w : W) :
  existsb (logs not_enabled_msg) (trace_of (run h main w)) = true ->
  outcome_of (run h is_hibernation_enabled_for_vm w) = Done false.
Proof.
  unfold main. rewrite run_bind.
  assert (Hquiet : wp is_hibernation_enabled_for_vm
                      (fun t _ => existsb (logs not_enabled_msg) t = false)) by never.
  pose proof (wp_run h _ _ w Hquiet) as Hq. revert Hq. unfold outcome_of, trace_of.
  destruct (run h is_hibernation_enabled_for_vm w) as [[t1 o1] w1].
  cbn [fst snd]. intros Hq.
  destruct o1 as [[|] | msg | y]; cbn [negb]; cbv beta iota;
    [| reflexivity | cbn [fst snd]; intros H; rewrite Hq in H; discriminate H
     | cbn [fst snd]; intros H; rewrite Hq in H; discriminate H].
  match goal with
  | |- context [run h ?p w1] =>
      assert (Hrest : wp p (fun t _ => existsb (logs not_enabled_msg) t = false)) by never;
      pose proof (wp_run h _ _ w1 Hrest) as Hr; revert Hr; unfold trace_of;
      destruct (run h p w1) as [[t2 o2] w2]
  end.
  cbn [fst snd]. intros Hr H. rewrite existsb_app, Hq, Hr in H. discriminate H.
Qed.

Lemma is_hibernation_enabled_for_vm_no_snapshot {W : Type} (h : handler W) (w : W) :
  fst (h _ (Access "/dev/snapshot" F_OK) w) = false ->
  outcome_of (run h is_hibernation_enabled_for_vm w) = Done false.
Proof.
  unfold is_hibernation_enabled_for_vm. cbn [bind call run].
  destruct (h bool (Access "/dev/snapshot" F_OK) w) as [r w1]. cbn [fst].
  intros ->. cbn [negb bind log_info call run].
  destruct (h unit _ w1) as [[] w2]. reflexivity.
Qed.


